(* ===== verification/_CoqProject ===== *)
-Q . S2P
Prelude.v
NidTypes.v
HashTable.v
Hash.v
Inet.v
InetProps.v
LList.v
EntryTable.v
Configuration.v
QueueTable.v
ConnectionMapper.v
NidMapper.v
RoutingTable.v
Gwc.v
Dhtc.v
ConfPrint.v
PacketHandler.v
NidRouting.v
Control.v
Rvs.v
Rvsc.v
Mobility.v
DnsHandler.v
Dhcp.v
Nidd.v
NidFilter.v
System.v
SystemInv.v
Network.v
Memory.v
CheckedTurns.v
UdpIp.v
DhcpMsg.v
DhcpOptions.v
BuildMsg.v
TokenRing.v
DhcpEnv.v
Arp.v
SendRecv.v
DhcpConfig.v
DhcpClient.v
DhcpArgs.v
DhcpTurns.v
Gui.v
Sockets.v
Conecta.v
DhExchange.v
TableProps.v
MapperProps.v
RouteProps.v
PacketProps.v
RvsProps.v
DnsProps.v
StartProps.v
SystemProps.v
WiringProps.v
MemoryProps.v
NetworkProps.v
ConfPrintProps.v
DhcpInv.v
DhcpMsgProps.v
DhcpcdProps.v
DhcpTyping.v
DhcpLeaseProps.v
GuiProps.v
ToolProps.v
DhtProps.v
DhProps.v
