(* ===== verification/Prelude.v ===== *)
(** * A verification library for the NID daemon

    The program (src/src) is [nidd], the daemon of a node identity
    architecture.  Every node has a 128-bit node identifier (NID);
    applications address a node by a 32-bit alias derived from its NID; the
    daemon captures their packets, puts a 68-byte header with NIDs in front,
    finds the current IPv4 locator of the destination NID and sends the packet
    there over UDP.  Gateways form a tree and route on NIDs, rendezvous
    servers know the locator of the nodes of their domain, core gateways find
    each other through a DHT, and a DNS proxy gives applications 32-bit
    addresses for names.  Threads of one process exchange datagrams over socket
    pairs ([sp_nf2ph], [sp_ph2nr], ...) and share hash tables without locks.
    A changed dhcpcd (src/src/dhcpcd-1.3.22-pl4), a process of its own, gets an
    address and the parameters of the node and sends them to the daemon through
    a local socket.  Around them are a window that edits the configuration, a
    test program that changes the access point, and two programs that try a
    Diffie-Hellman exchange.

<<
   applications                                        network
       |  ip_queue                                        ^  UDP
   nidfilter --> packetHandler(output) --> nid_routing(output)
                    ^   ^   ^                  |  connection mapper,
       rvsc, mobility, gwc talker              |  routing table, registry, DHT
                                               v
   raw socket <-- packetHandler(input) <-- nid_routing(input)
                    |                          |
                    v                          v (gateways) back to output
                 control --> gwc listener, rvs proxy --> rvs (server process)
>>

    ** The files

    Foundations.
    - [Prelude]: this header; hint databases, tactics, record updates,
      fixed-width integers and byte strings ([slice], [splice], [overlay],
      [le_val]), datagram channels, outcomes of a turn.
    - [NidTypes] (nid.h): NIDs, the packet header, the control message, their
      packed layout, the enumerations and the timing constants.
    - [HashTable], [Hash] (hash.c, hash32.c, fqdn_hash.c): the chained table
      over any key type and its three instances; the interface [Dict] and its
      laws [DictLaws], against which the clients are proved.
    - [EntryTable]: a table of pointers, that is a dictionary of locations
      with the heap of the entries, and [hash_enumerate]; the callers of
      hash.c mutate entries through the pointers they have looked up.
    - [LList] (llist.c), [Inet] (the C library's conversions between addresses
      and text, which the sources use), [InetProps] (the conversions are
      inverse, and what their texts look like).

    Tables of the daemon.
    - [Configuration] (configuration.c), [QueueTable] (rvs_queue_table.c,
      dht_queue_table.c), [ConnectionMapper] (connection_mapper.c),
      [NidMapper] (nid_mapper.c), [RoutingTable] (the table functions of
      nid_routing.c), and the registry in [Gwc], the cache in [Dhtc], the
      table of the server in [Rvs].
    - [ConfPrint]: the [print_] functions of configuration.c and llist.c as
      the text they write, [char2nid] and [char2nid32].

    Threads: one definition [<thread>_step] for one turn of the thread's loop,
    from the datagram it reads to what it writes, with the variables the C
    function keeps from one turn to the next as argument and result.
    - [PacketHandler] (packetHandler.c), [NidRouting] (nid_routing.c),
      [Control] (control.c), [Gwc] (gwc.c), [Dhtc] (dhtc.c), [Rvs] (rvs.c, the
      server process with its request loop), [Rvsc] (rvsc.c), [Mobility]
      (mobility.c), [DnsHandler] (dnshandler.c, fqdn_table.c), [Dhcp] (dhcp.c
      and [set_conf_dhcp]), [NidFilter] (nidfilter.c), [Nidd] (nidd.c: tables,
      first bindings, libraries and threads of each type of node, SIGINT).
    - [System]: the daemon.  A [node] holds the shared tables, the channels,
      the variables of the threads and the threads alive; [take_turn] is one
      turn of the thread an [event] names; [step] and [reachable] are all
      interleavings of turns.
    - [Network]: hosts with addresses and daemons, the datagrams between them,
      delivered in any order, lost or sent from outside, and moves; [net_run].
    - [Memory], [CheckedTurns]: the turns of packetHandler.c, nid_routing.c,
      control.c, gwc.c and rvsc.c a second time, as programs over the bytes of
      the buffer or message of the thread, member by member at its offset in the
      packed structure, every [read], [write] and assignment checked against the
      size of the object.

    The DHCP client, as programs in a monad [M] over the variables of the
    process and the answers of the system, in order ([DhcpEnv]).
    - [UdpIp] (udpipgen.c), [DhcpMsg] (client.h), [DhcpOptions]
      ([parseDhcpMsgRecv] with the change that writes to the daemon),
      [BuildMsg] (buildmsg.c), [TokenRing] ([eth2tr], [tr2eth]): frames and
      messages as bytes of objects of their sizes.
    - [Arp] (arp.c, signals.c, [dhcpStop], [dhcpRelease]), [SendRecv]
      ([dhcpSendAndRecv]), [DhcpConfig] (dhcpconfig.c), [DhcpClient] (the
      functions [currState] points to, the cache, the loops of [main]),
      [DhcpArgs] (the command line and [main], dhcpcd.c).

    Other programs.
    - [Sockets] (tools.c, tuntap.c, [open_netlink] of mobility.c), [Conecta]
      (conecta.c and unix_server.c), [DhExchange] (dh_client2.c, dh_server2.c,
      dh.h), [Gui] (gui/janela.ui.h).

    Theorems.
    - [SystemInv]: the invariant of the daemon, kept by the step of every
      thread ([env_ok] and the like for each component, [node_ok] for all).
    - [TableProps]: runs of operations on the hash tables are runs on a finite
      map; visiting, enumeration and distribution of the slots.
    - [MapperProps]: every branch of the connection mapper, time-outs, static
      bindings, the pending tables, the 32-bit identifiers.
    - [RouteProps]: life of a route, the order of a core gateway's lookups,
      forwarding, what a received packet binds.
    - [PacketProps]: encapsulation and decapsulation, the effect of control
      messages, what the kept buffer leaves in headers.
    - [RvsProps]: the rendezvous server, resolution and announcement from
      thread to thread, redirection of visitors and of peers on a move.
    - [DnsProps]: rewriting of queries, answers from the cache, aliasing of
      the cached texts, buffer and descriptor bounds.
    - [StartProps]: the configuration file, DHCP, start-up.
    - [SystemProps]: the invariant from [main] on under every interleaving,
      delivery of a packet from end to end, the effect of an empty datagram,
      requests nobody reads.
    - [MemoryProps]: memory safety of the packet path; the checked turns never
      leave their objects in a state of the invariant and do what the turns of
      [System] do, so that the functions [header_of], [header_bytes], [msg_of]
      and [msg_bytes] those use stand for the casts of the sources.
    - [WiringProps]: which thread reads and writes each socket pair, and that what
      [main] starts for a type of node serves all that it writes, but for two
      queues.
    - [NetworkProps]: a run of three daemons in which a session follows a node
      that moves.
    - [ConfPrintProps]: the printed configuration reads back.
    - [DhtProps]: what a core gateway publishes is what another finds.
    - [DhcpInv], [DhcpTyping]: the types of the DHCP client's objects, kept by
      every program ([typed], with a tactic that follows the program).
    - [DhcpTurns]: every turn of the client's loops takes answers ([drains]).
    - [DhcpMsgProps]: the checksum, the eight messages against RFC 2131, what
      the parser reads in a reply.
    - [DhcpcdProps]: the lease reaches the daemon, masks, the cache, the
      command line.
    - [DhcpLeaseProps]: the replies accepted, the end of waiting, the life of a
      lease with a silent server, interface names that are too long.
    - [ToolProps], [DhProps], [GuiProps]: the calls of [init_tap], the commands
      of conecta, the common key, and the window's file read by the daemon.

    ** How the code is modelled

    - Integers: a w-bit integer is a [Z] with its wrap-around written out
      ([u32_wrap], [schar], ...); byte order and layout are those of 32-bit
      little-endian Linux, the target of the sources.  A NID is its sixteen
      bytes in memory order, an [in_addr_t] the integer the machine sees.
    - Pointers: entries have locations, so that an entry mutated through a
      pointer and inserted again, or a text shared by all entries of a cache
      (fqdn_table.c), behaves as in memory.  Memory leaks are not tracked, and
      allocation succeeds except where a theorem gives its outcome (the
      buckets of the hash tables; that the [strdup] of a key fails, fqdn_hash.c,
      is left out).
    - Failure: an [outcome] is [Go] with the result, [ThreadExit]
      ([pthread_exit] or the end of the thread's function), [ProcessExit], or
      [Fault] for an access outside an object.
    - Environment: clock readings, datagrams from the network, results of
      system calls and remote calls are arguments of a step, quantified in the
      theorems.  Clocks are not assumed monotonic unless a theorem says so.
    - Channels are unbounded, lossless queues of datagrams; a read takes one
      datagram and truncates it to the reader's buffer.  That a writer blocks
      on a full socket is therefore outside the model ([startup_wiring] says
      which queues only grow).
    - Concurrency: one turn is atomic.  The daemon has no locks, so two threads
      can race inside a turn; these races are not modelled.
    - Linking: the libraries contain the same objects as the executable, whose
      definitions take precedence at run time; there is one copy of each
      static variable.
    - Uninitialised variables of threads start zeroed.
    - The DHCP client asks the system through answers: a call whose result it
      uses takes the next answer, a call whose failure it only logs is an
      effect, kept in order with what it writes.  Of the files it
      writes, [fopen] and [write] may fail.  A program ends with a value,
      a jump to the handler of the last [sigsetjmp], an exit, a crash, or waits
      when the next answer is not one to its call.  Signals come while it
      waits ([select], [sleep]); the handler runs there.
    - [xmlNodeGetContent] of libxml2 is a parameter of the walk over the
      configuration; the tree itself is an inductive type.  The functions of
      OpenSSL are parameters of the key exchange, the answers of the DHT
      service and of the kernel are arguments.

    Bounds: buffers have the sizes of the sources, 1500 bytes for packets
    ([MAXBUFLEN]), 512 for DNS messages ([BUFFER_LENGTH]), 128 for DHCP
    ([dhcp_MAXBUFLEN]), 256 for names, 46 and 16 for addresses in text.
    Loops over tables, lists and trees are structural, loops over a buffer
    are bounded by its length, and the endless loops of the daemon's threads are
    runs of [step].  Fuel remains in the decimal digits of a 32-bit number
    ([sprintf_d], ten digits), in the guess of a mask ([mask_loop], 25 turns for
    the 24 bits of a class, [getgenmask_spec]) and in the loops of the DHCP client
    that wait: those of an exchange take one unit for each answer left, those of
    [main] two units for each answer and one more ([reception_ends]: more changes
    nothing).  The clearing of 128 bytes over a 46-byte variable at the start of
    the DHCP thread is taken to be harmless; its turns are modelled from there on.

    ** What is not modelled

    rpcif.x is the input of rpcgen, which generates the code that talks to the
    DHT service; libipq, libxml2, OpenSSL, Qt and the resolver of host names are
    outside.  Left out are the debug thread of nid_routing.c and the debugging
    output of dhcpcd (compiled out), the usage texts, umask, syslog and the
    descriptors dhcpcd closes, the times conecta prints, and the test mains of
    the tables (compiled with a TEST macro).

    ** Plan

    What is left are longer runs of networks: a registration that climbs the tree
    of gateways to the core, and the redirection of a home core, as runs of
    [net_run]. *)

From stdpp Require Export prelude gmap list strings.

Declare Scope nid_scope.
Delimit Scope nid_scope with nid.


(** ** Hint databases and tactics *)

(** [bytes] holds the rewriting lemmas that compute the length of a buffer
    built from slices, overlays and encoded integers; [nid] holds the
    resolution lemmas of the components' invariants. *)
Create HintDb nid discriminated.
Create Rewrite HintDb bytes.
#[export] Hint Constants Opaque : nid.
#[export] Hint Variables Opaque : nid.

(** Split every conjunction of the goal and try to close each part. *)
Ltac crush_with tac :=
  repeat match goal with
         | H : _ ∧ _ |- _ => destruct H
         | |- _ ∧ _ => split
         end; tac.

(** Case analysis on the first test the goal is stuck on. *)
Ltac case_test :=
  match goal with
  | |- context [if decide ?P then _ else _] => destruct (decide P)
  | |- context [if ?b then _ else _] => destruct b eqn:?
  | |- context [match ?x with _ => _ end] => destruct x eqn:?
  end.

(** Turn boolean comparisons on integers in the context into propositions. *)
Ltac zbool :=
  repeat match goal with
         | H : (_ <? _)%Z = true |- _ => apply Z.ltb_lt in H
         | H : (_ <? _)%Z = false |- _ => apply Z.ltb_ge in H
         | H : (_ <=? _)%Z = true |- _ => apply Z.leb_le in H
         | H : (_ <=? _)%Z = false |- _ => apply Z.leb_gt in H
         | H : (_ =? _)%Z = true |- _ => apply Z.eqb_eq in H
         | H : (_ =? _)%Z = false |- _ => apply Z.eqb_neq in H
         | H : (_ || _) = true |- _ => apply orb_true_iff in H
         | H : (_ || _) = false |- _ => apply orb_false_iff in H; destruct H
         | H : (_ && _) = true |- _ => apply andb_true_iff in H; destruct H
         | H : (_ && _) = false |- _ => apply andb_false_iff in H
         end.

(** ** Functional update of structures

    [r <| p := v |>] is the structure [r] with member [p] set to [v].  A record
    declares its eta expansion, from which the setter of each member is
    derived when it is used. *)

Class Eta (R : Type) := eta_of : R → R.
Class Setter {R E : Type} (p : R → E) := set_field : (E → E) → R → R.
Arguments set_field {R E} p {_} _ _ /.

Ltac derive_setter :=
  lazymatch goal with
  | |- @Setter ?R ?E ?p =>
      let g := fresh "g" in
      let r := fresh "r" in
      intros g r;
      let e := constr:(_ : Eta R) in
      let e := eval hnf in e in
      let t := eval cbv beta in (e r) in
      let b := eval pattern (p r) in t in
      lazymatch b with
      | ?F _ => let z := eval cbv beta in (F (g (p r))) in exact z
      end
  end.

#[export] Hint Extern 0 (Setter _) => derive_setter : typeclass_instances.

Notation "r <| p := v |>" := (set_field p (λ _, v) r)
  (at level 12, left associativity, p at next level, v at level 200).
Notation "r <| p ::= g |>" := (set_field p g r)
  (at level 12, left associativity, p at next level, g at level 200).

(** One step of the option monad. *)
Lemma bind_ret {A B} (f : A → option B) x : Some x ≫= f = f x.
Proof. done. Qed.

(** ** Machine integers

    The daemon is built for a 32-bit little-endian x86 target
    ([-march=pentium4] in src/src/Makefile): [unsigned], [size_t] and
    [in_addr_t] have 32 bits, an [enum] occupies four bytes, and the bytes of
    an integer in memory go from the least significant one up. *)

Local Open Scope Z_scope.

Definition u32_wrap (z : Z) : Z := z `mod` 2 ^ 32.

Lemma u32_small z : 0 ≤ z < 2 ^ 32 → u32_wrap z = z.
Proof. apply Z.mod_small. Qed.

(** Conversion of a plain [char] (signed on x86) to [int]. *)
Definition schar (b : Z) : Z := if b <? 128 then b else b - 256.

Definition byte_ok (b : Z) : Prop := 0 ≤ b < 256.
Definition bytes_ok (bs : list Z) : Prop := Forall byte_ok bs.

#[export] Instance byte_ok_dec b : Decision (byte_ok b).
Proof. unfold byte_ok. apply _. Defined.

#[export] Instance bytes_ok_dec bs : Decision (bytes_ok bs).
Proof. unfold bytes_ok. apply _. Defined.

(** The [n] bytes of [z] in memory order, and the integer read from bytes. *)
Fixpoint le_bytes (n : nat) (z : Z) : list Z :=
  match n with
  | O => []
  | S n => z `mod` 256 :: le_bytes n (z `div` 256)
  end.

Fixpoint le_val (bs : list Z) : Z :=
  match bs with
  | [] => 0
  | b :: bs => b + 256 * le_val bs
  end.

(** Network order is the reverse of memory order. *)
Definition be_bytes (n : nat) (z : Z) : list Z := reverse (le_bytes n z).
Definition be_val (bs : list Z) : Z := le_val (reverse bs).

(** [ntohs]/[htons] and [ntohl]/[htonl] swap the bytes on this target. *)
Definition swap16 (z : Z) : Z := be_val (le_bytes 2 z).
Definition swap32 (z : Z) : Z := be_val (le_bytes 4 z).

Lemma length_le_bytes n z : length (le_bytes n z) = n.
Proof. revert z; induction n; intros; simpl; auto. Qed.

Lemma length_be_bytes n z : length (be_bytes n z) = n.
Proof. unfold be_bytes. by rewrite length_reverse, length_le_bytes. Qed.

Lemma le_bytes_ok n z : bytes_ok (le_bytes n z).
Proof.
  revert z; induction n; intros; simpl; constructor; [|apply IHn].
  unfold byte_ok. pose proof (Z.mod_pos_bound z 256). lia.
Qed.

Lemma le_val_bytes n z : le_val (le_bytes n z) = z `mod` 256 ^ Z.of_nat n.
Proof.
  revert z; induction n as [|n IH]; intros z.
  { simpl. by rewrite Z.mod_1_r. }
  cbn [le_bytes le_val]. rewrite IH, Nat2Z.inj_succ, Z.pow_succ_r by lia.
  rewrite (Z.rem_mul_r z 256); lia.
Qed.

Lemma le_val_bounds bs :
  bytes_ok bs → 0 ≤ le_val bs < 256 ^ Z.of_nat (length bs).
Proof.
  induction 1 as [|b bs Hb _ IH]; cbn [length le_val]; [lia|].
  rewrite Nat2Z.inj_succ, Z.pow_succ_r by lia. unfold byte_ok in Hb. nia.
Qed.

Lemma le_bytes_val bs : bytes_ok bs → le_bytes (length bs) (le_val bs) = bs.
Proof.
  induction 1 as [|b bs Hb _ IH]; cbn [length le_val le_bytes]; [done|].
  unfold byte_ok in Hb.
  replace ((b + 256 * le_val bs) `mod` 256) with b
    by (rewrite (Z.mul_comm 256), Z.mod_add, Z.mod_small; lia).
  replace ((b + 256 * le_val bs) `div` 256) with (le_val bs)
    by (rewrite (Z.mul_comm 256), Z.div_add, Z.div_small; lia).
  by rewrite IH.
Qed.

Lemma le_val_inj bs bs' :
  bytes_ok bs → bytes_ok bs' → length bs = length bs' →
  le_val bs = le_val bs' → bs = bs'.
Proof.
  intros H H' Hl Hv. rewrite <-(le_bytes_val bs H), <-(le_bytes_val bs' H').
  by rewrite Hl, Hv.
Qed.

Lemma bytes_ok_reverse bs : bytes_ok bs → bytes_ok (reverse bs).
Proof. unfold bytes_ok. intros. by apply Forall_reverse. Qed.

Lemma bytes_ok_app bs bs' : bytes_ok (bs ++ bs') ↔ bytes_ok bs ∧ bytes_ok bs'.
Proof. apply Forall_app. Qed.

Lemma bytes_ok_take n bs : bytes_ok bs → bytes_ok (take n bs).
Proof. apply Forall_take. Qed.

Lemma bytes_ok_drop n bs : bytes_ok bs → bytes_ok (drop n bs).
Proof. apply Forall_drop. Qed.

Lemma bytes_ok_replicate n : bytes_ok (replicate n 0).
Proof. apply Forall_replicate. unfold byte_ok; lia. Qed.

(** Reading an integer in network order with [memcpy] and [ntohs]/[ntohl]. *)
Lemma swap16_le_val bs :
  bytes_ok bs → length bs = 2%nat → swap16 (le_val bs) = be_val bs.
Proof. intros H Hl. unfold swap16. by rewrite <-Hl, le_bytes_val. Qed.

Lemma swap32_le_val bs :
  bytes_ok bs → length bs = 4%nat → swap32 (le_val bs) = be_val bs.
Proof. intros H Hl. unfold swap32. by rewrite <-Hl, le_bytes_val. Qed.

Lemma le_bytes_swap16 z : le_bytes 2 (swap16 z) = be_bytes 2 z.
Proof.
  unfold swap16, be_val, be_bytes.
  rewrite <-(le_bytes_val (reverse (le_bytes 2 z))) at 2.
  - by rewrite length_reverse, length_le_bytes.
  - apply bytes_ok_reverse, le_bytes_ok.
Qed.

Lemma be_val_bytes n z : be_val (be_bytes n z) = z `mod` 256 ^ Z.of_nat n.
Proof. unfold be_val, be_bytes. rewrite reverse_involutive. apply le_val_bytes. Qed.

(** ** Buffers

    A buffer is the list of its bytes.  [read] and [recvfrom] overwrite a
    prefix and leave the rest as the previous contents. *)

Definition slice (off len : nat) (buf : list Z) : list Z := take len (drop off buf).

(** [splice off data buf]: [memcpy (buf + off, data, length data)]. *)
Definition splice (off : nat) (data buf : list Z) : list Z :=
  take off buf ++ data ++ drop (off + length data) buf.

Definition overlay (data buf : list Z) : list Z := data ++ drop (length data) buf.

Lemma overlay_splice data buf : overlay data buf = splice 0 data buf.
Proof. done. Qed.

Lemma length_slice off len buf :
  (off + len ≤ length buf)%nat → length (slice off len buf) = len.
Proof. intros. unfold slice. rewrite length_take, length_drop. lia. Qed.

Lemma length_splice off data buf :
  (off + length data ≤ length buf)%nat → length (splice off data buf) = length buf.
Proof.
  intros. unfold splice.
  rewrite !length_app, length_take, length_drop. lia.
Qed.

Lemma length_overlay data buf :
  (length data ≤ length buf)%nat → length (overlay data buf) = length buf.
Proof. intros. rewrite overlay_splice. by apply length_splice. Qed.

Lemma overlay_full data buf : length data = length buf → overlay data buf = data.
Proof. intros H. unfold overlay. by rewrite H, drop_all, app_nil_r. Qed.

Lemma slice_all buf : slice 0 (length buf) buf = buf.
Proof. unfold slice. rewrite drop_0. by rewrite take_ge. Qed.

Lemma take_overlay data buf : take (length data) (overlay data buf) = data.
Proof. unfold overlay. by rewrite take_app_length. Qed.

Lemma slice_overlay off len data buf :
  (off + len ≤ length data)%nat → slice off len (overlay data buf) = slice off len data.
Proof.
  intros. unfold slice, overlay. rewrite drop_app_le by lia.
  rewrite take_app_le; [done|]. rewrite length_drop. lia.
Qed.

Lemma slice_splice_eq off data buf :
  (off + length data ≤ length buf)%nat → slice off (length data) (splice off data buf) = data.
Proof.
  intros. unfold slice, splice.
  rewrite drop_app_length' by (rewrite length_take; lia). by rewrite take_app_length.
Qed.

Lemma slice_splice_before off len off' data buf :
  (off + len ≤ off')%nat → (off' ≤ length buf)%nat →
  slice off len (splice off' data buf) = slice off len buf.
Proof.
  intros. unfold slice, splice.
  rewrite drop_app_le by (rewrite length_take; lia).
  rewrite take_app_le by (rewrite length_drop, length_take; lia).
  rewrite skipn_firstn_comm, take_take. f_equal; lia.
Qed.

Lemma slice_splice_after off len off' data buf :
  (off' + length data ≤ off)%nat → (off' + length data ≤ length buf)%nat →
  slice off len (splice off' data buf) = slice off len buf.
Proof.
  intros. unfold slice, splice. f_equal.
  rewrite app_assoc, drop_app_ge by (rewrite length_app, length_take; lia).
  rewrite drop_drop. f_equal. rewrite length_app, length_take. lia.
Qed.

(** Buffers in two parts. *)
Lemma slice_app_r k len l buf : slice (length l + k) len (l ++ buf) = slice k len buf.
Proof. unfold slice. by rewrite drop_app_add. Qed.

Lemma splice_app_r k data l buf :
  splice (length l + k) data (l ++ buf) = l ++ splice k data buf.
Proof.
  unfold splice. rewrite <-Nat.add_assoc, drop_app_add, take_app_add. by rewrite <-app_assoc.
Qed.

Lemma splice_at off d l r :
  length l = off → splice off d (l ++ r) = l ++ d ++ drop (length d) r.
Proof. intros <-. unfold splice. by rewrite take_app_length, drop_app_add. Qed.

Lemma splice_mid off d a b c :
  length a = off → length d = length b → splice off d (a ++ b ++ c) = a ++ d ++ c.
Proof.
  intros <- Hd. unfold splice. rewrite take_app_length, drop_app_add, Hd, drop_app_length. done.
Qed.

Lemma replicate_split {A} n m k (x : A) :
  (n + m = k)%nat → replicate k x = replicate n x ++ replicate m x.
Proof. intros <-. apply replicate_add. Qed.

Lemma splice_same off len buf :
  (off + len ≤ length buf)%nat → splice off (slice off len buf) buf = buf.
Proof.
  intros H. unfold splice. rewrite length_slice by done. unfold slice.
  rewrite <-drop_drop, take_drop. apply take_drop.
Qed.

Lemma bytes_ok_slice off len buf : bytes_ok buf → bytes_ok (slice off len buf).
Proof. intros. by apply bytes_ok_take, bytes_ok_drop. Qed.

Lemma bytes_ok_splice off data buf :
  bytes_ok buf → bytes_ok data → bytes_ok (splice off data buf).
Proof.
  intros. unfold splice.
  rewrite !bytes_ok_app. eauto using bytes_ok_take, bytes_ok_drop.
Qed.

Lemma bytes_ok_overlay data buf :
  bytes_ok buf → bytes_ok data → bytes_ok (overlay data buf).
Proof. intros. rewrite overlay_splice. by apply bytes_ok_splice. Qed.

#[export] Hint Resolve le_bytes_ok bytes_ok_reverse bytes_ok_take bytes_ok_drop
  bytes_ok_slice bytes_ok_splice bytes_ok_overlay bytes_ok_replicate : nid.
#[export] Hint Rewrite length_le_bytes length_be_bytes @length_reverse
  @length_app @length_take @length_drop @length_replicate : bytes.

(** ** Datagram channels

    Every [sp_*] pair of src/src/nid.h is an [AF_UNIX] [SOCK_DGRAM] socket
    pair: datagrams are delivered whole and in order, and a [read] with a
    shorter buffer drops the excess bytes. *)

Abbreviation chan := (list (list Z)).

Definition chan_write (d : list Z) (c : chan) : chan := c ++ [d].

Definition chan_read (n : nat) (c : chan) : option (list Z * chan) :=
  match c with
  | [] => None
  | d :: c => Some (take n d, c)
  end.

(** [write (fd, buf, len)] with a C [int] length: a negative length becomes a
    huge [size_t], the call fails and nothing is queued. *)
Definition chan_write_len (buf : list Z) (len : Z) (c : chan) : chan :=
  if len <? 0 then c else chan_write (take (Z.to_nat len) buf) c.

(** ** Outcome of one iteration of a thread *)

Inductive outcome (A : Type) :=
  | Go (a : A)      (* the loop continues *)
  | ThreadExit      (* [pthread_exit], or the loop is left *)
  | ProcessExit     (* [exit] *)
  | Fault.          (* an access outside an object, or through NULL *)
Arguments Go {A} _.
Arguments ThreadExit {A}.
Arguments ProcessExit {A}.
Arguments Fault {A}.

(** A fault ends what follows it; an access that succeeds goes on. *)
#[export] Instance outcome_ret : MRet outcome := λ A x, Go x.
#[export] Instance outcome_bind : MBind outcome := λ A B f m,
  match m with
  | Go x => f x
  | ThreadExit => ThreadExit
  | ProcessExit => ProcessExit
  | Fault => Fault
  end.

Definition accessed {A} (m : option A) : outcome A :=
  match m with Some x => Go x | None => Fault end.

Lemma bind_Go {A B} (f : A → outcome B) x : Go x ≫= f = f x.
Proof. done. Qed.

Lemma Go_inj {A} (x y : A) : Go x = Go y → x = y.
Proof. congruence. Qed.

(** ** Time *)

(** [struct timeval], as [gettimeofday] fills it. *)
Record timeval := mkTv { tv_sec : Z; tv_usec : Z }.

Definition tv_ok (tv : timeval) : Prop := 0 ≤ tv_usec tv < 1000000.

#[export] Instance timeval_eq_dec : EqDecision timeval.
Proof. solve_decision. Defined.
#[export] Instance tv_ok_dec tv : Decision (tv_ok tv).
Proof. unfold tv_ok. apply _. Defined.

(** Microseconds since the epoch. *)
Definition tv_total (tv : timeval) : Z := tv_sec tv * 1000000 + tv_usec tv.
