(* ===== verification/NidTypes.v ===== *)
(** The data of src/src/nid.h: node identifiers, message and header
    structures with their memory layout, the enumerations, and the timing
    constants; and the lemmas that reading a structure back from its bytes
    gives the structure. *)

From S2P Require Import Prelude.

Local Open Scope Z_scope.

(** ** Identifiers *)

(** [NID] is a [struct in6_addr]: sixteen bytes in memory order.  [NID32] is
    an [in_addr_t], a 32-bit integer whose bytes in memory are the dotted
    quad. *)
Abbreviation NID := (list Z).
Abbreviation NID32 := Z.

Definition nid_ok (n : NID) : Prop := length n = 16%nat ∧ bytes_ok n.
Definition nid32_ok (a : NID32) : Prop := 0 ≤ a < 2 ^ 32.

#[export] Instance nid_ok_dec n : Decision (nid_ok n).
Proof. unfold nid_ok. apply _. Defined.
#[export] Instance nid32_ok_dec a : Decision (nid32_ok a).
Proof. unfold nid32_ok. apply _. Defined.

(** A zeroed structure, as [bzero]/[calloc] leave it. *)
Definition nid_zero : NID := replicate 16 0.

(** ** Enumerations *)

Inductive rvs_msg_type := RVS_UPDATE | RVS_ACK | RVS_GET | RVS_RESPONSE.
Inductive nid_ctrl_type := DATA | REDIRECT | RELOCATE | REGISTRY | REDIRECT_CORE.
Inductive node_types := NODE | RVS | GATEWAY | CORE.
Inductive mobility_types := INTRADOMAIN | INTERDOMAIN.

#[export] Instance rvs_msg_type_eq_dec : EqDecision rvs_msg_type.
Proof. solve_decision. Defined.
#[export] Instance nid_ctrl_type_eq_dec : EqDecision nid_ctrl_type.
Proof. solve_decision. Defined.
#[export] Instance node_types_eq_dec : EqDecision node_types.
Proof. solve_decision. Defined.
#[export] Instance mobility_types_eq_dec : EqDecision mobility_types.
Proof. solve_decision. Defined.

Definition rvs_msg_type_val (t : rvs_msg_type) : Z :=
  match t with RVS_UPDATE => 5 | RVS_ACK => 6 | RVS_GET => 7 | RVS_RESPONSE => 8 end.

Definition nid_ctrl_type_val (t : nid_ctrl_type) : Z :=
  match t with
  | DATA => 0 | REDIRECT => 1 | RELOCATE => 2 | REGISTRY => 3 | REDIRECT_CORE => 4
  end.

Definition node_types_val (t : node_types) : Z :=
  match t with NODE => 0 | RVS => 1 | GATEWAY => 2 | CORE => 3 end.

Definition mobility_types_val (t : mobility_types) : Z :=
  match t with INTRADOMAIN => 0 | INTERDOMAIN => 1 end.

(** The daemon stores values of either message enumeration in the same [int]
    and switches over both. *)
Inductive msg_type := Ctrl (t : nid_ctrl_type) | Rvs (t : rvs_msg_type).

Definition msg_type_val (t : msg_type) : Z :=
  match t with Ctrl t => nid_ctrl_type_val t | Rvs t => rvs_msg_type_val t end.

Definition msg_type_of (z : Z) : option msg_type :=
  match z with
  | 0 => Some (Ctrl DATA)
  | 1 => Some (Ctrl REDIRECT)
  | 2 => Some (Ctrl RELOCATE)
  | 3 => Some (Ctrl REGISTRY)
  | 4 => Some (Ctrl REDIRECT_CORE)
  | 5 => Some (Rvs RVS_UPDATE)
  | 6 => Some (Rvs RVS_ACK)
  | 7 => Some (Rvs RVS_GET)
  | 8 => Some (Rvs RVS_RESPONSE)
  | _ => None
  end.

Lemma msg_type_of_val t : msg_type_of (msg_type_val t) = Some t.
Proof. by destruct t as [[]|[]]. Qed.

Lemma msg_type_of_Some z t : msg_type_of z = Some t → z = msg_type_val t.
Proof.
  unfold msg_type_of. intros H.
  by repeat case_match; simplify_eq.
Qed.

(** ** Timing constants of nid.h *)

Definition RVS_UPDATE_TIMEOUT : Z := 5.
Definition RVS_TIMEOUT : Z := 10.
Definition GATEWAY_TIMEOUT : Z := 10.
Definition DHT_TTL : Z := 10.
Definition DHT_UPDATE : Z := 8.
Definition DATA_PORT : Z := 20000.
Definition RVS_LISTENER : Z := 9090.
Definition RVS_TALKER : Z := 9091.
Definition DEVICE_MTU : Z := 1392.

(** ** Structures *)

Record NID_header := mkHeader {
  nh_type : Z;
  nh_srcNID : NID;
  nh_destNID : NID;
  nh_srcNIDgw : NID;
  nh_destNIDgw : NID;
}.

Record NID_msg := mkMsg {
  nm_type : Z;
  nm_srcNID : NID;
  nm_destNID : NID;
  nm_srcNIDgw : NID;
  nm_destNIDgw : NID;
  nm_nid : NID;
  nm_ip : NID32;
}.

(** [RVS_msg] has the same members as [NID_msg] in the same order. *)
Abbreviation RVS_msg := NID_msg.

Record conn_entry := mkConn { ce_ip : NID32; ce_tstamp : Z }.

#[export] Instance NID_header_eq_dec : EqDecision NID_header.
Proof. solve_decision. Defined.
#[export] Instance NID_msg_eq_dec : EqDecision NID_msg.
Proof. solve_decision. Defined.
#[export] Instance conn_entry_eq_dec : EqDecision conn_entry.
Proof. solve_decision. Defined.

Definition nh_len : nat := 68.   (* sizeof (NID_header) *)
Definition nmsg_len : nat := 88. (* sizeof (NID_msg) *)

Definition header_bytes (h : NID_header) : list Z :=
  le_bytes 4 (nh_type h) ++ nh_srcNID h ++ nh_destNID h
    ++ nh_srcNIDgw h ++ nh_destNIDgw h.

Definition header_of (buf : list Z) : NID_header :=
  mkHeader (le_val (slice 0 4 buf)) (slice 4 16 buf) (slice 20 16 buf)
    (slice 36 16 buf) (slice 52 16 buf).

Definition msg_bytes (m : NID_msg) : list Z :=
  le_bytes 4 (nm_type m) ++ nm_srcNID m ++ nm_destNID m ++ nm_srcNIDgw m
    ++ nm_destNIDgw m ++ nm_nid m ++ le_bytes 4 (nm_ip m).

Definition msg_of (buf : list Z) : NID_msg :=
  mkMsg (le_val (slice 0 4 buf)) (slice 4 16 buf) (slice 20 16 buf)
    (slice 36 16 buf) (slice 52 16 buf) (slice 68 16 buf)
    (le_val (slice 84 4 buf)).

Definition header_ok (h : NID_header) : Prop :=
  nid32_ok (nh_type h) ∧ nid_ok (nh_srcNID h) ∧ nid_ok (nh_destNID h)
  ∧ nid_ok (nh_srcNIDgw h) ∧ nid_ok (nh_destNIDgw h).

Definition msg_ok (m : NID_msg) : Prop :=
  nid32_ok (nm_type m) ∧ nid_ok (nm_srcNID m) ∧ nid_ok (nm_destNID m)
  ∧ nid_ok (nm_srcNIDgw m) ∧ nid_ok (nm_destNIDgw m) ∧ nid_ok (nm_nid m)
  ∧ nid32_ok (nm_ip m).

#[export] Instance header_ok_dec h : Decision (header_ok h).
Proof. unfold header_ok. apply _. Defined.
#[export] Instance msg_ok_dec m : Decision (msg_ok m).
Proof. unfold msg_ok. apply _. Defined.

(** A message with every field zero, what [bzero (&nmsg, ...)] leaves. *)
Definition msg_zero : NID_msg :=
  mkMsg 0 nid_zero nid_zero nid_zero nid_zero nid_zero 0.

(** ** Reading back *)

(** Destruct a sixteen-byte list into its bytes. *)
Ltac explode_nid H :=
  let Hl := fresh in
  destruct H as [Hl _];
  repeat match type of Hl with
         | length ?l = _ =>
             destruct l as [|? ?]; simpl in Hl; [discriminate Hl || clear Hl|];
             try injection Hl as Hl
         end.

Lemma le_val_bytes4 z : nid32_ok z → le_val (le_bytes 4 z) = z.
Proof.
  intros H. rewrite le_val_bytes. apply Z.mod_small. exact H.
Qed.

Lemma length_header_bytes h : header_ok h → length (header_bytes h) = nh_len.
Proof.
  intros (_ & [H1 _] & [H2 _] & [H3 _] & [H4 _]). unfold header_bytes.
  autorewrite with bytes. by rewrite H1, H2, H3, H4.
Qed.

Lemma length_msg_bytes m : msg_ok m → length (msg_bytes m) = nmsg_len.
Proof.
  intros (_ & [H1 _] & [H2 _] & [H3 _] & [H4 _] & [H5 _] & _). unfold msg_bytes.
  autorewrite with bytes. by rewrite H1, H2, H3, H4, H5.
Qed.

(** Reading a field that starts after [l] and has the length of [x]. *)
Lemma slice_app_at off n l x r :
  length l = off → length x = n → slice off n (l ++ x ++ r) = x.
Proof.
  intros <- <-. unfold slice. by rewrite drop_app_length, take_app_length.
Qed.

Lemma header_of_bytes h r : header_ok h → header_of (header_bytes h ++ r) = h.
Proof.
  intros (H0 & [H1 _] & [H2 _] & [H3 _] & [H4 _]).
  destruct h as [t a b c d]; unfold header_of, header_bytes;
    cbn [nh_type nh_srcNID nh_destNID nh_srcNIDgw nh_destNIDgw] in *.
  f_equal.
  - rewrite <-!app_assoc. transitivity (le_val (le_bytes 4 t)); [|by apply le_val_bytes4].
    by f_equal.
  - rewrite <-!app_assoc. by apply slice_app_at.
  - rewrite <-!app_assoc. rewrite (app_assoc _ a). apply slice_app_at; [|done].
    autorewrite with bytes. by rewrite H1.
  - rewrite <-!app_assoc. rewrite (app_assoc _ a), (app_assoc _ b).
    apply slice_app_at; [|done]. autorewrite with bytes. by rewrite H1, H2.
  - rewrite <-!app_assoc. rewrite (app_assoc _ a), (app_assoc _ b), (app_assoc _ c).
    apply slice_app_at; [|done]. autorewrite with bytes. by rewrite H1, H2, H3.
Qed.

Lemma msg_of_bytes m r : msg_ok m → msg_of (msg_bytes m ++ r) = m.
Proof.
  intros (H0 & [H1 _] & [H2 _] & [H3 _] & [H4 _] & [H5 _] & H6).
  destruct m as [t a b c d e ip]; unfold msg_of, msg_bytes;
    cbn [nm_type nm_srcNID nm_destNID nm_srcNIDgw nm_destNIDgw nm_nid nm_ip] in *.
  rewrite <-!app_assoc. f_equal.
  - transitivity (le_val (le_bytes 4 t)); [|by apply le_val_bytes4].
    by f_equal.
  - by apply slice_app_at.
  - rewrite (app_assoc _ a). apply slice_app_at; [|done].
    autorewrite with bytes. by rewrite H1.
  - rewrite (app_assoc _ a), (app_assoc _ b).
    apply slice_app_at; [|done]. autorewrite with bytes. by rewrite H1, H2.
  - rewrite (app_assoc _ a), (app_assoc _ b), (app_assoc _ c).
    apply slice_app_at; [|done]. autorewrite with bytes. by rewrite H1, H2, H3.
  - rewrite (app_assoc _ a), (app_assoc _ b), (app_assoc _ c), (app_assoc _ d).
    apply slice_app_at; [|done]. autorewrite with bytes. by rewrite H1, H2, H3, H4.
  - transitivity (le_val (le_bytes 4 ip)); [|by apply le_val_bytes4]. f_equal.
    rewrite (app_assoc _ a), (app_assoc _ b), (app_assoc _ c), (app_assoc _ d),
      (app_assoc _ e).
    apply slice_app_at; [|apply length_le_bytes].
    autorewrite with bytes. by rewrite H1, H2, H3, H4, H5.
Qed.

(** What is read from a full buffer is well formed. *)
Lemma nid_ok_slice off buf :
  (off + 16 ≤ length buf)%nat → bytes_ok buf → nid_ok (slice off 16 buf).
Proof. split; [by apply length_slice|auto with nid]. Qed.

Lemma nid32_ok_slice off buf :
  (off + 4 ≤ length buf)%nat → bytes_ok buf → nid32_ok (le_val (slice off 4 buf)).
Proof.
  intros Hl Hb. pose proof (le_val_bounds (slice off 4 buf)) as H.
  rewrite length_slice in H by done. apply H. auto with nid.
Qed.

Lemma header_of_ok buf :
  (nh_len ≤ length buf)%nat → bytes_ok buf → header_ok (header_of buf).
Proof.
  unfold nh_len. intros. split; [apply nid32_ok_slice; [lia|done]|].
  cbn. repeat split; try (apply nid_ok_slice; [lia|done]); auto with nid;
    by apply length_slice; lia.
Qed.

Lemma msg_of_ok buf :
  (nmsg_len ≤ length buf)%nat → bytes_ok buf → msg_ok (msg_of buf).
Proof.
  unfold nmsg_len. intros. split_and!; cbn;
    first [apply nid_ok_slice; [lia|done] | apply nid32_ok_slice; [lia|done]].
Qed.

(** And the bytes of the structure read are the bytes that were there. *)
Lemma slice_split a b n buf :
  slice a (b + n) buf = slice a b buf ++ slice (a + b) n buf.
Proof.
  unfold slice. rewrite <-take_take_drop. f_equal. f_equal. by rewrite drop_drop.
Qed.

Lemma le_bytes4_slice off buf :
  (off + 4 ≤ length buf)%nat → bytes_ok buf →
  le_bytes 4 (le_val (slice off 4 buf)) = slice off 4 buf.
Proof.
  intros Hl Hb. pose proof (le_bytes_val (slice off 4 buf)) as H.
  rewrite length_slice in H by done. apply H. auto with nid.
Qed.

Lemma header_bytes_of buf :
  (nh_len ≤ length buf)%nat → bytes_ok buf →
  header_bytes (header_of buf) = take nh_len buf.
Proof.
  intros Hl Hb. unfold header_bytes, header_of, nh_len in *; cbn -[slice le_bytes].
  rewrite le_bytes4_slice by (done || lia).
  change (take 68 buf) with (slice 0 (4 + (16 + (16 + (16 + 16)))) buf).
  by rewrite !slice_split.
Qed.

Lemma msg_bytes_of buf :
  (nmsg_len ≤ length buf)%nat → bytes_ok buf →
  msg_bytes (msg_of buf) = take nmsg_len buf.
Proof.
  intros Hl Hb. unfold msg_bytes, msg_of, nmsg_len in *; cbn -[slice le_bytes].
  rewrite !le_bytes4_slice by (done || lia).
  change (take 88 buf) with (slice 0 (4 + (16 + (16 + (16 + (16 + (16 + 4)))))) buf).
  by rewrite !slice_split.
Qed.

(** [read (fd, &nmsg, sizeof (NID_msg))] over the previous contents. *)
Definition read_msg (d : list Z) (old : NID_msg) : NID_msg :=
  msg_of (overlay (take nmsg_len d) (msg_bytes old)).

Lemma read_msg_bytes m old : msg_ok m → read_msg (msg_bytes m) old = m.
Proof.
  intros H. unfold read_msg. rewrite take_ge by (rewrite length_msg_bytes; done || lia).
  unfold overlay. by apply msg_of_bytes.
Qed.

Lemma bytes_ok_msg_bytes m : msg_ok m → bytes_ok (msg_bytes m).
Proof.
  intros (_ & [_ ?] & [_ ?] & [_ ?] & [_ ?] & [_ ?] & _). unfold msg_bytes.
  rewrite !bytes_ok_app. auto 10 with nid.
Qed.

Lemma read_msg_ok d old : bytes_ok d → msg_ok old → msg_ok (read_msg d old).
Proof.
  intros Hd Ho. pose proof (length_msg_bytes old Ho) as Hl.
  assert (length (take nmsg_len d) ≤ length (msg_bytes old))%nat
    by (rewrite length_take, Hl; lia).
  apply msg_of_ok; [rewrite length_overlay; lia|].
  auto using bytes_ok_overlay, bytes_ok_take, bytes_ok_msg_bytes.
Qed.

#[export] Instance eta_msg : Eta NID_msg := λ m,
  mkMsg (nm_type m) (nm_srcNID m) (nm_destNID m) (nm_srcNIDgw m) (nm_destNIDgw m)
    (nm_nid m) (nm_ip m).

Lemma nid_zero_ok : nid_ok nid_zero.
Proof. split; [done|apply bytes_ok_replicate]. Qed.

Lemma msg_zero_ok : msg_ok msg_zero.
Proof. unfold msg_ok, nid32_ok. simpl. split_and!; try lia; try apply nid_zero_ok. Qed.

#[export] Hint Resolve read_msg_ok bytes_ok_msg_bytes nid_zero_ok msg_zero_ok : nid.
#[export] Hint Resolve nid_ok_slice nid32_ok_slice header_of_ok msg_of_ok : nid.
