(* ===== verification/HashTable.v ===== *)
(** The chained hash tables of src/src/hash.c, src/src/hash32.c and
    src/src/fqdn_hash.c.

    The three files are the same program over three key types (a 16-byte NID
    compared with [memcmp], a 4-byte address, a NUL-terminated string compared
    with [strcmp]).  The operations are written once over a key type with
    decidable equality and a hash function, and instantiated three times.  A
    table refines a finite map; clients see it through the [Dict] interface. *)

From S2P Require Import Prelude NidTypes.

Local Open Scope Z_scope.

(** ** The interface the tables promise to their clients *)

Class Dict (T K D : Type) `{EqDecision K} := {
  dict_ok : T → Prop;
  dict_lookup : K → T → option D;
  dict_insert : K → D → T → T;
  dict_del : K → T → T;
}.

Class DictLaws (T K D : Type) `{Dict T K D} : Prop := {
  dict_insert_ok t k d : dict_ok t → dict_ok (dict_insert k d t);
  dict_del_ok t k : dict_ok t → dict_ok (dict_del k t);
  dict_lookup_insert t k k' d : dict_ok t →
    dict_lookup k' (dict_insert k d t) = if decide (k = k') then Some d else dict_lookup k' t;
  dict_lookup_del t k k' : dict_ok t →
    dict_lookup k' (dict_del k t) = if decide (k = k') then None else dict_lookup k' t;
}.

(** ** Bucket chains *)

Section Chain.
  Context {K D : Type} `{cK : Countable K}.

Fixpoint chain_find (k : K) (c : list (K * D)) : option D :=
  match c with
  | [] => None
  | (k', d) :: c => if decide (k = k') then Some d else chain_find k c
  end.

(** Overwrite the data of the first node with key [k]; also the old data. *)
Fixpoint chain_replace (k : K) (d : D) (c : list (K * D)) : option (list (K * D) * D) :=
  match c with
  | [] => None
  | (k', d') :: c =>
      if decide (k = k') then Some ((k', d) :: c, d')
      else match chain_replace k d c with
           | Some (c', old) => Some ((k', d') :: c', old)
           | None => None
           end
  end.

(** Unlink the first node with key [k]; also its data. *)
Fixpoint chain_del (k : K) (c : list (K * D)) : option (list (K * D) * D) :=
  match c with
  | [] => None
  | (k', d') :: c =>
      if decide (k = k') then Some (c, d')
      else match chain_del k c with
           | Some (c', old) => Some ((k', d') :: c', old)
           | None => None
           end
  end.

Lemma chain_find_None k (c : list (K * D)) : chain_find k c = None ↔ k ∉ c.*1.
Proof.
  induction c as [|[k' d'] c IH]; simpl; [set_solver|].
  case_decide; [set_solver|]. rewrite IH. set_solver.
Qed.

Lemma chain_find_elem k d (c : list (K * D)) : chain_find k c = Some d → (k, d) ∈ c.
Proof.
  induction c as [|[k' d'] c IH]; simpl; [done|].
  case_decide; intros; simplify_eq; set_solver.
Qed.

Lemma chain_elem_find k d (c : list (K * D)) :
  NoDup c.*1 → (k, d) ∈ c → chain_find k c = Some d.
Proof.
  induction c as [|[k' d'] c IH]; simpl; intros Hnd Hin; [set_solver|].
  apply NoDup_cons in Hnd as [Hk Hnd].
  apply elem_of_cons in Hin as [Heq|Hin]; simplify_eq; [by rewrite decide_True|].
  rewrite decide_False; [auto|]. intros ->. apply Hk.
  apply (list_elem_of_fmap_2 fst c (k', d)) in Hin. done.
Qed.

Lemma chain_replace_Some k d c c' old :
  chain_replace k d c = Some (c', old) →
  chain_find k c = Some old ∧ c'.*1 = c.*1
  ∧ ∀ k', chain_find k' c' = if decide (k = k') then Some d else chain_find k' c.
Proof.
  revert c'. induction c as [|[k0 d0] c IH]; simpl; intros c' H; [done|].
  case_decide; simplify_eq/=.
  - split_and!; [done..|]. intros k'. repeat case_decide; congruence.
  - destruct (chain_replace k d c) as [[c1 o]|] eqn:E; simplify_eq/=.
    destruct (IH _ eq_refl) as (? & Hk & Hf). rewrite Hk. split_and!; [done..|].
    intros k'. rewrite Hf. repeat case_decide; congruence.
Qed.

Lemma chain_replace_None k d c : chain_replace k d c = None ↔ chain_find k c = None.
Proof.
  induction c as [|[k' d'] c IH]; simpl; [done|].
  case_decide; [done|]. rewrite <-IH.
  destruct (chain_replace k d c) as [[]|]; naive_solver.
Qed.

Lemma chain_del_None k (c : list (K * D)) : chain_del k c = None ↔ chain_find k c = None.
Proof.
  induction c as [|[k' d'] c IH]; simpl; [done|].
  case_decide; [done|]. rewrite <-IH.
  destruct (chain_del k c) as [[]|]; naive_solver.
Qed.

Lemma chain_del_Some k c c' (old : D) :
  NoDup c.*1 → chain_del k c = Some (c', old) →
  chain_find k c = Some old ∧ NoDup c'.*1 ∧ c'.*1 ⊆ c.*1
  ∧ ∀ k', chain_find k' c' = if decide (k = k') then None else chain_find k' c.
Proof.
  revert c'. induction c as [|[k0 d0] c IH]; simpl; intros c' Hnd H; [done|].
  apply NoDup_cons in Hnd as [Hk0 Hnd].
  case_decide; simplify_eq/=.
  - split_and!; [done..|set_solver|]. intros k'.
    case_decide; subst; [by apply chain_find_None|]. by rewrite decide_False.
  - destruct (chain_del k c) as [[c1 o]|] eqn:E; simplify_eq/=.
    destruct (IH _ Hnd eq_refl) as (? & Hnd' & Hsub & Hf). split_and!.
    + done.
    + apply NoDup_cons. set_solver.
    + set_solver.
    + intros k'. rewrite Hf. repeat case_decide; congruence.
Qed.

Lemma list_to_map_chain k (c : list (K * D)) :
  (list_to_map c : gmap K D) !! k = chain_find k c.
Proof.
  induction c as [|[k' d'] c IH]; [done|]. simpl. rewrite lookup_insert, IH.
  repeat case_decide; congruence.
Qed.

End Chain.

(** ** Tables *)

(** [struct hash_table]: the number of slots and the array of chains.  A
    bucket copies its key and points to its data.  The hash function of the
    file indexes the type: the three C structures are distinct types. *)
Record chained_table {K : Type} (hash : K → Z) (D : Type) := mkTable {
  ht_size : nat;
  ht_table : list (list (K * D));
}.
Arguments mkTable {K hash D} _ _.
Arguments ht_size {K hash D} _.
Arguments ht_table {K hash D} _.

Section Table.
  Context {K D : Type} `{cK : Countable K} (hash : K → Z).
  Implicit Types (t : chained_table hash D) (k : K) (d : D) (c : list (K * D)).

(** The outcome of the [calloc] of the slot array is the argument. *)
Definition construct (calloc_ok : bool) (size : nat) : chained_table hash D :=
  if calloc_ok then mkTable size (replicate size []) else mkTable 0 [].

Definition slot (t : chained_table hash D) (k : K) : nat :=
  Z.to_nat (hash k `mod` Z.of_nat (ht_size t)).

Definition bucket_at (t : chained_table hash D) (i : nat) : list (K * D) :=
  default [] (ht_table t !! i).

Definition set_bucket (t : chained_table hash D) (i : nat) (c : list (K * D)) : chained_table hash D :=
  mkTable (ht_size t) (<[i := c]> (ht_table t)).

(** [malloc_ok] is the outcome of the [malloc] of a new bucket; [None] is the
    NULL the code returns when it fails. *)
Definition insert_at (malloc_ok : bool) (k : K) (d : D) (t : chained_table hash D)
    : chained_table hash D * option D :=
  let val := slot t k in
  match bucket_at t val with
  | [] => if malloc_ok then (set_bucket t val [(k, d)], Some d) else (t, None)
  | c =>
      match chain_replace k d c with
      | Some (c', old_data) => (set_bucket t val c', Some old_data)
      | None => if malloc_ok then (set_bucket t val ((k, d) :: c), Some d) else (t, None)
      end
  end.

Definition lookup_at (k : K) (t : chained_table hash D) : option D :=
  chain_find k (bucket_at t (slot t k)).

Definition del_at (k : K) (t : chained_table hash D) : chained_table hash D * option D :=
  let val := slot t k in
  match bucket_at t val with
  | [] => (t, None)
  | c =>
      match chain_del k c with
      | Some (c', data) => (set_bucket t val c', Some data)
      | None => (t, None)
      end
  end.

(** Every node in slot order, then chain order. *)
Definition entries (t : chained_table hash D) : list (K * D) := concat (ht_table t).

(** The table after [free], and the data handed to [func], in order. *)
Definition free_all (t : chained_table hash D) : chained_table hash D * list D :=
  (mkTable 0 [], (entries t).*2).

(** *** Invariant *)

Record table_ok (t : chained_table hash D) : Prop := {
  ok_size : (0 < ht_size t)%nat;
  ok_length : length (ht_table t) = ht_size t;
  ok_nodup i c : ht_table t !! i = Some c → NoDup c.*1;
  ok_slot i c k : ht_table t !! i = Some c → k ∈ c.*1 → slot t k = i;
}.

Lemma slot_lt t k : (0 < ht_size t)%nat → (slot t k < ht_size t)%nat.
Proof.
  intros. unfold slot. pose proof (Z.mod_pos_bound (hash k) (Z.of_nat (ht_size t))). lia.
Qed.

Lemma bucket_at_lookup t k :
  table_ok t → ht_table t !! slot t k = Some (bucket_at t (slot t k)).
Proof.
  intros Hok. unfold bucket_at.
  destruct (lookup_lt_is_Some_2 (ht_table t) (slot t k)) as [c ->]; [|done].
  rewrite (ok_length t Hok). apply slot_lt, Hok.
Qed.

Lemma construct_ok size : (0 < size)%nat → table_ok (construct true size).
Proof.
  intros. split; simpl; [done|by rewrite length_replicate|..].
  - intros i c [-> _]%lookup_replicate. apply NoDup_nil_2.
  - intros i c k [-> _]%lookup_replicate. set_solver.
Qed.

Lemma lookup_construct b size k : lookup_at k (construct b size) = None.
Proof.
  unfold lookup_at, bucket_at. destruct b; simpl; [|done].
  destruct (replicate size [] !! _) eqn:E; [|done].
  apply lookup_replicate in E as [-> _]. done.
Qed.

Lemma slot_set_bucket t i c k : slot (set_bucket t i c) k = slot t k.
Proof. done. Qed.

Lemma set_bucket_ok t k c :
  table_ok t → NoDup c.*1 → (∀ k', k' ∈ c.*1 → slot t k' = slot t k) →
  table_ok (set_bucket t (slot t k) c).
Proof.
  intros Hok Hnd Hs. pose proof (ok_length t Hok) as Hl.
  split; simpl.
  - apply Hok.
  - by rewrite length_insert.
  - intros i c' [(<- & <- & _)|(_ & Hi)]%list_lookup_insert_Some; [done|].
    by eapply ok_nodup.
  - intros i c' k' [(<- & <- & _)|(_ & Hi)]%list_lookup_insert_Some Hk'; [by apply Hs|].
    by eapply (ok_slot t Hok).
Qed.

Lemma lookup_set_bucket t k c k' :
  table_ok t →
  lookup_at k' (set_bucket t (slot t k) c)
  = if decide (slot t k' = slot t k) then chain_find k' c else lookup_at k' t.
Proof.
  intros Hok. unfold lookup_at, bucket_at. rewrite slot_set_bucket. simpl.
  rewrite list_lookup_insert. case_decide as Hd; destruct (decide (slot t k' = slot t k)) as [He|];
    destruct_and?; try congruence; try done.
  destruct Hd. split; [done|]. rewrite (ok_length t Hok). apply slot_lt, Hok.
Qed.

(** One statement for both insertion paths: the new chain holds the old
    bindings with [k] bound to [d]. *)
Lemma insert_at_cases b k d t :
  table_ok t →
  (∃ c, insert_at b k d t = (set_bucket t (slot t k) c, Some (default d (lookup_at k t)))
        ∧ NoDup c.*1 ∧ (∀ k', k' ∈ c.*1 → slot t k' = slot t k)
        ∧ ∀ k', chain_find k' c
                = if decide (k = k') then Some d else chain_find k' (bucket_at t (slot t k)))
  ∧ (b = true ∨ is_Some (lookup_at k t))
  ∨ insert_at b k d t = (t, None) ∧ b = false ∧ lookup_at k t = None.
Proof.
  intros Hok. unfold insert_at, lookup_at.
  pose proof (bucket_at_lookup t k Hok) as Hb.
  pose proof (ok_nodup t Hok _ _ Hb) as Hnd.
  pose proof (fun k' => ok_slot t Hok _ _ k' Hb) as Hsl.
  destruct (bucket_at t (slot t k)) as [|[k0 d0] c] eqn:Hc.
  { destruct b; [left|by right]. split; [|by left]. exists [(k, d)].
    split_and!; [done|apply NoDup_singleton|set_solver|].
    intros k'. simpl. repeat case_decide; congruence. }
  destruct (chain_replace k d ((k0, d0) :: c)) as [[c' old]|] eqn:E.
  - apply chain_replace_Some in E as (Hf & Hk & Hf'). left. rewrite Hf.
    split; [|by right]. exists c'. rewrite Hk. split_and!; auto.
  - apply chain_replace_None in E. rewrite E. destruct b; [left|by right].
    split; [|by left]. exists ((k, d) :: (k0, d0) :: c). split_and!; [done|..].
    + rewrite fmap_cons. apply NoDup_cons. split; [|done]. by apply chain_find_None.
    + intros k'. rewrite fmap_cons, elem_of_cons. intros [->|?]; auto.
    + intros k'. cbn [chain_find]. repeat case_decide; congruence.
Qed.

Lemma insert_at_ok b k d t : table_ok t → table_ok (insert_at b k d t).1.
Proof.
  intros Hok. destruct (insert_at_cases b k d t Hok) as [[(c & -> & ? & ? & ?) _]|(-> & _)];
    [by apply set_bucket_ok|done].
Qed.

Lemma lookup_insert_at k k' d t :
  table_ok t →
  lookup_at k' (insert_at true k d t).1 = if decide (k = k') then Some d else lookup_at k' t.
Proof.
  intros Hok.
  destruct (insert_at_cases true k d t Hok) as [[(c & -> & ? & ? & Hf) _]|(_ & ? & _)]; [|done].
  simpl. rewrite lookup_set_bucket by done. case_decide as Hs.
  - rewrite Hf. unfold lookup_at. by rewrite Hs.
  - by rewrite decide_False by congruence.
Qed.

Lemma del_at_cases k t :
  table_ok t →
  (∃ c, del_at k t = (set_bucket t (slot t k) c, lookup_at k t)
        ∧ NoDup c.*1 ∧ (∀ k', k' ∈ c.*1 → slot t k' = slot t k)
        ∧ ∀ k', chain_find k' c
                = if decide (k = k') then None else chain_find k' (bucket_at t (slot t k)))
  ∨ del_at k t = (t, None) ∧ lookup_at k t = None.
Proof.
  intros Hok. unfold del_at, lookup_at.
  pose proof (bucket_at_lookup t k Hok) as Hb.
  pose proof (ok_nodup t Hok _ _ Hb) as Hnd.
  pose proof (fun k' => ok_slot t Hok _ _ k' Hb) as Hsl.
  destruct (bucket_at t (slot t k)) as [|[k0 d0] c] eqn:Hc; [by right|].
  destruct (chain_del k ((k0, d0) :: c)) as [[c' old]|] eqn:E.
  - apply chain_del_Some in E as (Hf & Hnd' & Hk & Hf'); [|done]. left. rewrite Hf.
    exists c'. split_and!; auto.
  - apply chain_del_None in E. by right.
Qed.

Lemma del_at_ok k t : table_ok t → table_ok (del_at k t).1.
Proof.
  intros Hok. destruct (del_at_cases k t Hok) as [(c & -> & ? & ? & ?)|(-> & _)];
    [by apply set_bucket_ok|done].
Qed.

Lemma lookup_del_at k k' t :
  table_ok t →
  lookup_at k' (del_at k t).1 = if decide (k = k') then None else lookup_at k' t.
Proof.
  intros Hok.
  destruct (del_at_cases k t Hok) as [(c & -> & ? & ? & Hf)|(-> & Hn)]; simpl.
  - rewrite lookup_set_bucket by done. case_decide as Hs.
    + rewrite Hf. unfold lookup_at. by rewrite Hs.
    + by rewrite decide_False by congruence.
  - case_decide; congruence.
Qed.

Lemma del_at_result k t : table_ok t → (del_at k t).2 = lookup_at k t.
Proof.
  intros Hok. destruct (del_at_cases k t Hok) as [(c & -> & _)|(-> & ->)]; done.
Qed.

(** *** The finite map a table stands for *)

Definition table_map (t : chained_table hash D) : gmap K D :=
  list_to_map (entries t).

Lemma concat_lookup (tbl : list (list (K * D))) k i :
  (∀ j c, tbl !! j = Some c → k ∈ c.*1 → j = i) →
  (list_to_map (concat tbl) : gmap K D) !! k = chain_find k (default [] (tbl !! i)).
Proof.
  revert i. induction tbl as [|c tbl IH]; intros i Hi; [done|].
  cbn [concat]. rewrite list_to_map_app, lookup_union, list_to_map_chain.
  destruct (decide (k ∈ c.*1)) as [Hin|Hin].
  - pose proof (Hi 0%nat c eq_refl Hin) as <-. simpl.
    rewrite (IH (length tbl)).
    + rewrite lookup_ge_None_2 by lia. by destruct (chain_find k c).
    + intros j c' Hj Hk. exfalso. by specialize (Hi (S j) c' Hj Hk).
  - rewrite (proj2 (chain_find_None k c) Hin), (left_id_L None _).
    destruct i as [|i]; simpl.
    + rewrite (IH (length tbl)), lookup_ge_None_2 by
        (lia || (intros j c' Hj Hk; by specialize (Hi (S j) c' Hj Hk))).
      simpl. symmetry. by apply chain_find_None.
    + apply IH. intros j c' Hj Hk. by injection (Hi (S j) c' Hj Hk).
Qed.

Lemma table_map_lookup t k :
  table_ok t → table_map t !! k = lookup_at k t.
Proof.
  intros Hok. unfold table_map, entries, lookup_at, bucket_at.
  apply concat_lookup. intros j c Hj Hk. symmetry. by eapply ok_slot.
Qed.

Lemma entries_elem t k d :
  table_ok t → (k, d) ∈ entries t ↔ lookup_at k t = Some d.
Proof.
  intros Hok. unfold entries. rewrite list_elem_of_In, in_concat. split.
  - intros (c & Hc & Hin). apply list_elem_of_In, list_elem_of_lookup in Hc as [i Hi].
    apply list_elem_of_In in Hin.
    pose proof (list_elem_of_fmap_2 fst c _ Hin) as Hk. simpl in Hk.
    pose proof (ok_slot t Hok i c k Hi Hk) as <-.
    unfold lookup_at, bucket_at. rewrite Hi. simpl.
    apply chain_elem_find; [by eapply ok_nodup|done].
  - intros Hf. exists (bucket_at t (slot t k)).
    rewrite <-!list_elem_of_In. split.
    + apply list_elem_of_lookup. exists (slot t k). by apply bucket_at_lookup.
    + by apply chain_find_elem.
Qed.

End Table.
