(* ===== verification/Hash.v ===== *)
(** The three hash functions and the three table types of src/src/hash.c,
    src/src/hash32.c and src/src/fqdn_hash.c, as instances of the chained
    tables of HashTable.v; the bounds of the hash functions; and the [Dict]
    instance that discharges the interface for all of them. *)

From S2P Require Import Prelude NidTypes HashTable.

Local Open Scope Z_scope.

(** ** Hash functions *)

(** One turn of the loop: [ret_val ^= i; ret_val <<= 1] on [unsigned]. *)
Definition hash_step (ret_val i : Z) : Z := u32_wrap (Z.shiftl (Z.lxor ret_val i) 1).

Definition hash (nid : NID) : Z := foldl hash_step 0 (take 16 nid).

Definition hash32 (nid32 : NID32) : Z := foldl hash_step 0 (le_bytes 4 nid32).

(** The characters of a string are [char], so they sign-extend to [int] and
    convert to [unsigned]. *)
Definition fqdn_hash (s : list Z) : Z :=
  foldl (λ r c, hash_step r (u32_wrap (schar c))) 0 s.

(** ** Tables keyed by a NID (hash.c) *)

Abbreviation hash_table D := (chained_table hash D).

Definition construct_hash_table {D} (calloc_ok : bool) (size : nat) : hash_table D :=
  construct hash calloc_ok size.
Definition hash_insert {D} (malloc_ok : bool) (nid : NID) (data : D) (t : hash_table D)
  : hash_table D * option D := insert_at hash malloc_ok nid data t.
Definition hash_lookup {D} (nid : NID) (t : hash_table D) : option D := lookup_at hash nid t.
Definition hash_del {D} (nid : NID) (t : hash_table D) : hash_table D * option D :=
  del_at hash nid t.
Definition free_hash_table {D} (t : hash_table D) : hash_table D * list D := free_all hash t.

(** ** Tables keyed by a 32-bit address (hash32.c) *)

Abbreviation hash_table32 D := (chained_table hash32 D).

Definition construct_hash_table32 {D} (calloc_ok : bool) (size : nat) : hash_table32 D :=
  construct hash32 calloc_ok size.
Definition hash_insert32 {D} (malloc_ok : bool) (nid32 : NID32) (data : D)
  (t : hash_table32 D) : hash_table32 D * option D := insert_at hash32 malloc_ok nid32 data t.
Definition hash_lookup32 {D} (nid32 : NID32) (t : hash_table32 D) : option D :=
  lookup_at hash32 nid32 t.
Definition hash_del32 {D} (nid32 : NID32) (t : hash_table32 D)
  : hash_table32 D * option D := del_at hash32 nid32 t.
Definition free_hash_table32 {D} (t : hash_table32 D) : hash_table32 D * list D :=
  free_all hash32 t.

(** ** Tables keyed by a string (fqdn_hash.c); a key is the [strdup] of the
    characters before the NUL

    A failure of that [strdup], which the code does not test, is left out. *)

Abbreviation fqdn_hash_table D := (chained_table fqdn_hash D).

Definition construct_fqdn_hash_table {D} (calloc_ok : bool) (size : nat)
  : fqdn_hash_table D := construct fqdn_hash calloc_ok size.
Definition fqdn_hash_insert {D} (malloc_ok : bool) (key : list Z) (data : D)
  (t : fqdn_hash_table D) : fqdn_hash_table D * option D :=
  insert_at fqdn_hash malloc_ok key data t.
Definition fqdn_hash_lookup {D} (key : list Z) (t : fqdn_hash_table D) : option D :=
  lookup_at fqdn_hash key t.
Definition fqdn_hash_del {D} (key : list Z) (t : fqdn_hash_table D)
  : fqdn_hash_table D * option D := del_at fqdn_hash key t.
Definition free_fqdn_hash_table {D} (t : fqdn_hash_table D)
  : fqdn_hash_table D * list D := free_all fqdn_hash t.

(** [func] applied to every node, in slot order and then chain order. *)
Definition fqdn_hash_enumerate {D S} (func : list Z → D → S → S) (t : fqdn_hash_table D)
  (s : S) : S := foldl (λ s kd, func kd.1 kd.2 s) s (entries fqdn_hash t).

(** ** The interface, discharged for every chained table *)

#[export] Instance table_dict {K D} `{EqDecision K} (h : K → Z)
  : Dict (chained_table h D) K D := {
  dict_ok := table_ok h;
  dict_lookup := lookup_at h;
  dict_insert k d t := (insert_at h true k d t).1;
  dict_del k t := (del_at h k t).1;
}.

#[export] Instance table_dict_laws {K D} `{Countable K} (h : K → Z)
  : DictLaws (chained_table h D) K D.
Proof.
  split.
  - intros. by apply insert_at_ok.
  - intros. by apply del_at_ok.
  - intros. by apply lookup_insert_at.
  - intros. by apply lookup_del_at.
Qed.

(** ** Bounds of the hash functions *)

Lemma lxor_bound n a b :
  0 ≤ n → 0 ≤ a < 2 ^ n → 0 ≤ b < 2 ^ n → 0 ≤ Z.lxor a b < 2 ^ n.
Proof.
  intros Hn Ha Hb. apply Z.bounded_iff_bits_nonneg'; [done|apply Z.lxor_nonneg; lia|].
  intros l Hl. rewrite Z.lxor_spec.
  rewrite (proj1 (Z.bounded_iff_bits_nonneg' n a Hn (proj1 Ha)) Ha l Hl).
  by rewrite (proj1 (Z.bounded_iff_bits_nonneg' n b Hn (proj1 Hb)) Hb l Hl).
Qed.

Lemma hash_step_even r i : hash_step r i `mod` 2 = 0.
Proof.
  unfold hash_step, u32_wrap. rewrite Z.shiftl_mul_pow2 by lia. rewrite Z.pow_1_r.
  rewrite <-Znumtheory.Zmod_div_mod; [by apply Z.mod_mul|lia|lia|].
  by exists (2 ^ 31).
Qed.

(** While the accumulator has [8 + n] bits no bit is lost. *)
Lemma hash_step_exact n r i :
  0 ≤ n ≤ 23 → 0 ≤ r < 2 ^ (8 + n) → byte_ok i →
  hash_step r i = 2 * Z.lxor r i ∧ 0 ≤ hash_step r i < 2 ^ (8 + (n + 1)).
Proof.
  intros Hn Hr Hi. unfold byte_ok in Hi.
  assert (Hx : 0 ≤ Z.lxor r i < 2 ^ (8 + n)).
  { apply lxor_bound; [lia|done|]. split; [lia|].
    eapply Z.lt_le_trans; [apply Hi|]. change 256 with (2 ^ 8).
    apply Z.pow_le_mono_r; lia. }
  assert (Hp : 2 ^ (8 + (n + 1)) = 2 * 2 ^ (8 + n)).
  { replace (8 + (n + 1)) with (Z.succ (8 + n)) by lia. by rewrite Z.pow_succ_r by lia. }
  assert (2 ^ (8 + (n + 1)) ≤ 2 ^ 32) by (apply Z.pow_le_mono_r; lia).
  unfold hash_step, u32_wrap. rewrite Z.shiftl_mul_pow2, Z.pow_1_r by lia.
  rewrite Z.mod_small by lia. lia.
Qed.

Lemma foldl_hash_bound bs n r :
  0 ≤ n → n + Z.of_nat (length bs) ≤ 24 → 0 ≤ r < 2 ^ (8 + n) → bytes_ok bs →
  0 ≤ foldl hash_step r bs < 2 ^ (8 + (n + Z.of_nat (length bs))).
Proof.
  intros Hn Hl Hr Hb. revert n r Hn Hl Hr.
  induction Hb as [|b bs Hb _ IH]; intros n r Hn Hl Hr; cbn [foldl length] in *.
  { replace (n + Z.of_nat 0) with n by lia. done. }
  rewrite Nat2Z.inj_succ in *.
  replace (n + Z.succ (Z.of_nat (length bs))) with ((n + 1) + Z.of_nat (length bs)) by lia.
  apply IH; [lia..|]. by apply hash_step_exact; [lia|..].
Qed.

Lemma foldl_hash_even bs r :
  r `mod` 2 = 0 → foldl hash_step r bs `mod` 2 = 0.
Proof.
  revert r. induction bs as [|b bs IH]; intros r Hr; simpl; [done|].
  apply IH, hash_step_even.
Qed.

(** An even hash value lands in an even slot of a table of even size. *)
Lemma slot_even {K D} `{EqDecision K} (h : K → Z) (t : chained_table h D) k :
  h k `mod` 2 = 0 → 0 ≤ h k → Nat.Even (ht_size t) → Nat.Even (slot h t k).
Proof.
  intros Hh Hp [m Hm]. unfold slot. rewrite Hm.
  destruct (decide (m = 0%nat)) as [->|Hm0].
  { simpl. rewrite Zmod_0_r. exists (Z.to_nat (h k `div` 2)).
    pose proof (Z.div_mod (h k) 2). lia. }
  exists (Z.to_nat ((h k `div` 2) `mod` Z.of_nat m)).
  pose proof (Z.mod_pos_bound (h k `div` 2) (Z.of_nat m)).
  replace (Z.of_nat (2 * m)) with (2 * Z.of_nat m) by lia.
  assert (E : h k = 2 * (h k `div` 2)) by (pose proof (Z.div_mod (h k) 2); lia).
  rewrite E at 1. rewrite Z.mul_mod_distr_l by lia. lia.
Qed.
