(* ===== verification/Inet.v ===== *)
(** The conversions of the C library the daemon relies on:
    [inet_ntop]/[inet_pton] for both address families, over strings of
    character codes without the terminating NUL, and [strtok]/[strcmp] as the
    sources use them.  They follow the algorithms of the GNU C library; the
    dotted-quad pair is proved to round-trip. *)

From S2P Require Import Prelude NidTypes.

Local Open Scope Z_scope.

(** The character codes of a literal. *)
Fixpoint chars (s : string) : list Z :=
  match s with
  | EmptyString => []
  | String a s => Z.of_N (Ascii.N_of_ascii a) :: chars s
  end.

(** The C string at the start of a buffer, up to its NUL. *)
Fixpoint cstr (buf : list Z) : list Z :=
  match buf with
  | [] => []
  | b :: buf => if b =? 0 then [] else b :: cstr buf
  end.

Definition strlen (buf : list Z) : nat := length (cstr buf).

Lemma cstr_app_nul s r : 0 ∉ s → cstr (s ++ 0 :: r) = s.
Proof.
  induction s as [|x s IH]; intros H; simpl; [done|].
  apply not_elem_of_cons in H as [Hx Hs]. destruct (x =? 0) eqn:E; zbool; [congruence|].
  by rewrite IH.
Qed.

(** ["%02X"]. *)
Definition upper_hex (d : Z) : Z := if d <? 10 then 48 + d else 55 + d.
Definition hex2 (b : Z) : list Z := [upper_hex (b `div` 16); upper_hex (b `mod` 16)].

(** ** AF_INET *)

Definition dec_octet (b : Z) : list Z :=
  if b <? 10 then [48 + b]
  else if b <? 100 then [48 + b `div` 10; 48 + b `mod` 10]
  else [48 + b `div` 100; 48 + (b `div` 10) `mod` 10; 48 + b `mod` 10].

Definition inet_ntop4 (a : NID32) : list Z :=
  match le_bytes 4 a with
  | [b0; b1; b2; b3] =>
      dec_octet b0 ++ [46] ++ dec_octet b1 ++ [46] ++ dec_octet b2 ++ [46] ++ dec_octet b3
  | _ => []
  end.

(** [done]: the completed octets, [cur]: the octet being read, [saw]: whether
    it has a digit, [octets]: the octets begun. *)
Fixpoint pton4_go (src : list Z) (octs : list Z) (cur : Z) (saw : bool) (octets : nat)
    : option (list Z) :=
  match src with
  | [] => if (octets <? 4)%nat then None else Some (octs ++ [cur])
  | c :: src =>
      if (48 <=? c) && (c <=? 57) then
        let new := cur * 10 + (c - 48) in
        if saw && (cur =? 0) then None
        else if 255 <? new then None
        else if saw then pton4_go src octs new true octets
        else if (4 <? S octets)%nat then None
        else pton4_go src octs new true (S octets)
      else if (c =? 46) && saw then
        if (octets =? 4)%nat then None else pton4_go src (octs ++ [cur]) 0 false octets
      else None
  end.

Definition inet_pton4 (s : list Z) : option (list Z) := pton4_go s [] 0 false 0.

(** [inet_pton (AF_INET, s, &dst)]: [None] leaves [dst] as it was. *)
Definition inet_pton_in (s : list Z) : option NID32 := le_val <$> inet_pton4 s.

Lemma pton4_digit d rest octs cur saw octets :
  0 ≤ d ≤ 9 → saw && (cur =? 0) = false → cur * 10 + d ≤ 255 →
  (saw = true ∨ (octets < 4)%nat) →
  pton4_go (48 + d :: rest) octs cur saw octets
  = pton4_go rest octs (cur * 10 + d) true (if saw then octets else S octets).
Proof.
  intros Hd Hz Hm Ho. cbn [pton4_go].
  replace ((48 <=? 48 + d) && (48 + d <=? 57)) with true
    by (symmetry; apply andb_true_iff; rewrite !Z.leb_le; lia).
  replace (48 + d - 48) with d by lia. rewrite Hz.
  rewrite (proj2 (Z.ltb_ge 255 _)) by lia.
  destruct saw; [done|]. destruct Ho as [|Ho]; [done|].
  by rewrite (proj2 (Nat.ltb_ge 4 (S octets))) by lia.
Qed.

Lemma pton4_octet b rest octs octets :
  byte_ok b → (octets < 4)%nat →
  pton4_go (dec_octet b ++ rest) octs 0 false octets = pton4_go rest octs b true (S octets).
Proof.
  unfold byte_ok, dec_octet. intros Hb Ho.
  destruct (b <? 10) eqn:E1; zbool; [|destruct (b <? 100) eqn:E2; zbool];
    cbn [app]; rewrite pton4_digit by (try done; try (right; done); Z.to_euclidean_division_equations; lia).
  - done.
  - assert (b `div` 10 ≠ 0) by (Z.to_euclidean_division_equations; lia).
    rewrite pton4_digit.
    + f_equal. Z.to_euclidean_division_equations; lia.
    + Z.to_euclidean_division_equations; lia.
    + simpl. by apply Z.eqb_neq.
    + Z.to_euclidean_division_equations; lia.
    + by left.
  - assert (b `div` 100 ≠ 0) by (Z.to_euclidean_division_equations; lia).
    rewrite !pton4_digit.
    + f_equal. Z.to_euclidean_division_equations; lia.
    + Z.to_euclidean_division_equations; lia.
    + simpl. apply Z.eqb_neq. Z.to_euclidean_division_equations; lia.
    + Z.to_euclidean_division_equations; lia.
    + by left.
    + Z.to_euclidean_division_equations; lia.
    + simpl. apply Z.eqb_neq. lia.
    + Z.to_euclidean_division_equations; lia.
    + by left.
Qed.

Lemma inet_pton_ntop_in a : nid32_ok a → inet_pton_in (inet_ntop4 a) = Some a.
Proof.
  intros Ha. unfold inet_pton_in, inet_pton4, inet_ntop4.
  pose proof (le_bytes_ok 4 a) as Hb. pose proof (le_val_bytes4 a Ha) as Hv.
  destruct (le_bytes 4 a) as [|b0 [|b1 [|b2 [|b3 [|]]]]] eqn:E;
    try (apply (f_equal length) in E; by rewrite length_le_bytes in E).
  repeat (apply Forall_cons in Hb as [? Hb]).
  rewrite <-(app_nil_r (dec_octet b3)).
  do 3 (rewrite pton4_octet by (done || lia); cbn [app pton4_go]; simpl).
  rewrite pton4_octet by (done || lia). cbn [pton4_go app]. simpl. f_equal. exact Hv.
Qed.

(** ** AF_INET6 *)

Definition hex_digit (c : Z) : option Z :=
  if (48 <=? c) && (c <=? 57) then Some (c - 48)
  else if (97 <=? c) && (c <=? 102) then Some (c - 87)
  else if (65 <=? c) && (c <=? 70) then Some (c - 55)
  else None.

Definition word_bytes (val : Z) : list Z := [val `div` 256; val `mod` 256].

(** The end of [inet_pton6]: the pending group is stored and the bytes after
    a [::] move to the end. *)
Definition pton6_end (tp : list Z) (colonp : option nat) (seen : nat) (val : Z)
    : option (list Z) :=
  if (0 <? seen)%nat && (16 <? length tp + 2)%nat then None else
  let tp := if (0 <? seen)%nat then tp ++ word_bytes val else tp in
  match colonp with
  | Some i =>
      if (length tp =? 16)%nat then None
      else Some (take i tp ++ replicate (16 - length tp) 0 ++ drop i tp)
  | None => if (length tp =? 16)%nat then Some tp else None
  end.

Fixpoint pton6_go (src : list Z) (curtok : list Z) (tp : list Z) (colonp : option nat)
    (seen : nat) (val : Z) : option (list Z) :=
  match src with
  | [] => pton6_end tp colonp seen val
  | ch :: rest =>
      match hex_digit ch with
      | Some d =>
          if (seen =? 4)%nat then None
          else pton6_go rest curtok tp colonp (S seen) (val * 16 + d)
      | None =>
          if ch =? 58 then
            if (seen =? 0)%nat then
              match colonp with
              | Some _ => None
              | None => pton6_go rest rest tp (Some (length tp)) 0 0
              end
            else match rest with
                 | [] => None
                 | _ => if (16 <? length tp + 2)%nat then None
                        else pton6_go rest rest (tp ++ word_bytes val) colonp 0 0
                 end
          else if (ch =? 46) && (length tp + 4 <=? 16)%nat then
            match inet_pton4 curtok with
            | Some quad => pton6_end (tp ++ quad) colonp 0 0
            | None => None
            end
          else None
      end
  end.

Definition inet_pton6 (s : list Z) : option NID :=
  match s with
  | [] => None
  | 58 :: rest =>
      match rest with 58 :: _ => pton6_go rest rest [] None 0 0 | _ => None end
  | _ => pton6_go s s [] None 0 0
  end.

Definition hex_char (d : Z) : Z := if d <? 10 then 48 + d else 87 + d.

(** [%x] of a 16-bit group. *)
Definition hex_word (w : Z) : list Z :=
  let d3 := w `div` 4096 in
  let d2 := (w `div` 256) `mod` 16 in
  let d1 := (w `div` 16) `mod` 16 in
  let d0 := w `mod` 16 in
  if 0 <? d3 then [hex_char d3; hex_char d2; hex_char d1; hex_char d0]
  else if 0 <? d2 then [hex_char d2; hex_char d1; hex_char d0]
  else if 0 <? d1 then [hex_char d1; hex_char d0]
  else [hex_char d0].

Fixpoint words_of (bs : list Z) : list Z :=
  match bs with
  | hi :: lo :: bs => hi * 256 + lo :: words_of bs
  | _ => []
  end.

(** Length of the run of zero groups at the head. *)
Fixpoint zero_run (ws : list Z) : nat :=
  match ws with
  | w :: ws => if w =? 0 then S (zero_run ws) else 0
  | [] => 0
  end.

(** The first longest run of zero groups: its start and length. *)
Fixpoint best_run (ws : list Z) (i : nat) (best : nat * nat) : nat * nat :=
  match ws with
  | [] => best
  | _ :: ws' =>
      let n := zero_run ws in
      best_run ws' (S i) (if (best.2 <? n)%nat then (i, n) else best)
  end.

Fixpoint join_groups (gs : list (list Z)) : list Z :=
  match gs with
  | [] => []
  | [g] => g
  | g :: gs => g ++ [58] ++ join_groups gs
  end.

Definition inet_ntop6 (n : NID) : list Z :=
  let ws := words_of n in
  let best := best_run ws 0 (0%nat, 0%nat) in
  if (best.2 <? 2)%nat then join_groups (hex_word <$> ws)
  else
    let quad := le_val (drop 12 n) in
    if (best.1 =? 0)%nat
         && ((best.2 =? 6)%nat || ((best.2 =? 5)%nat && (default 0 (ws !! 5%nat) =? 65535))) then
      [58; 58] ++ (if (best.2 =? 5)%nat then hex_word 65535 ++ [58] else []) ++ inet_ntop4 quad
    else
      join_groups (hex_word <$> take best.1 ws) ++ [58; 58]
        ++ join_groups (hex_word <$> drop (best.1 + best.2) ws).

Example ntop6_sample :
  inet_ntop6 [0x3f;0xfe;0;3;0;0;0;0;0;0;0;0;0;0;0;0x11] = chars "3ffe:3::11".
Proof. reflexivity. Qed.

Example pton6_sample :
  inet_pton6 (chars "ffff:ffff::f") = Some [255;255;255;255;0;0;0;0;0;0;0;0;0;0;0;15].
Proof. reflexivity. Qed.

Example pton6_bad : inet_pton6 (chars "3ffe:::4") = None.
Proof. reflexivity. Qed.

(** ** What the parsers return *)

Lemma pton4_go_ok src octs cur (saw : bool) octets r :
  bytes_ok octs → byte_ok cur →
  octets = (if saw then S (length octs) else length octs) →
  (octets ≤ 4)%nat → (saw = false → octets < 4)%nat →
  pton4_go src octs cur saw octets = Some r → bytes_ok r ∧ length r = 4%nat.
Proof.
  revert octs cur saw octets. induction src as [|c src IH]; intros octs cur saw octets Ho Hc He Hle Hs H.
  - simpl in H. destruct (octets <? 4)%nat eqn:E; [done|]. apply Nat.ltb_ge in E. simplify_eq.
    destruct saw; [|lia]. rewrite length_app. split; [|simpl; lia].
    apply bytes_ok_app. split; [done|]. by repeat constructor; try apply Hc.
  - cbn [pton4_go] in H. destruct ((48 <=? c) && (c <=? 57)) eqn:Ed.
    + zbool. destruct (saw && (cur =? 0)); [done|].
      destruct (255 <? cur * 10 + (c - 48)) eqn:E2; [done|]. zbool.
      assert (byte_ok (cur * 10 + (c - 48))) by (unfold byte_ok in *; lia).
      destruct saw.
      * eapply IH in H; try done; lia.
      * destruct (4 <? S octets)%nat eqn:E3; [done|]. apply Nat.ltb_ge in E3.
        eapply IH in H; try done; lia.
    + destruct ((c =? 46) && saw) eqn:E4; [|done]. apply andb_true_iff in E4 as [_ ->].
      destruct (octets =? 4)%nat eqn:E5; [done|]. apply Nat.eqb_neq in E5.
      eapply IH in H; try done; try lia.
      * apply bytes_ok_app. split; [done|]. by repeat constructor; try apply Hc.
      * rewrite length_app. simpl. lia.
Qed.

Lemma inet_pton4_ok s r : inet_pton4 s = Some r → bytes_ok r ∧ length r = 4%nat.
Proof. apply pton4_go_ok; try done; try constructor; unfold byte_ok; simpl; lia. Qed.

Lemma inet_pton_in_ok s a : inet_pton_in s = Some a → nid32_ok a.
Proof.
  unfold inet_pton_in. destruct (inet_pton4 s) as [r|] eqn:E; [|done]. intros H. simplify_eq/=.
  apply inet_pton4_ok in E as [Hb Hl]. pose proof (le_val_bounds r Hb) as H.
  rewrite Hl in H. exact H.
Qed.

Lemma word_bytes_ok val : 0 ≤ val < 2 ^ 16 → bytes_ok (word_bytes val).
Proof.
  intros H. unfold word_bytes.
  assert (0 ≤ val `div` 256 < 256)
    by (split; [apply Z.div_pos; lia|apply Z.div_lt_upper_bound; lia]).
  assert (0 ≤ val `mod` 256 < 256) by (apply Z.mod_pos_bound; lia).
  by repeat apply Forall_cons_2.
Qed.

Lemma pton6_end_ok tp colonp seen val r :
  bytes_ok tp → (length tp ≤ 16)%nat → 0 ≤ val < 2 ^ 16 →
  pton6_end tp colonp seen val = Some r → nid_ok r.
Proof.
  intros Hb Hl Hv H. unfold pton6_end in H.
  destruct ((0 <? seen)%nat && (16 <? length tp + 2)%nat) eqn:E; [done|].
  set (tp' := if (0 <? seen)%nat then tp ++ word_bytes val else tp) in H.
  assert (bytes_ok tp' ∧ (length tp' ≤ 16)%nat) as [Hb' Hl'].
  { unfold tp'. destruct (0 <? seen)%nat; [|done]. simpl in E. apply Nat.ltb_ge in E.
    rewrite bytes_ok_app, length_app. split; [|simpl; lia]. by split; [|apply word_bytes_ok]. }
  destruct colonp as [i|].
  - destruct (length tp' =? 16)%nat eqn:E'; [done|]. apply Nat.eqb_neq in E'. simplify_eq.
    split.
    + rewrite !length_app, length_replicate, length_take, length_drop. lia.
    + rewrite !bytes_ok_app. auto with nid.
  - destruct (length tp' =? 16)%nat eqn:E'; [|done]. apply Nat.eqb_eq in E'. simplify_eq.
    by split.
Qed.

Lemma hex_digit_bounds c d : hex_digit c = Some d → 0 ≤ d < 16.
Proof. unfold hex_digit. intros H. repeat case_match; simplify_eq; zbool; lia. Qed.

Lemma pton6_go_ok src curtok tp colonp seen val r :
  bytes_ok tp → (length tp ≤ 16)%nat → (seen ≤ 4)%nat → 0 ≤ val < 16 ^ Z.of_nat seen →
  pton6_go src curtok tp colonp seen val = Some r → nid_ok r.
Proof.
  revert curtok tp colonp seen val.
  induction src as [|ch rest IH]; intros curtok tp colonp seen val Hb Hl Hs Hv H.
  all: assert (16 ^ Z.of_nat seen ≤ 2 ^ 16) by (change (2 ^ 16) with (16 ^ 4); apply Z.pow_le_mono_r; lia).
  - eapply pton6_end_ok, H; try done; lia.
  - cbn [pton6_go] in H. destruct (hex_digit ch) as [d|] eqn:Ed.
    + destruct (seen =? 4)%nat eqn:E; [done|]. apply Nat.eqb_neq in E.
      apply hex_digit_bounds in Ed. eapply IH in H; try done; try lia.
      rewrite Nat2Z.inj_succ, Z.pow_succ_r; lia.
    + destruct (ch =? 58).
      * destruct (seen =? 0)%nat; [destruct colonp; [done|]|].
        -- eapply IH in H; try done; simpl; lia.
        -- destruct rest as [|c' rest]; [done|].
           destruct (16 <? length tp + 2)%nat eqn:E; [done|]. apply Nat.ltb_ge in E.
           eapply IH in H; try done; try (simpl; lia).
           ++ rewrite bytes_ok_app. split; [done|]. apply word_bytes_ok. lia.
           ++ rewrite length_app. simpl. lia.
      * destruct ((ch =? 46) && (length tp + 4 <=? 16)%nat) eqn:E; [|done].
        apply andb_true_iff in E as [_ E]. apply Nat.leb_le in E.
        destruct (inet_pton4 curtok) as [quad|] eqn:Eq; [|done].
        apply inet_pton4_ok in Eq as [Hqb Hql].
        eapply pton6_end_ok, H; [|rewrite length_app; lia|lia].
        by rewrite bytes_ok_app.
Qed.

Lemma inet_pton6_ok s n : inet_pton6 s = Some n → nid_ok n.
Proof.
  intros H. unfold inet_pton6 in H.
  repeat case_match; try done;
    (eapply pton6_go_ok, H; [constructor|simpl; lia|lia|simpl; lia]).
Qed.

(** ** [strtok] with a single delimiter

    Leading delimiters are skipped, so empty fields disappear. *)
Fixpoint tok_skip (d : Z) (s : list Z) : list Z :=
  match s with
  | c :: s' => if c =? d then tok_skip d s' else s
  | [] => []
  end.

Fixpoint tok_span (d : Z) (s : list Z) : list Z * list Z :=
  match s with
  | [] => ([], [])
  | c :: s' => if c =? d then ([], s') else let '(tok, rest) := tok_span d s' in (c :: tok, rest)
  end.

(** The next token and what the saved pointer then designates. *)
Definition strtok (d : Z) (s : list Z) : option (list Z) * list Z :=
  match tok_skip d s with
  | [] => (None, [])
  | s' => let '(tok, rest) := tok_span d s' in (Some tok, rest)
  end.
