(* ===== verification/InetProps.v ===== *)
(** The text of an identifier reads back: [inet_pton (AF_INET6)] of what
    [inet_ntop (AF_INET6)] writes, for every identifier, and the lengths of the
    texts. *)

From S2P Require Import Prelude NidTypes Inet.

Local Open Scope Z_scope.

(** ** Groups *)

Definition word_ok (w : Z) : Prop := 0 ≤ w < 2 ^ 16.

Lemma hex_digit_char d : 0 ≤ d < 16 → hex_digit (hex_char d) = Some d.
Proof.
  intros H. unfold hex_char, hex_digit. destruct (d <? 10) eqn:E; zbool.
  - rewrite (proj2 (Z.leb_le 48 _)), (proj2 (Z.leb_le _ 57)) by lia. cbn. f_equal. lia.
  - rewrite (proj2 (Z.leb_gt _ 57)), andb_false_r by lia.
    rewrite (proj2 (Z.leb_le 97 _)), (proj2 (Z.leb_le _ 102)) by lia. cbn. f_equal. lia.
Qed.

Lemma pton6_digit d rest ct tp cp seen val :
  0 ≤ d < 16 → (seen < 4)%nat →
  pton6_go (hex_char d :: rest) ct tp cp seen val = pton6_go rest ct tp cp (S seen) (val * 16 + d).
Proof.
  intros Hd Hs. cbn [pton6_go]. rewrite hex_digit_char by done.
  by rewrite (proj2 (Nat.eqb_neq seen 4)) by lia.
Qed.

(** The digits of a group are read. *)
Lemma pton6_word w rest ct tp cp :
  word_ok w →
  ∃ k, (0 < k ≤ 4)%nat ∧ pton6_go (hex_word w ++ rest) ct tp cp 0 0 = pton6_go rest ct tp cp k w.
Proof.
  intros Hw. unfold word_ok in Hw. unfold hex_word.
  assert (Hd : 0 ≤ w `div` 4096 < 16) by (Z.to_euclidean_division_equations; lia).
  assert (H2 : 0 ≤ (w `div` 256) `mod` 16 < 16) by (apply Z.mod_pos_bound; lia).
  assert (H1 : 0 ≤ (w `div` 16) `mod` 16 < 16) by (apply Z.mod_pos_bound; lia).
  assert (H0 : 0 ≤ w `mod` 16 < 16) by (apply Z.mod_pos_bound; lia).
  destruct (0 <? w `div` 4096) eqn:E3; zbool; [exists 4%nat|
    destruct (0 <? (w `div` 256) `mod` 16) eqn:E2; zbool; [exists 3%nat|
      destruct (0 <? (w `div` 16) `mod` 16) eqn:E1; zbool; [exists 2%nat|exists 1%nat]]];
    (split; [lia|]); cbn [app]; rewrite !pton6_digit by (assumption || lia); f_equal;
    Z.to_euclidean_division_equations; lia.
Qed.

Lemma hex_word_cons w : word_ok w → ∃ d l, 0 ≤ d < 16 ∧ hex_word w = hex_char d :: l ∧ (length l ≤ 3)%nat.
Proof.
  intros Hw. unfold word_ok in Hw. unfold hex_word.
  repeat case_match; zbool; (do 2 eexists; split; [|split; [reflexivity|simpl; lia]]);
    Z.to_euclidean_division_equations; lia.
Qed.

Lemma hex_char_not_colon d : 0 ≤ d < 16 → hex_char d ≠ 58.
Proof. intros H. unfold hex_char. case_match; zbool; lia. Qed.

Definition words_bytes (ws : list Z) : list Z := concat (word_bytes <$> ws).

Lemma length_words_bytes ws : length (words_bytes ws) = (2 * length ws)%nat.
Proof. induction ws as [|w ws IH]; [done|]. unfold words_bytes in *. cbn [fmap list_fmap concat]. rewrite length_app. simpl in *. lia. Qed.

(** All groups but the last are stored, the last one is being read. *)
Lemma pton6_groups ws w rest ct tp cp :
  Forall word_ok (ws ++ [w]) → (length tp + 2 * length ws + 2 ≤ 16)%nat →
  ∃ k ct', (0 < k ≤ 4)%nat
    ∧ pton6_go (join_groups (hex_word <$> ws ++ [w]) ++ rest) ct tp cp 0 0
      = pton6_go rest ct' (tp ++ words_bytes ws) cp k w.
Proof.
  revert ct tp. induction ws as [|v ws IH]; intros ct tp H Hl; cbn [app fmap list_fmap].
  - apply Forall_cons in H as [Hw _]. cbn [join_groups].
    destruct (pton6_word w rest ct tp cp Hw) as (k & Hk & E). exists k, ct. by rewrite app_nil_r.
  - cbn [app] in H. apply Forall_cons in H as [Hv H]. cbn [length] in Hl.
    assert (Hne : ∃ g gs, hex_word <$> ws ++ [w] = g :: gs) by (destruct ws; by do 2 eexists).
    assert (E : join_groups (hex_word v :: (hex_word <$> ws ++ [w]))
                = hex_word v ++ 58 :: join_groups (hex_word <$> ws ++ [w]))
      by (destruct Hne as (g & gs & ->); done).
    rewrite E, <-app_assoc. cbn [app].
    destruct (pton6_word v (58 :: join_groups (hex_word <$> ws ++ [w]) ++ rest) ct tp cp Hv) as (k & Hk & ->).
    assert (Hj : ∃ c l, join_groups (hex_word <$> ws ++ [w]) ++ rest = c :: l).
    { destruct ws as [|u ws]; cbn [app fmap list_fmap] in *; apply Forall_cons in H as [Hu _];
        destruct (hex_word_cons _ Hu) as (d & l & _ & Ed & _); rewrite Ed; cbn [join_groups];
        destruct Hne as (g & gs & Eg); [|destruct (hex_word <$> ws ++ [w])]; by do 2 eexists. }
    destruct (IH (join_groups (hex_word <$> ws ++ [w]) ++ rest) (tp ++ word_bytes v) H) as (k' & ct' & Hk' & E');
      [rewrite length_app; simpl; lia|].
    exists k', ct'. split; [done|]. rewrite <-app_assoc in E'.
    change (words_bytes (v :: ws)) with (word_bytes v ++ words_bytes ws). rewrite <-E'.
    cbn [pton6_go]. change (hex_digit 58) with (@None Z). cbn beta iota.
    rewrite (proj2 (Nat.eqb_neq k 0)) by lia. change (58 =? 58) with true. cbn iota.
    destruct Hj as (c & l & ->). by rewrite (proj2 (Nat.ltb_ge _ _)) by lia.
Qed.

(** ** The run of zeros *)

Lemma zero_run_spec ws : (zero_run ws ≤ length ws)%nat ∧ take (zero_run ws) ws = replicate (zero_run ws) 0.
Proof.
  induction ws as [|w ws [IH1 IH2]]; [done|]. cbn [zero_run].
  destruct (w =? 0) eqn:E; zbool; subst; cbn [length take replicate]; (split; [lia|]); [by f_equal|done].
Qed.

(** [b] is a run of zeros of [W]. *)
Definition is_run (W : list Z) (b : nat * nat) : Prop :=
  (b.1 + b.2 ≤ length W)%nat ∧ take b.2 (drop b.1 W) = replicate b.2 0.

Lemma best_run_is_run W ws i b : ws = drop i W → (i ≤ length W)%nat → is_run W b → is_run W (best_run ws i b).
Proof.
  revert i b. induction ws as [|w ws IH]; intros i b E Hi Hb; cbn [best_run]; [done|].
  assert (Hi' : (i < length W)%nat).
  { apply (f_equal length) in E. rewrite length_drop in E. cbn in E. lia. }
  apply IH; [|lia|].
  - replace (S i) with (i + 1)%nat by lia. by rewrite <-drop_drop, <-E.
  - destruct (b.2 <? zero_run (w :: ws))%nat; [|done]. destruct (zero_run_spec (w :: ws)) as [H1 H2].
    split; cbn [fst snd]; [|by rewrite <-E].
    apply (f_equal length) in E. rewrite length_drop in E. lia.
Qed.

Lemma best_run_split W :
  let b := best_run W 0 (0%nat, 0%nat) in
  W = take b.1 W ++ replicate b.2 0 ++ drop (b.1 + b.2) W ∧ (b.1 + b.2 ≤ length W)%nat.
Proof.
  cbv zeta. destruct (best_run_is_run W W 0 (0%nat, 0%nat)) as [H1 H2]; [done|lia|split; [simpl; lia|done]|].
  split; [|done]. rewrite <-H2, <-drop_drop, take_drop. by rewrite take_drop.
Qed.

(** ** Groups and bytes *)

Lemma words_of_ok bs : bytes_ok bs → Forall word_ok (words_of bs).
Proof.
  revert bs. fix IH 1. intros [|hi [|lo bs]] H; try constructor.
  - apply Forall_cons in H as [H1 H]. apply Forall_cons in H as [H2 _]. unfold word_ok, byte_ok in *. lia.
  - apply IH. apply Forall_cons in H as [_ H]. by apply Forall_cons in H as [_ H].
Qed.

Lemma words_bytes_of n bs : length bs = (2 * n)%nat → bytes_ok bs → words_bytes (words_of bs) = bs ∧ length (words_of bs) = n.
Proof.
  revert bs. induction n as [|n IH]; intros bs Hl Hb.
  - by destruct bs.
  - destruct bs as [|hi [|lo bs]]; [simpl in Hl; lia..|].
    apply Forall_cons in Hb as [H1 Hb]. apply Forall_cons in Hb as [H2 Hb]. unfold byte_ok in *.
    destruct (IH bs) as [E L]; [simpl in Hl; lia|done|]. cbn [words_of]. split; [|simpl; lia].
    change (words_bytes (_ :: words_of bs)) with (word_bytes (hi * 256 + lo) ++ words_bytes (words_of bs)).
    rewrite E. unfold word_bytes. cbn [app]. f_equal; [|f_equal]; Z.to_euclidean_division_equations; lia.
Qed.

Lemma words_bytes_app a b : words_bytes (a ++ b) = words_bytes a ++ words_bytes b.
Proof. unfold words_bytes. by rewrite fmap_app, concat_app. Qed.

Lemma words_bytes_zeros n : words_bytes (replicate n 0) = replicate (2 * n) 0.
Proof.
  induction n as [|n IH]; [done|]. replace (2 * S n)%nat with (S (S (2 * n))) by lia.
  cbn [replicate]. change (words_bytes (0 :: replicate n 0)) with (0 :: 0 :: words_bytes (replicate n 0)).
  by rewrite IH.
Qed.

(** ** The end of the text *)

(** After the groups [ws], if any, behind the position [i] of the double colon. *)
Lemma pton6_right ws ct tp i :
  Forall word_ok ws → (length tp + 2 * length ws < 16)%nat → (i ≤ length tp)%nat →
  pton6_go (join_groups (hex_word <$> ws)) ct tp (Some i) 0 0
  = Some (take i tp ++ replicate (16 - length tp - 2 * length ws) 0 ++ drop i tp ++ words_bytes ws).
Proof.
  intros Hw Hl Hi. destruct (decide (ws = [])) as [-> |Hne].
  - cbn. rewrite (proj2 (Nat.eqb_neq _ 16)) by (simpl in Hl; lia). rewrite app_nil_r. do 4 f_equal. lia.
  - destruct (exists_last Hne) as (l & w & ->). rewrite length_app in Hl. cbn [length] in Hl.
    destruct (pton6_groups l w [] ct tp (Some i) Hw) as (k & ct' & Hk & E); [lia|].
    rewrite app_nil_r in E. rewrite E. cbn [pton6_go]. unfold pton6_end.
    rewrite (proj2 (Nat.ltb_lt 0 k)) by lia. cbn [andb].
    rewrite length_app, length_words_bytes, (proj2 (Nat.ltb_ge 16 _)) by lia.
    rewrite <-app_assoc, !length_app, length_words_bytes. change (length (word_bytes w)) with 2%nat.
    rewrite (proj2 (Nat.eqb_neq _ 16)) by lia.
    rewrite take_app_le, drop_app_le by lia. rewrite words_bytes_app.
    change (words_bytes [w]) with (word_bytes w ++ []). rewrite app_nil_r. cbn [length]. do 4 f_equal. lia.
Qed.

Lemma pton4_ntop4 a : nid32_ok a → inet_pton4 (inet_ntop4 a) = Some (le_bytes 4 a).
Proof.
  intros Ha. pose proof (inet_pton_ntop_in a Ha) as H. unfold inet_pton_in in H.
  destruct (inet_pton4 (inet_ntop4 a)) as [r|] eqn:E; [|done]. apply inet_pton4_ok in E as [Hb Hl].
  assert (Ea : le_val r = a) by by injection H. by rewrite <-Ea, <-Hl, le_bytes_val.
Qed.

Lemma pton6_octet b rest ct tp cp :
  byte_ok b → ∃ k v, pton6_go (dec_octet b ++ rest) ct tp cp 0 0 = pton6_go rest ct tp cp k v.
Proof.
  intros Hb. unfold byte_ok in Hb.
  assert (Hc : ∀ d, 0 ≤ d < 10 → 48 + d = hex_char d)
    by (intros d Hd; unfold hex_char; by rewrite (proj2 (Z.ltb_lt d 10)) by lia).
  unfold dec_octet. repeat case_match; zbool; cbn [app]; rewrite !Hc by (Z.to_euclidean_division_equations; lia);
    rewrite !pton6_digit by (try lia; Z.to_euclidean_division_equations; lia); by do 2 eexists.
Qed.

Lemma inet_ntop4_start a : ∃ b r, byte_ok b ∧ inet_ntop4 a = dec_octet b ++ 46 :: r.
Proof.
  pose proof (le_bytes_ok 4 a) as Hb. pose proof (length_le_bytes 4 a) as L. unfold inet_ntop4.
  destruct (le_bytes 4 a) as [|b0 [|b1 [|b2 [|b3 [|]]]]]; try done.
  apply Forall_cons in Hb as [H _]. by do 2 eexists.
Qed.

Lemma dec_octet_start b : byte_ok b → ∃ d l, 0 ≤ d < 16 ∧ dec_octet b = hex_char d :: l.
Proof.
  intros Hb. unfold byte_ok in Hb.
  assert (Hc : ∀ d, 0 ≤ d < 10 → 48 + d = hex_char d)
    by (intros d Hd; unfold hex_char; by rewrite (proj2 (Z.ltb_lt d 10)) by lia).
  unfold dec_octet. repeat case_match; zbool; (eexists _, _; split; [|f_equal; apply Hc]);
    Z.to_euclidean_division_equations; lia.
Qed.

(** A dotted quad ends the text. *)
Lemma pton6_quad a tp i :
  nid32_ok a → (length tp + 4 < 16)%nat → (i ≤ length tp)%nat →
  pton6_go (inet_ntop4 a) (inet_ntop4 a) tp (Some i) 0 0
  = Some (take i tp ++ replicate (12 - length tp) 0 ++ drop i tp ++ le_bytes 4 a).
Proof.
  intros Ha Hl Hi. pose proof (pton4_ntop4 a Ha) as E.
  pose proof (length_le_bytes 4 a) as L. destruct (inet_ntop4_start a) as (b & r & Hbb & Er).
  rewrite Er at 1. destruct (pton6_octet b (46 :: r) (inet_ntop4 a) tp (Some i) Hbb) as (k & v & ->).
  cbn [pton6_go]. change (hex_digit 46) with (@None Z). change (46 =? 58) with false. change (46 =? 46) with true.
  cbn iota. rewrite (proj2 (Nat.leb_le _ 16)) by lia. cbn [andb]. rewrite E. unfold pton6_end.
  change (0 <? 0)%nat with false. cbn [andb]. rewrite length_app, L.
  rewrite (proj2 (Nat.eqb_neq _ 16)) by lia. rewrite take_app_le, drop_app_le by lia. do 3 f_equal. f_equal. lia.
Qed.

(** ** The whole text *)

Lemma inet_pton6_start c s : c ≠ 58 → inet_pton6 (c :: s) = pton6_go (c :: s) (c :: s) [] None 0 0.
Proof. intros H. unfold inet_pton6. repeat case_match; done. Qed.

Lemma join_groups_start ws w rest :
  Forall word_ok (w :: ws) →
  ∃ d s, 0 ≤ d < 16 ∧ join_groups (hex_word <$> w :: ws) ++ rest = hex_char d :: s.
Proof.
  intros H. apply Forall_cons in H as [Hw _]. destruct (hex_word_cons w Hw) as (d & l & Hd & E & _).
  exists d. cbn [fmap list_fmap]. rewrite E. destruct (hex_word <$> ws); cbn [join_groups app]; by eexists.
Qed.

(** Groups, a double colon, groups. *)
Lemma pton6_double l r :
  Forall word_ok l → Forall word_ok r → (length l + length r < 8)%nat →
  inet_pton6 (join_groups (hex_word <$> l) ++ [58; 58] ++ join_groups (hex_word <$> r))
  = Some (words_bytes l ++ replicate (16 - 2 * length l - 2 * length r) 0 ++ words_bytes r).
Proof.
  intros Hl Hr Hn. destruct (decide (l = [])) as [-> |Hne].
  - cbn [fmap list_fmap join_groups app]. unfold inet_pton6. cbn [pton6_go].
    change (hex_digit 58) with (@None Z). change (58 =? 58) with true. cbn iota. change (0 =? 0)%nat with true. cbn iota.
    rewrite pton6_right; [done|done|simpl in *; lia|done].
  - destruct (exists_last Hne) as (ws & w & ->). rewrite length_app in Hn. cbn [length] in Hn.
    set (R := join_groups (hex_word <$> r)).
    assert (∃ d s, 0 ≤ d < 16 ∧ join_groups (hex_word <$> ws ++ [w]) ++ [58; 58] ++ R = hex_char d :: s) as (d & s & Hd & E).
    { destruct ws as [|v ws]; apply join_groups_start; by cbn [app] in Hl. }
    rewrite E, inet_pton6_start by (by apply hex_char_not_colon). rewrite <-E at 1.
    destruct (pton6_groups ws w ([58; 58] ++ R) (hex_char d :: s) [] None Hl) as (k & ct & Hk & ->); [simpl; lia|].
    cbn [app pton6_go]. change (hex_digit 58) with (@None Z). change (58 =? 58) with true. cbn iota.
    rewrite (proj2 (Nat.eqb_neq k 0)) by lia. change (0 =? 0)%nat with true. cbn iota.
    pose proof (length_words_bytes ws) as Lw.
    rewrite (proj2 (Nat.ltb_ge 16 _)) by lia.
    subst R. rewrite pton6_right; [|done|rewrite length_app, Lw; simpl; lia|done].
    rewrite firstn_all, drop_all, words_bytes_app, length_app, Lw, length_app.
    change (words_bytes [w]) with (word_bytes w ++ []). rewrite app_nil_r. cbn [length app].
    do 4 f_equal. simpl. lia.
Qed.

Lemma pton6_plain l :
  Forall word_ok l → length l = 8%nat → inet_pton6 (join_groups (hex_word <$> l)) = Some (words_bytes l).
Proof.
  intros Hl Hn. assert (Hne : l ≠ []) by by intros ->.
  destruct (exists_last Hne) as (ws & w & ->). rewrite length_app in Hn. cbn [length] in Hn.
  assert (∃ d s, 0 ≤ d < 16 ∧ join_groups (hex_word <$> ws ++ [w]) ++ [] = hex_char d :: s) as (d & s & Hd & E).
  { destruct ws as [|v ws]; apply join_groups_start; by cbn [app] in Hl. }
  rewrite app_nil_r in E. rewrite E, inet_pton6_start by (by apply hex_char_not_colon). rewrite <-E at 1.
  destruct (pton6_groups ws w [] (hex_char d :: s) [] None Hl) as (k & ct & Hk & Eg); [simpl; lia|].
  rewrite app_nil_r in Eg. rewrite Eg. cbn [pton6_go]. unfold pton6_end.
  pose proof (length_words_bytes ws) as Lw.
  rewrite (proj2 (Nat.ltb_lt 0 k)) by lia. cbn [andb app]. rewrite (proj2 (Nat.ltb_ge 16 _)) by lia.
  rewrite length_app, Lw. change (length (word_bytes w)) with 2%nat. rewrite (proj2 (Nat.eqb_eq _ 16)) by lia.
  rewrite words_bytes_app. change (words_bytes [w]) with (word_bytes w ++ []). by rewrite app_nil_r.
Qed.

(** The double colon, perhaps [ffff:], and a dotted quad. *)
Lemma pton6_mapped (m : bool) a :
  nid32_ok a →
  inet_pton6 ([58; 58] ++ (if m then hex_word 65535 ++ [58] else []) ++ inet_ntop4 a)
  = Some (replicate (if m then 10 else 12) 0 ++ (if m then word_bytes 65535 else []) ++ le_bytes 4 a).
Proof.
  intros Ha. assert (inet_ntop4 a ≠ []) as Hne.
  { destruct (inet_ntop4_start a) as (b & r & _ & ->). by destruct (dec_octet b). }
  cbn [app]. unfold inet_pton6. cbn [pton6_go]. change (hex_digit 58) with (@None Z).
  change (58 =? 58) with true. cbn iota. change (0 =? 0)%nat with true. cbn iota. destruct m.
  - destruct (pton6_word 65535 (58 :: inet_ntop4 a) ((hex_word 65535 ++ [58]) ++ inet_ntop4 a) []
      (Some 0%nat)) as (k & Hk & E); [unfold word_ok; lia|].
    rewrite <-app_assoc in E |- *. cbn [app] in E |- *. cbn [length]. rewrite E. cbn [pton6_go].
    change (hex_digit 58) with (@None Z). change (58 =? 58) with true. cbn iota.
    rewrite (proj2 (Nat.eqb_neq k 0)) by lia. cbn [length Nat.add]. change (16 <? 2)%nat with false.
    destruct (inet_ntop4 a) as [|c' s'] eqn:Ea; [done|]. rewrite <-Ea.
    by rewrite (pton6_quad a ([] ++ word_bytes 65535) 0 Ha) by (simpl; lia).
  - cbn [app length]. by rewrite (pton6_quad a [] 0 Ha) by (simpl; lia).
Qed.

Lemma inet_pton6_ntop6 n : nid_ok n → inet_pton6 (inet_ntop6 n) = Some n.
Proof.
  intros [Ln Bn]. destruct (words_bytes_of 8 n Ln Bn) as [Eb Lw]. pose proof (words_of_ok n Bn) as Hw.
  destruct (best_run_split (words_of n)) as [Es Hb]. unfold inet_ntop6.
  set (b := best_run (words_of n) 0 (0%nat, 0%nat)) in *. set (ws := words_of n) in *.
  destruct (b.2 <? 2)%nat eqn:E2; [by rewrite pton6_plain, Eb|]. apply Nat.ltb_ge in E2.
  assert (Ew : words_bytes (take b.1 ws) ++ replicate (2 * b.2) 0 ++ words_bytes (drop (b.1 + b.2) ws) = n).
  { by rewrite <-words_bytes_zeros, <-!words_bytes_app, <-Es. }
  case_match eqn:Eq.
  - apply andb_true_iff in Eq as [E1 Eq]. apply Nat.eqb_eq in E1. rewrite E1, take_0 in Ew. cbn [Nat.add] in Ew.
    change (words_bytes []) with (@nil Z) in Ew. cbn [app] in Ew.
    assert (Hd : bytes_ok (drop 12 n)) by by apply Forall_drop.
    assert (Ld : length (drop 12 n) = 4%nat) by (rewrite length_drop, Ln; done).
    pose proof (le_bytes_val (drop 12 n) Hd) as Hq. rewrite Ld in Hq.
    assert (Ha : nid32_ok (le_val (drop 12 n))).
    { pose proof (le_val_bounds _ Hd) as H. by rewrite Ld in H. }
    rewrite pton6_mapped, Hq by done. f_equal. apply orb_true_iff in Eq as [E5|[E5 E6]%andb_true_iff];
      apply Nat.eqb_eq in E5; rewrite E5 in *; cbn [Nat.eqb].
    + rewrite <-Ew at 1. rewrite drop_app_length' by done. exact Ew.
    + zbool. destruct (ws !! 5%nat) as [w|] eqn:Ew5; [|done]. cbn in E6. subst w.
      rewrite (drop_S _ _ _ Ew5) in Ew.
      change (words_bytes (65535 :: drop 6 ws)) with (word_bytes 65535 ++ words_bytes (drop 6 ws)) in Ew.
      rewrite <-Ew at 1. change (replicate (2 * 5) 0 ++ word_bytes 65535 ++ words_bytes (drop 6 ws))
        with ((replicate 10 0 ++ word_bytes 65535) ++ words_bytes (drop 6 ws)).
      rewrite drop_app_length' by done. exact Ew.
  - rewrite pton6_double; [|by apply Forall_take|by apply Forall_drop|rewrite length_take, length_drop; lia].
    f_equal. etransitivity; [|exact Ew]. do 3 f_equal. rewrite length_take, length_drop. lia.
Qed.

(** A text fits the buffer of [INET6_ADDRSTRLEN] characters. *)
Lemma length_hex_word w : (length (hex_word w) ≤ 4)%nat.
Proof. unfold hex_word. repeat case_match; simpl; lia. Qed.

Lemma length_join_words ws : (length (join_groups (hex_word <$> ws)) ≤ 5 * length ws)%nat.
Proof.
  induction ws as [|w ws IH]; [done|]. pose proof (length_hex_word w).
  change (hex_word <$> w :: ws) with (hex_word w :: (hex_word <$> ws)).
  destruct (hex_word <$> ws) as [|g gs]; [simpl; lia|].
  change (join_groups (hex_word w :: g :: gs)) with (hex_word w ++ [58] ++ join_groups (g :: gs)).
  rewrite !length_app. cbn [length]. lia.
Qed.

Lemma length_inet_ntop4 y : (length (inet_ntop4 y) ≤ 15)%nat.
Proof.
  unfold inet_ntop4. cbn [le_bytes]. assert (H : ∀ b, (length (dec_octet b) ≤ 3)%nat).
  { intros b. unfold dec_octet. repeat case_match; simpl; lia. }
  rewrite !length_app. change (length [46]) with 1%nat.
  repeat match goal with |- context [dec_octet ?b] => pose proof (H b); generalize dependent (dec_octet b); intros end.
  lia.
Qed.

Lemma length_inet_ntop6 n : nid_ok n → (length (inet_ntop6 n) ≤ 45)%nat.
Proof.
  intros [Ln Bn]. destruct (words_bytes_of 8 n Ln Bn) as [_ Lw]. unfold inet_ntop6.
  destruct (best_run_split (words_of n)) as [_ Hb].
  set (b := best_run (words_of n) 0 (0%nat, 0%nat)) in *.
  case_match eqn:E2; [pose proof (length_join_words (words_of n)); lia|]. apply Nat.ltb_ge in E2. case_match.
  - pose proof (length_inet_ntop4 (le_val (drop 12 n))). case_match; rewrite !length_app; cbn [length]; [|lia].
    change (length (hex_word 65535)) with 4%nat. lia.
  - pose proof (length_join_words (take b.1 (words_of n))) as H1.
    pose proof (length_join_words (drop (b.1 + b.2) (words_of n))) as H2.
    rewrite length_take in H1. rewrite length_drop in H2. rewrite !length_app. cbn [length]. lia.
Qed.

(** ** The characters of the texts *)

Lemma dec_octet_chars b : byte_ok b → Forall (λ c, 48 ≤ c ≤ 57) (dec_octet b).
Proof.
  unfold byte_ok, dec_octet. intros Hb.
  repeat case_match; zbool; repeat constructor; Z.to_euclidean_division_equations; lia.
Qed.

Lemma dec_octet_not_nil b : dec_octet b ≠ [].
Proof. unfold dec_octet. by repeat case_match. Qed.

Lemma inet_ntop4_chars y : Forall (λ c, 46 ≤ c ≤ 57) (inet_ntop4 y) ∧ inet_ntop4 y ≠ [].
Proof.
  unfold inet_ntop4. pose proof (le_bytes_ok 4 y) as H. cbn [le_bytes] in *.
  repeat (apply Forall_cons in H as [? H]). split.
  - rewrite !Forall_app. split_and!; try (eapply Forall_impl; [by apply dec_octet_chars|intros; simpl in *; lia]);
      repeat constructor; lia.
  - intros E. apply app_eq_nil in E as [E _]. by apply dec_octet_not_nil in E.
Qed.

(** Digits, dots, colons. *)
Definition address_char (x : Z) : Prop := 46 ≤ x ≤ 58 ∨ 97 ≤ x ≤ 102.

Lemma hex_char_ok d : 0 ≤ d < 16 → address_char (hex_char d).
Proof. unfold address_char, hex_char. intros H. case_match; zbool; lia. Qed.

Lemma hex_word_chars w : word_ok w → Forall address_char (hex_word w).
Proof.
  intros Hw. unfold word_ok in Hw. unfold hex_word.
  repeat case_match; zbool; repeat apply Forall_cons_2; try apply Forall_nil_2; apply hex_char_ok;
    Z.to_euclidean_division_equations; lia.
Qed.

Lemma join_chars ws : Forall word_ok ws → Forall address_char (join_groups (hex_word <$> ws)).
Proof.
  induction ws as [|w ws IH]; [constructor|]. intros H. apply Forall_cons in H as [Hw H].
  specialize (IH H). apply hex_word_chars in Hw.
  change (hex_word <$> w :: ws) with (hex_word w :: (hex_word <$> ws)).
  destruct (hex_word <$> ws) as [|g gs]; [done|].
  change (join_groups (hex_word w :: g :: gs)) with (hex_word w ++ [58] ++ join_groups (g :: gs)).
  rewrite !Forall_app. split_and!; [done| |done]. apply Forall_cons. split; [unfold address_char; lia|constructor].
Qed.

Lemma inet_ntop4_address a : Forall address_char (inet_ntop4 a).
Proof. eapply Forall_impl; [apply inet_ntop4_chars|]. unfold address_char. simpl. lia. Qed.

Lemma inet_ntop6_address n : nid_ok n → Forall address_char (inet_ntop6 n).
Proof.
  intros [Ln Bn]. pose proof (words_of_ok n Bn) as Hw. unfold inet_ntop6. set (b := best_run _ _ _).
  assert (Hc : address_char 58) by (unfold address_char; lia).
  case_match; [by apply join_chars|]. case_match.
  - rewrite !Forall_app. split_and!; [by repeat constructor| |apply inet_ntop4_address].
    case_match; [|constructor]. rewrite Forall_app. split; [|by repeat constructor].
    apply hex_word_chars. unfold word_ok. lia.
  - rewrite !Forall_app. split_and!; [by apply join_chars, Forall_take|by repeat constructor|by apply join_chars, Forall_drop].
Qed.

(** Each family refuses the texts of the other. *)
Lemma pton4_go_colon s octs cur saw octets : 58 ∈ s → pton4_go s octs cur saw octets = None.
Proof.
  revert octs cur saw octets. induction s as [|x s IH]; intros octs cur saw octets H; [by apply elem_of_nil in H|].
  cbn [pton4_go]. apply elem_of_cons in H as [<-|H]; [done|]. repeat case_match; try done; by apply IH.
Qed.

Lemma inet_ntop6_colon n : nid_ok n → 58 ∈ inet_ntop6 n.
Proof.
  intros [Ln Bn]. destruct (words_bytes_of 8 n Ln Bn) as [_ Lw]. unfold inet_ntop6. set (b := best_run _ _ _).
  case_match; [|case_match; rewrite !elem_of_app; [left; by left|right; left; by left]].
  destruct (words_of n) as [|v [|w ws]]; [done..|].
  change (hex_word <$> v :: w :: ws) with (hex_word v :: hex_word w :: (hex_word <$> ws)).
  change (join_groups (hex_word v :: hex_word w :: (hex_word <$> ws)))
    with (hex_word v ++ [58] ++ join_groups (hex_word w :: (hex_word <$> ws))).
  rewrite !elem_of_app. right. left. by left.
Qed.

Lemma pton_in_ntop6 n : nid_ok n → inet_pton_in (inet_ntop6 n) = None.
Proof.
  intros Hn. unfold inet_pton_in, inet_pton4. by rewrite pton4_go_colon by by apply inet_ntop6_colon.
Qed.

Lemma pton6_ntop4 a : nid32_ok a → inet_pton6 (inet_ntop4 a) = None.
Proof.
  intros Ha. destruct (inet_ntop4_start a) as (b & r & Hb & E).
  destruct (dec_octet_start b Hb) as (d & l & Hd & Ed).
  rewrite E, Ed. cbn [app]. rewrite inet_pton6_start by (by apply hex_char_not_colon).
  change (hex_char d :: l ++ 46 :: r) with ((hex_char d :: l) ++ 46 :: r). rewrite <-Ed.
  destruct (pton6_octet b (46 :: r) (dec_octet b ++ 46 :: r) [] None Hb) as (k & v & ->).
  rewrite <-E. cbn [pton6_go]. change (hex_digit 46) with (@None Z). change (46 =? 58) with false.
  change (46 =? 46) with true. cbn iota. cbn [andb length Nat.add Nat.leb]. rewrite pton4_ntop4 by done.
  unfold pton6_end. cbn [andb Nat.ltb Nat.leb app]. by rewrite length_le_bytes.
Qed.
