(* ===== verification/LList.v ===== *)
(** The linked list of src/src/llist.c: a header with a count and nodes that
    hold a NID and the [strdup] of a dotted quad. *)

From S2P Require Import Prelude NidTypes.

Local Open Scope Z_scope.

Record ll_node := mkNode { ll_nid : NID; ll_ip : list Z }.

(** The chain of [next] pointers from the header is the list of nodes. *)
Record ll_head := mkLL { ll_size : Z; ll_nodes : list ll_node }.

Definition init_ll : ll_head := mkLL 0 [].

(** The walk of [tail]: follow [next] until it is NULL. *)
Fixpoint tail_from (current : ll_node) (next : list ll_node) : ll_node :=
  match next with
  | [] => current
  | n :: next => tail_from n next
  end.

Definition tail (head : ll_head) : option ll_node :=
  match ll_nodes head with
  | [] => None
  | n :: next => Some (tail_from n next)
  end.

Definition add_ll (nid : NID) (ip : list Z) (ll : ll_head) : ll_head :=
  let node := mkNode nid ip in
  let size := ll_size ll + 1 in
  match tail ll with
  | Some _last => mkLL size (ll_nodes ll ++ [node])   (* last->next = node *)
  | None => mkLL size [node]                          (* ll->next = node *)
  end.

(** [free_ll] frees the rest of the chain before the node: the nodes in the
    order they are freed. *)
Fixpoint free_ll (nodes : list ll_node) : list ll_node :=
  match nodes with
  | [] => []
  | n :: next => free_ll next ++ [n]
  end.

Definition destroy_ll (ll : ll_head) : list ll_node := free_ll (ll_nodes ll).

(** The count agrees with the chain. *)
Definition ll_ok (ll : ll_head) : Prop := ll_size ll = Z.of_nat (length (ll_nodes ll)).

Lemma tail_None ll : tail ll = None ↔ ll_nodes ll = [].
Proof. unfold tail. by destruct (ll_nodes ll). Qed.

Lemma tail_last ll : tail ll = last (ll_nodes ll).
Proof.
  unfold tail. destruct (ll_nodes ll) as [|n next]; [done|].
  revert n. induction next as [|m next IH]; intros n; [done|]. apply IH.
Qed.

Lemma ll_nodes_add nid ip ll : ll_nodes (add_ll nid ip ll) = ll_nodes ll ++ [mkNode nid ip].
Proof.
  unfold add_ll. destruct (tail ll) eqn:E; [done|]. apply tail_None in E. by rewrite E.
Qed.

Lemma add_ll_ok nid ip ll : ll_ok ll → ll_ok (add_ll nid ip ll).
Proof.
  unfold ll_ok. rewrite ll_nodes_add, length_app. intros H.
  assert (ll_size (add_ll nid ip ll) = ll_size ll + 1) as ->
    by (unfold add_ll; by destruct (tail ll)). rewrite H. simpl. lia.
Qed.

Lemma free_ll_reverse nodes : free_ll nodes = reverse nodes.
Proof. induction nodes as [|n next IH]; [done|]. simpl. by rewrite IH, reverse_cons. Qed.

#[export] Hint Resolve add_ll_ok : nid.
