(* ===== verification/EntryTable.v ===== *)
(** Tables of pointers.  The daemon's tables do not hold their entries: a
    bucket holds the pointer that [calloc] returned, the callers mutate the
    entry through it and insert the same pointer again.  An entry table is a
    dictionary of locations with the heap of the entries; the invariant says
    that pointers are allocated and not shared, and the lemmas give each
    access pattern of the sources its effect on the finite map from keys to
    entries. *)

From S2P Require Import Prelude NidTypes HashTable Hash LList Inet.

Local Open Scope Z_scope.

Abbreviation loc := positive.

Record entry_table (T V : Type) := mkPT {
  et_dict : T;             (* key to pointer *)
  et_heap : gmap loc V;    (* pointer to entry *)
  et_next : loc;           (* the next pointer calloc returns *)
}.
Arguments mkPT {T V} _ _ _.
Arguments et_dict {T V} _.
Arguments et_heap {T V} _.
Arguments et_next {T V} _.

Section EntryTable.
  Context {T K V : Type} `{DictLaws T K loc}.
  Implicit Types (t : entry_table T V) (k : K) (p : loc) (v : V).

Definition et_empty (d : T) : entry_table T V := mkPT d ∅ 1%positive.

(** [*_lookup (k, &table)] and the entry the pointer designates. *)
Definition et_find (k : K) (t : entry_table T V) : option (loc * V) :=
  match dict_lookup k (et_dict t) with
  | Some p => match et_heap t !! p with Some v => Some (p, v) | None => None end
  | None => None
  end.

(** [calloc] followed by the assignments that give the entry its value. *)
Definition et_calloc (v : V) (t : entry_table T V) : loc * entry_table T V :=
  (et_next t, mkPT (et_dict t) (<[et_next t := v]> (et_heap t)) (Pos.succ (et_next t))).

(** Assignment through a pointer. *)
Definition et_write (p : loc) (v : V) (t : entry_table T V) : entry_table T V :=
  mkPT (et_dict t) (<[p := v]> (et_heap t)) (et_next t).

(** [*_insert (k, p, &table)], the allocation of the bucket succeeding. *)
Definition et_link (k : K) (p : loc) (t : entry_table T V) : entry_table T V :=
  mkPT (dict_insert k p (et_dict t)) (et_heap t) (et_next t).

(** [*_del (k, &table)]; the entry itself stays allocated. *)
Definition et_del (k : K) (t : entry_table T V) : entry_table T V :=
  mkPT (dict_del k (et_dict t)) (et_heap t) (et_next t).

(** The two access patterns: a fresh entry, and an entry found before. *)
Definition et_add (k : K) (v : V) (t : entry_table T V) : entry_table T V :=
  let '(p, t) := et_calloc v t in et_link k p t.
Definition et_update (k : K) (p : loc) (v : V) (t : entry_table T V) : entry_table T V :=
  et_link k p (et_write p v t).

(** The finite map the table stands for. *)
Definition et_get (t : entry_table T V) (k : K) : option V := snd <$> et_find k t.

Record et_ok (t : entry_table T V) : Prop := {
  et_ok_dict : dict_ok (et_dict t);
  et_ok_alloc k p : dict_lookup k (et_dict t) = Some p → is_Some (et_heap t !! p);
  et_ok_alias k k' p :
    dict_lookup k (et_dict t) = Some p → dict_lookup k' (et_dict t) = Some p → k = k';
  et_ok_next p : is_Some (et_heap t !! p) → (p < et_next t)%positive;
}.

Lemma et_find_get k t p v : et_find k t = Some (p, v) → et_get t k = Some v.
Proof. intros E. unfold et_get. by rewrite E. Qed.

Lemma et_get_find k t v : et_get t k = Some v → ∃ p, et_find k t = Some (p, v).
Proof.
  unfold et_get. intros E. destruct (et_find k t) as [[p w]|]; simplify_eq/=. by exists p.
Qed.

Lemma et_find_None k t : et_find k t = None ↔ et_get t k = None.
Proof. unfold et_get. by destruct (et_find k t). Qed.

Lemma et_find_dict k t p v :
  et_find k t = Some (p, v) ↔ dict_lookup k (et_dict t) = Some p ∧ et_heap t !! p = Some v.
Proof.
  unfold et_find. destruct (dict_lookup k _) as [q|]; [|naive_solver].
  destruct (et_heap t !! q) eqn:E; naive_solver.
Qed.

Lemma et_empty_ok d :
  dict_ok d → (∀ k, dict_lookup k d = None) → et_ok (et_empty d).
Proof.
  intros Hd Hl. split; simpl; [done|..].
  - intros k p. by rewrite Hl.
  - intros k k' p. by rewrite Hl.
  - intros p. rewrite lookup_empty. by intros [].
Qed.

Lemma et_get_empty d k : (∀ k, dict_lookup k d = None) → et_get (et_empty d) k = None.
Proof. intros Hl. unfold et_get, et_find. simpl. by rewrite Hl. Qed.

Lemma et_fresh t : et_ok t → et_heap t !! et_next t = None.
Proof.
  intros Ht. destruct (et_heap t !! et_next t) eqn:E; [|done].
  pose proof (et_ok_next t Ht (et_next t) ltac:(by rewrite E)). lia.
Qed.

Lemma et_add_ok k v t : et_ok t → et_ok (et_add k v t).
Proof.
  intros Ht. pose proof (et_fresh t Ht) as Hf. destruct Ht as [Hd Ha Hs Hn].
  split; simpl.
  - by apply dict_insert_ok.
  - intros k' p. rewrite dict_lookup_insert by done. case_decide; intros; simplify_eq.
    + rewrite lookup_insert_eq. eauto.
    + destruct (decide (p = et_next t)) as [->|]; [rewrite lookup_insert_eq; eauto|].
      rewrite lookup_insert_ne by done. eauto.
  - intros k1 k2 p. rewrite !dict_lookup_insert by done.
    assert (∀ k', dict_lookup k' (et_dict t) ≠ Some (et_next t)) as Hnew.
    { intros k' Hk'. apply Ha in Hk' as [? ?]. congruence. }
    repeat case_decide; intros; simplify_eq; try done; [by exfalso; eapply Hnew..|eauto].
  - intros p. rewrite lookup_insert. case_decide; [subst; lia|].
    intros ?%Hn. lia.
Qed.

Lemma et_get_add k k' v t :
  et_ok t → et_get (et_add k v t) k' = if decide (k = k') then Some v else et_get t k'.
Proof.
  intros Ht. pose proof (et_fresh t Ht) as Hf.
  unfold et_get, et_find. simpl. rewrite dict_lookup_insert by apply Ht.
  case_decide; [by rewrite lookup_insert_eq|].
  destruct (dict_lookup k' (et_dict t)) as [p|] eqn:E; [|done].
  rewrite lookup_insert_ne; [done|]. intros <-.
  destruct (et_ok_alloc t Ht k' _ E). congruence.
Qed.

Lemma et_update_ok k p v0 v t :
  et_ok t → et_find k t = Some (p, v0) → et_ok (et_update k p v t).
Proof.
  intros [Hd Ha Hs Hn] [Hk Hp]%et_find_dict. split; simpl.
  - by apply dict_insert_ok.
  - intros k' q. rewrite dict_lookup_insert by done. rewrite lookup_insert.
    repeat case_decide; intros; simplify_eq; eauto.
  - intros k1 k2 q. rewrite !dict_lookup_insert by done.
    repeat case_decide; intros; simplify_eq; eauto.
  - intros q. rewrite lookup_insert. case_decide; [|by auto]. intros _. subst.
    apply Hn. eauto.
Qed.

Lemma et_get_update k k' p v0 v t :
  et_ok t → et_find k t = Some (p, v0) →
  et_get (et_update k p v t) k' = if decide (k = k') then Some v else et_get t k'.
Proof.
  intros Ht [Hk Hp]%et_find_dict. unfold et_get, et_find. simpl.
  rewrite dict_lookup_insert by apply Ht.
  case_decide; [by rewrite lookup_insert_eq|].
  destruct (dict_lookup k' (et_dict t)) as [q|] eqn:E; [|done].
  rewrite lookup_insert_ne; [done|]. intros <-.
  by pose proof (et_ok_alias t Ht _ _ _ Hk E).
Qed.

Lemma et_del_ok k t : et_ok t → et_ok (et_del k t).
Proof.
  intros [Hd Ha Hs Hn]. split; simpl.
  - by apply dict_del_ok.
  - intros k' p. rewrite dict_lookup_del by done. case_decide; eauto || done.
  - intros k1 k2 p. rewrite !dict_lookup_del by done.
    repeat case_decide; intros; simplify_eq; eauto.
  - done.
Qed.

Lemma et_get_del k k' t :
  et_ok t → et_get (et_del k t) k' = if decide (k = k') then None else et_get t k'.
Proof.
  intros Ht. unfold et_get, et_find. simpl. rewrite dict_lookup_del by apply Ht.
  by case_decide.
Qed.

(** A property of every binding. *)
Definition et_all (P : K → V → Prop) t : Prop := ∀ k v, et_get t k = Some v → P k v.

Lemma et_all_add (P : K → V → Prop) k v t :
  et_ok t → P k v → et_all P t → et_all P (et_add k v t).
Proof.
  intros Ht Hv Ha k' v'. rewrite et_get_add by done. case_decide; [naive_solver|apply Ha].
Qed.

Lemma et_all_del (P : K → V → Prop) k t : et_ok t → et_all P t → et_all P (et_del k t).
Proof.
  intros Ht Ha k' v'. rewrite et_get_del by done. case_decide; [done|apply Ha].
Qed.

(** Inserting the pointer that is already bound changes nothing a lookup can
    see: the second half of the update pattern is redundant. *)
Lemma et_link_same k p v t :
  et_ok t → et_find k t = Some (p, v) →
  ∀ k', dict_lookup k' (et_dict (et_link k p t)) = dict_lookup k' (et_dict t).
Proof.
  intros Ht [Hk _]%et_find_dict k'. simpl. rewrite dict_lookup_insert by apply Ht.
  case_decide; congruence.
Qed.

End EntryTable.

#[export] Hint Resolve et_empty_ok et_add_ok et_update_ok et_del_ok : nid.

(** ** [hash_enumerate] of hash.c

    The data are taken to be [conn_entry] pointers; [clk i] is the value of
    the [time (NULL)] call of the [i]-th visited node. *)

Abbreviation conn_table := (entry_table (hash_table loc) conn_entry).

Definition is_listed (now : Z) (ce : conn_entry) : bool :=
  (now <? ce_tstamp ce + RVS_UPDATE_TIMEOUT) || (ce_tstamp ce =? 0).

Fixpoint enumerate_from (clk : nat → Z) (i : nat) (nodes : list (NID * loc))
    (heap : gmap loc conn_entry) (ll : ll_head) : ll_head :=
  match nodes with
  | [] => ll
  | (nid, p) :: nodes =>
      let ll := match heap !! p with
                | Some ce => if is_listed (clk i) ce
                             then add_ll nid (inet_ntop4 (ce_ip ce)) ll else ll
                | None => ll
                end in
      enumerate_from clk (S i) nodes heap ll
  end.

Definition hash_enumerate (clk : nat → Z) (t : conn_table) (ll : ll_head) : ll_head :=
  enumerate_from clk 0 (entries hash (et_dict t)) (et_heap t) ll.

Lemma enumerate_from_app clk i nodes heap ll :
  ∃ new, ll_nodes (enumerate_from clk i nodes heap ll) = ll_nodes ll ++ new
         ∧ (∀ n, n ∈ new ↔ ∃ j p ce, nodes !! j = Some (ll_nid n, p) ∧ heap !! p = Some ce
                     ∧ is_listed (clk (i + j)%nat) ce = true ∧ ll_ip n = inet_ntop4 (ce_ip ce)).
Proof.
  revert i ll. induction nodes as [|[nid p] nodes IH]; intros i ll; simpl.
  { exists []. rewrite app_nil_r. split; [done|]. set_solver. }
  destruct (heap !! p) as [ce|] eqn:Ep; [destruct (is_listed (clk i) ce) eqn:El|].
  - destruct (IH (S i) (add_ll nid (inet_ntop4 (ce_ip ce)) ll)) as (new & Hnew & Hin).
    exists (mkNode nid (inet_ntop4 (ce_ip ce)) :: new). split.
    { by rewrite Hnew, ll_nodes_add, <-app_assoc. }
    intros n. rewrite elem_of_cons, Hin. split.
    + intros [->|(j & q & ce' & ?)].
      * exists 0%nat, p, ce. by rewrite Nat.add_0_r.
      * exists (S j), q, ce'. by rewrite Nat.add_succ_r.
    + intros ([|j] & q & ce' & Hj & Hq & Hl & Hip); simplify_eq/=.
      * left. destruct n; simpl in *. by subst.
      * right. exists j, q, ce'. by rewrite Nat.add_succ_r in Hl.
  - destruct (IH (S i) ll) as (new & Hnew & Hin). exists new. split; [done|].
    intros n. rewrite Hin. split.
    + intros (j & q & ce' & ?). exists (S j), q, ce'. by rewrite Nat.add_succ_r.
    + intros ([|j] & q & ce' & Hj & Hq & Hl & Hip); simplify_eq/=.
      * rewrite Nat.add_0_r in Hl. congruence.
      * exists j, q, ce'. by rewrite Nat.add_succ_r in Hl.
  - destruct (IH (S i) ll) as (new & Hnew & Hin). exists new. split; [done|].
    intros n. rewrite Hin. split.
    + intros (j & q & ce' & ?). exists (S j), q, ce'. by rewrite Nat.add_succ_r.
    + intros ([|j] & q & ce' & Hj & Hq & Hl & Hip); simplify_eq/=.
      exists j, q, ce'. by rewrite Nat.add_succ_r in Hl.
Qed.

(** With a fixed clock reading, the list gains exactly the table's fresh and
    static entries. *)
Lemma hash_enumerate_spec now t ll nid ip :
  et_ok t →
  mkNode nid ip ∈ ll_nodes (hash_enumerate (λ _, now) t ll) ↔
  mkNode nid ip ∈ ll_nodes ll
  ∨ ∃ ce, et_get t nid = Some ce ∧ is_listed now ce = true ∧ ip = inet_ntop4 (ce_ip ce).
Proof.
  intros Ht. unfold hash_enumerate.
  destruct (enumerate_from_app (λ _, now) 0 (entries hash (et_dict t)) (et_heap t) ll)
    as (new & -> & Hin). rewrite elem_of_app, Hin. simpl. f_equiv. split.
  - intros (j & p & ce & Hj & Hp & Hl & ->). exists ce. split; [|done].
    apply list_elem_of_lookup_2 in Hj.
    apply (entries_elem hash) in Hj; [|apply (et_ok_dict t Ht)].
    apply (et_find_get nid t p). by apply et_find_dict.
  - intros (ce & (p & [Hd Hp]%et_find_dict)%et_get_find & Hl & ->).
    apply (entries_elem hash) in Hd; [|apply (et_ok_dict t Ht)].
    apply list_elem_of_lookup in Hd as [j Hj]. by exists j, p, ce.
Qed.

Lemma enumerate_from_ok clk i nodes heap ll :
  ll_ok ll → ll_ok (enumerate_from clk i nodes heap ll).
Proof.
  revert i ll. induction nodes as [|[nid p] nodes IH]; intros i ll Hll; simpl; [done|].
  apply IH. repeat case_match; auto with nid.
Qed.

(** ** Insertion of bindings with a time stamp

    [newCMEntry] of connection_mapper.c and [newRTEntry] of nid_routing.c are
    the same code over two tables, as are [staticCMEntry] and [staticRTEntry]:
    a time stamp of 0 marks an entry the dynamic insertion must not change. *)

Definition conn_new (nid : NID) (ip : NID32) (now : Z) (t : conn_table) : conn_table :=
  match et_find nid t with
  | Some (ce, v) =>
      if ce_tstamp v =? 0 then t else et_update nid ce (mkConn ip now) t
  | None => et_add nid (mkConn ip now) t
  end.

Definition conn_static (nid : NID) (ip : NID32) (t : conn_table) : conn_table :=
  match et_find nid t with
  | Some (ce, v) => et_update nid ce (mkConn ip (ce_tstamp v)) t
  | None => et_add nid (mkConn ip 0) t
  end.

(** What the two insertions leave for their key. *)
Definition refreshed (ip : NID32) (now : Z) (old : option conn_entry) : conn_entry :=
  match old with
  | Some ce => if ce_tstamp ce =? 0 then ce else mkConn ip now
  | None => mkConn ip now
  end.

Definition pinned (ip : NID32) (old : option conn_entry) : conn_entry :=
  mkConn ip (match old with Some ce => ce_tstamp ce | None => 0 end).

Lemma conn_new_ok nid ip now t : et_ok t → et_ok (conn_new nid ip now t).
Proof.
  intros H. unfold conn_new. destruct (et_find nid t) as [[p v]|] eqn:E.
  - case_match; [done|]. by eapply et_update_ok.
  - by apply et_add_ok.
Qed.

Lemma et_get_conn_new nid nid' ip now t :
  et_ok t →
  et_get (conn_new nid ip now t) nid'
  = if decide (nid = nid') then Some (refreshed ip now (et_get t nid)) else et_get t nid'.
Proof.
  intros H. unfold conn_new, refreshed. destruct (et_find nid t) as [[p v]|] eqn:E.
  - pose proof (et_find_get _ _ _ _ E) as Hg. rewrite Hg. case_match; simpl.
    + case_decide; by subst.
    + by erewrite et_get_update.
  - rewrite (proj1 (et_find_None _ _) E). by rewrite et_get_add.
Qed.

Lemma conn_static_ok nid ip t : et_ok t → et_ok (conn_static nid ip t).
Proof.
  intros H. unfold conn_static. destruct (et_find nid t) as [[p v]|] eqn:E.
  - by eapply et_update_ok.
  - by apply et_add_ok.
Qed.

Lemma et_get_conn_static nid nid' ip t :
  et_ok t →
  et_get (conn_static nid ip t) nid'
  = if decide (nid = nid') then Some (pinned ip (et_get t nid)) else et_get t nid'.
Proof.
  intros H. unfold conn_static, pinned. destruct (et_find nid t) as [[p v]|] eqn:E.
  - rewrite (et_find_get _ _ _ _ E). by erewrite et_get_update.
  - rewrite (proj1 (et_find_None _ _) E). by rewrite et_get_add.
Qed.

(** The keys of a table are identifiers and its addresses 32-bit values. *)
Definition binding_ok (nid : NID) (ce : conn_entry) : Prop := nid_ok nid ∧ nid32_ok (ce_ip ce).
Definition bindings_ok (t : conn_table) : Prop := et_all binding_ok t.

Lemma conn_add_bindings nid ce (t : conn_table) :
  et_ok t → binding_ok nid ce → bindings_ok t → bindings_ok (et_add nid ce t).
Proof. apply et_all_add. Qed.

Lemma conn_new_bindings nid ip now t :
  et_ok t → nid_ok nid → nid32_ok ip → bindings_ok t → bindings_ok (conn_new nid ip now t).
Proof.
  intros Ht Hn Hi Ha k ce. rewrite et_get_conn_new by done. case_decide; [|apply Ha].
  unfold refreshed. intros. destruct (et_get t nid) as [v|] eqn:E; [case_match|];
    simplify_eq/=; try done. by eapply Ha.
Qed.

Lemma conn_static_bindings nid ip t :
  et_ok t → nid_ok nid → nid32_ok ip → bindings_ok t → bindings_ok (conn_static nid ip t).
Proof.
  intros Ht Hn Hi Ha k ce. rewrite et_get_conn_static by done. case_decide; [|apply Ha].
  intros. by simplify_eq/=.
Qed.

Lemma conn_del_bindings (nid : NID) (t : conn_table) :
  et_ok t → bindings_ok t → bindings_ok (et_del nid t).
Proof. apply et_all_del. Qed.

#[export] Hint Resolve conn_new_ok conn_static_ok conn_add_bindings
  conn_new_bindings conn_static_bindings conn_del_bindings : nid.
