(* ===== verification/Configuration.v ===== *)
(** src/src/configuration.c: the daemon's configuration variables, the
    accessors, the walk over the XML configuration tree, the fields of a DHCP
    response, and the derivation of 32-bit identifiers from NIDs (also the
    one of src/src/dnshandler.c, which computes the same address another
    way). *)

From S2P Require Import Prelude NidTypes Inet.

Local Open Scope Z_scope.

(** ** 32-bit identifiers *)

(** [memcpy (pt32, nid + 12, 4); *pt32 = 1]. *)
Definition nid2nid32 (nid : NID) : NID32 := le_val (splice 0 [1] (slice 12 4 nid)).

(** [for (control = 13; control < 16; control++) last24bit = last24bit * 256 +
    byte], on [unsigned int]. *)
Definition last24bit (nid : NID) : Z :=
  foldl (λ acc b, u32_wrap (u32_wrap (acc * 256) + b)) 0 (slice 13 3 nid).

(** [ntohl (last24bit + 16777216)] *)
Definition dns_nid32 (nid : NID) : NID32 := swap32 (u32_wrap (last24bit nid + 16777216)).

(** The string [update_dns_server_address] leaves in [server_address]. *)
Definition update_dns_server_address (niddnsserver : NID) : list Z :=
  inet_ntop4 (dns_nid32 niddnsserver).

(** ** The static variables *)

Record config := mkConfig {
  conf_type : Z;
  conf_gatewayPort : Z;
  conf_dhtPort : Z;
  conf_rvsTimeout : Z;
  conf_dhcp : Z;
  conf_dht : Z;
  conf_dns : Z;
  conf_mobility : Z;
  conf_primaryIface : list Z;
  conf_nid : NID;
  conf_nidgw : NID;
  conf_nidrvs : NID;
  conf_nidcore : NID;
  conf_nidcorehome : NID;
  conf_niddns : NID;
  conf_niddht : NID;
  conf_nid32 : NID32;
  conf_gatewayIP : NID32;
  conf_rvsIP : NID32;
  conf_dhtIP : NID32;
  conf_ip : NID32;
  conf_server_address : list Z; (* [server_address] of dnshandler.c *)
}.

#[export] Instance eta_config : Eta config := λ c,
  mkConfig (conf_type c) (conf_gatewayPort c) (conf_dhtPort c) (conf_rvsTimeout c)
    (conf_dhcp c) (conf_dht c) (conf_dns c) (conf_mobility c) (conf_primaryIface c)
    (conf_nid c) (conf_nidgw c) (conf_nidrvs c) (conf_nidcore c) (conf_nidcorehome c)
    (conf_niddns c) (conf_niddht c) (conf_nid32 c) (conf_gatewayIP c) (conf_rvsIP c)
    (conf_dhtIP c) (conf_ip c) (conf_server_address c).

(** Static storage starts zeroed. *)
Definition config_init : config :=
  mkConfig 0 0 0 0 0 0 0 0 [] nid_zero nid_zero nid_zero nid_zero nid_zero nid_zero
    nid_zero 0 0 0 0 0 [].

Section Accessors.
  Variable c : config.

Definition getType : Z := conf_type c.
Definition getNID : NID := conf_nid c.
Definition get_dhcp : Z := conf_dhcp c.
Definition get_dht : Z := conf_dht c.
Definition get_dns : Z := conf_dns c.
Definition getPrimaryIface : list Z := conf_primaryIface c.
Definition getGatewayPort : Z := conf_gatewayPort c.
Definition getRvsTimeout : Z := conf_rvsTimeout c.
Definition getDhtPort : Z := conf_dhtPort c.
Definition get_mobility : Z := conf_mobility c.
Definition getNIDgw : NID := conf_nidgw c.
Definition getNIDrvs : NID := conf_nidrvs c.
Definition getNIDcore : NID := conf_nidcore c.
Definition getNIDcorehome : NID := conf_nidcorehome c.
Definition getNIDdht : NID := conf_niddht c.
Definition getNIDdns : NID := conf_niddns c.
Definition getGatewayIP : NID32 := conf_gatewayIP c.
Definition getNID32 : NID32 := conf_nid32 c.
Definition getRvsIP : NID32 := conf_rvsIP c.
Definition getDhtIP : NID32 := conf_dhtIP c.
Definition getIP : NID32 := conf_ip c.

Definition setGatewayIP (newIP : NID32) : config := c <| conf_gatewayIP := newIP |>.
Definition setGatewayPort (port : Z) : config := c <| conf_gatewayPort := port |>.
Definition setRvsIP (newIP : NID32) : config := c <| conf_rvsIP := newIP |>.
Definition setDhtIP (newIP : NID32) : config := c <| conf_dhtIP := newIP |>.
Definition setIP (newIP : NID32) : config := c <| conf_ip := newIP |>.
Definition set_mobility (new : Z) : config := c <| conf_mobility := new |>.

(** [setNID32] copies the last four bytes of [nid] and sets the first to 1. *)
Definition setNID32 : config :=
  c <| conf_nid32 := le_val (splice 0 [1] (slice 12 4 (conf_nid c))) |>.

End Accessors.

(** ** Parsing helpers *)

(** [isspace] of the C locale. *)
Definition is_space (b : Z) : bool := (b =? 32) || ((9 <=? b) && (b <=? 13)).

Fixpoint skip_space (s : list Z) : list Z :=
  match s with
  | b :: s' => if is_space b then skip_space s' else s
  | [] => []
  end.

Fixpoint digits_val (s : list Z) (acc : Z) : Z :=
  match s with
  | b :: s' => if (48 <=? b) && (b <=? 57) then digits_val s' (acc * 10 + (b - 48)) else acc
  | [] => acc
  end.

Definition atoi (s : list Z) : Z :=
  match skip_space s with
  | 45 :: s' => - digits_val s' 0
  | 43 :: s' => digits_val s' 0
  | s' => digits_val s' 0
  end.

(** Assignment to an [unsigned short]. *)
Definition u16 (z : Z) : Z := z `mod` 2 ^ 16.

(** [inet_pton (family, data, &var)] with the result ignored: an invalid
    string leaves the variable as it was. *)
Definition pton6_into (data : list Z) (old : NID) : NID := default old (inet_pton6 data).
Definition pton4_into (data : list Z) (old : NID32) : NID32 := default old (inet_pton_in data).

(** ** The configuration file *)

(** The members of a libxml2 [xmlNode] the walk reads: whether it is an
    element, its name, the text libxml2 keeps for it, and its children; a
    sibling chain is a list. *)
Inductive xmlNode := mkXml {
  xml_element : bool;
  xml_name : list Z;
  xml_text : list Z;
  xml_children : list xmlNode;
}.

Inductive conf_error :=
  | ConfMissing   (* a mandatory element has no content: [exit (-1)] *)
  | ConfOverflow. (* [strcpy] writes past [primaryIface[32]] *)

Section Config_file.
  (** [xmlNodeGetContent] of libxml2, applied to the first node of a sibling
      chain; [None] is NULL. *)
  Variable xmlNodeGetContent : list xmlNode → option (list Z).

(** One [if (!strcmp (pt->name, name))] block of [get_data]. *)
Definition on_element (pt : xmlNode) (name : string) (required : bool)
    (assign : list Z → config → config + conf_error) (c : config) : config + conf_error :=
  if decide (xml_name pt = chars name) then
    match xmlNodeGetContent (xml_children pt) with
    | Some data => assign data c
    | None => if required then inr ConfMissing else inl c
    end
  else inl c.

Definition conf_bind (m : config + conf_error) (f : config → config + conf_error)
    : config + conf_error :=
  match m with inl c => f c | inr e => inr e end.

Local Notation "m >>= f" := (conf_bind m f) (at level 60, right associativity).

(** The blocks inside [if (type == CORE)]. *)
Definition get_data_core (pt : xmlNode) (c : config) : config + conf_error :=
  on_element pt "niddht" true (λ d c, inl (c <| conf_niddht ::= pton6_into d |>)) c
  >>= λ c, on_element pt "dhtIP" true (λ d c, inl (c <| conf_dhtIP ::= pton4_into d |>)) c
  >>= λ c, on_element pt "dhtPort" true (λ d c, inl (c <| conf_dhtPort := u16 (atoi d) |>)) c
  >>= on_element pt "dht" false (λ d c, inl (c <| conf_dht := u16 (atoi d) |>)).

(** The blocks for one node, in the order of the source. *)
Definition get_data_node (pt : xmlNode) (c : config) : config + conf_error :=
  if negb (xml_element pt) then inl c else
  on_element pt "type" true (λ d c, inl (c <| conf_type := u16 (atoi d) |>)) c
  >>= λ c, on_element pt "ip" true (λ d c, inl (c <| conf_gatewayIP ::= pton4_into d |>)) c
  >>= λ c, on_element pt "nodeID" true
           (λ d c, inl (setNID32 (c <| conf_nid ::= pton6_into d |>))) c
  >>= λ c, on_element pt "nidgw" true (λ d c, inl (c <| conf_nidgw ::= pton6_into d |>)) c
  >>= λ c, on_element pt "nidcorehome" true
           (λ d c, inl (c <| conf_nidcorehome ::= pton6_into d |>)) c
  >>= λ c, on_element pt "nidcore" true (λ d c, inl (c <| conf_nidcore ::= pton6_into d |>)) c
  >>= λ c, on_element pt "nidrvs" true (λ d c, inl (c <| conf_nidrvs ::= pton6_into d |>)) c
  >>= λ c, on_element pt "rvsIP" true (λ d c, inl (c <| conf_rvsIP ::= pton4_into d |>)) c
  >>= λ c, on_element pt "rvsTimeout" true
           (λ d c, inl (c <| conf_rvsTimeout := u16 (atoi d) |>)) c
  >>= λ c, on_element pt "niddns" true
           (λ d c, let c := c <| conf_niddns ::= pton6_into d |> in
                   inl (c <| conf_server_address
                               := update_dns_server_address (conf_niddns c) |>)) c
  >>= λ c, (if conf_type c =? node_types_val CORE then get_data_core pt c else inl c)
  >>= λ c, on_element pt "dhcp" false (λ d c, inl (c <| conf_dhcp := u16 (atoi d) |>)) c
  >>= λ c, on_element pt "dns" false (λ d c, inl (c <| conf_dns := u16 (atoi d) |>)) c
  >>= on_element pt "primaryIface" true
      (λ d c, if (32 <? S (length d))%nat then inr ConfOverflow
              else inl (c <| conf_primaryIface := d |>)).

(** The recursive walk: each node of the chain, then its children. *)
Fixpoint get_data_tree (pt : xmlNode) (c : config) : config + conf_error :=
  get_data_node pt c
  >>= (fix chain (l : list xmlNode) (c : config) : config + conf_error :=
       match l with
       | [] => inl c
       | pt :: next => get_data_tree pt c >>= chain next
       end) (xml_children pt).

Fixpoint get_data (node : list xmlNode) (c : config) : config + conf_error :=
  match node with
  | [] => inl c
  | pt :: next => get_data_tree pt c >>= get_data next
  end.

(** [read_config]: [doc] is the root of the parsed file, [None] when libxml2
    could not parse it and the daemon exits. *)
Definition read_config (doc : option xmlNode) : option (config + conf_error) :=
  match doc with
  | None => None
  | Some root => Some (get_data [root] config_init)
  end.

End Config_file.

(** ** DHCP *)

(** [if ((token = strtok (...)) != NULL) inet_pton (..., token, &var)] *)
Definition on_token (token : option (list Z)) (assign : list Z → config → config) (c : config)
    : config :=
  match token with Some t => assign t c | None => c end.

(** The fields of the response, separated by [|]. *)
Definition set_conf_dhcp_fields (str : list Z) (c : config) : config :=
  let bar := 124 in
  let '(token, rest) := strtok bar str in
  let c := on_token token (λ t c, c <| conf_nidcore ::= pton6_into t |>) c in
  let '(token, rest) := strtok bar rest in
  let c := on_token token (λ t c, c <| conf_nidgw ::= pton6_into t |>) c in
  let '(token, rest) := strtok bar rest in
  let c := on_token token (λ t c, c <| conf_gatewayIP ::= pton4_into t |>) c in
  let '(token, rest) := strtok bar rest in
  let c := on_token token (λ t c, c <| conf_nidrvs ::= pton6_into t |>) c in
  let '(token, rest) := strtok bar rest in
  let c := on_token token (λ t c, c <| conf_rvsIP ::= pton4_into t |>) c in
  let '(token, rest) := strtok bar rest in
  let c := on_token token (λ t c, c <| conf_niddns ::= pton6_into t |>) c in
  let '(token, rest) := strtok bar rest in
  on_token token (λ t c, c <| conf_ip ::= pton4_into t |>) c.

(** ** The conversions to and from text at the end of the file *)

Definition nid2char (nid : NID) : list Z := inet_ntop6 nid.
Definition nid322char (nid32 : NID32) : list Z := inet_ntop4 nid32.

(** [get_locator (dev)]: the address the kernel reports for the interface,
    as text; the interface address is an input of the model. *)
Definition get_locator (iface_addr : NID32) : list Z := nid322char iface_addr.

(** ** Lemmas *)

Lemma nid_tail_bytes nid :
  nid_ok nid → ∃ b12 b13 b14 b15,
    drop 12 nid = [b12; b13; b14; b15]
    ∧ byte_ok b12 ∧ byte_ok b13 ∧ byte_ok b14 ∧ byte_ok b15.
Proof.
  intros [Hl Hb]. pose proof (length_drop nid 12) as Hd. rewrite Hl in Hd.
  apply (bytes_ok_drop 12) in Hb.
  destruct (drop 12 nid) as [|b12 [|b13 [|b14 [|b15 [|]]]]]; try discriminate Hd.
  repeat (apply Forall_cons in Hb as [? Hb]). by exists b12, b13, b14, b15.
Qed.

Lemma slice_12_4 nid b12 b13 b14 b15 :
  drop 12 nid = [b12; b13; b14; b15] →
  slice 12 4 nid = [b12; b13; b14; b15] ∧ slice 13 3 nid = [b13; b14; b15].
Proof.
  intros H. unfold slice. rewrite H. split; [done|].
  assert (drop 13 nid = drop 1 (drop 12 nid)) as -> by (by rewrite drop_drop).
  by rewrite H.
Qed.

(** The three derivations give the address whose memory bytes are 1 followed
    by the last three bytes of the NID. *)
Lemma nid2nid32_bytes nid b12 b13 b14 b15 :
  drop 12 nid = [b12; b13; b14; b15] → nid2nid32 nid = le_val [1; b13; b14; b15].
Proof. intros [H _]%slice_12_4. unfold nid2nid32. by rewrite H. Qed.

Lemma dns_nid32_bytes nid b12 b13 b14 b15 :
  drop 12 nid = [b12; b13; b14; b15] →
  byte_ok b13 → byte_ok b14 → byte_ok b15 →
  dns_nid32 nid = le_val [1; b13; b14; b15].
Proof.
  intros [_ H]%slice_12_4 H13 H14 H15. unfold dns_nid32, last24bit. rewrite H.
  cbn [foldl]. unfold byte_ok in *.
  rewrite (u32_small (0 * 256)), (u32_small (0 * 256 + b13)) by lia.
  rewrite (u32_small ((0 * 256 + b13) * 256)), (u32_small (_ * 256 + b14)) by lia.
  rewrite (u32_small (_ * 256)), (u32_small (_ * 256 + b15)), u32_small by lia.
  unfold swap32. replace (((0 * 256 + b13) * 256 + b14) * 256 + b15 + 16777216)
    with (le_val [b15; b14; b13; 1]) by (simpl; lia).
  change 4%nat with (length [b15; b14; b13; 1]). rewrite le_bytes_val; [done|].
  repeat constructor; unfold byte_ok; lia.
Qed.

(** The address determines the last three bytes, and conversely. *)
Lemma nid2nid32_tail nid : nid_ok nid → le_bytes 4 (nid2nid32 nid) = 1 :: drop 13 nid.
Proof.
  intros Hn. destruct (nid_tail_bytes nid Hn) as (b12 & x & y & z & Hd & ? & Hx & Hy & Hz).
  rewrite (nid2nid32_bytes _ _ _ _ _ Hd).
  replace (drop 13 nid) with (drop 1 (drop 12 nid)) by by rewrite drop_drop.
  rewrite Hd. apply (le_bytes_val [1; x; y; z]).
  by repeat apply Forall_cons_2.
Qed.

Lemma nid2nid32_eq nid nid' :
  nid_ok nid → nid_ok nid' → nid2nid32 nid = nid2nid32 nid' ↔ drop 13 nid = drop 13 nid'.
Proof.
  intros Hn Hn'. split.
  - intros E. apply (f_equal (le_bytes 4)) in E. rewrite !nid2nid32_tail in E by done.
    by simplify_eq.
  - intros E. destruct (nid_tail_bytes nid Hn) as (b & x & y & z & Hd & _).
    destruct (nid_tail_bytes nid' Hn') as (b' & x' & y' & z' & Hd' & _).
    rewrite (nid2nid32_bytes _ _ _ _ _ Hd), (nid2nid32_bytes _ _ _ _ _ Hd').
    assert (drop 1 (drop 12 nid) = drop 1 (drop 12 nid')) as He by by rewrite !drop_drop.
    rewrite Hd, Hd' in He. simpl in He. by simplify_eq.
Qed.

Lemma nid2nid32_nonzero nid : nid_ok nid → nid2nid32 nid ≠ 0.
Proof.
  intros Hn E. pose proof (nid2nid32_tail nid Hn) as H. rewrite E in H. discriminate H.
Qed.
