(* ===== verification/QueueTable.v ===== *)
(** The tables of pending resolutions: src/src/rvs_queue_table.c and
    src/src/dht_queue_table.c.  The two files are the same code over two
    static tables. *)

From S2P Require Import Prelude NidTypes HashTable Hash EntryTable.

Local Open Scope Z_scope.

Definition LOCK_TIME : Z := 150000.

Record rvsq_entry := mkQ { q_nid : NID; q_tstamp : timeval }.

Abbreviation queue_table := (entry_table (hash_table loc) rvsq_entry).

(** *** rvs_queue_table.c *)

Definition init_rvs_queue_table : queue_table := et_empty (construct_hash_table true 10).

Definition destroy_rvs_queue_table (t : queue_table) : queue_table :=
  mkPT (free_hash_table (et_dict t)).1 (et_heap t) (et_next t).

Definition queue (nid : NID) (now : timeval) (t : queue_table) : queue_table :=
  et_add nid (mkQ nid now) t.

Definition unqueue (nid : NID) (t : queue_table) : queue_table := et_del nid t.

Definition isQueued (nid : NID) (now : timeval) (t : queue_table) : queue_table * Z :=
  match et_find nid t with
  | Some (_, re) =>
      if tv_usec (q_tstamp re) + LOCK_TIME <? tv_usec now
      then (unqueue nid t, 0)
      else (t, if decide (nid = q_nid re) then 1 else 0)
  | None => (t, 0)
  end.

(** *** dht_queue_table.c *)

Definition init_dht_queue_table : queue_table := et_empty (construct_hash_table true 10).

Definition destroy_dht_queue_table (t : queue_table) : queue_table :=
  mkPT (free_hash_table (et_dict t)).1 (et_heap t) (et_next t).

Definition dht_queue (nid : NID) (now : timeval) (t : queue_table) : queue_table :=
  et_add nid (mkQ nid now) t.

Definition dht_unqueue (nid : NID) (t : queue_table) : queue_table := et_del nid t.

Definition is_dht_queued (nid : NID) (now : timeval) (t : queue_table) : queue_table * Z :=
  match et_find nid t with
  | Some (_, de) =>
      if tv_usec (q_tstamp de) + LOCK_TIME <? tv_usec now
      then (dht_unqueue nid t, 0)
      else (t, if decide (nid = q_nid de) then 1 else 0)
  | None => (t, 0)
  end.

(** ** Invariant: the table is well formed and an entry repeats its key *)

Record queue_ok (t : queue_table) : Prop := {
  queue_et_ok : et_ok (K := NID) t;
  queue_key nid re : et_get t nid = Some re → q_nid re = nid;
}.

Lemma construct_table_ok {V} (size : nat) :
  (0 < size)%nat →
  et_ok (K := NID) (V := V) (et_empty (construct_hash_table (D := loc) true size)).
Proof.
  intros. apply et_empty_ok; [by apply construct_ok|]. intros k. apply lookup_construct.
Qed.

Lemma et_get_construct {V} size (nid : NID) :
  et_get (V := V) (et_empty (construct_hash_table (D := loc) true size)) nid = None.
Proof. apply et_get_empty. intros k. apply lookup_construct. Qed.

Lemma init_queue_ok : queue_ok init_rvs_queue_table.
Proof. split; [apply construct_table_ok; lia|]. intros nid re. unfold init_rvs_queue_table. by rewrite et_get_construct. Qed.

Lemma queue_preserves nid now t : queue_ok t → queue_ok (queue nid now t).
Proof.
  intros [H Hk]. split; [by apply et_add_ok|]. intros n re. unfold queue.
  rewrite et_get_add by done. case_decide; [by intros; simplify_eq|apply Hk].
Qed.

Lemma unqueue_preserves nid t : queue_ok t → queue_ok (unqueue nid t).
Proof.
  intros [H Hk]. split; [by apply et_del_ok|]. intros n re. unfold unqueue.
  rewrite et_get_del by done. case_decide; [done|apply Hk].
Qed.

(** What the test answers, from the entry. *)
Definition queue_pending (now : timeval) (re : rvsq_entry) : bool :=
  tv_usec now <=? tv_usec (q_tstamp re) + LOCK_TIME.

Lemma isQueued_result nid now t :
  queue_ok t →
  isQueued nid now t =
  match et_get t nid with
  | Some re => if queue_pending now re then (t, 1) else (unqueue nid t, 0)
  | None => (t, 0)
  end.
Proof.
  intros [H Hk]. unfold isQueued, queue_pending.
  destruct (et_find nid t) as [[p re]|] eqn:E.
  - pose proof (et_find_get _ _ _ _ E) as Hg. rewrite Hg.
    rewrite (Hk _ _ Hg), decide_True by done.
    destruct (_ <? _) eqn:E1, (_ <=? _) eqn:E2; zbool; try done; lia.
  - apply et_find_None in E. by rewrite E.
Qed.

Lemma isQueued_preserves nid now t : queue_ok t → queue_ok (isQueued nid now t).1.
Proof.
  intros H. rewrite isQueued_result by done.
  repeat case_match; simpl; auto using unqueue_preserves.
Qed.

(** Only the tested identifier can leave the table. *)
Lemma isQueued_other nid nid' now t :
  queue_ok t → nid ≠ nid' → et_get (isQueued nid now t).1 nid' = et_get t nid'.
Proof.
  intros H Hne. rewrite isQueued_result by done. repeat case_match; simpl; try done.
  unfold unqueue. rewrite et_get_del by apply H. by rewrite decide_False.
Qed.

#[export] Hint Resolve queue_preserves unqueue_preserves isQueued_preserves
  init_queue_ok : nid.

(** The DHT file computes the same functions. *)
Lemma dht_queue_same nid now t : dht_queue nid now t = queue nid now t.
Proof. done. Qed.
Lemma dht_unqueue_same nid t : dht_unqueue nid t = unqueue nid t.
Proof. done. Qed.
Lemma is_dht_queued_same nid now t : is_dht_queued nid now t = isQueued nid now t.
Proof. done. Qed.

#[export] Hint Rewrite dht_queue_same dht_unqueue_same is_dht_queued_same : bytes.

(** The test of an identifier just queued, at a later reading of the clock. *)
Lemma isQueued_queue nid now later t :
  queue_ok t →
  isQueued nid later (queue nid now t)
  = if queue_pending later (mkQ nid now) then (queue nid now t, 1)
    else (unqueue nid (queue nid now t), 0).
Proof.
  intros Ht. rewrite isQueued_result by auto with nid. unfold queue at 1.
  by rewrite et_get_add, decide_True by apply Ht || done.
Qed.

(** No reading of the clock is 150 milliseconds after these. *)
Lemma queue_pending_stuck nid now later :
  850000 ≤ tv_usec now → tv_ok later → queue_pending later (mkQ nid now) = true.
Proof.
  intros Hn Hl. unfold tv_ok in Hl. unfold queue_pending, LOCK_TIME. cbn [q_tstamp].
  apply Z.leb_le. lia.
Qed.
