(* ===== verification/ConnectionMapper.v ===== *)
(** The connection mapper, src/src/connection_mapper.c: the table from NIDs
    to locators with its time-outs, the static entries of the rendezvous
    server and the gateway, and the proactive refresh. *)

From S2P Require Import Prelude NidTypes Inet HashTable Hash LList EntryTable Configuration.
From S2P Require Import QueueTable.

Local Open Scope Z_scope.

Definition RVS_PROACTIVE : Z := RVS_UPDATE_TIMEOUT - 1.

(** The static variables of the file. *)
Record cm_state := mkCM {
  connmap : conn_table;
  cm_nidgw : NID;
  cm_nidrvs : NID;
  cm_gatewayIP : NID32;
  cm_rvsIP : NID32;
}.

#[export] Instance eta_cm : Eta cm_state := λ s,
  mkCM (connmap s) (cm_nidgw s) (cm_nidrvs s) (cm_gatewayIP s) (cm_rvsIP s).

(** The connection mapper with what it shares with other threads: the table
    of pending resolutions and the channel to the resolution thread. *)
Record cm_env := mkEnv {
  env_cm : cm_state;
  env_queue : queue_table;
  sp_cm2rvs : chan;
}.

#[export] Instance eta_env : Eta cm_env := λ e,
  mkEnv (env_cm e) (env_queue e) (sp_cm2rvs e).

(** The clock readings of one call of [getCMEntry]: the two age tests, the
    one of [newCMEntry], and those of [isQueued] and [queue]. *)
Record cm_clock := mkClock {
  ck_proactive : Z;
  ck_timeout : Z;
  ck_new : Z;
  ck_isQueued : timeval;
  ck_queue : timeval;
}.

Definition newCMEntry (nid : NID) (ip : NID32) (now : Z) (s : cm_state) : cm_state :=
  s <| connmap ::= conn_new nid ip now |>.

Definition staticCMEntry (nid : NID) (ip : NID32) (s : cm_state) : cm_state :=
  s <| connmap ::= conn_static nid ip |>.

Definition getAllConnections (clk : nat → Z) (s : cm_state) : ll_head :=
  hash_enumerate clk (connmap s) init_ll.

Definition delCMEntry (nid : NID) (s : cm_state) : cm_state := s <| connmap ::= et_del nid |>.

(** The common end of [getCMEntry]: provisional entry through the gateway and
    a resolution request. *)
Definition cm_unknown (nid : NID) (ck : cm_clock) (e : cm_env) : cm_env * Z * NID32 :=
  let gw := cm_gatewayIP (env_cm e) in
  (e <| env_cm ::= newCMEntry nid gw (ck_new ck) |>
     <| sp_cm2rvs ::= chan_write (take 16 nid) |>, 0, gw).

(** The result is the new state, the returned [int], and [*dst]. *)
Definition getCMEntry (nid : NID) (ck : cm_clock) (e : cm_env) : cm_env * Z * NID32 :=
  match et_find nid (connmap (env_cm e)) with
  | Some (_, ce) =>
      if (ce_tstamp ce =? 0) || (ck_proactive ck <? ce_tstamp ce + RVS_PROACTIVE) then
        (e, 1, ce_ip ce)
      else if ck_timeout ck <? ce_tstamp ce + RVS_UPDATE_TIMEOUT then
        (* proactive refresh *)
        let '(q, queued) := isQueued nid (ck_isQueued ck) (env_queue e) in
        let e := e <| env_queue := q |> in
        if queued =? 0 then
          (e <| env_queue ::= queue nid (ck_queue ck) |>
             <| sp_cm2rvs ::= chan_write (take 16 nid) |>, 1, ce_ip ce)
        else (e, 1, ce_ip ce)
      else
        (* timeout *)
        cm_unknown nid ck (e <| env_cm ::= delCMEntry nid |>)
  | None => cm_unknown nid ck e
  end.

(** The list is walked from the first node found before the second
    enumeration, which appends to the same list; [clk1] and [clk2] are the
    clock readings of the two enumerations. *)
Definition cleanCM (clk1 clk2 : nat → Z) (s : cm_state) : cm_state :=
  let ll := getAllConnections clk1 s in
  let lpt := ll_nodes ll in
  let ll := hash_enumerate clk2 (connmap s) ll in
  let lpt := match lpt with [] => [] | _ => ll_nodes ll end in
  foldl (λ s n, delCMEntry (ll_nid n) s) s lpt.

Definition init_conn_mapper (c : config) : cm_state :=
  mkCM (et_empty (construct_hash_table true 20))
    (getNIDgw c) (getNIDrvs c) (getGatewayIP c) (getRvsIP c).

Definition destroy_conn_mapper (s : cm_state) : cm_state :=
  s <| connmap := mkPT (free_hash_table (et_dict (connmap s))).1
                    (et_heap (connmap s)) (et_next (connmap s)) |>.

Definition updateCMconf (c : config) (clk1 clk2 : nat → Z) (s : cm_state) : cm_state :=
  let s := delCMEntry (cm_nidgw s) s in
  let s := delCMEntry (cm_nidrvs s) s in
  let s := cleanCM clk1 clk2 s in
  let s := s <| cm_nidgw := getNIDgw c |> <| cm_nidrvs := getNIDrvs c |>
             <| cm_gatewayIP := getGatewayIP c |> <| cm_rvsIP := getRvsIP c |> in
  let s := staticCMEntry (cm_nidgw s) (cm_gatewayIP s) s in
  staticCMEntry (cm_nidrvs s) (cm_rvsIP s) s.

(** ** The table as a finite map *)

Definition cm_get (s : cm_state) (nid : NID) : option conn_entry := et_get (connmap s) nid.

Definition cm_ok (s : cm_state) : Prop := et_ok (K := NID) (connmap s).

Record env_ok (e : cm_env) : Prop := {
  env_cm_ok : cm_ok (env_cm e);
  env_queue_ok : queue_ok (env_queue e);
}.

Lemma init_conn_mapper_ok c : cm_ok (init_conn_mapper c).
Proof. apply construct_table_ok. lia. Qed.

Lemma cm_get_init c nid : cm_get (init_conn_mapper c) nid = None.
Proof. apply et_get_construct. Qed.

Lemma newCMEntry_ok nid ip now s : cm_ok s → cm_ok (newCMEntry nid ip now s).
Proof. apply conn_new_ok. Qed.

Lemma cm_get_newCMEntry nid nid' ip now s :
  cm_ok s →
  cm_get (newCMEntry nid ip now s) nid'
  = if decide (nid = nid') then Some (refreshed ip now (cm_get s nid)) else cm_get s nid'.
Proof. apply et_get_conn_new. Qed.

Lemma staticCMEntry_ok nid ip s : cm_ok s → cm_ok (staticCMEntry nid ip s).
Proof. apply conn_static_ok. Qed.

Lemma cm_get_staticCMEntry nid nid' ip s :
  cm_ok s →
  cm_get (staticCMEntry nid ip s) nid'
  = if decide (nid = nid') then Some (pinned ip (cm_get s nid)) else cm_get s nid'.
Proof. apply et_get_conn_static. Qed.

Lemma delCMEntry_ok nid s : cm_ok s → cm_ok (delCMEntry nid s).
Proof. apply et_del_ok. Qed.

Lemma cm_get_delCMEntry nid nid' s :
  cm_ok s →
  cm_get (delCMEntry nid s) nid' = if decide (nid = nid') then None else cm_get s nid'.
Proof. intros H. by apply et_get_del. Qed.

#[export] Hint Resolve init_conn_mapper_ok newCMEntry_ok staticCMEntry_ok delCMEntry_ok : nid.

(** A run of deletions. *)
Lemma delCM_list_ok l s : cm_ok s → cm_ok (foldl (λ s n, delCMEntry (ll_nid n) s) s l).
Proof. revert s. induction l; simpl; auto with nid. Qed.

Lemma cm_get_delCM_list l s nid :
  cm_ok s →
  cm_get (foldl (λ s n, delCMEntry (ll_nid n) s) s l) nid
  = if decide (nid ∈ ll_nid <$> l) then None else cm_get s nid.
Proof.
  revert s. induction l as [|n l IH]; intros s Hs; [by rewrite decide_False by set_solver|].
  cbn [foldl]. rewrite IH by auto with nid. rewrite cm_get_delCMEntry by done.
  repeat case_decide; set_solver.
Qed.

Lemma cleanCM_ok clk1 clk2 s : cm_ok s → cm_ok (cleanCM clk1 clk2 s).
Proof. apply delCM_list_ok. Qed.

Lemma delCM_list_fields l s :
  cm_nidgw (foldl (λ s n, delCMEntry (ll_nid n) s) s l) = cm_nidgw s
  ∧ cm_nidrvs (foldl (λ s n, delCMEntry (ll_nid n) s) s l) = cm_nidrvs s
  ∧ cm_gatewayIP (foldl (λ s n, delCMEntry (ll_nid n) s) s l) = cm_gatewayIP s
  ∧ cm_rvsIP (foldl (λ s n, delCMEntry (ll_nid n) s) s l) = cm_rvsIP s.
Proof.
  revert s. induction l as [|n l IH]; intros s; simpl; [done|]. by rewrite !(proj1 (IH _)), !(proj1 (proj2 (IH _))), !(proj1 (proj2 (proj2 (IH _)))), !(proj2 (proj2 (proj2 (IH _)))).
Qed.

Lemma listed_nid now s nid :
  cm_ok s →
  nid ∈ ll_nid <$> ll_nodes (getAllConnections (λ _, now) s)
  ↔ ∃ ce, cm_get s nid = Some ce ∧ is_listed now ce = true.
Proof.
  intros Hs. rewrite list_elem_of_fmap. split.
  - intros ([n ip] & -> & Hn). apply hash_enumerate_spec in Hn; [|done].
    destruct Hn as [Hn|(ce & ? & ? & _)]; [by apply not_elem_of_nil in Hn|by exists ce].
  - intros (ce & Hg & Hl). exists (mkNode nid (inet_ntop4 (ce_ip ce))). split; [done|].
    apply hash_enumerate_spec; [done|]. right. by exists ce.
Qed.

(** With one clock reading for both enumerations, exactly the listed entries
    are deleted. *)
Lemma cm_get_cleanCM now s nid :
  cm_ok s →
  cm_get (cleanCM (λ _, now) (λ _, now) s) nid
  = match cm_get s nid with
    | Some ce => if is_listed now ce then None else Some ce
    | None => None
    end.
Proof.
  intros Hs. unfold cleanCM. rewrite cm_get_delCM_list by done.
  set (l := match ll_nodes _ with [] => [] | _ => _ end).
  assert (Hl : nid ∈ ll_nid <$> l ↔ ∃ ce, cm_get s nid = Some ce ∧ is_listed now ce = true).
  { rewrite <-listed_nid by done. subst l. unfold getAllConnections.
    destruct (ll_nodes (hash_enumerate _ (connmap s) init_ll)) as [|n0 l0] eqn:E; [done|].
    destruct (enumerate_from_app (λ _, now) 0 (entries hash (et_dict (connmap s)))
                (et_heap (connmap s)) (hash_enumerate (λ _, now) (connmap s) init_ll))
      as (new & Hnew & _).
    rewrite !list_elem_of_fmap. split.
    - intros ([n ip] & -> & Hn). apply hash_enumerate_spec in Hn as [Hn|Hn]; [|..|done].
      + exists (mkNode n ip). by rewrite <-E.
      + exists (mkNode n ip). split; [done|]. rewrite <-E.
        apply hash_enumerate_spec; [done|by right].
    - intros ([n ip] & -> & Hn). exists (mkNode n ip). split; [done|].
      apply hash_enumerate_spec; [done|]. left. by rewrite E. }
  case_decide as Hd; rewrite Hl in Hd.
  - destruct Hd as (ce & -> & ->). done.
  - destruct (cm_get s nid) as [ce|] eqn:E; [|done].
    destruct (is_listed now ce) eqn:E'; [|done]. exfalso. apply Hd. by exists ce.
Qed.
