(* ===== verification/NidMapper.v ===== *)
(** The NID mapper, src/src/nid_mapper.c: from a NID to its gateway, and from
    the 32-bit identifier applications use to the NID and its gateway. *)

From S2P Require Import Prelude NidTypes Inet HashTable Hash EntryTable Configuration QueueTable.

Local Open Scope Z_scope.

Record NMEntry := mkNME { nme_fqdn : list Z; nme_nidgw : NID }.
Record NMEntry32 := mkNME32 { nme32_fqdn : list Z; nme32_nid : NID; nme32_nidgw : NID }.

#[export] Instance NMEntry_eq_dec : EqDecision NMEntry.
Proof. solve_decision. Defined.
#[export] Instance NMEntry32_eq_dec : EqDecision NMEntry32.
Proof. solve_decision. Defined.

#[export] Instance eta_nme : Eta NMEntry := λ e, mkNME (nme_fqdn e) (nme_nidgw e).
#[export] Instance eta_nme32 : Eta NMEntry32 :=
  λ e, mkNME32 (nme32_fqdn e) (nme32_nid e) (nme32_nidgw e).

(** The globals of the file; [nm_niddns] and [nm_nid32dns] are its own
    [niddns] and [nid32dns]. *)
Record nm_state := mkNM {
  nidTable : entry_table (hash_table loc) NMEntry;
  nid32Table : entry_table (hash_table32 loc) NMEntry32;
  nm_niddns : NID;
  nm_nid32dns : NID32;
}.

#[export] Instance eta_nm : Eta nm_state :=
  λ s, mkNM (nidTable s) (nid32Table s) (nm_niddns s) (nm_nid32dns s).

(** [fqdn] is zeroed by [calloc] and never written. *)
Definition newNMEntry32 (nid32 : NID32) (nid nidgw : NID) (s : nm_state) : nm_state :=
  match et_find nid32 (nid32Table s) with
  | Some (p, nme) =>
      s <| nid32Table ::= et_update nid32 p (nme <| nme32_nid := nid |> <| nme32_nidgw := nidgw |>) |>
  | None => s <| nid32Table ::= et_add nid32 (mkNME32 [] nid nidgw) |>
  end.

Definition newNMEntry (nid nidgw : NID) (s : nm_state) : nm_state :=
  match et_find nid (nidTable s) with
  | Some (p, nme) =>
      let s := s <| nidTable ::= et_update nid p (nme <| nme_nidgw := nidgw |>) |> in
      newNMEntry32 (nid2nid32 nid) nid nidgw s
  | None =>
      let s := s <| nidTable ::= et_add nid (mkNME [] nidgw) |> in
      newNMEntry32 (nid2nid32 nid) nid nidgw s
  end.

Definition getNMEntry (nid : NID) (s : nm_state) : option NMEntry :=
  snd <$> et_find nid (nidTable s).

Definition getNMEntry32 (nid32 : NID32) (s : nm_state) : option NMEntry32 :=
  snd <$> et_find nid32 (nid32Table s).

(** The bindings entered by hand, as the triples of literals. *)
Definition init_bindings : list (string * string * string) := [
  ("1.0.0.1", "3ffe::1", "bbbb::b");
  ("1.0.0.2", "3ffe::2", "3ffe::7");
  ("1.0.0.3", "3ffe::3", "3ffe::4");
  ("1.0.0.4", "3ffe::4", "3ffe::4");
  ("1.0.0.5", "3ffe::5", "3ffe::4");
  ("1.0.0.6", "3ffe::6", "bbbb::b");
  ("1.0.0.7", "3ffe::7", "3ffe::7");
  ("1.0.0.8", "3ffe::8", "bbbb::b");
  ("1.0.0.9", "3ffe::9", "3ffe::7");
  ("1.0.0.11", "3ffe:3::11", "ffff:ffff::f");
  ("1.0.1.1", "3ffe::101", "ffff:ffff::f");
  ("1.0.1.2", "3ffe::102", "ffff:ffff::f");
  ("1.0.1.3", "3ffe::103", "ffff:ffff::f");
  ("1.0.0.16", "3ffe::10", "ffff:ffff::f")]%string.

Definition lit4 (s : string) : NID32 := default 0 (inet_pton_in (chars s)).
Definition lit6 (s : string) : NID := default nid_zero (inet_pton6 (chars s)).

Definition init_nid_mapper (c : config) : nm_state :=
  let s := mkNM (et_empty (construct_hash_table true 10))
                (et_empty (construct_hash_table32 true 10)) nid_zero 0 in
  if get_dns c =? 0 then
    foldl (λ s '(ip, nid, gw), newNMEntry32 (lit4 ip) (lit6 nid) (lit6 gw) s) s init_bindings
  else s.

Definition destroy_nid_mapper (s : nm_state) : nm_state :=
  s <| nidTable := mkPT (free_hash_table (et_dict (nidTable s))).1
                     (et_heap (nidTable s)) (et_next (nidTable s)) |>
    <| nid32Table := mkPT (free_hash_table32 (et_dict (nid32Table s))).1
                     (et_heap (nid32Table s)) (et_next (nid32Table s)) |>.

Definition updateNM (c : config) (s : nm_state) : nm_state :=
  let s := s <| nidTable ::= et_del (nm_niddns s) |> in
  let s := s <| nid32Table ::= et_del (nm_nid32dns s) |> in
  let s := newNMEntry (getNIDdns c) (getNIDcore c) s in
  newNMEntry32 (nid2nid32 (getNIDdns c)) (getNIDdns c) (getNIDcore c) s.

(** ** Invariant and effect on the two finite maps *)

Record nm_ok (s : nm_state) : Prop := {
  nm_ok_nid : et_ok (K := NID) (nidTable s);
  nm_ok_nid32 : et_ok (K := NID32) (nid32Table s);
  nm_ok_fqdn nid e : getNMEntry nid s = Some e → nme_fqdn e = [];
  nm_ok_fqdn32 a e : getNMEntry32 a s = Some e → nme32_fqdn e = [];
}.

Lemma newNMEntry32_get nid32 nid nidgw s :
  nm_ok s →
  nm_ok (newNMEntry32 nid32 nid nidgw s)
  ∧ (∀ n, getNMEntry n (newNMEntry32 nid32 nid nidgw s) = getNMEntry n s)
  ∧ ∀ a, getNMEntry32 a (newNMEntry32 nid32 nid nidgw s)
         = if decide (nid32 = a) then Some (mkNME32 [] nid nidgw) else getNMEntry32 a s.
Proof.
  intros [H1 H2 H3 H4].
  assert (Hg : ∀ a, getNMEntry32 a (newNMEntry32 nid32 nid nidgw s)
         = if decide (nid32 = a) then Some (mkNME32 [] nid nidgw) else getNMEntry32 a s).
  { intros a. unfold newNMEntry32. destruct (et_find nid32 _) as [[p e]|] eqn:E.
    - unfold getNMEntry32. simpl.
      pose proof (et_find_get _ _ _ _ E) as Hg. apply H4 in Hg.
      change (et_get (et_update nid32 p (mkNME32 (nme32_fqdn e) nid nidgw) (nid32Table s)) a
              = if decide (nid32 = a) then Some (mkNME32 [] nid nidgw)
                else et_get (nid32Table s) a).
      rewrite (et_get_update _ _ _ e) by done. by rewrite Hg.
    - apply (et_get_add nid32 a (mkNME32 [] nid nidgw) (nid32Table s) H2). }
  assert (Hn : ∀ n, getNMEntry n (newNMEntry32 nid32 nid nidgw s) = getNMEntry n s)
    by (intros n; unfold newNMEntry32; by repeat case_match).
  split_and!; [|done..]. split.
  - unfold newNMEntry32. by repeat case_match.
  - unfold newNMEntry32. destruct (et_find nid32 _) as [[p e]|] eqn:E; simpl.
    + by eapply et_update_ok.
    + by apply et_add_ok.
  - intros n e. rewrite Hn. apply H3.
  - intros a e. rewrite Hg. case_decide; [by intros; simplify_eq|apply H4].
Qed.

Lemma newNMEntry32_ok nid32 nid nidgw s : nm_ok s → nm_ok (newNMEntry32 nid32 nid nidgw s).
Proof. intros H. apply newNMEntry32_get, H. Qed.

Lemma newNMEntry_get nid nidgw s :
  nm_ok s →
  nm_ok (newNMEntry nid nidgw s)
  ∧ (∀ n, getNMEntry n (newNMEntry nid nidgw s)
          = if decide (nid = n) then Some (mkNME [] nidgw) else getNMEntry n s)
  ∧ ∀ a, getNMEntry32 a (newNMEntry nid nidgw s)
         = if decide (nid2nid32 nid = a) then Some (mkNME32 [] nid nidgw) else getNMEntry32 a s.
Proof.
  intros H. pose proof H as [H1 H2 H3 H4].
  set (s1 := match et_find nid (nidTable s) with
             | Some (p, nme) =>
                 s <| nidTable ::= et_update nid p (nme <| nme_nidgw := nidgw |>) |>
             | None => s <| nidTable ::= et_add nid (mkNME [] nidgw) |>
             end).
  assert (E : newNMEntry nid nidgw s = newNMEntry32 (nid2nid32 nid) nid nidgw s1)
    by (unfold newNMEntry, s1; by repeat case_match).
  assert (Hg : ∀ n, getNMEntry n s1
          = if decide (nid = n) then Some (mkNME [] nidgw) else getNMEntry n s).
  { intros n. unfold s1. destruct (et_find nid _) as [[p e]|] eqn:Ef.
    - pose proof (et_find_get _ _ _ _ Ef) as Hg. apply H3 in Hg.
      change (et_get (et_update nid p (mkNME (nme_fqdn e) nidgw) (nidTable s)) n
              = if decide (nid = n) then Some (mkNME [] nidgw) else et_get (nidTable s) n).
      rewrite (et_get_update _ _ _ e) by done. by rewrite Hg.
    - apply (et_get_add nid n (mkNME [] nidgw) (nidTable s) H1). }
  assert (Hs1 : nm_ok s1).
  { split.
    - unfold s1. destruct (et_find nid _) as [[p e]|] eqn:Ef; simpl.
      + by eapply et_update_ok.
      + by apply et_add_ok.
    - unfold s1. by repeat case_match.
    - intros n e. rewrite Hg. case_decide; [by intros; simplify_eq|apply H3].
    - intros a e. unfold s1. repeat case_match; apply H4. }
  destruct (newNMEntry32_get (nid2nid32 nid) nid nidgw s1 Hs1) as (Ho & Hn & Ha).
  rewrite E. split_and!; [done|..].
  - intros n. by rewrite Hn.
  - intros a. rewrite Ha. case_decide; [done|]. unfold s1. by repeat case_match.
Qed.

Lemma newNMEntry_ok nid nidgw s : nm_ok s → nm_ok (newNMEntry nid nidgw s).
Proof. intros H. apply newNMEntry_get, H. Qed.

Lemma empty_nm_ok a b :
  nm_ok (mkNM (et_empty (construct_hash_table true 10))
              (et_empty (construct_hash_table32 true 10)) a b).
Proof.
  split.
  - apply construct_table_ok. lia.
  - apply et_empty_ok; [apply construct_ok; lia|]. intros k. apply lookup_construct.
  - intros n e H. change (et_get (V := NMEntry) (et_empty (construct_hash_table true 10)) n = Some e) in H.
    by rewrite et_get_construct in H.
  - intros n e H. change (et_get (V := NMEntry32) (et_empty (construct_hash_table32 true 10)) n = Some e) in H.
    rewrite et_get_empty in H; [done|]. intros k. apply lookup_construct.
Qed.

Lemma init_nid_mapper_ok c : nm_ok (init_nid_mapper c).
Proof.
  unfold init_nid_mapper. case_match; [|apply empty_nm_ok].
  generalize (empty_nm_ok nid_zero 0). generalize (mkNM (et_empty (construct_hash_table true 10))
    (et_empty (construct_hash_table32 true 10)) nid_zero 0).
  induction init_bindings as [|[[ip nid] gw] l IH]; intros s Hs; simpl; [done|].
  apply IH. by apply newNMEntry32_ok.
Qed.

#[export] Hint Resolve newNMEntry32_ok newNMEntry_ok init_nid_mapper_ok : nid.

(** Deleting the two globals' keys, the first half of [updateNM]. *)
Lemma nm_del_get n0 a0 s :
  nm_ok s →
  let s' := s <| nidTable ::= et_del n0 |> <| nid32Table ::= et_del a0 |> in
  nm_ok s'
  ∧ (∀ n, getNMEntry n s' = if decide (n0 = n) then None else getNMEntry n s)
  ∧ ∀ a, getNMEntry32 a s' = if decide (a0 = a) then None else getNMEntry32 a s.
Proof.
  intros [H1 H2 H3 H4] s'.
  assert (Hn : ∀ n, getNMEntry n s' = if decide (n0 = n) then None else getNMEntry n s)
    by (intros n; apply (et_get_del n0 n (nidTable s) H1)).
  assert (Ha : ∀ a, getNMEntry32 a s' = if decide (a0 = a) then None else getNMEntry32 a s)
    by (intros a; apply (et_get_del a0 a (nid32Table s) H2)).
  split_and!; [|done..]. split; simpl.
  - by apply et_del_ok.
  - by apply et_del_ok.
  - intros n e. rewrite Hn. case_decide; [done|apply H3].
  - intros a e. rewrite Ha. case_decide; [done|apply H4].
Qed.

Lemma updateNM_get c s :
  nm_ok s →
  nm_ok (updateNM c s)
  ∧ (∀ n, getNMEntry n (updateNM c s)
          = if decide (getNIDdns c = n) then Some (mkNME [] (getNIDcore c))
            else if decide (nm_niddns s = n) then None else getNMEntry n s)
  ∧ ∀ a, getNMEntry32 a (updateNM c s)
         = if decide (nid2nid32 (getNIDdns c) = a)
           then Some (mkNME32 [] (getNIDdns c) (getNIDcore c))
           else if decide (nm_nid32dns s = a) then None else getNMEntry32 a s.
Proof.
  intros H. destruct (nm_del_get (nm_niddns s) (nm_nid32dns s) s H) as (Hd & Hdn & Hda).
  unfold updateNM. simpl in Hd, Hdn, Hda |- *.
  set (s1 := mkNM _ _ _ _) in *.
  destruct (newNMEntry_get (getNIDdns c) (getNIDcore c) s1 Hd) as (H1 & Hn1 & Ha1).
  destruct (newNMEntry32_get (nid2nid32 (getNIDdns c)) (getNIDdns c) (getNIDcore c) _ H1)
    as (H2 & Hn2 & Ha2).
  split_and!; [done|..].
  - intros n. by rewrite Hn2, Hn1, Hdn.
  - intros a. rewrite Ha2, Ha1, Hda. by repeat case_decide.
Qed.

(** Nothing moves the two globals. *)
Lemma newNMEntry32_globals a m g s :
  nm_niddns (newNMEntry32 a m g s) = nm_niddns s
  ∧ nm_nid32dns (newNMEntry32 a m g s) = nm_nid32dns s.
Proof. unfold newNMEntry32. by repeat case_match. Qed.

Lemma newNMEntry_globals m g s :
  nm_niddns (newNMEntry m g s) = nm_niddns s ∧ nm_nid32dns (newNMEntry m g s) = nm_nid32dns s.
Proof.
  unfold newNMEntry.
  destruct (et_find m (nidTable s)) as [[p e]|]; cbv zeta;
    match goal with |- context [newNMEntry32 ?a ?m ?g ?s1] =>
      by destruct (newNMEntry32_globals a m g s1) as [-> ->]
    end.
Qed.

Lemma updateNM_globals c s :
  nm_niddns (updateNM c s) = nm_niddns s ∧ nm_nid32dns (updateNM c s) = nm_nid32dns s.
Proof.
  unfold updateNM. set (s1 := set_field _ _ _).
  destruct (newNMEntry32_globals (nid2nid32 (getNIDdns c)) (getNIDdns c) (getNIDcore c)
    (newNMEntry (getNIDdns c) (getNIDcore c) s1)) as [-> ->].
  by destruct (newNMEntry_globals (getNIDdns c) (getNIDcore c) s1) as [-> ->].
Qed.
