(* ===== verification/RoutingTable.v ===== *)
(** The routing table of a gateway: the table functions of
    src/src/nid_routing.c. *)

From S2P Require Import Prelude NidTypes Inet HashTable Hash LList EntryTable Configuration.
From S2P Require Import QueueTable.

Local Open Scope Z_scope.

(** The globals [rtable], [nidgw] and [gatewayIP]. *)
Record rt_state := mkRT {
  rtable : conn_table;
  rt_nidgw : NID;
  rt_gatewayIP : NID32;
}.

#[export] Instance eta_rt : Eta rt_state :=
  λ s, mkRT (rtable s) (rt_nidgw s) (rt_gatewayIP s).

Definition init_rtable (c : config) : rt_state :=
  mkRT (et_empty (construct_hash_table true 30)) (getNIDgw c) (getGatewayIP c).

Definition destroy_rtable (s : rt_state) : rt_state :=
  s <| rtable := mkPT (free_hash_table (et_dict (rtable s))).1
                   (et_heap (rtable s)) (et_next (rtable s)) |>.

Definition newRTEntry (nid : NID) (ip : NID32) (now : Z) (s : rt_state) : rt_state :=
  s <| rtable ::= conn_new nid ip now |>.

Definition staticRTEntry (nid : NID) (ip : NID32) (s : rt_state) : rt_state :=
  s <| rtable ::= conn_static nid ip |>.

(** The new state, the returned [int] and [*dst]. *)
Definition getRTEntry (nid : NID) (now : Z) (s : rt_state) : rt_state * Z * NID32 :=
  match et_find nid (rtable s) with
  | Some (_, ce) =>
      if (now <? ce_tstamp ce + GATEWAY_TIMEOUT) || (ce_tstamp ce =? 0) then
        if negb (ce_ip ce =? 0) then (s, 1, ce_ip ce) else (s, 0, rt_gatewayIP s)
      else (s <| rtable ::= et_del nid |>, 0, rt_gatewayIP s)
  | None => (s, 0, rt_gatewayIP s)
  end.

Definition getAllRTEntries (clk : nat → Z) (s : rt_state) : ll_head :=
  hash_enumerate clk (rtable s) init_ll.

Definition updateRT (c : config) (s : rt_state) : rt_state :=
  s <| rtable ::= et_del (rt_nidgw s) |>
    <| rt_nidgw := getNIDgw c |> <| rt_gatewayIP := getGatewayIP c |>.

(** ** The table as a finite map *)

Definition rt_get (s : rt_state) (nid : NID) : option conn_entry := et_get (rtable s) nid.
Definition rt_ok (s : rt_state) : Prop := et_ok (K := NID) (rtable s).

(** An entry the routing table answers with. *)
Definition rt_valid (now : Z) (ce : conn_entry) : bool :=
  ((now <? ce_tstamp ce + GATEWAY_TIMEOUT) || (ce_tstamp ce =? 0)) && negb (ce_ip ce =? 0).

Lemma init_rtable_ok c : rt_ok (init_rtable c).
Proof. apply construct_table_ok. lia. Qed.

Lemma rt_get_init c nid : rt_get (init_rtable c) nid = None.
Proof. apply et_get_construct. Qed.

Lemma newRTEntry_ok nid ip now s : rt_ok s → rt_ok (newRTEntry nid ip now s).
Proof. apply conn_new_ok. Qed.

Lemma staticRTEntry_ok nid ip s : rt_ok s → rt_ok (staticRTEntry nid ip s).
Proof. apply conn_static_ok. Qed.

Lemma rt_get_newRTEntry nid nid' ip now s :
  rt_ok s →
  rt_get (newRTEntry nid ip now s) nid'
  = if decide (nid = nid') then Some (refreshed ip now (rt_get s nid)) else rt_get s nid'.
Proof. apply et_get_conn_new. Qed.

Lemma rt_get_staticRTEntry nid nid' ip s :
  rt_ok s →
  rt_get (staticRTEntry nid ip s) nid'
  = if decide (nid = nid') then Some (pinned ip (rt_get s nid)) else rt_get s nid'.
Proof. apply et_get_conn_static. Qed.

Lemma getRTEntry_ok nid now s : rt_ok s → rt_ok (getRTEntry nid now s).1.1.
Proof.
  intros H. unfold getRTEntry. repeat case_match; try done. by apply et_del_ok.
Qed.

(** The answer is the valid binding, or the gateway of the configuration. *)
Lemma getRTEntry_result nid now s :
  getRTEntry nid now s
  = match rt_get s nid with
    | Some ce =>
        if rt_valid now ce then (s, 1, ce_ip ce)
        else if (now <? ce_tstamp ce + GATEWAY_TIMEOUT) || (ce_tstamp ce =? 0)
        then (s, 0, rt_gatewayIP s)
        else (s <| rtable ::= et_del nid |>, 0, rt_gatewayIP s)
    | None => (s, 0, rt_gatewayIP s)
    end.
Proof.
  unfold getRTEntry, rt_get, rt_valid. destruct (et_find nid (rtable s)) as [[p ce]|] eqn:E.
  - rewrite (et_find_get _ _ _ _ E).
    destruct ((now <? _) || _), (negb (ce_ip ce =? 0)); done.
  - by rewrite (proj1 (et_find_None _ _) E).
Qed.

#[export] Hint Resolve init_rtable_ok newRTEntry_ok staticRTEntry_ok getRTEntry_ok : nid.
