(* ===== verification/Gwc.v ===== *)
(** The gateway threads and the registry table of the core gateway,
    src/src/gwc.c.  One definition per loop iteration: the datagram read, the
    thread's [nmsg] variable, the tables it touches. *)

From S2P Require Import Prelude NidTypes Inet HashTable Hash EntryTable Configuration QueueTable.
From S2P Require Import RoutingTable.

Local Open Scope Z_scope.

(** ** Registry table *)

Definition init_registry_table : conn_table := et_empty (construct_hash_table true 30).

Definition destroy_registry_table (t : conn_table) : conn_table :=
  mkPT (free_hash_table (et_dict t)).1 (et_heap t) (et_next t).

(** An existing entry gets the address; a new one has a zero time stamp. *)
Definition addRegistry (nid : NID) (ip : NID32) (t : conn_table) : conn_table :=
  match et_find nid t with
  | Some (ce, v) => et_update nid ce (mkConn ip (ce_tstamp v)) t
  | None => et_add nid (mkConn ip 0) t
  end.

(** The returned [int] and [*dst]. *)
Definition getRegistry (nid : NID) (t : conn_table) : Z * NID32 :=
  match et_find nid t with
  | Some (_, ce) => if negb (ce_ip ce =? 0) then (1, ce_ip ce) else (0, 0)
  | None => (0, 0)
  end.

(** ** Threads *)

(** [inet_pton (AF_INET, get_locator (getPrimaryIface ()), &nmsg.ip)] *)
Definition set_locator (locator : NID32) (m : NID_msg) : NID_msg :=
  m <| nm_ip ::= pton4_into (get_locator locator) |>.

(** [thread_gw_listener]: a registration becomes a route, and goes on to the
    talker.  The result is [nmsg], the routing table and the datagram written
    to [sp_gwl2gwt]. *)
Definition gw_listener_step (d : list Z) (nmsg : NID_msg) (now : Z) (rt : rt_state)
    : NID_msg * rt_state * list Z :=
  let nmsg := read_msg d nmsg in
  (nmsg, newRTEntry (nm_nid nmsg) (nm_ip nmsg) now rt, msg_bytes nmsg).

(** [thread_gw_core_listener]: a node of this tree is recorded as at home, one
    of another tree is announced to its home core.  The last component is the
    datagram written to [sp_gwt2ph], if any. *)
Definition gw_core_listener_step (nid : NID) (locator : NID32) (d : list Z) (nmsg : NID_msg)
    (now : Z) (rt : rt_state) (registry : conn_table)
    : NID_msg * rt_state * conn_table * option (list Z) :=
  let nmsg := read_msg d nmsg in
  let rt := newRTEntry (nm_nid nmsg) (nm_ip nmsg) now rt in
  if decide (nm_srcNIDgw nmsg = nid) then
    (nmsg, rt, addRegistry (nm_nid nmsg) 0 registry, None)
  else
    let nmsg := nmsg <| nm_type := nid_ctrl_type_val REDIRECT_CORE |> in
    let nmsg := nmsg <| nm_srcNID := nid |> in
    let nmsg := nmsg <| nm_destNID := nm_srcNIDgw nmsg |> in
    let nmsg := nmsg <| nm_destNIDgw := nm_srcNIDgw nmsg |> in
    let nmsg := nmsg <| nm_srcNIDgw := nid |> in
    let nmsg := set_locator locator nmsg in
    (nmsg, rt, registry, Some (msg_bytes nmsg)).

(** [thread_gw_talker]: the same assignments for a message from [sp_rvs2gwt]
    and from [sp_gwl2gwt]; the former is served first. *)
Definition gw_talker_step (c : config) (locator : NID32) (d : list Z) (nmsg : NID_msg)
    : NID_msg * list Z :=
  let nmsg := read_msg d nmsg in
  let nmsg := nmsg <| nm_type := nid_ctrl_type_val REGISTRY |> in
  let nmsg := nmsg <| nm_destNID := getNIDgw c |> in
  let nmsg := set_locator locator nmsg in
  (nmsg, msg_bytes nmsg).

(** ** Lemmas *)

Lemma addRegistry_static nid ip t : addRegistry nid ip t = conn_static nid ip t.
Proof. done. Qed.

Lemma init_registry_ok : et_ok (K := NID) init_registry_table.
Proof. apply construct_table_ok. lia. Qed.

Lemma addRegistry_ok nid ip t : et_ok t → et_ok (addRegistry nid ip t).
Proof. apply conn_static_ok. Qed.

Lemma et_get_addRegistry nid nid' ip t :
  et_ok t →
  et_get (addRegistry nid ip t) nid'
  = if decide (nid = nid') then Some (pinned ip (et_get t nid)) else et_get t nid'.
Proof. apply et_get_conn_static. Qed.

Lemma getRegistry_result nid t :
  getRegistry nid t
  = match et_get t nid with
    | Some ce => if ce_ip ce =? 0 then (0, 0) else (1, ce_ip ce)
    | None => (0, 0)
    end.
Proof.
  unfold getRegistry. destruct (et_find nid t) as [[p ce]|] eqn:E.
  - rewrite (et_find_get _ _ _ _ E). by destruct (ce_ip ce =? 0).
  - by rewrite (proj1 (et_find_None _ _) E).
Qed.

(** Printing the interface address and parsing it back is the identity. *)
Lemma set_locator_ip locator m :
  nid32_ok locator → set_locator locator m = m <| nm_ip := locator |>.
Proof.
  intros H. unfold set_locator, pton4_into, get_locator, nid322char. simpl.
  by rewrite inet_pton_ntop_in.
Qed.

#[export] Hint Resolve init_registry_ok addRegistry_ok : nid.
