(* ===== verification/Dhtc.v ===== *)
(** The DHT client of the core gateway, src/src/dhtc.c: the cache of core
    locators and the two threads.  The RPC service is outside the program: how a
    connection goes and what the service answers to a call are inputs of each
    iteration. *)

From S2P Require Import Prelude NidTypes Inet HashTable Hash EntryTable Configuration QueueTable.

Local Open Scope Z_scope.

(** ** Keys *)

Definition hash_nid (s : list Z) : Z :=
  foldl (λ r c, u32_wrap (Z.shiftl (Z.lxor r (u32_wrap (schar c))) 1)) 0 s.

(** Decimal digits of a non-negative number. *)
Fixpoint dec_digits (fuel : nat) (z : Z) (acc : list Z) : list Z :=
  match fuel with
  | O => acc
  | S fuel =>
      let acc := 48 + z `mod` 10 :: acc in
      if z `div` 10 =? 0 then acc else dec_digits fuel (z `div` 10) acc
  end.

(** [sprintf (key, "%d", u)]: the [unsigned] argument is printed as an [int];
    ten digits are enough for 32 bits. *)
Definition sprintf_d (u : Z) : list Z :=
  let i := if u <? 2 ^ 31 then u else u - 2 ^ 32 in
  if i <? 0 then 45 :: dec_digits 10 (- i) [] else dec_digits 10 i [].

Record bamboo_put_args := mkPut {
  put_application : list Z;
  put_client_library : list Z;
  put_key : list Z;      (* the NUL-padded [bamboo_key[20]] *)
  put_value : list Z;
  put_ttl_sec : Z;
}.

Definition APP_STRING : list Z := chars "OpenDHT HIP Interface $Revision: 1.2 $".
Definition CLIB_STRING : list Z := chars "rpcgen".

(** [memset] then [sprintf] into a [bamboo_key]. *)
Definition bamboo_key_of (s : list Z) : list Z :=
  overlay (sprintf_d (hash_nid s)) (replicate 20 0).

Definition opendhtput (key value : list Z) (ttl : Z) : bamboo_put_args :=
  mkPut APP_STRING CLIB_STRING (bamboo_key_of key) value ttl.

Record bamboo_get_args := mkGet {
  get_application : list Z;
  get_client_library : list Z;
  get_key : list Z;
  get_maxvals : Z;
}.

Definition opendhtget (key : list Z) (maxvals : Z) : bamboo_get_args :=
  mkGet APP_STRING CLIB_STRING key maxvals.

(** ** The connection *)

(** [gethostbyname] fails; [clnttcp_create] gives NULL; the null call fails; or
    the service answers. *)
Inductive dht_service := Unresolved | NotCreated | NoAnswer | Connected.

(** A NULL result ends the process. *)
Definition do_null_call (answered : bool) : outcome unit := if answered then Go tt else ProcessExit.

(** Whether the client is not NULL. *)
Definition connectDHTserver (s : dht_service) : outcome bool :=
  match s with
  | Unresolved => ProcessExit
  | NotCreated => Go false
  | NoAnswer => _ ← do_null_call false; Go true
  | Connected => _ ← do_null_call true; Go true
  end.

(** ** The cache of locators *)

Definition init_dhtable : conn_table := et_empty (construct_hash_table true 30).

Definition destroy_dhtable (t : conn_table) : conn_table :=
  mkPT (free_hash_table (et_dict t)).1 (et_heap t) (et_next t).

(** A new entry each time; the previous one is not freed. *)
Definition addDHTEntry (nid : NID) (ip : NID32) (now : Z) (t : conn_table) : conn_table :=
  et_add nid (mkConn ip now) t.

(** The cache, the pending table and the channel to the resolver thread. *)
Record dht_env := mkDht { dhtable : conn_table; dht_pending : queue_table; sp_dht : chan }.

#[export] Instance eta_dht : Eta dht_env :=
  λ e, mkDht (dhtable e) (dht_pending e) (sp_dht e).

(** The end of [getDHTEntry]: a request to the resolver, unless one is
    pending. *)
Definition dht_request (nid : NID) (now1 now2 : timeval) (e : dht_env) : dht_env :=
  let '(q, queued) := is_dht_queued nid now1 (dht_pending e) in
  let e := e <| dht_pending := q |> in
  if queued =? 0 then
    e <| dht_pending ::= dht_queue nid now2 |> <| sp_dht ::= chan_write (take 16 nid) |>
  else e.

(** [None] leaves [*dst] as it was; [now1] and [now2] are the clock readings
    of the test and of the insertion. *)
Definition getDHTEntry (nid : NID) (now1 now2 : timeval) (e : dht_env)
    : dht_env * Z * option NID32 :=
  match et_find nid (dhtable e) with
  | Some (_, ce) =>
      if negb (ce_ip ce =? 0) then (e, 1, Some (ce_ip ce))
      else (dht_request nid now1 now2 e, 0, None)
  | None => (dht_request nid now1 now2 e, 0, None)
  end.

(** ** Threads *)

(** One turn of [thread_dht_update]: the call made when the connection to the
    service succeeds; without a client the thread ends. *)
Definition dht_update_step (nid coreIP : list Z) (s : dht_service) : outcome bamboo_put_args :=
  clnt ← connectDHTserver s;
  if (clnt : bool) then Go (opendhtput nid coreIP DHT_TTL) else ThreadExit.

(** [strncpy (dst, src, n)]: the characters before the NUL, padded with
    zeros; no NUL is added when [n] characters are copied. *)
Definition strncpy_bytes (src : list Z) (n : nat) : list Z :=
  let s := take n (cstr src) in s ++ replicate (n - length s) 0.

(** The variables of [thread_dht_get] that live across iterations. *)
Record dht_get_local := mkDhtGet {
  dg_aux : list Z;     (* [char aux[INET6_ADDRSTRLEN]] *)
  dg_nid32 : NID32;
  dg_nid : NID;
}.

Definition INET6_ADDRSTRLEN : nat := 46.

(** One turn of [thread_dht_get] on the datagram [d] from [sp_dht].  [answer] is
    what the service answers to the get call: [None] for a failed call, whose NULL
    the code dereferences, otherwise the values. *)
Definition dht_get_step (d : list Z) (s : dht_service)
    (answer : bamboo_get_args → option (list (list Z)))
    (now : Z) (l : dht_get_local) (e : dht_env) : outcome (dht_get_local * dht_env) :=
  let nid := overlay (take 16 d) (dg_nid l) in
  clnt ← connectDHTserver s;
  if negb clnt then ThreadExit else
  let aux := overlay (inet_ntop6 nid ++ [0]) (dg_aux l) in
  match answer (opendhtget (bamboo_key_of (cstr aux)) 10) with
  | None => Fault
  | Some [] => Go (mkDhtGet aux (dg_nid32 l) nid, e)
  | Some (v :: _) =>
      if (INET6_ADDRSTRLEN <? length v)%nat then Fault else
      let aux := overlay (strncpy_bytes v (length v)) aux in
      let nid32 := pton4_into (cstr aux) (dg_nid32 l) in
      let e := e <| dht_pending ::= dht_unqueue nid |> in
      Go (mkDhtGet aux nid32 nid, e <| dhtable ::= addDHTEntry nid nid32 now |>)
  end.

(** ** Lemmas *)

Record dht_ok (e : dht_env) : Prop := {
  dht_table_ok : et_ok (K := NID) (dhtable e);
  dht_queue_ok : queue_ok (dht_pending e);
}.

Lemma init_dhtable_ok : et_ok (K := NID) init_dhtable.
Proof. apply construct_table_ok. lia. Qed.

Lemma addDHTEntry_ok nid ip now t : et_ok t → et_ok (addDHTEntry nid ip now t).
Proof. apply et_add_ok. Qed.

Lemma et_get_addDHTEntry nid nid' ip now t :
  et_ok t →
  et_get (addDHTEntry nid ip now t) nid'
  = if decide (nid = nid') then Some (mkConn ip now) else et_get t nid'.
Proof. apply et_get_add. Qed.

(** What the cache answers. *)
Definition dht_hit (e : dht_env) (nid : NID) : option NID32 :=
  match et_get (dhtable e) nid with
  | Some ce => if ce_ip ce =? 0 then None else Some (ce_ip ce)
  | None => None
  end.

Lemma getDHTEntry_hit nid now1 now2 e ip :
  dht_hit e nid = Some ip → getDHTEntry nid now1 now2 e = (e, 1, Some ip).
Proof.
  unfold dht_hit, getDHTEntry. intros H.
  destruct (et_find nid (dhtable e)) as [[p ce]|] eqn:E.
  - rewrite (et_find_get _ _ _ _ E) in H. by destruct (ce_ip ce =? 0); simplify_eq/=.
  - by rewrite (proj1 (et_find_None _ _) E) in H.
Qed.

Lemma dht_request_result nid now1 now2 e :
  queue_ok (dht_pending e) →
  dht_request nid now1 now2 e
  = match et_get (dht_pending e) nid with
    | Some re =>
        if queue_pending now1 re then e
        else mkDht (dhtable e) (queue nid now2 (unqueue nid (dht_pending e)))
               (chan_write (take 16 nid) (sp_dht e))
    | None => mkDht (dhtable e) (queue nid now2 (dht_pending e))
                (chan_write (take 16 nid) (sp_dht e))
    end.
Proof.
  intros Hq. unfold dht_request. rewrite is_dht_queued_same, isQueued_result by done.
  destruct (et_get (dht_pending e) nid) as [re|]; [|done].
  destruct (queue_pending now1 re); [|done]. by destruct e.
Qed.

(** A miss answers 0 and asks the resolver unless a request is pending. *)
Lemma getDHTEntry_miss nid now1 now2 e :
  dht_hit e nid = None →
  getDHTEntry nid now1 now2 e = (dht_request nid now1 now2 e, 0, None).
Proof.
  unfold dht_hit, getDHTEntry. intros H.
  destruct (et_find nid (dhtable e)) as [[p ce]|] eqn:E; [|done].
  rewrite (et_find_get _ _ _ _ E) in H. by destruct (ce_ip ce =? 0); simplify_eq/=.
Qed.

Lemma getDHTEntry_ok nid now1 now2 e : dht_ok e → dht_ok (getDHTEntry nid now1 now2 e).1.1.
Proof.
  intros [Ht Hq]. destruct (dht_hit e nid) as [ip|] eqn:E.
  - by rewrite (getDHTEntry_hit _ _ _ _ ip).
  - rewrite getDHTEntry_miss by done. simpl. rewrite dht_request_result by done.
    repeat case_match; split; simpl; auto using queue_preserves, unqueue_preserves.
Qed.

Lemma dht_get_step_ok d s r now l e l' e' :
  dht_ok e → dht_get_step d s r now l e = Go (l', e') → dht_ok e'.
Proof.
  intros [Ht Hq] H. unfold dht_get_step in H.
  destruct (connectDHTserver s) as [[]| | |]; [|done..]. rewrite bind_Go in H.
  repeat case_match; simplify_eq/=; [done|].
  split; simpl; [by apply addDHTEntry_ok|]. by apply unqueue_preserves.
Qed.

#[export] Hint Resolve init_dhtable_ok addDHTEntry_ok getDHTEntry_ok : nid.
