(* ===== verification/ConfPrint.v ===== *)
(** Identifiers as text: what the daemon prints of its configuration and of the
    messages (the [print_] functions of src/src/configuration.c and [print_ll] of
    src/src/llist.c), and the conversions back, [char2nid] and [char2nid32].  A
    printing function is the text it writes to the standard output. *)

From S2P Require Import Prelude NidTypes Inet HashTable Hash EntryTable Configuration LList.
From S2P Require Import QueueTable Dhtc.

Local Open Scope Z_scope.

(** ** Texts *)

Definition newline : list Z := [10].
Definition tabs (n : nat) : list Z := replicate n 9.

(** [printf ("<label>:<n tabs> %s\n", text)]. *)
Definition line (label : string) (n : nat) (text : list Z) : list Z :=
  chars label ++ [58] ++ tabs n ++ [32] ++ text ++ newline.

(** A line of 36 characters or so around a title. *)
Definition banner (s : string) : list Z := chars s ++ newline.

(** ** The configuration *)

Section Print.
Context (c : config).

Definition print_dhcp : list Z :=
  banner "ok!" ++ banner "-------- DHCP Response ------------"
    ++ line "Core NID" 1 (inet_ntop6 (conf_nidcore c))
    ++ line "Gateway NID" 1 (inet_ntop6 (conf_nidgw c))
    ++ line "Gateway IP" 1 (inet_ntop4 (conf_gatewayIP c))
    ++ line "RVS NID" 1 (inet_ntop6 (conf_nidrvs c))
    ++ line "RVS IP" 2 (inet_ntop4 (conf_rvsIP c))
    ++ line "DNS NID" 1 (inet_ntop6 (conf_niddns c))
    ++ line "Node IP" 1 (inet_ntop4 (conf_ip c))
    ++ banner "-------- End DHCP Response --------".

Definition type_name : list Z :=
  let t := conf_type c in
  if t =? node_types_val NODE then banner "NODE"
  else if t =? node_types_val RVS then banner "RVS"
  else if t =? node_types_val GATEWAY then banner "GATEWAY"
  else if t =? node_types_val CORE then banner "CORE"
  else banner "unknown type!".

Definition print_type : list Z := chars "Type:" ++ tabs 3 ++ [32] ++ type_name.

Definition print_conf : list Z :=
  banner "-------- Node information -----------"
    ++ print_type
    ++ line "NID" 3 (inet_ntop6 (conf_nid c))
    ++ line "NIDGW CORE HOME" 1 (inet_ntop6 (conf_nidcorehome c))
    ++ line "NIDGW CORE" 2 (inet_ntop6 (conf_nidcore c))
    ++ banner "-------- Gateway information --------"
    ++ line "Gateway NID" 2 (inet_ntop6 (conf_nidgw c))
    ++ line "Gateway IP" 2 (inet_ntop4 (conf_gatewayIP c))
    ++ banner "-------- RVS information ------------"
    ++ line "RVS NID" 2 (inet_ntop6 (conf_nidrvs c))
    ++ line "RVS IP" 3 (inet_ntop4 (conf_rvsIP c))
    ++ banner "-------- DNS information ------------"
    ++ line "DNS NID" 2 (inet_ntop6 (conf_niddns c))
    ++ (if conf_type c =? node_types_val CORE then
          banner "-------- DHT information ------------"
            ++ line "DHT IP" 3 (inet_ntop4 (conf_dhtIP c))
        else []).
End Print.

(** ** Identifiers, headers, messages *)

Definition print_nid (nid : NID) (str : list Z) : list Z :=
  chars ">>>" ++ str ++ chars " NID: " ++ inet_ntop6 nid ++ newline.
Definition print_nid32 (nid32 : NID32) (str : list Z) : list Z :=
  chars ">>>" ++ str ++ chars " NID32: " ++ inet_ntop4 nid32 ++ newline.
Definition print_ipv4 (nid32 : NID32) (str : list Z) : list Z :=
  chars ">>>" ++ str ++ chars " IP: " ++ inet_ntop4 nid32 ++ newline.

Definition print_ctrl (nmsg : NID_msg) : list Z :=
  banner "--- NID Control message: ---"
    ++ line "Type" 2 (sprintf_d (nm_type nmsg))
    ++ line "srcNID" 2 (inet_ntop6 (nm_srcNID nmsg))
    ++ line "destNID" 1 (inet_ntop6 (nm_destNID nmsg))
    ++ line "srcNIDgw" 1 (inet_ntop6 (nm_srcNIDgw nmsg))
    ++ line "destNIDgw" 1 (inet_ntop6 (nm_destNIDgw nmsg))
    ++ line "NID" 2 (inet_ntop6 (nm_nid nmsg))
    ++ line "IP" 2 (inet_ntop4 (nm_ip nmsg)).

Definition print_nh (nh : NID_header) : list Z :=
  banner "--- NID Header: ---"
    ++ line "Type" 2 (sprintf_d (nh_type nh))
    ++ line "srcNID" 2 (inet_ntop6 (nh_srcNID nh))
    ++ line "destNID" 1 (inet_ntop6 (nh_destNID nh))
    ++ line "srcNIDgw" 1 (inet_ntop6 (nh_srcNIDgw nh))
    ++ line "destNIDgw" 1 (inet_ntop6 (nh_destNIDgw nh)).

Definition print_node (n : ll_node) : list Z :=
  chars "nid=" ++ inet_ntop6 (ll_nid n) ++ chars " ip=" ++ ll_ip n ++ newline.
Definition print_ll (ll : ll_head) : list Z := concat (print_node <$> ll_nodes ll).

(** ** Back from text *)

(** The result of a text that is not an address is a local variable that was
    not set: [None]. *)
Definition char2nid (str : list Z) : option NID := inet_pton6 str.
Definition char2nid32 (str : list Z) : option NID32 := inet_pton_in str.
