(* ===== verification/PacketHandler.v ===== *)
(** The packet handler, src/src/packetHandler.c.  The output thread puts the
    NID header in front of what the interface, the resolvers, the mobility and
    the gateway threads write; the input thread removes it and sends the
    payload to the raw sockets or to the control thread.  Both threads keep
    one 1500-byte buffer for the life of the daemon. *)

From S2P Require Import Prelude NidTypes HashTable Hash EntryTable Configuration QueueTable.
From S2P Require Import NidMapper.

Local Open Scope Z_scope.

Definition MAXBUFLEN : nat := 1500.

(** [size], the room after the header. *)
Definition ph_size : nat := MAXBUFLEN - nh_len.

(** [pt], the buffer after the header. *)
Definition payload (buf : list Z) : list Z := drop nh_len buf.

(** Assignment to the header at the start of the buffer. *)
Definition put_header (h : NID_header) (buf : list Z) : list Z :=
  overlay (header_bytes h) buf.

#[export] Instance eta_header : Eta NID_header := λ h,
  mkHeader (nh_type h) (nh_srcNID h) (nh_destNID h) (nh_srcNIDgw h) (nh_destNIDgw h).

(** ** [thread_ph_output] *)

(** The four sources of the output thread, in the order it serves them. *)
Inductive ph_source := FromNf | FromRvs | FromMo | FromGwt.

(** The static buffer when the loop starts. *)
Definition ph_output_init (nid : NID) : list Z :=
  put_header (header_of (replicate MAXBUFLEN 0) <| nh_srcNID := nid |>)
    (replicate MAXBUFLEN 0).

(** [ip->daddr] and [ip->protocol] of the packet at [pt]. *)
Definition ip_daddr (pt : list Z) : NID32 := le_val (slice 16 4 pt).
Definition ip_protocol (pt : list Z) : Z := default 0 (pt !! 9%nat).

(** The source [select] reports that is served, with its first datagram. *)
Definition ph_select (nf rvs mo gwt : chan) : option (ph_source * list Z) :=
  match nf, rvs, mo, gwt with
  | d :: _, _, _, _ => Some (FromNf, d)
  | [], d :: _, _, _ => Some (FromRvs, d)
  | [], [], d :: _, _ => Some (FromMo, d)
  | [], [], [], d :: _ => Some (FromGwt, d)
  | _, _, _, _ => None
  end.

(** One turn of the loop: the buffer after it, and the datagram written to
    [sp_ph2nr]. *)
Definition ph_output_step (src : ph_source) (d : list Z) (nidcore : NID) (nm : nm_state)
    (buf : list Z) : list Z * option (list Z) :=
  let d := take ph_size d in            (* read (..., pt, size) *)
  let recv_bytes := length d in
  let buf := splice nh_len d buf in
  let send buf := (buf, Some (take (recv_bytes + nh_len) buf)) in
  let h := header_of buf in
  let m := msg_of (payload buf) in
  match src with
  | FromNf =>
      match getNMEntry32 (ip_daddr (payload buf)) nm with
      | Some e =>
          send (put_header (h <| nh_type := nid_ctrl_type_val DATA |>
                              <| nh_srcNIDgw := nidcore |>
                              <| nh_destNID := nme32_nid e |>
                              <| nh_destNIDgw := nme32_nidgw e |>) buf)
      | None => (buf, None)
      end
  | FromRvs | FromMo =>
      send (put_header (h <| nh_type := nm_type m |>
                          <| nh_srcNID := nm_srcNID m |>
                          <| nh_destNID := nm_destNID m |>) buf)
  | FromGwt =>
      send (put_header (h <| nh_type := nm_type m |>
                          <| nh_srcNID := nm_srcNID m |>
                          <| nh_destNID := nm_destNID m |>
                          <| nh_srcNIDgw := nm_srcNIDgw m |>
                          <| nh_destNIDgw := nm_destNIDgw m |>) buf)
  end.

(** [updatePH]: the new value of [nidcore]. *)
Definition updatePH (c : config) : NID := getNIDcore c.

(** ** [thread_ph_input] *)

Definition IPPROTO_ICMP : Z := 1.
Definition IPPROTO_TCP : Z := 6.
Definition IPPROTO_UDP : Z := 17.

(** What a turn of the input thread does with the payload. *)
Inductive ph_delivery :=
  | ToRaw (proto : Z) (pkt : list Z)   (* one of the three raw sockets *)
  | ToControl (msg : list Z)           (* [sp_ph2co] *)
  | Dropped.

(** [sendto (raw, pt, len, ...)] on a raw socket with [IP_HDRINCL]: [accepts]
    is the kernel's verdict on the packet.  A negative [len] becomes a length
    the kernel refuses. *)
Definition raw_sendto (accepts : list Z → bool) (buf : list Z) (len : Z) : option (list Z) :=
  if len <? 0 then None
  else let pkt := take (Z.to_nat len) buf in
       if accepts pkt then Some pkt else None.

(** [write (sp_ph2co[1], pt, len)] *)
Definition control_write (buf : list Z) (len : Z) : ph_delivery :=
  if len <? 0 then Dropped else ToControl (take (Z.to_nat len) buf).

(** The [switch] on the type of the header. *)
Definition ph_deliver (accepts : list Z → bool) (type : Z) (pt : list Z) (len : Z)
    : outcome ph_delivery :=
  let raw proto :=
    match raw_sendto accepts pt len with
    | Some pkt => Go (ToRaw proto pkt)
    | None => ProcessExit
    end in
  match msg_type_of type with
  | Some (Ctrl DATA) =>
      let p := ip_protocol pt in
      if p =? IPPROTO_TCP then raw IPPROTO_TCP
      else if p =? IPPROTO_UDP then raw IPPROTO_UDP
      else if p =? IPPROTO_ICMP then raw IPPROTO_ICMP
      else Go Dropped
  | Some (Ctrl REDIRECT) | Some (Ctrl REGISTRY) | Some (Ctrl REDIRECT_CORE)
  | Some (Rvs RVS_UPDATE) | Some (Rvs RVS_ACK) | Some (Rvs RVS_GET)
  | Some (Rvs RVS_RESPONSE) => Go (control_write pt len)
  | Some (Ctrl RELOCATE) | None => Go Dropped
  end.

(** One turn of the loop. *)
Definition ph_input_step (accepts : list Z → bool) (d : list Z) (nm : nm_state)
    (buf : list Z) : list Z * nm_state * outcome ph_delivery :=
  let d := take MAXBUFLEN d in
  let recv_bytes := Z.of_nat (length d) in
  let buf := overlay d buf in
  let h := header_of buf in
  let nm := newNMEntry (nh_srcNID h) (nh_srcNIDgw h) nm in
  (buf, nm, ph_deliver accepts (nh_type h) (payload buf) (recv_bytes - Z.of_nat nh_len)).

(** ** Buffers *)

Definition buf_ok (buf : list Z) : Prop := length buf = MAXBUFLEN ∧ bytes_ok buf.

#[export] Instance buf_ok_dec buf : Decision (buf_ok buf).
Proof. unfold buf_ok. apply _. Defined.

Lemma bytes_ok_header_bytes h : header_ok h → bytes_ok (header_bytes h).
Proof.
  intros (_ & [_ ?] & [_ ?] & [_ ?] & [_ ?]). unfold header_bytes.
  rewrite !bytes_ok_app. auto 10 with nid.
Qed.

Lemma put_header_ok h buf : header_ok h → buf_ok buf → buf_ok (put_header h buf).
Proof.
  intros Hh [Hl Hb]. pose proof (length_header_bytes h Hh). unfold buf_ok, put_header, MAXBUFLEN, nh_len in *.
  split.
  - rewrite length_overlay; lia.
  - apply bytes_ok_overlay; [done|]. by apply bytes_ok_header_bytes.
Qed.

Lemma payload_put_header h buf : header_ok h → payload (put_header h buf) = payload buf.
Proof.
  intros Hh. unfold payload, put_header, overlay.
  rewrite drop_app_ge by (rewrite length_header_bytes; done || lia).
  by rewrite length_header_bytes, Nat.sub_diag, drop_0.
Qed.

Lemma header_put_header h buf : header_ok h → header_of (put_header h buf) = h.
Proof. intros. by apply header_of_bytes. Qed.

(** What a turn sends: the header, and the payload as it was read. *)
Lemma take_put_header h n buf :
  header_ok h → take (n + nh_len) (put_header h buf) = header_bytes h ++ take n (payload buf).
Proof.
  intros Hh. unfold put_header, overlay, payload.
  rewrite length_header_bytes, take_app_ge by (rewrite ?length_header_bytes; done || lia).
  rewrite length_header_bytes by done. by replace (n + nh_len - nh_len)%nat with n by lia.
Qed.

Lemma splice_payload d buf :
  buf_ok buf → (length d ≤ ph_size)%nat → take (length d) (payload (splice nh_len d buf)) = d.
Proof.
  intros [Hl _] Hd. pose proof (slice_splice_eq nh_len d buf) as H.
  unfold slice in H. apply H. unfold ph_size, MAXBUFLEN, nh_len in *. lia.
Qed.

Lemma splice_ok d buf :
  buf_ok buf → bytes_ok d → (length d ≤ ph_size)%nat → buf_ok (splice nh_len d buf).
Proof.
  intros [Hl Hb] Hd Hs. split; [|by apply bytes_ok_splice].
  rewrite length_splice; [done|]. unfold ph_size, MAXBUFLEN, nh_len in *. lia.
Qed.

Lemma header_splice d buf :
  buf_ok buf → header_of (splice nh_len d buf) = header_of buf.
Proof.
  intros [Hl _]. unfold header_of, nh_len, MAXBUFLEN in *.
  by rewrite !slice_splice_before by lia.
Qed.

Lemma payload_ok buf : buf_ok buf → bytes_ok (payload buf) ∧ length (payload buf) = ph_size.
Proof.
  intros [Hl Hb]. unfold payload. split; [by apply bytes_ok_drop|].
  rewrite length_drop, Hl. done.
Qed.

Lemma buf_header_ok buf : buf_ok buf → header_ok (header_of buf).
Proof. intros [Hl Hb]. apply header_of_ok; [rewrite Hl; unfold nh_len, MAXBUFLEN; lia|done]. Qed.

Lemma buf_msg_ok buf : buf_ok buf → msg_ok (msg_of (payload buf)).
Proof.
  intros H. destruct (payload_ok buf H) as [Hb Hl].
  apply msg_of_ok; [rewrite Hl; unfold nmsg_len, ph_size, MAXBUFLEN, nh_len; lia|done].
Qed.

Lemma zeros_ok : buf_ok (replicate MAXBUFLEN 0).
Proof. split; [by rewrite length_replicate|apply bytes_ok_replicate]. Qed.

Lemma ph_output_init_ok nid : nid_ok nid → buf_ok (ph_output_init nid).
Proof.
  intros H. apply put_header_ok; [|apply zeros_ok].
  destruct (buf_header_ok _ zeros_ok) as (?&?&?&?&?). by split_and!.
Qed.

(** The message of a datagram that fills it. *)
Lemma msg_of_splice m d buf :
  buf_ok buf → msg_ok m → d = msg_bytes m → msg_of (payload (splice nh_len d buf)) = m.
Proof.
  intros Hb Hm ->. pose proof (length_msg_bytes m Hm) as Hl.
  unfold payload, splice. destruct Hb as [Hb _].
  rewrite drop_app_length' by (rewrite length_take; unfold MAXBUFLEN, nh_len in *; lia).
  by apply msg_of_bytes.
Qed.

(** The identifiers of the mapper are identifiers. *)
Record nm_nids_ok (nm : nm_state) : Prop := {
  nm_nids a e : getNMEntry32 a nm = Some e → nid_ok (nme32_nid e) ∧ nid_ok (nme32_nidgw e);
}.

Lemma newNMEntry_nids nid nidgw nm :
  nm_ok nm → nid_ok nid → nid_ok nidgw → nm_nids_ok nm → nm_nids_ok (newNMEntry nid nidgw nm).
Proof.
  intros Hnm Hn Hg [H]. split. intros a e.
  destruct (newNMEntry_get nid nidgw nm Hnm) as (_ & _ & ->).
  case_decide; [by intros; simplify_eq|apply H].
Qed.

Lemma ph_output_step_ok src d nidcore nm buf :
  buf_ok buf → bytes_ok d → nid_ok nidcore → nm_nids_ok nm →
  buf_ok (ph_output_step src d nidcore nm buf).1.
Proof.
  intros Hb Hd Hc [Hn]. unfold ph_output_step.
  assert (Hs : buf_ok (splice nh_len (take ph_size d) buf))
    by (apply splice_ok; auto with nid; rewrite length_take; lia).
  destruct (buf_header_ok _ Hs) as (?&?&?&?&?). destruct (buf_msg_ok _ Hs) as (?&?&?&?&?&?&?).
  destruct src; simpl; try (apply put_header_ok; [by split_and!|done]).
  destruct (getNMEntry32 _ nm) as [e|] eqn:E; simpl; [|done].
  destruct (Hn _ _ E). apply put_header_ok; [split_and!; simpl; try done|done].
Qed.

(** What is delivered is a prefix of the payload. *)
Lemma ph_deliver_control accepts type pt len m :
  ph_deliver accepts type pt len = Go (ToControl m) → ∃ k, m = take k pt.
Proof.
  unfold ph_deliver, control_write, raw_sendto. intros H.
  destruct (msg_type_of type) as [[[]|[]]|]; repeat case_match; simplify_eq; eauto.
Qed.

Lemma ph_input_step_nm accepts d nm buf :
  (ph_input_step accepts d nm buf).1.2
  = newNMEntry (nh_srcNID (header_of (overlay (take MAXBUFLEN d) buf)))
      (nh_srcNIDgw (header_of (overlay (take MAXBUFLEN d) buf))) nm.
Proof. done. Qed.

Lemma overlay_buf_ok d buf : buf_ok buf → bytes_ok d → buf_ok (overlay (take MAXBUFLEN d) buf).
Proof.
  intros [Hl Hb] Hd. split; [|auto with nid].
  rewrite length_overlay; [done|]. rewrite length_take. lia.
Qed.

Lemma ph_input_step_ok accepts d nm buf :
  buf_ok buf → bytes_ok d → nm_ok nm → nm_nids_ok nm →
  let r := ph_input_step accepts d nm buf in buf_ok r.1.1 ∧ nm_ok r.1.2 ∧ nm_nids_ok r.1.2.
Proof.
  intros Hb Hd Hn Hi r. pose proof (overlay_buf_ok d buf Hb Hd) as Ho.
  destruct (buf_header_ok _ Ho) as (_&?&_&?&_). split; [done|].
  split; [by apply newNMEntry_ok|by apply newNMEntry_nids].
Qed.

#[export] Hint Resolve put_header_ok splice_ok buf_header_ok buf_msg_ok overlay_buf_ok
  ph_output_init_ok ph_output_step_ok newNMEntry_nids : nid.
