(* ===== verification/NidRouting.v ===== *)
(** The threads of src/src/nid_routing.c between the packet handler and the
    UDP socket of the daemon, one definition per loop iteration. *)

From S2P Require Import Prelude NidTypes HashTable Hash EntryTable Configuration QueueTable.
From S2P Require Import ConnectionMapper RoutingTable Gwc Dhtc PacketHandler.

Local Open Scope Z_scope.

(** A [sendto] to port [DATA_PORT]: the address and the datagram.  A failed
    call is reported and ignored. *)
Abbreviation sent := (NID32 * list Z)%type.

(** The destination the header in [buf] names. *)
Definition hdr_destNID (buf : list Z) : NID := nh_destNID (header_of buf).
Definition hdr_destNIDgw (buf : list Z) : NID := nh_destNIDgw (header_of buf).

(** ** Output *)

(** [thread_nr_output] *)
Definition nr_output_step (d : list Z) (ck : cm_clock) (buf : list Z) (e : cm_env)
    : list Z * cm_env * sent :=
  let d := take MAXBUFLEN d in
  let buf := overlay d buf in
  let '(e, _, ip) := getCMEntry (hdr_destNID buf) ck e in
  (buf, e, (ip, take (length d) buf)).

(** The two sources of a gateway's output thread: its own packets and the
    ones the input thread forwards. *)
Inductive nr_source := FromPh | FromNr.

(** [thread_nr_output_gw]; [now] is the clock reading of the routing table. *)
Definition nr_output_gw_step (src : nr_source) (d : list Z) (ck : cm_clock) (now : Z)
    (buf : list Z) (e : cm_env) (rt : rt_state) : list Z * cm_env * rt_state * sent :=
  let d := take MAXBUFLEN d in
  let buf := overlay d buf in
  let dst := hdr_destNID buf in
  let out ip := (ip, take (length d) buf) in
  match src with
  | FromPh =>
      let '(e, found, ip) := getCMEntry dst ck e in
      if found =? 0 then
        let '(rt, _, ip) := getRTEntry dst now rt in (buf, e, rt, out ip)
      else (buf, e, rt, out ip)
  | FromNr =>
      let '(rt, _, ip) := getRTEntry dst now rt in (buf, e, rt, out ip)
  end.

(** The lookups of a core gateway after the connection mapper: the routing
    table, the registry of its own nodes, the cache of the DHT. *)
Definition core_route (dst dstgw : NID) (now : Z) (now1 now2 : timeval) (rt : rt_state)
    (registry : conn_table) (dht : dht_env) : rt_state * dht_env * option NID32 :=
  let '(rt, found, ip) := getRTEntry dst now rt in
  if found =? 0 then
    let '(found, ip) := getRegistry dst registry in
    if found =? 0 then
      let '(dht, found, ip) := getDHTEntry dstgw now1 now2 dht in
      if found =? 0 then (rt, dht, None) else (rt, dht, ip)
    else (rt, dht, Some ip)
  else (rt, dht, Some ip).

(** [thread_nr_output_core]; [None] for a packet that is not sent. *)
Definition nr_output_core_step (src : nr_source) (d : list Z) (ck : cm_clock) (now : Z)
    (now1 now2 : timeval) (buf : list Z) (e : cm_env) (rt : rt_state)
    (registry : conn_table) (dht : dht_env)
    : list Z * cm_env * rt_state * dht_env * option sent :=
  let d := take MAXBUFLEN d in
  let buf := overlay d buf in
  let dst := hdr_destNID buf in
  let out ip := (ip, take (length d) buf) in
  let route :=
    core_route dst (hdr_destNIDgw buf) now now1 now2 rt registry dht in
  match src with
  | FromPh =>
      let '(e, found, ip) := getCMEntry dst ck e in
      if found =? 0 then (buf, e, route.1.1, route.1.2, out <$> route.2)
      else (buf, e, rt, dht, Some (out ip))
  | FromNr => (buf, e, route.1.1, route.1.2, out <$> route.2)
  end.

(** ** Input *)

(** What [recvfrom] returns: a datagram and its sender, or an error, which is
    reported before the loop goes on with [recv_bytes = -1]. *)
Inductive recv_result := Received (from : NID32) (d : list Z) | RecvError.

(** The variables that survive an iteration: [buf] and [recv_addr]. *)
Record nri_local := mkNri { nri_buf : list Z; nri_addr : NID32 }.

Definition recvfrom (r : recv_result) (l : nri_local) : Z * nri_local :=
  match r with
  | Received from d =>
      let d := take MAXBUFLEN d in
      (Z.of_nat (length d), mkNri (overlay d (nri_buf l)) from)
  | RecvError => (-1, l)
  end.

(** [thread_nr_input]; the last components are the connection mapper and
    [sp_nr2ph]. *)
Definition nr_input_step (nid : NID) (r : recv_result) (now : Z) (l : nri_local)
    (cm : cm_state) (sp_nr2ph : chan) : nri_local * cm_state * chan :=
  let '(recv_bytes, l) := recvfrom r l in
  let h := header_of (nri_buf l) in
  if decide (nh_destNID h = nid) then
    (l, newCMEntry (nh_srcNID h) (nri_addr l) now cm,
     chan_write_len (nri_buf l) recv_bytes sp_nr2ph)
  else (l, cm, sp_nr2ph).

(** [thread_nr_input_gw]: a packet for another node goes to [sp_nr]. *)
Definition nr_input_gw_step (nid : NID) (r : recv_result) (now : Z) (l : nri_local)
    (cm : cm_state) (sp_nr2ph sp_nr : chan) : nri_local * cm_state * chan * chan :=
  let '(recv_bytes, l) := recvfrom r l in
  let h := header_of (nri_buf l) in
  if decide (nh_destNID h = nid) then
    (l, newCMEntry (nh_srcNID h) (nri_addr l) now cm,
     chan_write_len (nri_buf l) recv_bytes sp_nr2ph, sp_nr)
  else (l, cm, sp_nr2ph, chan_write_len (nri_buf l) recv_bytes sp_nr).

(** ** Lemmas *)

(** A datagram that fits is sent as it was read, and one that holds a header
    is routed by it. *)
Lemma routed_datagram d buf :
  (length d ≤ MAXBUFLEN)%nat →
  take (length (take MAXBUFLEN d)) (overlay (take MAXBUFLEN d) buf) = d.
Proof. intros. rewrite take_overlay. by apply take_ge. Qed.

Lemma header_overlay d buf :
  (nh_len ≤ length d)%nat → (length d ≤ MAXBUFLEN)%nat →
  header_of (overlay (take MAXBUFLEN d) buf) = header_of d.
Proof.
  unfold nh_len. intros. rewrite take_ge by lia. unfold header_of.
  by rewrite !slice_overlay by lia.
Qed.

Definition nri_ok (l : nri_local) : Prop := buf_ok (nri_buf l) ∧ nid32_ok (nri_addr l).

Definition recv_ok (r : recv_result) : Prop :=
  match r with Received from d => nid32_ok from ∧ bytes_ok d | RecvError => True end.

Lemma recvfrom_ok r l : nri_ok l → recv_ok r → nri_ok (recvfrom r l).2.
Proof.
  intros [Hl Ha] Hr. destruct r as [from d|]; simpl in *; [|done].
  destruct Hr as [Hf Hd]. split; [by apply overlay_buf_ok|done].
Qed.

Lemma getCMEntry_env_ok nid ck e : env_ok e → env_ok (getCMEntry nid ck e).1.1.
Proof.
  intros [Hc Hq]. unfold getCMEntry, cm_unknown.
  destruct (et_find nid (connmap (env_cm e))) as [[p ce]|] eqn:E.
  - case_match; [done|]. case_match.
    + rewrite isQueued_result by done. repeat case_match; simplify_eq/=; split; simpl;
        auto using queue_preserves, unqueue_preserves.
    + split; simpl; auto with nid.
  - split; simpl; auto with nid.
Qed.

Lemma core_route_ok dst dstgw now now1 now2 rt reg dht :
  rt_ok rt → dht_ok dht →
  rt_ok (core_route dst dstgw now now1 now2 rt reg dht).1.1
  ∧ dht_ok (core_route dst dstgw now now1 now2 rt reg dht).1.2.
Proof.
  intros Hr Hd. unfold core_route.
  pose proof (getRTEntry_ok dst now rt Hr) as Hr'.
  pose proof (getDHTEntry_ok dstgw now1 now2 dht Hd) as Hd'.
  destruct (getRTEntry dst now rt) as [[rt' f] ip].
  destruct (getDHTEntry dstgw now1 now2 dht) as [[dht' f'] ip'].
  destruct (getRegistry dst reg) as [g ipg].
  repeat case_match; simplify_eq/=; done.
Qed.

Lemma nr_output_step_ok d ck buf e :
  buf_ok buf → bytes_ok d → env_ok e →
  let r := nr_output_step d ck buf e in buf_ok r.1.1 ∧ env_ok r.1.2.
Proof.
  intros Hb Hd He. unfold nr_output_step.
  pose proof (getCMEntry_env_ok (hdr_destNID (overlay (take MAXBUFLEN d) buf)) ck e He) as H.
  destruct (getCMEntry _ ck e) as [[e' f] ip]. split; [by apply overlay_buf_ok|done].
Qed.

Lemma nr_output_gw_step_ok src d ck now buf e rt :
  buf_ok buf → bytes_ok d → env_ok e → rt_ok rt →
  let r := nr_output_gw_step src d ck now buf e rt in
  buf_ok r.1.1.1 ∧ env_ok r.1.1.2 ∧ rt_ok r.1.2.
Proof.
  intros Hb Hd He Hr. unfold nr_output_gw_step.
  pose proof (overlay_buf_ok d buf Hb Hd) as Ho.
  set (dst := hdr_destNID _).
  pose proof (getCMEntry_env_ok dst ck e He) as He'.
  pose proof (getRTEntry_ok dst now rt Hr) as Hr'.
  destruct (getCMEntry dst ck e) as [[e' f] ip], (getRTEntry dst now rt) as [[rt' f'] ip'].
  destruct src; [destruct (f =? 0)|]; by split_and!.
Qed.

Lemma nr_output_core_step_ok src d ck now now1 now2 buf e rt reg dht :
  buf_ok buf → bytes_ok d → env_ok e → rt_ok rt → dht_ok dht →
  let r := nr_output_core_step src d ck now now1 now2 buf e rt reg dht in
  buf_ok r.1.1.1.1 ∧ env_ok r.1.1.1.2 ∧ rt_ok r.1.1.2 ∧ dht_ok r.1.2.
Proof.
  intros Hb Hd He Hr Hh. unfold nr_output_core_step.
  pose proof (overlay_buf_ok d buf Hb Hd) as Ho.
  set (dst := hdr_destNID _). set (dstgw := hdr_destNIDgw _).
  pose proof (getCMEntry_env_ok dst ck e He) as He'.
  destruct (core_route_ok dst dstgw now now1 now2 rt reg dht Hr Hh) as [Hr' Hh'].
  destruct (getCMEntry dst ck e) as [[e' f] ip].
  destruct src; [destruct (f =? 0)|]; by split_and!.
Qed.

Lemma nr_input_step_ok nid r now l cm c :
  nri_ok l → recv_ok r → cm_ok cm →
  let s := nr_input_step nid r now l cm c in nri_ok s.1.1 ∧ cm_ok s.1.2.
Proof.
  intros Hl Hr Hc. unfold nr_input_step. pose proof (recvfrom_ok r l Hl Hr) as H.
  destruct (recvfrom r l) as [n l']. simpl in H.
  case_decide; split; simpl; auto with nid.
Qed.

(** The gateway's input thread does to its mapper what a node's does, and
    forwards exactly the packets a node drops. *)
Lemma nr_input_gw_step_same nid r now l cm c1 c2 :
  (nr_input_gw_step nid r now l cm c1 c2).1 = nr_input_step nid r now l cm c1.
Proof.
  unfold nr_input_gw_step, nr_input_step. destruct (recvfrom r l). by case_decide.
Qed.

Lemma core_route_spec dst dstgw now now1 now2 rt reg dht :
  core_route dst dstgw now now1 now2 rt reg dht
  = let rt' := (getRTEntry dst now rt).1.1 in
    match rt_get rt dst, et_get reg dst, dht_hit dht dstgw with
    | Some ce, r, h =>
        if rt_valid now ce then (rt, dht, Some (ce_ip ce))
        else match r, h with
             | Some re, _ => if ce_ip re =? 0
                             then match h with
                                  | Some ip => (rt', dht, Some ip)
                                  | None => (rt', dht_request dstgw now1 now2 dht, None)
                                  end
                             else (rt', dht, Some (ce_ip re))
             | None, Some ip => (rt', dht, Some ip)
             | None, None => (rt', dht_request dstgw now1 now2 dht, None)
             end
    | None, Some re, h =>
        if ce_ip re =? 0
        then match h with
             | Some ip => (rt', dht, Some ip)
             | None => (rt', dht_request dstgw now1 now2 dht, None)
             end
        else (rt', dht, Some (ce_ip re))
    | None, None, Some ip => (rt', dht, Some ip)
    | None, None, None => (rt', dht_request dstgw now1 now2 dht, None)
    end.
Proof.
  unfold core_route. rewrite getRTEntry_result, getRegistry_result.
  assert (Hd : getDHTEntry dstgw now1 now2 dht
               = match dht_hit dht dstgw with
                 | Some ip => (dht, 1, Some ip)
                 | None => (dht_request dstgw now1 now2 dht, 0, None)
                 end).
  { destruct (dht_hit dht dstgw) eqn:E; [by apply getDHTEntry_hit|by apply getDHTEntry_miss]. }
  rewrite Hd.
  destruct (rt_get rt dst) as [ce|], (et_get reg dst) as [re|], (dht_hit dht dstgw) as [ip|];
    repeat (try done; case_match; simplify_eq/=); done.
Qed.

#[export] Hint Resolve getCMEntry_env_ok recvfrom_ok : nid.
