(* ===== verification/Control.v ===== *)
(** The control threads, src/src/control.c: one definition per node type for
    a turn of the loop, on the datagram read from [sp_ph2co]. *)

From S2P Require Import Prelude NidTypes HashTable Hash EntryTable Configuration QueueTable.
From S2P Require Import ConnectionMapper Gwc.

Local Open Scope Z_scope.

(** [thread_control]; the state is [nmsg] and the connection mapper with the
    table of pending resolutions. *)
Definition control_step (d : list Z) (nmsg : NID_msg) (now : Z) (e : cm_env)
    : NID_msg * cm_env :=
  let nmsg := read_msg d nmsg in
  (nmsg,
   match msg_type_of (nm_type nmsg) with
   | Some (Ctrl REDIRECT) => e <| env_cm ::= newCMEntry (nm_nid nmsg) (nm_ip nmsg) now |>
   | Some (Ctrl RELOCATE) => e <| env_cm ::= delCMEntry (nm_nid nmsg) |>
   | Some (Rvs RVS_RESPONSE) =>
       if negb (nm_ip nmsg =? 0) then
         e <| env_queue ::= unqueue (nm_nid nmsg) |>
           <| env_cm ::= newCMEntry (nm_nid nmsg) (nm_ip nmsg) now |>
       else e
   | _ => e
   end).

(** [thread_control_rvs]; [RVS_UPDATE] falls through to [RVS_GET]. *)
Definition control_rvs_step (d : list Z) (nmsg : NID_msg) (now : Z) (cm : cm_state)
    (sp_co2rvs : chan) : NID_msg * cm_state * chan :=
  let nmsg := read_msg d nmsg in
  match msg_type_of (nm_type nmsg) with
  | Some (Ctrl REDIRECT) => (nmsg, newCMEntry (nm_nid nmsg) (nm_ip nmsg) now cm, sp_co2rvs)
  | Some (Ctrl RELOCATE) => (nmsg, delCMEntry (nm_nid nmsg) cm, sp_co2rvs)
  | Some (Rvs RVS_UPDATE) | Some (Rvs RVS_GET) =>
      (nmsg, cm, chan_write (msg_bytes nmsg) sp_co2rvs)
  | _ => (nmsg, cm, sp_co2rvs)
  end.

(** [thread_control_gw] *)
Definition control_gw_step (d : list Z) (nmsg : NID_msg) (now : Z) (cm : cm_state)
    (sp_co2gwl : chan) : NID_msg * cm_state * chan :=
  let nmsg := read_msg d nmsg in
  match msg_type_of (nm_type nmsg) with
  | Some (Ctrl REDIRECT) => (nmsg, newCMEntry (nm_nid nmsg) (nm_ip nmsg) now cm, sp_co2gwl)
  | Some (Ctrl RELOCATE) => (nmsg, delCMEntry (nm_nid nmsg) cm, sp_co2gwl)
  | Some (Ctrl REGISTRY) => (nmsg, cm, chan_write (msg_bytes nmsg) sp_co2gwl)
  | _ => (nmsg, cm, sp_co2gwl)
  end.

(** [thread_control_gw_core] *)
Definition control_gw_core_step (d : list Z) (nmsg : NID_msg) (now : Z) (cm : cm_state)
    (registry : conn_table) (sp_co2gwl : chan) : NID_msg * cm_state * conn_table * chan :=
  let nmsg := read_msg d nmsg in
  match msg_type_of (nm_type nmsg) with
  | Some (Ctrl REDIRECT) =>
      (nmsg, newCMEntry (nm_nid nmsg) (nm_ip nmsg) now cm, registry, sp_co2gwl)
  | Some (Ctrl RELOCATE) => (nmsg, delCMEntry (nm_nid nmsg) cm, registry, sp_co2gwl)
  | Some (Ctrl REGISTRY) => (nmsg, cm, registry, chan_write (msg_bytes nmsg) sp_co2gwl)
  | Some (Ctrl REDIRECT_CORE) =>
      (nmsg, cm, addRegistry (nm_nid nmsg) (nm_ip nmsg) registry, sp_co2gwl)
  | _ => (nmsg, cm, registry, sp_co2gwl)
  end.

(** ** Lemmas *)

Lemma control_step_env_ok d nmsg now e : env_ok e → env_ok (control_step d nmsg now e).2.
Proof.
  intros [Hc Hq]. unfold control_step. simpl.
  repeat case_match; split; simpl; auto with nid.
Qed.

Lemma control_rvs_step_cm_ok d nmsg now cm c :
  cm_ok cm → cm_ok (control_rvs_step d nmsg now cm c).1.2.
Proof. intros Hc. unfold control_rvs_step. repeat case_match; simpl; auto with nid. Qed.

Lemma control_gw_step_cm_ok d nmsg now cm c :
  cm_ok cm → cm_ok (control_gw_step d nmsg now cm c).1.2.
Proof. intros Hc. unfold control_gw_step. repeat case_match; simpl; auto with nid. Qed.

Lemma control_gw_core_step_ok d nmsg now cm reg c :
  cm_ok cm → et_ok reg →
  cm_ok (control_gw_core_step d nmsg now cm reg c).1.1.2
  ∧ et_ok (control_gw_core_step d nmsg now cm reg c).1.2.
Proof.
  intros Hc Hr. unfold control_gw_core_step.
  repeat case_match; simpl; split; auto with nid.
Qed.

(** The variable after a turn, whatever the message. *)
Lemma control_step_nmsg d nmsg now e : (control_step d nmsg now e).1 = read_msg d nmsg.
Proof. done. Qed.

#[export] Hint Resolve control_step_env_ok control_rvs_step_cm_ok control_gw_step_cm_ok : nid.
