(* ===== verification/Rvs.v ===== *)
(** The rendezvous server, src/src/rvs.c: the table from NIDs to the locator
    their nodes announced, and the request loop of [main]. *)

From S2P Require Import Prelude NidTypes Inet HashTable Hash EntryTable QueueTable.

Local Open Scope Z_scope.

(** ** The table *)

Definition init_rvs_table : conn_table := et_empty (construct_hash_table true 100).

Definition destroy_rvs_table (t : conn_table) : conn_table :=
  mkPT (free_hash_table (et_dict t)).1 (et_heap t) (et_next t).

(** A new entry each time; the previous one is not freed. *)
Definition addEntry (nid : NID) (ip : NID32) (now : Z) (t : conn_table) : conn_table :=
  et_add nid (mkConn ip now) t.

Definition getEntry (nid : NID) (now : Z) (t : conn_table) : conn_table * NID32 :=
  match et_find nid t with
  | Some (_, ce) =>
      if now <? ce_tstamp ce + RVS_TIMEOUT then (t, ce_ip ce) else (et_del nid t, 0)
  | None => (t, 0)
  end.

(** ** The request loop *)

Definition rvs_MAXBUFLEN : nat := 256.

(** The state of [main] between requests; the message is read and written in
    the buffer. *)
Record rvs_server := mkServer { rvs_buf : list Z; rvs_table : conn_table }.

(** Assignment to the message at the start of the buffer. *)
Definition put_msg (m : NID_msg) (buf : list Z) : list Z := overlay (msg_bytes m) buf.

(** The [switch]. *)
Definition rvs_serve (now : Z) (s : rvs_server) : rvs_server :=
  let m := msg_of (rvs_buf s) in
  match msg_type_of (nm_type m) with
  | Some (Rvs RVS_UPDATE) =>
      let t := addEntry (nm_nid m) (nm_ip m) now (rvs_table s) in
      mkServer (put_msg (m <| nm_type := rvs_msg_type_val RVS_ACK |>) (rvs_buf s)) t
  | Some (Rvs RVS_GET) =>
      let '(t, ip) := getEntry (nm_nid m) now (rvs_table s) in
      mkServer (put_msg (m <| nm_ip := ip |>
                           <| nm_type := rvs_msg_type_val RVS_RESPONSE |>) (rvs_buf s)) t
  | _ => s
  end.

(** One turn: [req] is the datagram and its sender, [None] a failed
    [recvfrom]; [sent_ok] whether [sendto] succeeds.  The answer goes to the
    sender's port [RVS_TALKER]. *)
Definition rvs_step (req : option (NID32 * list Z)) (now : Z) (sent_ok : bool)
    (s : rvs_server) : outcome (rvs_server * (NID32 * list Z)) :=
  match req with
  | None => ProcessExit
  | Some (peer, d) =>
      let d := take (rvs_MAXBUFLEN - 1) d in
      let s := rvs_serve now (mkServer (overlay d (rvs_buf s)) (rvs_table s)) in
      if sent_ok then Go (s, (peer, take (length d) (rvs_buf s))) else ProcessExit
  end.

(** ** Lemmas *)

Definition rvs_get (t : conn_table) (nid : NID) : option conn_entry := et_get t nid.

Record server_ok (s : rvs_server) : Prop := {
  server_buf_ok : length (rvs_buf s) = rvs_MAXBUFLEN ∧ bytes_ok (rvs_buf s);
  server_table_ok : et_ok (K := NID) (rvs_table s);
  server_bindings_ok : bindings_ok (rvs_table s);
}.

Lemma init_rvs_table_ok : et_ok (K := NID) init_rvs_table.
Proof. apply construct_table_ok. lia. Qed.

Lemma addEntry_ok nid ip now t : et_ok t → et_ok (addEntry nid ip now t).
Proof. apply et_add_ok. Qed.

Lemma rvs_get_addEntry nid nid' ip now t :
  et_ok t →
  rvs_get (addEntry nid ip now t) nid'
  = if decide (nid = nid') then Some (mkConn ip now) else rvs_get t nid'.
Proof. apply et_get_add. Qed.

Lemma getEntry_result nid now t :
  getEntry nid now t
  = match rvs_get t nid with
    | Some ce => if now <? ce_tstamp ce + RVS_TIMEOUT then (t, ce_ip ce) else (et_del nid t, 0)
    | None => (t, 0)
    end.
Proof.
  unfold getEntry, rvs_get. destruct (et_find nid t) as [[p ce]|] eqn:E.
  - by rewrite (et_find_get _ _ _ _ E).
  - by rewrite (proj1 (et_find_None _ _) E).
Qed.

Lemma getEntry_ok nid now t : et_ok t → et_ok (getEntry nid now t).1.
Proof.
  intros H. rewrite getEntry_result. repeat case_match; simpl; try done; by apply et_del_ok.
Qed.

Lemma put_msg_ok m buf :
  msg_ok m → length buf = rvs_MAXBUFLEN ∧ bytes_ok buf →
  length (put_msg m buf) = rvs_MAXBUFLEN ∧ bytes_ok (put_msg m buf).
Proof.
  intros Hm [Hl Hb]. pose proof (length_msg_bytes m Hm). unfold put_msg, nmsg_len in *.
  split; [|auto with nid]. rewrite length_overlay; rewrite Hl; unfold rvs_MAXBUFLEN; lia.
Qed.

Lemma rvs_buf_msg_ok (buf : list Z) :
  length buf = rvs_MAXBUFLEN ∧ bytes_ok buf → msg_ok (msg_of buf).
Proof.
  intros [Hl Hb]. apply msg_of_ok; [rewrite Hl; unfold nmsg_len, rvs_MAXBUFLEN; lia|done].
Qed.

Lemma getEntry_ip nid now t : bindings_ok t → nid32_ok (getEntry nid now t).2.
Proof.
  intros H. rewrite getEntry_result.
  destruct (rvs_get t nid) as [ce|] eqn:E; [|simpl; unfold nid32_ok; lia].
  case_match; simpl; [by apply (H nid _ E)|unfold nid32_ok; lia].
Qed.

Lemma getEntry_bindings nid now t : et_ok t → bindings_ok t → bindings_ok (getEntry nid now t).1.
Proof.
  intros Ht H. rewrite getEntry_result.
  repeat case_match; simpl; try done; by apply conn_del_bindings.
Qed.

Lemma rvs_serve_ok now s : server_ok s → server_ok (rvs_serve now s).
Proof.
  intros [Hb Ht Hi]. pose proof (rvs_buf_msg_ok _ Hb) as (?&?&?&?&?&?&?). unfold rvs_serve.
  set (m := msg_of (rvs_buf s)) in *.
  destruct (msg_type_of (nm_type m)) as [[|[]]|]; try done.
  - split; cbn [rvs_buf rvs_table]; [|by apply addEntry_ok|by apply et_all_add].
    apply put_msg_ok; [split_and!; simpl; try done|done].
  - pose proof (getEntry_ok (nm_nid m) now (rvs_table s) Ht) as Hg.
    pose proof (getEntry_ip (nm_nid m) now (rvs_table s) Hi).
    pose proof (getEntry_bindings (nm_nid m) now (rvs_table s) Ht Hi).
    destruct (getEntry _ now _) as [t ip]. split; cbn [rvs_buf rvs_table]; [|done..].
    apply put_msg_ok; [split_and!; simpl; try done|done].
Qed.

Lemma rvs_step_ok req now b s s' out :
  server_ok s → (∀ peer d, req = Some (peer, d) → bytes_ok d) →
  rvs_step req now b s = Go (s', out) → server_ok s'.
Proof.
  intros [[Hl Hb] Ht Hi] Hd H. destruct req as [[peer d]|]; [|done]. simpl in H.
  destruct b; simplify_eq. apply rvs_serve_ok. split; cbn [rvs_buf rvs_table]; [|done..].
  specialize (Hd _ _ eq_refl). split; [|auto with nid].
  rewrite length_overlay; [done|]. rewrite length_take, Hl. unfold rvs_MAXBUFLEN. lia.
Qed.

(** A request of the size of a message is served from its own contents, and
    the answer is a message. *)
Lemma msg_of_put_msg m buf : msg_ok m → msg_of (put_msg m buf) = m.
Proof. intros. by apply msg_of_bytes. Qed.

Lemma rvs_step_message peer m now s :
  msg_ok m →
  rvs_step (Some (peer, msg_bytes m)) now true s
  = let s1 := rvs_serve now (mkServer (put_msg m (rvs_buf s)) (rvs_table s)) in
    Go (s1, (peer, take nmsg_len (rvs_buf s1))).
Proof.
  intros Hm. unfold rvs_step. pose proof (length_msg_bytes m Hm) as Hl.
  rewrite (take_ge (msg_bytes m)) by (rewrite Hl; unfold nmsg_len, rvs_MAXBUFLEN; lia).
  by rewrite Hl.
Qed.

Lemma take_put_msg m buf : msg_ok m → take nmsg_len (put_msg m buf) = msg_bytes m.
Proof. intros Hm. rewrite <-(length_msg_bytes m Hm). apply take_overlay. Qed.

#[export] Hint Resolve init_rvs_table_ok addEntry_ok getEntry_ok getEntry_ip getEntry_bindings
  rvs_serve_ok : nid.
