(* ===== verification/Rvsc.v ===== *)
(** The rendezvous client, src/src/rvsc.c: the proxy between a rendezvous
    node's daemon and its server process, the periodic announcement, the
    resolution requests, and the forwarding of acknowledgements to the
    gateway tree.  One definition per loop iteration. *)

From S2P Require Import Prelude NidTypes Inet HashTable Hash EntryTable Configuration QueueTable.
From S2P Require Import RoutingTable Gwc.

Local Open Scope Z_scope.

(** [thread_rvs_proxy_send]: the message of [sp_co2rvs] copied member by
    member and sent to port [RVS_LISTENER] of this host. *)
Definition rvs_proxy_send_step (d : list Z) (nmsg : NID_msg) (sent_ok : bool)
    : outcome (NID_msg * list Z) :=
  let nmsg := read_msg d nmsg in
  let rvs_msg := mkMsg (nm_type nmsg) (nm_srcNID nmsg) (nm_destNID nmsg)
                   (nm_srcNIDgw nmsg) (nm_destNIDgw nmsg) (nm_nid nmsg) (nm_ip nmsg) in
  if sent_ok then Go (nmsg, msg_bytes rvs_msg) else ProcessExit.

(** [thread_rvs_proxy_recv]: [d] is the server's datagram, [None] a failed
    [recvfrom], whose result the code does not test.  The result is [rvs_msg],
    the message written to [sp_rvs2ph], and the one written to [sp_rvs2gwt]. *)
Definition rvs_proxy_recv_step (d : option (list Z)) (rvs_msg : NID_msg)
    : NID_msg * list Z * option (list Z) :=
  let rvs_msg := match d with Some d => read_msg d rvs_msg | None => rvs_msg end in
  let nmsg := mkMsg (nm_type rvs_msg) (nm_destNID rvs_msg) (nm_srcNID rvs_msg)
                (nm_srcNIDgw rvs_msg) (nm_destNIDgw rvs_msg) (nm_nid rvs_msg)
                (nm_ip rvs_msg) in
  (rvs_msg, msg_bytes nmsg,
   if nm_type nmsg =? rvs_msg_type_val RVS_ACK then Some (msg_bytes nmsg) else None).

(** [thread_rvs_update]: the message before the loop, and a turn. *)
Definition rvs_update_init (c : config) : NID_msg :=
  let nmsg := msg_zero in
  let nmsg := nmsg <| nm_type := rvs_msg_type_val RVS_UPDATE |> in
  let nmsg := nmsg <| nm_srcNID := getNID c |> <| nm_nid := getNID c |> in
  nmsg <| nm_srcNIDgw := getNIDcorehome c |>.

Definition rvs_update_step (c : config) (locator : NID32) (nmsg : NID_msg)
    : NID_msg * list Z :=
  let nmsg := nmsg <| nm_destNID := getNIDrvs c |> in
  let nmsg := set_locator locator nmsg in
  (nmsg, msg_bytes nmsg).

(** [thread_rvs_get] *)
Definition rvs_get_init (c : config) : NID_msg :=
  msg_zero <| nm_type := rvs_msg_type_val RVS_GET |>
           <| nm_srcNID := getNID c |> <| nm_destNID := getNIDrvs c |>.

(** The read is into [nmsg.nid] with the length of the whole message: the 20
    bytes from there to the end of [nmsg] are what a datagram may fill. *)
Definition rvs_get_step (c : config) (d : list Z) (nmsg : NID_msg)
    : outcome (NID_msg * list Z) :=
  let d := take nmsg_len d in
  if (20 <? length d)%nat then Fault
  else
    let nmsg := msg_of (splice 68 d (msg_bytes nmsg)) in
    let nmsg := nmsg <| nm_destNID := getNIDrvs c |> in
    Go (nmsg, msg_bytes nmsg).

(** [thread_rvs2gw] *)
Definition rvs2gw_step (c : config) (d : list Z) (nmsg : NID_msg) : NID_msg * list Z :=
  let nmsg := read_msg d nmsg in
  let nmsg := nmsg <| nm_type := nid_ctrl_type_val REGISTRY |> in
  let nmsg := nmsg <| nm_destNID := getNIDgw c |> in
  (nmsg, msg_bytes nmsg).

(** ** Lemmas *)

Lemma msg_of_self m : msg_ok m → msg_of (msg_bytes m) = m.
Proof. intros H. rewrite <-(app_nil_r (msg_bytes m)). by apply msg_of_bytes. Qed.

(** Filling only the [nid] member. *)
Lemma splice_nid m nid :
  msg_ok m → nid_ok nid → splice 68 nid (msg_bytes m) = msg_bytes (m <| nm_nid := nid |>).
Proof.
  intros (_ & [H1 _] & [H2 _] & [H3 _] & [H4 _] & [H5 _] & _) [Hn _].
  destruct m as [t a b c d e ip]. unfold splice, msg_bytes.
  cbn [nm_type nm_srcNID nm_destNID nm_srcNIDgw nm_destNIDgw nm_nid nm_ip set_field eta_of
       eta_msg] in *.
  rewrite Hn. rewrite !app_assoc.
  set (p := (((le_bytes 4 t ++ a) ++ b) ++ c) ++ d).
  assert (Hp : length p = 68%nat)
    by (unfold p; autorewrite with bytes; rewrite H1, H2, H3, H4; done).
  rewrite <-(app_assoc p e), take_app_length' by done. f_equal.
  rewrite (app_assoc p e), drop_app_length'; [done|].
  rewrite length_app, Hp, H5. done.
Qed.

Lemma rvs_get_step_nid c nid nmsg :
  msg_ok nmsg → nid_ok nid → nid_ok (getNIDrvs c) →
  rvs_get_step c (take 16 nid) nmsg
  = let m := nmsg <| nm_nid := nid |> <| nm_destNID := getNIDrvs c |> in Go (m, msg_bytes m).
Proof.
  intros Hm Hn Hr. pose proof (proj1 Hn) as Hl. unfold rvs_get_step.
  rewrite (take_ge nid 16) by lia. rewrite take_ge by (rewrite Hl; unfold nmsg_len; lia).
  rewrite Hl. simpl Nat.ltb. cbv iota. rewrite splice_nid by done. rewrite msg_of_self; [done|].
  destruct Hm as (?&?&?&?&?&?&?). by split_and!.
Qed.

(** The proxy is transparent on messages. *)
Lemma rvs_proxy_send_message m nmsg :
  msg_ok m → rvs_proxy_send_step (msg_bytes m) nmsg true = Go (m, msg_bytes m).
Proof. intros H. unfold rvs_proxy_send_step. rewrite read_msg_bytes by done. by destruct m. Qed.

Lemma rvs_proxy_recv_message m rvs_msg :
  msg_ok m →
  rvs_proxy_recv_step (Some (msg_bytes m)) rvs_msg
  = let r := m <| nm_srcNID := nm_destNID m |> <| nm_destNID := nm_srcNID m |> in
    (m, msg_bytes r,
     if nm_type m =? rvs_msg_type_val RVS_ACK then Some (msg_bytes r) else None).
Proof. intros H. unfold rvs_proxy_recv_step. rewrite read_msg_bytes by done. by destruct m. Qed.

Lemma rvs_update_step_spec c locator nmsg :
  nid32_ok locator →
  (rvs_update_step c locator nmsg).1
  = nmsg <| nm_destNID := getNIDrvs c |> <| nm_ip := locator |>.
Proof. intros H. unfold rvs_update_step. simpl. by rewrite set_locator_ip. Qed.
