(* ===== verification/Mobility.v ===== *)
(** The mobility module, src/src/mobility.c: on every second address event of
    the kernel the peers of an intra-domain move are redirected, the
    connection mapper is reloaded and the rendezvous server told. *)

From S2P Require Import Prelude NidTypes Inet HashTable Hash LList EntryTable Configuration.
From S2P Require Import QueueTable RoutingTable Gwc ConnectionMapper.

Local Open Scope Z_scope.

Definition RTM_NEWADDR : Z := 20.

(** [read_event] on the type of the netlink message; [None] is a failed
    [recvmsg]. *)
Definition read_event (nlmsg_type : option Z) : outcome bool :=
  match nlmsg_type with
  | Some t => Go (t =? RTM_NEWADDR)
  | None => ProcessExit
  end.

(** [rvs_update]: the datagram written to [sp_rvs2ph]. *)
Definition rvs_update (c : config) (locator : NID32) : list Z :=
  let nmsg := msg_zero in
  let nmsg := nmsg <| nm_type := rvs_msg_type_val RVS_UPDATE |> in
  let nmsg := nmsg <| nm_srcNID := getNID c |> <| nm_nid := getNID c |> in
  let nmsg := nmsg <| nm_destNID := getNIDrvs c |> in
  msg_bytes (set_locator locator nmsg).

(** The [while (lpt)] loop; [locators i] is the interface address when the
    [i]-th peer is told. *)
Fixpoint redirect_all (locators : nat → NID32) (i : nat) (lpt : list ll_node) (nmsg : NID_msg)
    (sp_mo2ph : chan) : chan :=
  match lpt with
  | [] => sp_mo2ph
  | n :: lpt =>
      let nmsg := nmsg <| nm_destNID := ll_nid n |> in
      let nmsg := set_locator (locators i) nmsg in
      redirect_all locators (S i) lpt nmsg (chan_write (msg_bytes nmsg) sp_mo2ph)
  end.

(** The state the thread works on: its counter, the connection mapper, and
    the channels it writes. *)
Record mo_state := mkMo {
  mo_count : Z;
  mo_cm : cm_state;
  sp_mo2ph : chan;
  mo_rvs2ph : chan;
}.

(** One turn of [thread_mobility]; [clk], [clk1] and [clk2] are the clock
    readings of the three enumerations of the table. *)
Definition mobility_step (c : config) (ev : option Z) (locators : nat → NID32)
    (locator : NID32) (clk clk1 clk2 : nat → Z) (s : mo_state) : outcome mo_state :=
  match read_event ev with
  | Go true =>
      let count := mo_count s + 1 in
      if 2 <=? count then
        let nmsg := msg_zero <| nm_srcNID := getNID c |> <| nm_nid := getNID c |> in
        let ll := getAllConnections clk (mo_cm s) in
        let lpt := ll_nodes ll in
        let mo2ph :=
          if get_mobility c =? mobility_types_val INTRADOMAIN
          then redirect_all locators 0 lpt (nmsg <| nm_type := nid_ctrl_type_val REDIRECT |>)
                 (sp_mo2ph s)
          else sp_mo2ph s in
        Go (mkMo 0 (updateCMconf c clk1 clk2 (mo_cm s)) mo2ph
              (chan_write (rvs_update c locator) (mo_rvs2ph s)))
      else Go (mkMo count (mo_cm s) (sp_mo2ph s) (mo_rvs2ph s))
  | Go false => Go s
  | ThreadExit => ThreadExit
  | ProcessExit => ProcessExit
  | Fault => Fault
  end.

(** ** Lemmas *)

Definition redirect_msg (nid peer : NID) (ip : NID32) : NID_msg :=
  mkMsg (nid_ctrl_type_val REDIRECT) nid peer nid_zero nid_zero nid ip.

(** Each listed peer gets one message with this node's identifier and its new
    address; [nmsg] carries no other member from one to the next. *)
Lemma redirect_all_spec locators i lpt nid dst ip ch :
  (∀ j, nid32_ok (locators j)) →
  redirect_all locators i lpt (redirect_msg nid dst ip) ch
  = ch ++ imap (λ j n, msg_bytes (redirect_msg nid (ll_nid n) (locators (i + j)%nat))) lpt.
Proof.
  intros Hl. revert i dst ip ch. induction lpt as [|n lpt IH]; intros i dst ip ch; simpl.
  { by rewrite app_nil_r. }
  rewrite set_locator_ip by done. unfold set_field, redirect_msg, chan_write in *. cbn. rewrite IH.
  rewrite <-app_assoc. simpl. rewrite Nat.add_0_r. do 2 f_equal.
  apply imap_ext. intros j x _. simpl. by rewrite Nat.add_succ_r.
Qed.

Lemma updateCMconf_ok c clk1 clk2 s : cm_ok s → cm_ok (updateCMconf c clk1 clk2 s).
Proof.
  intros H. unfold updateCMconf.
  pose proof (cleanCM_ok clk1 clk2 _
    (delCMEntry_ok (cm_nidrvs (delCMEntry (cm_nidgw s) s)) _ (delCMEntry_ok (cm_nidgw s) s H))) as Hc.
  apply staticCMEntry_ok, staticCMEntry_ok. exact Hc.
Qed.

Lemma mobility_step_ok c ev ls l clk clk1 clk2 s s' :
  cm_ok (mo_cm s) → mobility_step c ev ls l clk clk1 clk2 s = Go s' → cm_ok (mo_cm s').
Proof.
  intros H E. unfold mobility_step in E.
  repeat case_match; simplify_eq/=; auto using updateCMconf_ok.
Qed.
