(* ===== verification/DnsHandler.v ===== *)
(** The DNS proxy, src/src/dnshandler.c and its cache src/src/fqdn_table.c:
    queries for addresses become TXT queries to the NID name server, whose
    answers, a pair of NIDs in text, become addresses again.  Buffers are
    bounded: an access outside one is [None] here and [Fault] for the thread.
    The cache holds pointers, and the thread stores the address of one of its
    own buffers in it. *)

From S2P Require Import Prelude NidTypes Inet HashTable Hash EntryTable Configuration QueueTable.
From S2P Require Import NidMapper.

Local Open Scope Z_scope.

Definition DNS_MAXNAMELENGTH : nat := 255.
Definition BUFFER_LENGTH : nat := 512.
Definition NIDCHAR_MAXLENGTH : nat := 39.
Definition dnshdr_len : nat := 12.

(** ** Bounded access *)

(** [memcpy] from and to a buffer. *)
Definition mem_get (off len : nat) (buf : list Z) : option (list Z) :=
  if (off + len <=? length buf)%nat then Some (slice off len buf) else None.

Definition mem_put (off : nat) (data buf : list Z) : option (list Z) :=
  if (off + length data <=? length buf)%nat then Some (splice off data buf) else None.

(** A 16-bit integer through [memcpy] and [ntohs]/[htons]. *)
Definition get16 (off : nat) (buf : list Z) : option Z :=
  (λ bs, swap16 (le_val bs)) <$> mem_get off 2 buf.

Definition put16 (off : nat) (v : Z) (buf : list Z) : option (list Z) :=
  mem_put off (le_bytes 2 (swap16 v)) buf.

(** [strcpy] from [src] into an array of [size] bytes: the characters copied,
    provided the NUL is inside both. *)
Definition strcpy (size : nat) (src : list Z) : option (list Z) :=
  let s := cstr src in
  if (length s <? length src)%nat && (length s <? size)%nat then Some s else None.

(** The name at the start of the question section. *)
Definition get_name (buf : list Z) : option (list Z) :=
  strcpy (S DNS_MAXNAMELENGTH) (drop dnshdr_len buf).

(** ** Queries *)

(** The buffer, [fqdn] and [*queryType]. *)
Definition modify_dns_query (buf : list Z) : option (list Z * list Z * Z) :=
  queryName ← get_name buf;
  let off := (1 + dnshdr_len + length queryName)%nat in
  queryType ← get16 off buf;
  if (queryType =? 1) || (queryType =? 28) then
    buf ← put16 off 16 buf;
    Some (buf, queryName, queryType)
  else Some (buf, queryName, queryType).

(** ** Responses of the server *)

(** [memcpy (array, buf + off, len)] over a zeroed array of
    [DNS_MAXNAMELENGTH + 1] bytes, [len] a C [int]. *)
Definition copy_text (off : nat) (len : Z) (buf : list Z) : option (list Z) :=
  if (len <? 0) || (Z.of_nat (S DNS_MAXNAMELENGTH) <? len) then None
  else d ← mem_get off (Z.to_nat len) buf;
       Some (overlay d (replicate (S DNS_MAXNAMELENGTH) 0)).

(** The returned value, [queryName], [answerAns] and [nsNs]. *)
Definition analyse_dns_response (buf : list Z)
    : option (Z * list Z * list Z * list Z) :=
  let zeros := replicate (S DNS_MAXNAMELENGTH) 0 in
  queryName ← get_name buf;
  flags ← get16 2 buf;
  let n := length queryName in
  if Z.land flags 15 =? 0 then
    answerDataLength ← get16 (1 + dnshdr_len + n + 10 + 4) buf;
    answerAns ← copy_text (dnshdr_len + n + 2 + 12 + 4) (answerDataLength - 1) buf;
    let an := Z.to_nat answerDataLength in
    nsDataLength ← get16 (1 + dnshdr_len + n + 12 + 4 + an + 6 + 4) buf;
    nsNs ← copy_text (dnshdr_len + n + 2 + 12 + 4 + an + 6 + 4 + 2) (nsDataLength - 1) buf;
    Some (0, queryName, answerAns, nsNs)
  else Some (-1, queryName, zeros, zeros).

(** The two halves of the answer text, each as the array with its NUL. *)
Definition get_nids (nidtuple : list Z) : option (list Z * list Z) :=
  nnid ← mem_get 0 NIDCHAR_MAXLENGTH nidtuple;
  nnidr ← mem_get (NIDCHAR_MAXLENGTH + 1) NIDCHAR_MAXLENGTH nidtuple;
  Some (nnid ++ [0], nnidr ++ [0]).

(** The record type written for a query type, and the record data. *)
Definition rr_data (qType nid32addr : Z) (nidaddr : NID) : list Z :=
  if qType =? 1 then le_bytes 4 nid32addr else nidaddr.

(** The answer record: the blocks [if (qType == 1)] and [if (qType == 28)]. *)
Definition put_answer (q : nat) (qType nid32addr : Z) (nidaddr : NID) (buf : list Z)
    : option (list Z) :=
  if (qType =? 1) || (qType =? 28) then
    buf ← put16 (q + 6) qType buf;
    buf ← mem_put (q + 12 + 4) (rr_data qType nid32addr nidaddr) buf;
    put16 (q + 10 + 4) (Z.of_nat (length (rr_data qType nid32addr nidaddr))) buf
  else Some buf.

(** The buffer and the returned value.  [q] is the offset of the query
    type. *)
Definition build_dns_response (buf : list Z) (nid32addr : Z) (nidaddr : NID) (qType : Z)
    : option (list Z * Z) :=
  queryName ← get_name buf;
  let q := (1 + dnshdr_len + length queryName)%nat in
  queryType ← get16 q buf;
  answerDataLength ← get16 (q + 10 + 4) buf;
  let ns := (q + 12 + 4 + Z.to_nat answerDataLength)%nat in
  nsName ← get16 ns buf;
  nsType ← get16 (ns + 2) buf;
  nsClass ← get16 (ns + 4) buf;
  nsTTL ← mem_get (ns + 6) 4 buf;
  nsDataLength ← get16 (ns + 6 + 4) buf;
  nsNs ← copy_text (ns + 6 + 4 + 2) nsDataLength buf;
  buf ← (if (queryType =? 16) && ((qType =? 1) || (qType =? 28))
         then put16 q qType buf else Some buf);
  flags ← get16 2 buf;
  if (queryType =? 16) && (Z.land flags 15 =? 0) then
    buf ← put_answer q qType nid32addr nidaddr buf;
    answerDataLength ← get16 (q + 10 + 4) buf;
    let ns := (q + 12 + 4 + Z.to_nat answerDataLength)%nat in
    buf ← put16 ns nsName buf;
    buf ← put16 (ns + 2) nsType buf;
    buf ← put16 (ns + 4) nsClass buf;
    buf ← mem_put (ns + 6) nsTTL buf;
    buf ← put16 (ns + 6 + 4) nsDataLength buf;
    buf ← mem_put (ns + 6 + 4 + 2) (replicate (S DNS_MAXNAMELENGTH) 0) buf;
    buf ← mem_put (ns + 6 + 4 + 2) (take (Z.to_nat nsDataLength) nsNs) buf;
    Some (buf, 0)
  else Some (buf, -1).

(** ** Responses from the cache *)

Definition build_dns_response_with_fqdn_table (buf : list Z) (nid32addr : Z) (nidaddr : NID)
    (qType : Z) : option (list Z * Z) :=
  transaction_id ← mem_get 0 2 buf;
  queryName ← get_name buf;
  let q := (1 + dnshdr_len + length queryName)%nat in
  let buf := replicate BUFFER_LENGTH 0 in
  buf ← mem_put 0 transaction_id buf;
  buf ← put16 2 34176 buf;
  buf ← put16 4 1 buf;
  buf ← put16 6 1 buf;
  buf ← put16 8 1 buf;
  buf ← put16 10 0 buf;
  buf ← mem_put dnshdr_len queryName buf;
  buf ← (if (qType =? 1) || (qType =? 28) then put16 q qType buf else Some buf);
  buf ← put16 (q + 2) 1 buf;
  buf ← put16 (q + 4) 49164 buf;
  buf ← (if (qType =? 1) || (qType =? 28) then put16 (q + 6) qType buf else Some buf);
  buf ← put16 (q + 8) 1 buf;
  buf ← mem_put (q + 10) (le_bytes 4 (swap32 60)) buf;
  if (qType =? 1) || (qType =? 28) then
    let data := rr_data qType nid32addr nidaddr in
    buf ← put16 (q + 10 + 4) (Z.of_nat (length data)) buf;
    buf ← mem_put (q + 12 + 4) data buf;
    let ns := (q + 12 + 4 + (if (qType =? 1)%Z then 4 else 16))%nat in
    buf ← put16 (ns + 1) 2 buf;
    buf ← put16 (ns + 1 + 2) 1 buf;
    buf ← mem_put (ns + 1 + 4) (le_bytes 4 (swap32 60)) buf;
    Some (buf, 0)
  else Some (buf, -1).

(** ** The cache, fqdn_table.c *)

(** The only text the thread ever stores is its array [ansAns]. *)
Inductive nids_ptr := AnsAns.

Abbreviation fqdn_table := (fqdn_hash_table nids_ptr).

Definition init_fqdn_table : fqdn_table := construct_fqdn_hash_table true 100.
Definition newFQDNTEntry (fqdn : list Z) (nids : nids_ptr) (t : fqdn_table) : fqdn_table * Z :=
  let '(t, r) := fqdn_hash_insert true fqdn nids t in
  (t, match r with Some _ => 1 | None => 0 end).
Definition getNIDsbyName (fqdn : list Z) (t : fqdn_table) : option nids_ptr :=
  fqdn_hash_lookup fqdn t.
Definition destroy_fqdn_table (t : fqdn_table) : fqdn_table := (free_fqdn_hash_table t).1.

(** ** The thread *)

(** The variables an iteration leaves to the next, the cache and the mapper.
    [dns_fds] counts the descriptors the process has open: each turn opens
    sockets and closes none. *)
Record dns_state := mkDns {
  dns_buffer : list Z;
  dns_ansAns : list Z;
  fqdnTable : fqdn_table;
  dns_nm : nm_state;
  dns_fds : nat;
}.

#[export] Instance eta_dns : Eta dns_state := λ s,
  mkDns (dns_buffer s) (dns_ansAns s) (fqdnTable s) (dns_nm s) (dns_fds s).

(** What a pointer in the cache points to. *)
Definition deref (p : nids_ptr) (s : dns_state) : list Z :=
  match p with AnsAns => dns_ansAns s end.

(** What the network does during one turn: the query with its sender, the
    success of the request to the server, its response, the success of the
    reply. *)
Record dns_events := mkDnsEv {
  ev_query : option (Z * list Z);
  ev_request_ok : bool;
  ev_response : option (list Z);
  ev_reply_ok : bool;
}.

(** What a turn sends: the request to the server, and the reply. *)
Record dns_output := mkDnsOut {
  out_request : option (list Z);
  out_reply : Z * list Z;
}.

(** Go on with what a bounded access gives, from the state reached. *)
Definition guard_mem {A B} (m : option A) (s : dns_state) (f : A → dns_state * outcome B)
    : dns_state * outcome B :=
  match m with Some a => f a | None => (s, Fault) end.

(** The common middle of the two branches: the text becomes two NIDs, and the
    mapper learns them; the result is the NID and its 32-bit form. *)
Definition register_nids (text : list Z) (s : dns_state) : dns_state * outcome (NID * NID32) :=
  guard_mem (get_nids text) s (λ '(nid, nidr),
    match inet_pton6 (cstr nid), inet_pton6 (cstr nidr) with
    | Some nidaddr, Some nidraddr =>
        let nid32addr := dns_nid32 nidaddr in
        let s := s <| dns_nm ::= newNMEntry nidaddr nidraddr |> in
        let s := s <| dns_nm ::= newNMEntry32 nid32addr nidaddr nidraddr |> in
        (s, Go (nidaddr, nid32addr))
    | _, _ => (s, ThreadExit)    (* "NID invalido": break *)
    end).

(** Sequencing of the parts of a turn. *)
Definition dns_bind {A B} (m : dns_state * outcome A) (f : A → dns_state → dns_state * outcome B)
    : dns_state * outcome B :=
  match m with
  | (s, Go a) => f a s
  | (s, ThreadExit) => (s, ThreadExit)
  | (s, ProcessExit) => (s, ProcessExit)
  | (s, Fault) => (s, Fault)
  end.

Section Thread.
  (** The limit on open descriptors, at which [socket] fails. *)
  Variable nofile : nat.

(** A name found in the cache; the result is the length of the reply. *)
Definition dns_cached (p : nids_ptr) (queryType : Z) (s : dns_state) : dns_state * outcome nat :=
  dns_bind (register_nids (deref p s) s) (λ '(nidaddr, nid32addr) s,
    guard_mem (build_dns_response_with_fqdn_table (dns_buffer s) nid32addr nidaddr queryType) s
      (λ '(buf, _), (s <| dns_buffer := buf |>, Go BUFFER_LENGTH))).

(** A name the server must resolve. *)
Definition dns_uncached (fqdn : list Z) (queryType : Z) (ev : dns_events) (s : dns_state)
    : dns_state * outcome nat :=
  if (nofile <=? dns_fds s)%nat then (s, ThreadExit) else
  let s := s <| dns_fds ::= S |> in
  if negb (ev_request_ok ev) then (s, ThreadExit) else
  match ev_response ev with
  | None => (s, ThreadExit)
  | Some d =>
      let d := take BUFFER_LENGTH d in
      let s := s <| dns_buffer ::= overlay d |> in
      guard_mem (analyse_dns_response (dns_buffer s)) s (λ '(ret, _, ansAns, _),
        let s := s <| dns_ansAns := ansAns |> in
        if ret =? 0 then
          let s := s <| fqdnTable ::= (λ t, (newFQDNTEntry fqdn AnsAns t).1) |> in
          dns_bind (register_nids (dns_ansAns s) s) (λ '(nidaddr, nid32addr) s,
            guard_mem (build_dns_response (dns_buffer s) nid32addr nidaddr queryType) s
              (λ '(buf, _), (s <| dns_buffer := buf |>, Go (length d))))
        else (s, Go (length d)))
  end.

(** One turn of the [do] loop. *)
Definition dns_step (ev : dns_events) (s : dns_state) : dns_state * outcome dns_output :=
  if (nofile <=? dns_fds s)%nat then (s, ThreadExit) else
  let s := s <| dns_fds ::= S |> in
  match ev_query ev with
  | None => (s, ThreadExit)
  | Some (client, d) =>
      let d := take BUFFER_LENGTH d in
      let s := s <| dns_buffer ::= overlay d |> in
      guard_mem (modify_dns_query (dns_buffer s)) s (λ '(buf, fqdn, queryType),
        let s := s <| dns_buffer := buf |> in
        let '(request, r) :=
          match getNIDsbyName fqdn (fqdnTable s) with
          | Some p => (None, dns_cached p queryType s)
          | None => (Some (take (length d) buf), dns_uncached fqdn queryType ev s)
          end in
        dns_bind r (λ rc s,
          if ev_reply_ok ev
          then (s, Go (mkDnsOut request (client, take rc (dns_buffer s))))
          else (s, ThreadExit)))
  end.

(** Successive turns, as long as the thread lives. *)
Fixpoint dns_run (evs : list dns_events) (s : dns_state) : dns_state * outcome unit :=
  match evs with
  | [] => (s, Go tt)
  | ev :: evs => dns_bind (dns_step ev s) (λ _ s, dns_run evs s)
  end.

End Thread.

(** ** Lemmas *)

Lemma mem_get_Some off len buf bs :
  mem_get off len buf = Some bs → (off + len ≤ length buf)%nat ∧ bs = slice off len buf.
Proof. unfold mem_get. intros H. case_match eqn:E; simplify_eq. by apply Nat.leb_le in E. Qed.

Lemma mem_put_Some off data buf buf' :
  mem_put off data buf = Some buf' →
  (off + length data ≤ length buf)%nat ∧ buf' = splice off data buf.
Proof. unfold mem_put. intros H. case_match eqn:E; simplify_eq. by apply Nat.leb_le in E. Qed.

Lemma mem_put_length off data buf buf' :
  mem_put off data buf = Some buf' → length buf' = length buf.
Proof. intros [? ->]%mem_put_Some. by apply length_splice. Qed.

(** No operation changes the size of the buffer. *)
Lemma put16_length off v buf buf' : put16 off v buf = Some buf' → length buf' = length buf.
Proof. apply mem_put_length. Qed.

Lemma copy_text_length off len buf d :
  copy_text off len buf = Some d → length d = S DNS_MAXNAMELENGTH.
Proof.
  unfold copy_text. intros H. case_match eqn:E; [done|]. zbool.
  destruct (mem_get off (Z.to_nat len) buf) as [bs|] eqn:Eb; [|done]. cbn [mbind option_bind] in H.
  apply (inj Some) in H as <-. apply mem_get_Some in Eb as [Hl ->].
  rewrite length_overlay; [by rewrite length_replicate|].
  rewrite length_replicate, length_slice by done. lia.
Qed.

Lemma analyse_ansAns_length buf ret qn ans ns :
  analyse_dns_response buf = Some (ret, qn, ans, ns) → length ans = S DNS_MAXNAMELENGTH.
Proof.
  unfold analyse_dns_response. intros H.
  apply bind_Some in H as (n & _ & H). apply bind_Some in H as (fl & _ & H).
  case_match.
  - apply bind_Some in H as (al & _ & H). apply bind_Some in H as (aa & Ha & H).
    apply bind_Some in H as (nl & _ & H). apply bind_Some in H as (nn & _ & H).
    apply (inj Some) in H. injection H as _ _ -> _. by eapply copy_text_length.
  - apply (inj Some), (f_equal (λ r, length r.1.2)) in H. cbn [fst snd] in H.
    rewrite <-H. apply length_replicate.
Qed.

(** Every text in the cache is [ansAns]. *)
Lemma deref_ansAns p s : deref p s = dns_ansAns s.
Proof. by destruct p. Qed.
