(* ===== verification/Dhcp.v ===== *)
(** The daemon's side of DHCP: [set_conf_dhcp] of src/src/configuration.c as a
    whole, and the thread of src/src/dhcp.c that receives the parameters from
    the DHCP client on a local socket. *)

From S2P Require Import Prelude NidTypes Inet HashTable Hash EntryTable Configuration QueueTable.
From S2P Require Import NidMapper PacketHandler.

Local Open Scope Z_scope.

Definition dhcp_MAXBUFLEN : nat := 128.

(** What [set_conf_dhcp] changes: the configuration, the NID mapper, and the
    [nidcore] of the packet handler. *)
Record dhcp_state := mkDhcp {
  dh_conf : config;
  dh_nm : nm_state;
  dh_nidcore : NID;
}.

Definition set_conf_dhcp (str : list Z) (s : dhcp_state) : dhcp_state :=
  let c := set_conf_dhcp_fields str (dh_conf s) in
  let c := c <| conf_server_address := update_dns_server_address (conf_niddns c) |> in
  mkDhcp c (updateNM c (dh_nm s)) (updatePH c).

(** [memset (aux, 0, MAXBUFLEN)] before the loop, on [char
    aux[INET6_ADDRSTRLEN]]. *)
Definition dhcp_prologue (aux : list Z) : option (list Z) :=
  if (dhcp_MAXBUFLEN <=? length aux)%nat
  then Some (overlay (replicate dhcp_MAXBUFLEN 0) aux) else None.

(** [strdup (buf)]: the text, provided its NUL is in the buffer. *)
Definition strdup (buf : list Z) : option (list Z) :=
  let s := cstr buf in if (length s <? length buf)%nat then Some s else None.

(** One turn of the loop; [None] is a failed [accept] or [read]. *)
Definition dhcp_step (d : option (list Z)) (s : dhcp_state) : outcome dhcp_state :=
  match d with
  | None => ProcessExit
  | Some d =>
      let buf := overlay (take dhcp_MAXBUFLEN d) (replicate dhcp_MAXBUFLEN 0) in
      match strdup buf with
      | None => Fault
      | Some dhcp_response =>
          let '(_, rest) := strtok 124 dhcp_response in
          let '(token, _) := strtok 124 rest in
          match token with
          | None => Fault                          (* strcmp (NULL, aux) *)
          | Some token =>
              let aux := inet_ntop6 (getNIDgw (dh_conf s)) in
              let mobility := if decide (token = aux) then INTRADOMAIN else INTERDOMAIN in
              let s := mkDhcp (set_mobility (dh_conf s) (mobility_types_val mobility))
                         (dh_nm s) (dh_nidcore s) in
              Go (set_conf_dhcp (cstr buf) s)
          end
      end
  end.

(** ** Lemmas *)

(** The parameters the DHCP client sends: the fields in the order of the
    root-path option of the server, each followed by the separator. *)
Definition dhcp_params (fields : list (list Z)) : list Z :=
  concat ((λ f, f ++ [124]) <$> fields).

(** A field [strtok] returns whole. *)
Definition field_ok (f : list Z) : Prop := f ≠ [] ∧ 124 ∉ f ∧ 0 ∉ f.

#[export] Instance field_ok_dec f : Decision (field_ok f).
Proof. unfold field_ok. apply _. Defined.

Lemma tok_span_field f rest : 124 ∉ f → tok_span 124 (f ++ 124 :: rest) = (f, rest).
Proof.
  induction f as [|x f IH]; intros H; simpl; [done|].
  apply not_elem_of_cons in H as [Hx Hf].
  destruct (x =? 124) eqn:E; zbool; [congruence|]. by rewrite IH.
Qed.

Lemma strtok_field f rest :
  field_ok f → strtok 124 (f ++ 124 :: rest) = (Some f, rest).
Proof.
  intros (Hn & Hb & _). destruct f as [|x f]; [done|]. apply not_elem_of_cons in Hb as Hx.
  destruct Hx as [Hx _]. unfold strtok. simpl tok_skip.
  destruct (x =? 124) eqn:E; zbool; [congruence|].
  change (x :: f ++ 124 :: rest) with ((x :: f) ++ 124 :: rest).
  destruct ((x :: f) ++ 124 :: rest) eqn:E'; [done|]. rewrite <-E'.
  by rewrite tok_span_field.
Qed.

Lemma dhcp_params_cons f fs : dhcp_params (f :: fs) = f ++ 124 :: dhcp_params fs.
Proof. unfold dhcp_params. simpl. by rewrite <-app_assoc. Qed.

Lemma dhcp_params_no_nul fs : Forall field_ok fs → 0 ∉ dhcp_params fs.
Proof.
  induction 1 as [|f fs (_ & _ & Hf) _ IH]; [by apply not_elem_of_nil|].
  rewrite dhcp_params_cons, not_elem_of_app, not_elem_of_cons. done.
Qed.
