(* ===== verification/Nidd.v ===== *)
(** The daemon's entry point, src/src/nidd.c: the tables, their first
    bindings, the threads of each type of node with the libraries they come
    from, and the handler of SIGINT. *)

From S2P Require Import Prelude NidTypes Inet HashTable Hash EntryTable Configuration QueueTable.
From S2P Require Import ConnectionMapper NidMapper RoutingTable Gwc Dhtc.

Local Open Scope Z_scope.

(** ** Threads *)

Inductive thread :=
  | thread_dhcp | thread_nidfilter | thread_ph_output | thread_ph_input
  | thread_nr_output | thread_nr_output_gw | thread_nr_output_core
  | thread_nr_input | thread_nr_input_gw
  | thread_rvs_update | thread_rvs_get | thread_rvs_proxy_recv | thread_rvs_proxy_send
  | thread_rvs2gw | thread_mobility
  | thread_control | thread_control_rvs | thread_control_gw | thread_control_gw_core
  | thread_gw_talker | thread_gw_listener | thread_gw_core_listener
  | thread_dht_update | thread_dht_get | thread_dnshandler.

#[export] Instance thread_eq_dec : EqDecision thread.
Proof. solve_decision. Defined.

(** The library [open_lib] loads for a thread. *)
Definition lib_of (t : thread) : string :=
  match t with
  | thread_dhcp => "libdhcp.so"
  | thread_nidfilter => "libnf.so"
  | thread_ph_output | thread_ph_input => "libph.so"
  | thread_nr_output | thread_nr_output_gw | thread_nr_output_core
  | thread_nr_input | thread_nr_input_gw => "libnr.so"
  | thread_rvs_update | thread_rvs_get | thread_rvs_proxy_recv | thread_rvs_proxy_send
  | thread_rvs2gw => "librvs.so"
  | thread_mobility => "libmo.so"
  | thread_control | thread_control_rvs | thread_control_gw | thread_control_gw_core =>
      "libco.so"
  | thread_gw_talker | thread_gw_listener | thread_gw_core_listener => "libgw.so"
  | thread_dht_update | thread_dht_get => "libdht.so"
  | thread_dnshandler => "libdnsh.so"
  end%string.

(** ** The tables the threads share *)

Record shared := mkShared {
  sh_conf : config;
  sh_nm : nm_state;
  sh_cm : cm_env;
  sh_rt : rt_state;
  sh_registry : conn_table;
  sh_dht : dht_env;
}.

#[export] Instance eta_shared : Eta shared := λ s,
  mkShared (sh_conf s) (sh_nm s) (sh_cm s) (sh_rt s) (sh_registry s) (sh_dht s).

(** The [init_*] calls, and the socket pairs of the two environments. *)
Definition init_tables (c : config) : shared :=
  mkShared c (init_nid_mapper c)
    (mkEnv (init_conn_mapper c) init_rvs_queue_table [])
    (init_rtable c) init_registry_table
    (mkDht init_dhtable init_dht_queue_table []).

(** ** Start-up *)

(** [lib_db] has twelve elements; the handles are named by their library. *)
Definition LIB_DB : nat := 12.

Record startup := mkStartup { su_libs : list string; su_threads : list thread }.

Section Main.
  (** Whether [dlopen] and [dlsym] succeed, and whether [pthread_create]
      does: its error numbers are positive, so [< 0] never holds and a thread
      that was not created is not noticed. *)
  Variable lib_ok : thread → bool.
  Variable sym_ok : thread → bool.
  Variable create_ok : thread → bool.

(** [open_lib] then [pthread_create]. *)
Definition start (t : thread) (s : startup) : outcome startup :=
  if negb (lib_ok t) then ProcessExit
  else if (LIB_DB <=? length (su_libs s))%nat then Fault
  else if negb (sym_ok t) then ProcessExit
  else Go (mkStartup (su_libs s ++ [lib_of t])
             (if create_ok t then su_threads s ++ [t] else su_threads s)).

Fixpoint start_all (ts : list thread) (s : startup) : outcome startup :=
  match ts with
  | [] => Go s
  | t :: ts =>
      match start t s with
      | Go s => start_all ts s
      | ThreadExit => ThreadExit
      | ProcessExit => ProcessExit
      | Fault => Fault
      end
  end.

(** [sprintf (aux, "rm -fr ...", getPrimaryIface ())] into [char aux[32]]. *)
Definition dhcp_command (iface : list Z) : list Z :=
  chars "rm -fr /etc/dhcpc/* && ./dhcpcd -YR " ++ iface.

Definition run_dhcpcd (c : config) (s : startup) : outcome startup :=
  if get_dhcp c =? 0 then Go s
  else if (32 <? S (length (dhcp_command (getPrimaryIface c))))%nat then Fault
  else Go s.

(** The [if (get_dns ())] block that ends every case. *)
Definition dns_threads (c : config) : list thread :=
  if get_dns c =? 0 then [] else [thread_dnshandler].

Definition dht_threads (c : config) : list thread :=
  if get_dht c =? 0 then [] else [thread_dht_update; thread_dht_get].

(** The threads of each case of the [switch], before and after the call of
    [run_dhcpcd]. *)
Definition first_threads (t : node_types) : list thread :=
  match t with NODE | GATEWAY => [thread_dhcp] | RVS | CORE => [] end.

Definition threads_NODE (c : config) : list thread :=
  [thread_nidfilter; thread_ph_output; thread_ph_input; thread_nr_output;
   thread_nr_input; thread_rvs_update; thread_rvs_get; thread_mobility; thread_control]
  ++ dns_threads c.

Definition threads_RVS (c : config) : list thread :=
  [thread_nidfilter; thread_ph_output; thread_ph_input; thread_nr_output;
   thread_nr_input; thread_rvs_proxy_recv; thread_rvs_proxy_send; thread_control_rvs;
   thread_rvs_update; thread_rvs2gw] ++ dns_threads c.

Definition threads_GATEWAY (c : config) : list thread :=
  [thread_nidfilter; thread_ph_output; thread_ph_input; thread_nr_output_gw;
   thread_nr_input_gw; thread_mobility; thread_rvs_update; thread_control_gw;
   thread_gw_talker; thread_gw_listener] ++ dns_threads c.

Definition threads_CORE (c : config) : list thread :=
  [thread_nidfilter; thread_ph_output; thread_ph_input; thread_nr_output_core;
   thread_nr_input_gw; thread_control_gw_core; thread_gw_core_listener]
  ++ dht_threads c ++ dns_threads c.

Definition node_threads (c : config) (t : node_types) : list thread :=
  match t with
  | NODE => threads_NODE c
  | RVS => threads_RVS c
  | GATEWAY => threads_GATEWAY c
  | CORE => threads_CORE c
  end.

(** The bindings entered before the threads start. *)
Definition first_bindings (t : node_types) (s : shared) : shared :=
  let c := sh_conf s in
  let nid := getNIDrvs c in
  let rvsIP := getRvsIP c in
  let nidgw := getNIDgw c in
  let s := s <| sh_nm ::= newNMEntry nid (getNIDcore c) |> in
  let s := match t with
           | NODE | RVS | GATEWAY =>
               s <| sh_cm ::= (λ e, e <| env_cm ::= staticCMEntry nid rvsIP |>) |>
                 <| sh_cm ::= (λ e, e <| env_cm ::= staticCMEntry nidgw (getGatewayIP c) |>) |>
           | CORE => s
           end in
  match t with
  | GATEWAY =>
      s <| sh_rt ::= staticRTEntry nid rvsIP |>
        <| sh_rt ::= staticRTEntry nidgw (getGatewayIP c) |>
  | _ => s
  end.

(** The value of the [switch] expression. *)
Definition node_type_of (z : Z) : option node_types :=
  match z with
  | 0 => Some NODE
  | 1 => Some RVS
  | 2 => Some GATEWAY
  | 3 => Some CORE
  | _ => None
  end.

(** [main] after [read_config]; an unknown type leaves the daemon without
    threads, and [main] returns. *)
Definition nidd_main (c : config) : outcome (shared * startup) :=
  let sh := init_tables c in
  match node_type_of (getType c) with
  | None => ProcessExit
  | Some t =>
      let sh := first_bindings t sh in
      match start_all (first_threads t) (mkStartup [] []) with
      | Go s =>
          match (match t with NODE | GATEWAY => run_dhcpcd c s | RVS | CORE => Go s end) with
          | Go s =>
              match start_all (node_threads c t) s with
              | Go s => Go (sh, s)
              | ThreadExit => ThreadExit
              | ProcessExit => ProcessExit
              | Fault => Fault
              end
          | ThreadExit => ThreadExit
          | ProcessExit => ProcessExit
          | Fault => Fault
          end
      | ThreadExit => ThreadExit
      | ProcessExit => ProcessExit
      | Fault => Fault
      end
  end.

End Main.

(** [catch_int]: the libraries closed, in order, and the tables freed. *)
Definition catch_int (su : startup) (s : shared) : list string * shared :=
  (take 12 (su_libs su),
   s <| sh_nm ::= destroy_nid_mapper |>
     <| sh_cm ::= (λ e, e <| env_cm ::= destroy_conn_mapper |>) |>
     <| sh_rt ::= destroy_rtable |>
     <| sh_cm ::= (λ e, e <| env_queue ::= destroy_rvs_queue_table |>) |>
     <| sh_dht ::= (λ e, mkDht (dhtable e) (destroy_dht_queue_table (dht_pending e)) (sp_dht e)) |>
     <| sh_dht ::= (λ e, mkDht (destroy_dhtable (dhtable e)) (dht_pending e) (sp_dht e)) |>
     <| sh_registry ::= destroy_registry_table |>).

(** ** Lemmas *)

Record shared_ok (s : shared) : Prop := {
  shared_nm : nm_ok (sh_nm s);
  shared_cm : env_ok (sh_cm s);
  shared_rt : rt_ok (sh_rt s);
  shared_registry : et_ok (K := NID) (sh_registry s);
  shared_dht : dht_ok (sh_dht s);
}.

Lemma init_tables_ok c : shared_ok (init_tables c).
Proof.
  split; simpl.
  - apply init_nid_mapper_ok.
  - split; simpl; [apply init_conn_mapper_ok|apply init_queue_ok].
  - apply init_rtable_ok.
  - apply init_registry_ok.
  - split; simpl; [apply init_dhtable_ok|apply init_queue_ok].
Qed.

Lemma first_bindings_ok t s : shared_ok s → shared_ok (first_bindings t s).
Proof.
  intros [Hn [Hc Hq] Hr Hg Hd].
  destruct t; split; simpl; auto 10 using newNMEntry_ok, staticRTEntry_ok;
    split; simpl; auto 10 using staticCMEntry_ok.
Qed.

(** Without failures, what is started is the list, as long as [lib_db] has
    room. *)
Lemma start_all_go ts s :
  (length (su_libs s) + length ts ≤ LIB_DB)%nat →
  start_all (λ _, true) (λ _, true) (λ _, true) ts s
  = Go (mkStartup (su_libs s ++ (lib_of <$> ts)) (su_threads s ++ ts)).
Proof.
  revert s. induction ts as [|t ts IH]; intros s H; cbn [start_all].
  { simpl. rewrite !app_nil_r. by destruct s. }
  unfold start. cbn [negb length] in *.
  destruct (LIB_DB <=? length (su_libs s))%nat eqn:E; [apply Nat.leb_le in E; lia|].
  cbn [length] in H.
  rewrite IH by (cbn [su_libs]; rewrite length_app; cbn [length]; lia).
  cbn [su_libs su_threads fmap list_fmap]. by rewrite <-!app_assoc.
Qed.

(** The outcome of start-up never depends on which threads could be
    created. *)
Lemma start_all_libs lib_ok sym_ok create_ok create_ok' ts s s' :
  su_libs s = su_libs s' →
  match start_all lib_ok sym_ok create_ok ts s, start_all lib_ok sym_ok create_ok' ts s' with
  | Go r, Go r' => su_libs r = su_libs r'
  | ThreadExit, ThreadExit | ProcessExit, ProcessExit | Fault, Fault => True
  | _, _ => False
  end.
Proof.
  revert s s'. induction ts as [|t ts IH]; intros s s' H; cbn [start_all]; [done|].
  unfold start. rewrite H. destruct (lib_ok t); cbn [negb]; [|done].
  destruct (LIB_DB <=? length (su_libs s'))%nat eqn:E; [done|].
  destruct (sym_ok t); cbn [negb]; [|done]. apply IH. done.
Qed.

#[export] Hint Resolve init_tables_ok first_bindings_ok : nid.
