(* ===== verification/NidFilter.v ===== *)
(** The capture thread, src/src/nidfilter.c: packets of the netfilter queue go
    to the packet handler.  The ip_queue library is outside the program: a
    message is given as the bytes of the capture buffer from the packet on. *)

From S2P Require Import Prelude.

Local Open Scope Z_scope.

(** The message in the buffer: [ipq_message_type] is [IPQM_PACKET], with the
    bytes from [m->payload] to the end of the buffer, or another type. *)
Inductive ipq_message := IpqPacket (ip : list Z) | IpqOther.

(** [ntohs (ip->tot_len)] *)
Definition ip_tot_len (ip : list Z) : Z := swap16 (le_val (slice 2 2 ip)).

(** One turn: the datagram written to [sp_nf2ph], and the length given back
    with the verdict that drops the original packet. *)
Definition nidfilter_step (m : ipq_message) : outcome (option (list Z * Z)) :=
  match m with
  | IpqOther => Go None
  | IpqPacket ip =>
      let len := ip_tot_len ip in
      if (length ip <? Z.to_nat len)%nat then Fault
      else Go (Some (take (Z.to_nat len) ip, len))
  end.
