(* ===== verification/System.v ===== *)
(** The daemon as a whole: the state all threads share, the variables each
    keeps between the turns of its loop, the datagram channels, and the step
    of the system, in which one thread takes one turn.  The daemon has no
    locks; a turn is taken as atomic. *)

From S2P Require Import Prelude NidTypes Inet HashTable Hash LList EntryTable Configuration.
From S2P Require Import QueueTable ConnectionMapper NidMapper RoutingTable Gwc Dhtc PacketHandler.
From S2P Require Import NidRouting Control Rvsc Mobility DnsHandler Dhcp Nidd NidFilter.

Local Open Scope Z_scope.

(** ** State *)

(** The socket pairs other than [sp_cm2rvs] and [sp_dht], which are with
    their writers. *)
Record channels := mkChans {
  c_nf2ph : chan; c_ph2nr : chan; c_nr2ph : chan; c_nr : chan; c_mo2ph : chan;
  c_gwt2ph : chan; c_co2gwl : chan; c_ph2co : chan; c_rvs2ph : chan; c_co2rvs : chan;
  c_rvs2gwt : chan; c_gwl2gwt : chan;
}.

#[export] Instance eta_channels : Eta channels := λ c,
  mkChans (c_nf2ph c) (c_ph2nr c) (c_nr2ph c) (c_nr c) (c_mo2ph c) (c_gwt2ph c) (c_co2gwl c)
    (c_ph2co c) (c_rvs2ph c) (c_co2rvs c) (c_rvs2gwt c) (c_gwl2gwt c).

(** The variables of the threads. *)
Record locals := mkLocals {
  l_ph_output : list Z;       (* static buf *)
  l_ph_input : list Z;        (* buf *)
  l_nr_output : list Z;       (* buf *)
  l_nr_input : nri_local;     (* buf and recv_addr *)
  l_control : NID_msg;
  l_gw_talker : NID_msg;
  l_gw_listener : NID_msg;
  l_rvs_update : NID_msg;
  l_rvs_get : NID_msg;
  l_proxy_send : NID_msg;
  l_proxy_recv : NID_msg;
  l_rvs2gw : NID_msg;
  l_mo_count : Z;
  l_dht_coreIP : list Z;      (* coreIP, read once when the thread starts *)
  l_dht_get : dht_get_local;
  l_dns_buffer : list Z;
  l_dns_ansAns : list Z;
  l_dns_table : fqdn_table;
  l_dns_fds : nat;
}.

#[export] Instance eta_locals : Eta locals := λ l,
  mkLocals (l_ph_output l) (l_ph_input l) (l_nr_output l) (l_nr_input l) (l_control l)
    (l_gw_talker l) (l_gw_listener l) (l_rvs_update l) (l_rvs_get l) (l_proxy_send l)
    (l_proxy_recv l) (l_rvs2gw l) (l_mo_count l) (l_dht_coreIP l) (l_dht_get l) (l_dns_buffer l)
    (l_dns_ansAns l) (l_dns_table l) (l_dns_fds l).

Record node := mkNode {
  n_sh : shared;
  n_nidcore : NID;            (* nidcore of packetHandler.c *)
  n_ch : channels;
  n_loc : locals;
  n_threads : list thread;    (* the threads alive *)
}.

#[export] Instance eta_node : Eta node := λ n,
  mkNode (n_sh n) (n_nidcore n) (n_ch n) (n_loc n) (n_threads n).

(** What a turn sends outside the daemon. *)
Inductive packet :=
  | Udp (to : NID32) (d : list Z)        (* port DATA_PORT *)
  | RawIp (proto : Z) (pkt : list Z)     (* loopback raw socket *)
  | RvsRequest (d : list Z)              (* this host, port RVS_LISTENER *)
  | DhtPut (args : bamboo_put_args)
  | DnsMessages (out : dns_output).

(** The turn of a thread, with what the outside world contributes to it:
    clock readings, datagrams received, results of system calls. *)
Inductive event :=
  | EvNidfilter (m : ipq_message)
  | EvPhOutput
  | EvPhInput (accepts : bool)
  | EvNrOutput (ck : cm_clock)
  | EvNrOutputGw (ck : cm_clock) (now : Z)
  | EvNrOutputCore (ck : cm_clock) (now : Z) (now1 now2 : timeval)
  | EvNrInput (r : recv_result) (now : Z)
  | EvNrInputGw (r : recv_result) (now : Z)
  | EvControl (now : Z)
  | EvControlRvs (now : Z)
  | EvControlGw (now : Z)
  | EvControlGwCore (now : Z)
  | EvGwListener (now : Z)
  | EvGwCoreListener (locator : NID32) (now : Z)
  | EvGwTalker (locator : NID32)
  | EvRvsUpdate (locator : NID32)
  | EvRvsGet
  | EvRvsProxySend (sent_ok : bool)
  | EvRvsProxyRecv (d : option (list Z))
  | EvRvs2gw
  | EvMobility (ev : option Z) (locators : nat → NID32) (locator : NID32)
      (clk clk1 clk2 : nat → Z)
  | EvDhtUpdate (s : dht_service)
  | EvDhtGet (s : dht_service) (result : option (list (list Z))) (now : Z)
  | EvDhcp (d : option (list Z))
  | EvDns (ev : dns_events).

Definition thread_of (ev : event) : thread :=
  match ev with
  | EvNidfilter _ => thread_nidfilter
  | EvPhOutput => thread_ph_output
  | EvPhInput _ => thread_ph_input
  | EvNrOutput _ => thread_nr_output
  | EvNrOutputGw _ _ => thread_nr_output_gw
  | EvNrOutputCore _ _ _ _ => thread_nr_output_core
  | EvNrInput _ _ => thread_nr_input
  | EvNrInputGw _ _ => thread_nr_input_gw
  | EvControl _ => thread_control
  | EvControlRvs _ => thread_control_rvs
  | EvControlGw _ => thread_control_gw
  | EvControlGwCore _ => thread_control_gw_core
  | EvGwListener _ => thread_gw_listener
  | EvGwCoreListener _ _ => thread_gw_core_listener
  | EvGwTalker _ => thread_gw_talker
  | EvRvsUpdate _ => thread_rvs_update
  | EvRvsGet => thread_rvs_get
  | EvRvsProxySend _ => thread_rvs_proxy_send
  | EvRvsProxyRecv _ => thread_rvs_proxy_recv
  | EvRvs2gw => thread_rvs2gw
  | EvMobility _ _ _ _ _ _ => thread_mobility
  | EvDhtUpdate _ => thread_dht_update
  | EvDhtGet _ _ _ => thread_dht_get
  | EvDhcp _ => thread_dhcp
  | EvDns _ => thread_dnshandler
  end.

(** ** Turns

    Each is the thread's step, reading its channel and putting back what it
    changed; [None] is a thread blocked in [select] on empty channels. *)

Abbreviation turn := (option (node * outcome (list packet))).

Definition opt_write (d : option (list Z)) (c : chan) : chan :=
  match d with Some d => chan_write d c | None => c end.

Definition turn_nidfilter (m : ipq_message) (n : node) : turn :=
  Some match nidfilter_step m with
       | Go None => (n, Go [])
       | Go (Some (d, _)) => (n <| n_ch ::= (λ c, c <| c_nf2ph ::= chan_write d |>) |>, Go [])
       | ThreadExit => (n, ThreadExit)
       | ProcessExit => (n, ProcessExit)
       | Fault => (n, Fault)
       end.

(** The source's datagram is taken from its channel. *)
Definition ph_pop (src : ph_source) (c : channels) : channels :=
  match src with
  | FromNf => c <| c_nf2ph ::= drop 1 |>
  | FromRvs => c <| c_rvs2ph ::= drop 1 |>
  | FromMo => c <| c_mo2ph ::= drop 1 |>
  | FromGwt => c <| c_gwt2ph ::= drop 1 |>
  end.

Definition turn_ph_output (n : node) : turn :=
  let c := n_ch n in
  '(src, d) ← ph_select (c_nf2ph c) (c_rvs2ph c) (c_mo2ph c) (c_gwt2ph c);
  let '(buf, out) :=
    ph_output_step src d (n_nidcore n) (sh_nm (n_sh n)) (l_ph_output (n_loc n)) in
  Some (n <| n_loc ::= (λ l, l <| l_ph_output := buf |>) |>
          <| n_ch := ph_pop src c <| c_ph2nr ::= opt_write out |> |>, Go []).

Definition turn_ph_input (accepts : bool) (n : node) : turn :=
  '(d, c) ← chan_read MAXBUFLEN (c_nr2ph (n_ch n));
  let '(buf, nm, r) :=
    ph_input_step (λ _, accepts) d (sh_nm (n_sh n)) (l_ph_input (n_loc n)) in
  let n := n <| n_loc ::= (λ l, l <| l_ph_input := buf |>) |>
             <| n_sh ::= (λ s, s <| sh_nm := nm |>) |>
             <| n_ch ::= (λ ch, ch <| c_nr2ph := c |>) |> in
  Some match r with
       | Go (ToRaw proto pkt) => (n, Go [RawIp proto pkt])
       | Go (ToControl m) => (n <| n_ch ::= (λ ch, ch <| c_ph2co ::= chan_write m |>) |>, Go [])
       | Go Dropped => (n, Go [])
       | ThreadExit => (n, ThreadExit)
       | ProcessExit => (n, ProcessExit)
       | Fault => (n, Fault)
       end.

Definition turn_nr_output (ck : cm_clock) (n : node) : turn :=
  '(d, c) ← chan_read MAXBUFLEN (c_ph2nr (n_ch n));
  let '(buf, e, (ip, pkt)) := nr_output_step d ck (l_nr_output (n_loc n)) (sh_cm (n_sh n)) in
  Some (n <| n_loc ::= (λ l, l <| l_nr_output := buf |>) |>
          <| n_sh ::= (λ s, s <| sh_cm := e |>) |>
          <| n_ch ::= (λ ch, ch <| c_ph2nr := c |>) |>, Go [Udp ip pkt]).

(** The source a gateway's output thread serves: the packet handler first. *)
Definition nr_select (ch : channels) : option (nr_source * list Z * channels) :=
  match c_ph2nr ch, c_nr ch with
  | d :: c, _ => Some (FromPh, take MAXBUFLEN d, ch <| c_ph2nr := c |>)
  | [], d :: c => Some (FromNr, take MAXBUFLEN d, ch <| c_nr := c |>)
  | [], [] => None
  end.

Definition turn_nr_output_gw (ck : cm_clock) (now : Z) (n : node) : turn :=
  '(src, d, ch) ← nr_select (n_ch n);
  let '(buf, e, rt, (ip, pkt)) :=
    nr_output_gw_step src d ck now (l_nr_output (n_loc n)) (sh_cm (n_sh n)) (sh_rt (n_sh n)) in
  Some (n <| n_loc ::= (λ l, l <| l_nr_output := buf |>) |>
          <| n_sh ::= (λ s, s <| sh_cm := e |> <| sh_rt := rt |>) |>
          <| n_ch := ch |>, Go [Udp ip pkt]).

Definition turn_nr_output_core (ck : cm_clock) (now : Z) (now1 now2 : timeval) (n : node)
    : turn :=
  '(src, d, ch) ← nr_select (n_ch n);
  let '(buf, e, rt, dht, out) :=
    nr_output_core_step src d ck now now1 now2 (l_nr_output (n_loc n)) (sh_cm (n_sh n))
      (sh_rt (n_sh n)) (sh_registry (n_sh n)) (sh_dht (n_sh n)) in
  Some (n <| n_loc ::= (λ l, l <| l_nr_output := buf |>) |>
          <| n_sh ::= (λ s, s <| sh_cm := e |> <| sh_rt := rt |> <| sh_dht := dht |>) |>
          <| n_ch := ch |>,
        Go (match out with Some (ip, pkt) => [Udp ip pkt] | None => [] end)).

Definition put_cm (cm : cm_state) (s : shared) : shared :=
  s <| sh_cm ::= (λ e, e <| env_cm := cm |>) |>.

Definition turn_nr_input (r : recv_result) (now : Z) (n : node) : turn :=
  let '(l, cm, c) :=
    nr_input_step (getNID (sh_conf (n_sh n))) r now (l_nr_input (n_loc n))
      (env_cm (sh_cm (n_sh n))) (c_nr2ph (n_ch n)) in
  Some (n <| n_loc ::= (λ loc, loc <| l_nr_input := l |>) |>
          <| n_sh ::= put_cm cm |>
          <| n_ch ::= (λ ch, ch <| c_nr2ph := c |>) |>, Go []).

Definition turn_nr_input_gw (r : recv_result) (now : Z) (n : node) : turn :=
  let '(l, cm, c, cr) :=
    nr_input_gw_step (getNID (sh_conf (n_sh n))) r now (l_nr_input (n_loc n))
      (env_cm (sh_cm (n_sh n))) (c_nr2ph (n_ch n)) (c_nr (n_ch n)) in
  Some (n <| n_loc ::= (λ loc, loc <| l_nr_input := l |>) |>
          <| n_sh ::= put_cm cm |>
          <| n_ch ::= (λ ch, ch <| c_nr2ph := c |> <| c_nr := cr |>) |>, Go []).

Definition turn_control (now : Z) (n : node) : turn :=
  '(d, c) ← chan_read nmsg_len (c_ph2co (n_ch n));
  let '(m, e) := control_step d (l_control (n_loc n)) now (sh_cm (n_sh n)) in
  Some (n <| n_loc ::= (λ l, l <| l_control := m |>) |>
          <| n_sh ::= (λ s, s <| sh_cm := e |>) |>
          <| n_ch ::= (λ ch, ch <| c_ph2co := c |>) |>, Go []).

Definition turn_control_rvs (now : Z) (n : node) : turn :=
  '(d, c) ← chan_read nmsg_len (c_ph2co (n_ch n));
  let '(m, cm, co) :=
    control_rvs_step d (l_control (n_loc n)) now (env_cm (sh_cm (n_sh n)))
      (c_co2rvs (n_ch n)) in
  Some (n <| n_loc ::= (λ l, l <| l_control := m |>) |>
          <| n_sh ::= put_cm cm |>
          <| n_ch ::= (λ ch, ch <| c_ph2co := c |> <| c_co2rvs := co |>) |>, Go []).

Definition turn_control_gw (now : Z) (n : node) : turn :=
  '(d, c) ← chan_read nmsg_len (c_ph2co (n_ch n));
  let '(m, cm, co) :=
    control_gw_step d (l_control (n_loc n)) now (env_cm (sh_cm (n_sh n)))
      (c_co2gwl (n_ch n)) in
  Some (n <| n_loc ::= (λ l, l <| l_control := m |>) |>
          <| n_sh ::= put_cm cm |>
          <| n_ch ::= (λ ch, ch <| c_ph2co := c |> <| c_co2gwl := co |>) |>, Go []).

Definition turn_control_gw_core (now : Z) (n : node) : turn :=
  '(d, c) ← chan_read nmsg_len (c_ph2co (n_ch n));
  let '(m, cm, reg, co) :=
    control_gw_core_step d (l_control (n_loc n)) now (env_cm (sh_cm (n_sh n)))
      (sh_registry (n_sh n)) (c_co2gwl (n_ch n)) in
  Some (n <| n_loc ::= (λ l, l <| l_control := m |>) |>
          <| n_sh ::= (λ s, put_cm cm s <| sh_registry := reg |>) |>
          <| n_ch ::= (λ ch, ch <| c_ph2co := c |> <| c_co2gwl := co |>) |>, Go []).

Definition turn_gw_listener (now : Z) (n : node) : turn :=
  '(d, c) ← chan_read nmsg_len (c_co2gwl (n_ch n));
  let '(m, rt, out) := gw_listener_step d (l_gw_listener (n_loc n)) now (sh_rt (n_sh n)) in
  Some (n <| n_loc ::= (λ l, l <| l_gw_listener := m |>) |>
          <| n_sh ::= (λ s, s <| sh_rt := rt |>) |>
          <| n_ch ::= (λ ch, ch <| c_co2gwl := c |> <| c_gwl2gwt ::= chan_write out |>) |>,
        Go []).

Definition turn_gw_core_listener (locator : NID32) (now : Z) (n : node) : turn :=
  '(d, c) ← chan_read nmsg_len (c_co2gwl (n_ch n));
  let '(m, rt, reg, out) :=
    gw_core_listener_step (getNID (sh_conf (n_sh n))) locator d (l_gw_listener (n_loc n)) now
      (sh_rt (n_sh n)) (sh_registry (n_sh n)) in
  Some (n <| n_loc ::= (λ l, l <| l_gw_listener := m |>) |>
          <| n_sh ::= (λ s, s <| sh_rt := rt |> <| sh_registry := reg |>) |>
          <| n_ch ::= (λ ch, ch <| c_co2gwl := c |> <| c_gwt2ph ::= opt_write out |>) |>,
        Go []).

(** [sp_rvs2gwt] is served before [sp_gwl2gwt]. *)
Definition talker_select (ch : channels) : option (list Z * channels) :=
  match c_rvs2gwt ch, c_gwl2gwt ch with
  | d :: c, _ => Some (d, ch <| c_rvs2gwt := c |>)
  | [], d :: c => Some (d, ch <| c_gwl2gwt := c |>)
  | [], [] => None
  end.

Definition turn_gw_talker (locator : NID32) (n : node) : turn :=
  '(d, ch) ← talker_select (n_ch n);
  let '(m, out) :=
    gw_talker_step (sh_conf (n_sh n)) locator d (l_gw_talker (n_loc n)) in
  Some (n <| n_loc ::= (λ l, l <| l_gw_talker := m |>) |>
          <| n_ch := ch <| c_gwt2ph ::= chan_write out |> |>, Go []).

Definition turn_rvs_update (locator : NID32) (n : node) : turn :=
  let '(m, out) := rvs_update_step (sh_conf (n_sh n)) locator (l_rvs_update (n_loc n)) in
  Some (n <| n_loc ::= (λ l, l <| l_rvs_update := m |>) |>
          <| n_ch ::= (λ ch, ch <| c_rvs2ph ::= chan_write out |>) |>, Go []).

Definition turn_rvs_get (n : node) : turn :=
  '(d, c) ← chan_read nmsg_len (sp_cm2rvs (sh_cm (n_sh n)));
  let n := n <| n_sh ::= (λ s, s <| sh_cm ::= (λ e, e <| sp_cm2rvs := c |>) |>) |> in
  Some match rvs_get_step (sh_conf (n_sh n)) d (l_rvs_get (n_loc n)) with
       | Go (m, out) =>
           (n <| n_loc ::= (λ l, l <| l_rvs_get := m |>) |>
              <| n_ch ::= (λ ch, ch <| c_rvs2ph ::= chan_write out |>) |>, Go [])
       | ThreadExit => (n, ThreadExit)
       | ProcessExit => (n, ProcessExit)
       | Fault => (n, Fault)
       end.

Definition turn_rvs_proxy_send (sent_ok : bool) (n : node) : turn :=
  '(d, c) ← chan_read nmsg_len (c_co2rvs (n_ch n));
  let n := n <| n_ch ::= (λ ch, ch <| c_co2rvs := c |>) |> in
  Some match rvs_proxy_send_step d (l_proxy_send (n_loc n)) sent_ok with
       | Go (m, out) => (n <| n_loc ::= (λ l, l <| l_proxy_send := m |>) |>, Go [RvsRequest out])
       | ThreadExit => (n, ThreadExit)
       | ProcessExit => (n, ProcessExit)
       | Fault => (n, Fault)
       end.

Definition turn_rvs_proxy_recv (d : option (list Z)) (n : node) : turn :=
  let '(m, out, ack) := rvs_proxy_recv_step d (l_proxy_recv (n_loc n)) in
  Some (n <| n_loc ::= (λ l, l <| l_proxy_recv := m |>) |>
          <| n_ch ::= (λ ch, ch <| c_rvs2ph ::= chan_write out |>
                                <| c_rvs2gwt ::= opt_write ack |>) |>, Go []).

Definition turn_rvs2gw (n : node) : turn :=
  '(d, c) ← chan_read nmsg_len (c_rvs2gwt (n_ch n));
  let '(m, out) := rvs2gw_step (sh_conf (n_sh n)) d (l_rvs2gw (n_loc n)) in
  Some (n <| n_loc ::= (λ l, l <| l_rvs2gw := m |>) |>
          <| n_ch ::= (λ ch, ch <| c_rvs2gwt := c |> <| c_gwt2ph ::= chan_write out |>) |>,
        Go []).

Definition turn_mobility (ev : option Z) (locators : nat → NID32) (locator : NID32)
    (clk clk1 clk2 : nat → Z) (n : node) : turn :=
  let s := mkMo (l_mo_count (n_loc n)) (env_cm (sh_cm (n_sh n))) (c_mo2ph (n_ch n))
             (c_rvs2ph (n_ch n)) in
  Some match mobility_step (sh_conf (n_sh n)) ev locators locator clk clk1 clk2 s with
       | Go s =>
           (n <| n_loc ::= (λ l, l <| l_mo_count := mo_count s |>) |>
              <| n_sh ::= put_cm (mo_cm s) |>
              <| n_ch ::= (λ ch, ch <| c_mo2ph := sp_mo2ph s |>
                                    <| c_rvs2ph := mo_rvs2ph s |>) |>, Go [])
       | ThreadExit => (n, ThreadExit)
       | ProcessExit => (n, ProcessExit)
       | Fault => (n, Fault)
       end.

Definition turn_dht_update (s : dht_service) (n : node) : turn :=
  let c := sh_conf (n_sh n) in
  Some (n, match dht_update_step (nid2char (getNID c)) (l_dht_coreIP (n_loc n)) s with
           | Go args => Go [DhtPut args]
           | ThreadExit => ThreadExit
           | ProcessExit => ProcessExit
           | Fault => Fault
           end).

Definition turn_dht_get (s : dht_service) (result : option (list (list Z))) (now : Z)
    (n : node) : turn :=
  '(d, c) ← chan_read 16 (sp_dht (sh_dht (n_sh n)));
  let n := n <| n_sh ::= (λ s, s <| sh_dht ::= (λ e, e <| sp_dht := c |>) |>) |> in
  Some match dht_get_step d s (λ _, result) now (l_dht_get (n_loc n)) (sh_dht (n_sh n)) with
       | Go (l, e) =>
           (n <| n_loc ::= (λ loc, loc <| l_dht_get := l |>) |>
              <| n_sh ::= (λ s, s <| sh_dht := e |>) |>, Go [])
       | ThreadExit => (n, ThreadExit)
       | ProcessExit => (n, ProcessExit)
       | Fault => (n, Fault)
       end.

Definition turn_dhcp (d : option (list Z)) (n : node) : turn :=
  Some match dhcp_step d (mkDhcp (sh_conf (n_sh n)) (sh_nm (n_sh n)) (n_nidcore n)) with
       | Go s => (n <| n_sh ::= (λ sh, sh <| sh_conf := dh_conf s |> <| sh_nm := dh_nm s |>) |>
                    <| n_nidcore := dh_nidcore s |>, Go [])
       | ThreadExit => (n, ThreadExit)
       | ProcessExit => (n, ProcessExit)
       | Fault => (n, Fault)
       end.

Definition turn_dns (nofile : nat) (ev : dns_events) (n : node) : turn :=
  let l := n_loc n in
  let '(s, r) :=
    dns_step nofile ev
      (mkDns (l_dns_buffer l) (l_dns_ansAns l) (l_dns_table l) (sh_nm (n_sh n)) (l_dns_fds l)) in
  let n := n <| n_loc ::= (λ l, l <| l_dns_buffer := dns_buffer s |>
                                  <| l_dns_ansAns := dns_ansAns s |>
                                  <| l_dns_table := fqdnTable s |>
                                  <| l_dns_fds := dns_fds s |>) |>
             <| n_sh ::= (λ sh, sh <| sh_nm := dns_nm s |>) |> in
  Some (n, match r with
           | Go out => Go [DnsMessages out]
           | ThreadExit => ThreadExit
           | ProcessExit => ProcessExit
           | Fault => Fault
           end).

Definition take_turn (nofile : nat) (ev : event) (n : node) : turn :=
  match ev with
  | EvNidfilter m => turn_nidfilter m n
  | EvPhOutput => turn_ph_output n
  | EvPhInput a => turn_ph_input a n
  | EvNrOutput ck => turn_nr_output ck n
  | EvNrOutputGw ck now => turn_nr_output_gw ck now n
  | EvNrOutputCore ck now now1 now2 => turn_nr_output_core ck now now1 now2 n
  | EvNrInput r now => turn_nr_input r now n
  | EvNrInputGw r now => turn_nr_input_gw r now n
  | EvControl now => turn_control now n
  | EvControlRvs now => turn_control_rvs now n
  | EvControlGw now => turn_control_gw now n
  | EvControlGwCore now => turn_control_gw_core now n
  | EvGwListener now => turn_gw_listener now n
  | EvGwCoreListener locator now => turn_gw_core_listener locator now n
  | EvGwTalker locator => turn_gw_talker locator n
  | EvRvsUpdate locator => turn_rvs_update locator n
  | EvRvsGet => turn_rvs_get n
  | EvRvsProxySend b => turn_rvs_proxy_send b n
  | EvRvsProxyRecv d => turn_rvs_proxy_recv d n
  | EvRvs2gw => turn_rvs2gw n
  | EvMobility ev locators locator clk clk1 clk2 =>
      turn_mobility ev locators locator clk clk1 clk2 n
  | EvDhtUpdate b => turn_dht_update b n
  | EvDhtGet b r now => turn_dht_get b r now n
  | EvDhcp d => turn_dhcp d n
  | EvDns ev => turn_dns nofile ev n
  end.

(** ** The system *)

(** The daemon is running, or has ended: by [exit], or by an access outside
    an object. *)
Inductive system := Running (n : node) | Down.

(** A turn of a live thread that is not blocked. *)
Definition node_step (nofile : nat) (ev : event) (n : node) : option (system * list packet) :=
  if decide (thread_of ev ∈ n_threads n) then
    '(n, r) ← take_turn nofile ev n;
    Some match r with
         | Go out => (Running n, out)
         | ThreadExit =>
             (Running (n <| n_threads ::= filter (λ t, t ≠ thread_of ev) |>), [])
         | ProcessExit | Fault => (Down, [])
         end
  else None.

Inductive step (nofile : nat) : system → event → list packet → system → Prop :=
  | step_turn n ev s out :
      node_step nofile ev n = Some (s, out) → step nofile (Running n) ev out s.

(** The states reached from [s] by any interleaving of turns. *)
Inductive reachable (nofile : nat) : system → system → Prop :=
  | reach_refl s : reachable nofile s s
  | reach_step s1 s2 s3 ev out :
      reachable nofile s1 s2 → step nofile s2 ev out s3 → reachable nofile s1 s3.

(** ** Start

    The variables before the first turns: the threads that fill theirs before
    the loop do so from the configuration; the others find the stack as it
    is, here zeroed. *)
Definition start_locals (c : config) (locator : NID32) (fds : nat) : locals :=
  let buf := replicate MAXBUFLEN 0 in
  mkLocals (ph_output_init (getNID c)) buf buf (mkNri buf 0) msg_zero msg_zero msg_zero
    (rvs_update_init c) (rvs_get_init c) msg_zero msg_zero msg_zero 0 (get_locator locator)
    (mkDhtGet (replicate INET6_ADDRSTRLEN 0) 0 nid_zero) (replicate BUFFER_LENGTH 0)
    (replicate (S DNS_MAXNAMELENGTH) 0) init_fqdn_table fds.

Definition no_datagrams : channels := mkChans [] [] [] [] [] [] [] [] [] [] [] [].

(** The daemon once [main] has started its threads; [fds] descriptors are
    open. *)
Definition start_node (c : config) (locator : NID32) (fds : nat) (sh : shared) (su : startup)
    : node :=
  mkNode sh (getNIDcore c) no_datagrams (start_locals c locator fds) (su_threads su).

(** A run given by its events; [None] when an event cannot happen. *)
Fixpoint run (nofile : nat) (evs : list event) (n : node) : option (node * list packet) :=
  match evs with
  | [] => Some (n, [])
  | ev :: evs =>
      match node_step nofile ev n with
      | Some (Running n, out) =>
          '(n, out') ← run nofile evs n; Some (n, out ++ out')
      | _ => None
      end
  end.
