(* ===== verification/SystemInv.v ===== *)
(** The invariant of the daemon: the tables are well formed, the identifiers
    are identifiers, and the buffers and messages keep their sizes, under any
    interleaving of the threads. *)

From S2P Require Import Prelude NidTypes Inet HashTable Hash LList EntryTable Configuration.
From S2P Require Import QueueTable ConnectionMapper NidMapper RoutingTable Gwc Dhtc PacketHandler.
From S2P Require Import NidRouting Control Rvsc Mobility DnsHandler Dhcp Nidd NidFilter System.

Local Open Scope Z_scope.

(** ** The parts *)

Record conf_ok (c : config) : Prop := {
  conf_ok_nid : nid_ok (conf_nid c);
  conf_ok_nidgw : nid_ok (conf_nidgw c);
  conf_ok_nidrvs : nid_ok (conf_nidrvs c);
  conf_ok_nidcore : nid_ok (conf_nidcore c);
  conf_ok_corehome : nid_ok (conf_nidcorehome c);
  conf_ok_niddns : nid_ok (conf_niddns c);
  conf_ok_gatewayIP : nid32_ok (conf_gatewayIP c);
  conf_ok_rvsIP : nid32_ok (conf_rvsIP c);
}.

(** The bindings of the connection mapper. *)
Record cm_bindings (s : cm_state) : Prop := {
  cm_ok_bindings : bindings_ok (connmap s);
  cm_ok_nidgw : nid_ok (cm_nidgw s);
  cm_ok_nidrvs : nid_ok (cm_nidrvs s);
  cm_ok_gatewayIP : nid32_ok (cm_gatewayIP s);
  cm_ok_rvsIP : nid32_ok (cm_rvsIP s);
}.

Definition chan_ok (c : chan) : Prop := Forall bytes_ok c.

Record channels_ok (ch : channels) : Prop := {
  ok_nf2ph : chan_ok (c_nf2ph ch); ok_ph2nr : chan_ok (c_ph2nr ch);
  ok_nr2ph : chan_ok (c_nr2ph ch); ok_nr : chan_ok (c_nr ch);
  ok_mo2ph : chan_ok (c_mo2ph ch); ok_gwt2ph : chan_ok (c_gwt2ph ch);
  ok_co2gwl : chan_ok (c_co2gwl ch); ok_ph2co : chan_ok (c_ph2co ch);
  ok_rvs2ph : chan_ok (c_rvs2ph ch); ok_co2rvs : chan_ok (c_co2rvs ch);
  ok_rvs2gwt : chan_ok (c_rvs2gwt ch); ok_gwl2gwt : chan_ok (c_gwl2gwt ch);
}.

Record locals_ok (l : locals) : Prop := {
  ok_ph_output : buf_ok (l_ph_output l);
  ok_ph_input : buf_ok (l_ph_input l);
  ok_nr_output : buf_ok (l_nr_output l);
  ok_nr_input : nri_ok (l_nr_input l);
  ok_control : msg_ok (l_control l);
  ok_gw_talker : msg_ok (l_gw_talker l);
  ok_gw_listener : msg_ok (l_gw_listener l);
  ok_rvs_update : msg_ok (l_rvs_update l);
  ok_rvs_get : msg_ok (l_rvs_get l);
  ok_proxy_send : msg_ok (l_proxy_send l);
  ok_proxy_recv : msg_ok (l_proxy_recv l);
  ok_rvs2gw : msg_ok (l_rvs2gw l);
}.

Record node_ok (n : node) : Prop := {
  node_shared : shared_ok (n_sh n);
  node_conf : conf_ok (sh_conf (n_sh n));
  node_nids : nm_nids_ok (sh_nm (n_sh n));
  node_bindings : cm_bindings (env_cm (sh_cm (n_sh n)));
  node_cm2rvs : Forall nid_ok (sp_cm2rvs (sh_cm (n_sh n)));
  node_dht : Forall nid_ok (sp_dht (sh_dht (n_sh n)));
  node_nidcore : nid_ok (n_nidcore n);
  node_channels : channels_ok (n_ch n);
  node_locals : locals_ok (n_loc n);
}.

(** What the environment contributes to a turn is made of bytes. *)
Definition event_ok (ev : event) : Prop :=
  match ev with
  | EvNidfilter (IpqPacket ip) => bytes_ok ip
  | EvNrInput r _ | EvNrInputGw r _ => recv_ok r
  | EvRvsProxyRecv (Some d) => bytes_ok d
  | _ => True
  end.

(** ** Helper lemmas *)

Lemma pton6_into_ok d n : nid_ok n → nid_ok (pton6_into d n).
Proof.
  intros H. unfold pton6_into. destruct (inet_pton6 d) eqn:E; [|done]. by eapply inet_pton6_ok.
Qed.

Lemma pton4_into_ok d a : nid32_ok a → nid32_ok (pton4_into d a).
Proof.
  intros H. unfold pton4_into. destruct (inet_pton_in d) eqn:E; [|done].
  by eapply inet_pton_in_ok.
Qed.

Lemma chan_write_ok d c : bytes_ok d → chan_ok c → chan_ok (chan_write d c).
Proof. intros. unfold chan_ok, chan_write. apply Forall_app. by repeat constructor. Qed.

Lemma chan_write_len_ok d len c : bytes_ok d → chan_ok c → chan_ok (chan_write_len d len c).
Proof. intros. unfold chan_write_len. case_match; [done|]. apply chan_write_ok; auto with nid. Qed.

Lemma opt_write_ok d c : (∀ b, d = Some b → bytes_ok b) → chan_ok c → chan_ok (opt_write d c).
Proof. intros. destruct d; simpl; [|done]. apply chan_write_ok; auto. Qed.

Lemma chan_read_ok m c d c' :
  chan_ok c → chan_read m c = Some (d, c') → bytes_ok d ∧ chan_ok c'.
Proof.
  intros H E. destruct c as [|b c]; simplify_eq/=. apply Forall_cons in H as [Hb Hc].
  split; [by apply bytes_ok_take|done].
Qed.

(** A message with some members replaced. *)
Ltac solve_msg :=
  repeat match goal with H : msg_ok _ |- _ => destruct H as (?&?&?&?&?&?&?) end;
  split_and!; cbn [nm_type nm_srcNID nm_destNID nm_srcNIDgw nm_destNIDgw nm_nid nm_ip
    set_field eta_of eta_msg]; try done; try (unfold nid32_ok; simpl; lia).

Lemma set_locator_ok locator m : msg_ok m → msg_ok (set_locator locator m).
Proof.
  intros H. unfold set_locator. destruct m. solve_msg. by apply pton4_into_ok.
Qed.

#[export] Hint Resolve chan_write_ok chan_write_len_ok set_locator_ok pton6_into_ok : nid.

Lemma gw_core_listener_msg nid locator d m now rt reg :
  nid_ok nid → bytes_ok d → msg_ok m →
  msg_ok (gw_core_listener_step nid locator d m now rt reg).1.1.1
  ∧ ∀ b, (gw_core_listener_step nid locator d m now rt reg).2 = Some b → bytes_ok b.
Proof.
  intros Hn Hd Hm. assert (Hr : msg_ok (read_msg d m)) by auto with nid.
  unfold gw_core_listener_step. revert Hr. generalize (read_msg d m) as m'. intros m' Hr.
  case_decide; cbn [fst snd]; [done|]. destruct m' as [t a b c e f g].
  cbn [nm_type nm_srcNID nm_destNID nm_srcNIDgw nm_destNIDgw nm_nid nm_ip
    set_field eta_of eta_msg].
  assert (∀ m'', msg_ok m'' →
            msg_ok (set_locator locator m'')
            ∧ ∀ b, Some (msg_bytes (set_locator locator m'')) = Some b → bytes_ok b) as Hl.
  { intros m'' Ho. split; [auto with nid|]. intros out Hb. simplify_eq. auto with nid. }
  apply Hl. solve_msg.
Qed.

Lemma gw_talker_msg c locator d m :
  conf_ok c → bytes_ok d → msg_ok m → msg_ok (gw_talker_step c locator d m).1.
Proof.
  intros Hc Hd Hm. unfold gw_talker_step. cbn [fst]. apply set_locator_ok.
  assert (Hr : msg_ok (read_msg d m)) by auto with nid. destruct (read_msg d m).
  solve_msg. apply Hc.
Qed.

Lemma rvs_update_msg c locator m :
  conf_ok c → msg_ok m → msg_ok (rvs_update_step c locator m).1.
Proof.
  intros Hc Hm. unfold rvs_update_step. cbn [fst]. apply set_locator_ok.
  destruct m. solve_msg. apply Hc.
Qed.

Lemma rvs2gw_msg c d m : conf_ok c → bytes_ok d → msg_ok m → msg_ok (rvs2gw_step c d m).1.
Proof.
  intros Hc Hd Hm. unfold rvs2gw_step. cbn [fst].
  assert (Hr : msg_ok (read_msg d m)) by auto with nid. destruct (read_msg d m).
  solve_msg. apply Hc.
Qed.

Lemma rvs_proxy_recv_msg d m :
  (∀ b, d = Some b → bytes_ok b) → msg_ok m →
  let r := rvs_proxy_recv_step d m in
  msg_ok r.1.1 ∧ bytes_ok r.1.2 ∧ ∀ b, r.2 = Some b → bytes_ok b.
Proof.
  intros Hd Hm r. unfold rvs_proxy_recv_step in r.
  assert (Hr : msg_ok (match d with Some d => read_msg d m | None => m end))
    by (destruct d; [apply read_msg_ok; auto|done]).
  subst r. revert Hr. generalize (match d with Some d => read_msg d m | None => m end).
  intros m' Hr. cbn [fst snd nm_type].
  assert (Hs : bytes_ok (msg_bytes (mkMsg (nm_type m') (nm_destNID m') (nm_srcNID m')
                  (nm_srcNIDgw m') (nm_destNIDgw m') (nm_nid m') (nm_ip m')))).
  { apply bytes_ok_msg_bytes. destruct m'. solve_msg. }
  split_and!; [done..|]. intros b. case_match; intros; by simplify_eq.
Qed.

Lemma msg_zero_with_nids t n d g i :
  nid32_ok t → nid_ok n → nid_ok d → nid_ok g → nid_ok i →
  msg_ok (mkMsg t n d g nid_zero i 0).
Proof. intros. solve_msg. apply nid_zero_ok. Qed.

Lemma redirect_all_ok ls i lpt m ch :
  msg_ok m → Forall (λ n, nid_ok (ll_nid n)) lpt → chan_ok ch →
  chan_ok (redirect_all ls i lpt m ch).
Proof.
  intros Hm Hl. revert i m ch Hm. induction Hl as [|n lpt Hn Hl IH]; intros i m ch Hm Hc;
    cbn [redirect_all]; [done|].
  assert (msg_ok (set_locator (ls i) (m <| nm_destNID := ll_nid n |>)))
    by (apply set_locator_ok; destruct m; solve_msg).
  apply IH; [done|]. auto with nid.
Qed.

(** ** The connection mapper *)

Lemma newCMEntry_bindings nid ip now s :
  cm_ok s → nid_ok nid → nid32_ok ip → cm_bindings s → cm_bindings (newCMEntry nid ip now s).
Proof. intros Hs Hn Hi [Hb ????]. split; try done. by apply conn_new_bindings. Qed.

Lemma staticCMEntry_bindings nid ip s :
  cm_ok s → nid_ok nid → nid32_ok ip → cm_bindings s → cm_bindings (staticCMEntry nid ip s).
Proof. intros Hs Hn Hi [Hb ????]. split; try done. by apply conn_static_bindings. Qed.

Lemma delCMEntry_bindings nid s : cm_ok s → cm_bindings s → cm_bindings (delCMEntry nid s).
Proof. intros Hs [Hb ????]. split; try done. by apply conn_del_bindings. Qed.

#[export] Hint Resolve newCMEntry_bindings staticCMEntry_bindings delCMEntry_bindings : nid.

Lemma delCM_list_bindings l s :
  cm_ok s → cm_bindings s → cm_bindings (foldl (λ s n, delCMEntry (ll_nid n) s) s l).
Proof. revert s. induction l; simpl; auto with nid. Qed.

Lemma updateCMconf_bindings c clk1 clk2 s :
  conf_ok c → cm_ok s → cm_bindings s → cm_bindings (updateCMconf c clk1 clk2 s).
Proof.
  intros Hc Hs Hb. unfold updateCMconf.
  set (s1 := delCMEntry (cm_nidgw s) s). set (s2 := delCMEntry (cm_nidrvs s1) s1).
  assert (cm_ok s2) as H2 by (subst s1 s2; auto with nid).
  assert (cm_bindings s2) as Hb2 by (subst s1 s2; auto with nid).
  pose proof (cleanCM_ok clk1 clk2 s2 H2) as H3.
  pose proof (delCM_list_bindings _ s2 H2 Hb2 : cm_bindings (cleanCM clk1 clk2 s2)) as [Hb3 ????].
  destruct Hc. cbn [set_field eta_of eta_cm].
  assert (cm_ok (mkCM (connmap (cleanCM clk1 clk2 s2)) (getNIDgw c) (getNIDrvs c)
            (getGatewayIP c) (getRvsIP c))) as H4 by exact H3.
  apply staticCMEntry_bindings, staticCMEntry_bindings; auto with nid. by split.
Qed.

(** One lookup leaves the bindings and the request channel well formed. *)
Record env_bindings (e : cm_env) : Prop := {
  env_ok_cm : cm_bindings (env_cm e);
  env_ok_chan : Forall nid_ok (sp_cm2rvs e);
}.

Lemma write_nid nid c : nid_ok nid → Forall nid_ok c → Forall nid_ok (chan_write (take 16 nid) c).
Proof.
  intros H Hc. unfold chan_write. rewrite take_ge by (destruct H; lia).
  apply Forall_app. by repeat constructor; try apply H.
Qed.

Lemma getCMEntry_bindings nid ck e :
  env_ok e → nid_ok nid → env_bindings e → env_bindings (getCMEntry nid ck e).1.1.
Proof.
  intros [Hc Hq] Hn [Hb Hs]. pose proof (cm_ok_gatewayIP _ Hb).
  unfold getCMEntry, cm_unknown.
  destruct (et_find nid (connmap (env_cm e))) as [[p ce]|].
  - case_match; [done|]. case_match.
    + destruct (isQueued nid (ck_isQueued ck) (env_queue e)) as [q b].
      destruct (b =? 0); [|done]. split; [done|]. by apply write_nid.
    + split; cbn [fst snd env_cm sp_cm2rvs set_field eta_of eta_env]; [|by apply write_nid].
      auto with nid.
  - split; cbn [fst snd env_cm sp_cm2rvs set_field eta_of eta_env]; [|by apply write_nid].
    auto with nid.
Qed.

(** The keys of an enumeration are keys of the table. *)
Lemma getAllConnections_nids clk s :
  cm_ok s → cm_bindings s → Forall (λ n, nid_ok (ll_nid n)) (ll_nodes (getAllConnections clk s)).
Proof.
  intros Hs [Hb _ _ _ _]. apply Forall_forall. intros n Hn. unfold getAllConnections, hash_enumerate in Hn.
  destruct (enumerate_from_app clk 0 (entries hash (et_dict (connmap s))) (et_heap (connmap s))
              init_ll) as (new & Hnew & Hin).
  rewrite Hnew in Hn. apply Hin in Hn as (j & p & ce & Hj & Hp & _).
  apply list_elem_of_lookup_2, (entries_elem hash) in Hj; [|apply (et_ok_dict _ Hs)].
  apply (Hb (ll_nid n) ce). apply (et_find_get _ _ p). by apply et_find_dict.
Qed.

(** ** The DHT cache *)

Lemma dht_request_chan nid now1 now2 e :
  dht_ok e → nid_ok nid → Forall nid_ok (sp_dht e) →
  Forall nid_ok (sp_dht (dht_request nid now1 now2 e)).
Proof.
  intros [_ Hq] Hn Hs. rewrite dht_request_result by done.
  repeat case_match; simpl; auto using write_nid.
Qed.

Lemma getDHTEntry_chan nid now1 now2 e :
  dht_ok e → nid_ok nid → Forall nid_ok (sp_dht e) →
  Forall nid_ok (sp_dht (getDHTEntry nid now1 now2 e).1.1).
Proof.
  intros He Hn Hs. destruct (dht_hit e nid) as [ip|] eqn:E.
  - by rewrite (getDHTEntry_hit _ _ _ _ ip).
  - rewrite getDHTEntry_miss by done. by apply dht_request_chan.
Qed.

Lemma core_route_chan dst dstgw now now1 now2 rt reg dht :
  dht_ok dht → nid_ok dstgw → Forall nid_ok (sp_dht dht) →
  Forall nid_ok (sp_dht (core_route dst dstgw now now1 now2 rt reg dht).1.2).
Proof.
  intros Hd Hn Hs. unfold core_route.
  pose proof (getDHTEntry_chan dstgw now1 now2 dht Hd Hn Hs) as Hd'.
  destruct (getRTEntry dst now rt) as [[rt' f] ip].
  destruct (getDHTEntry dstgw now1 now2 dht) as [[dht' f'] ip'].
  destruct (getRegistry dst reg) as [g ipg].
  repeat case_match; simplify_eq/=; done.
Qed.

Lemma dht_get_step_chan d s r now l e l' e' :
  dht_get_step d s r now l e = Go (l', e') → sp_dht e' = sp_dht e.
Proof.
  intros H. unfold dht_get_step in H. destruct (connectDHTserver s) as [[]| | |]; [|done..].
  rewrite bind_Go in H. by repeat case_match; simplify_eq/=.
Qed.

(** ** The NID mapper *)

Lemma newNMEntry32_nids a nid nidgw nm :
  nm_ok nm → nid_ok nid → nid_ok nidgw → nm_nids_ok nm →
  nm_nids_ok (newNMEntry32 a nid nidgw nm).
Proof.
  intros Hnm Hn Hg [H]. split. intros b e.
  destruct (newNMEntry32_get a nid nidgw nm Hnm) as (_ & _ & ->).
  case_decide; [by intros; simplify_eq|apply H].
Qed.

Lemma updateNM_nids c nm : conf_ok c → nm_ok nm → nm_nids_ok nm → nm_nids_ok (updateNM c nm).
Proof.
  intros Hc Hnm [H]. split. intros b e.
  destruct (updateNM_get c nm Hnm) as (_ & _ & ->).
  repeat case_decide; intros; simplify_eq; [split; apply Hc|by eapply H].
Qed.

(** The DNS thread changes the mapper only by entering identifiers. *)
Definition nm_inv (nm : nm_state) : Prop := nm_ok nm ∧ nm_nids_ok nm.

Lemma register_nids_inv text s :
  nm_inv (dns_nm s) → nm_inv (dns_nm (register_nids text s).1).
Proof.
  intros [Ho Hn]. unfold register_nids, guard_mem.
  destruct (get_nids text) as [[nid nidr]|]; [|done].
  destruct (inet_pton6 (cstr nid)) as [a|] eqn:Ea; [|done].
  destruct (inet_pton6 (cstr nidr)) as [b|] eqn:Eb; [|done].
  apply inet_pton6_ok in Ea, Eb. cbn [fst dns_nm set_field eta_of eta_dns].
  pose proof (newNMEntry_ok a b _ Ho). pose proof (newNMEntry_nids a b _ Ho Ea Eb Hn).
  split; [by apply newNMEntry32_ok|by apply newNMEntry32_nids].
Qed.

Lemma dns_bind_inv {A B} (m : dns_state * outcome A) (f : A → dns_state → dns_state * outcome B) :
  nm_inv (dns_nm m.1) → (∀ a s, nm_inv (dns_nm s) → nm_inv (dns_nm (f a s).1)) →
  nm_inv (dns_nm (dns_bind m f).1).
Proof. intros Hm Hf. destruct m as [s [a| | |]]; simpl in *; auto. Qed.

Lemma guard_mem_inv {A B} (m : option A) s (f : A → dns_state * outcome B) :
  nm_inv (dns_nm s) → (∀ a, nm_inv (dns_nm (f a).1)) → nm_inv (dns_nm (guard_mem m s f).1).
Proof. intros Hs Hf. destruct m; simpl; auto. Qed.

Lemma dns_cached_inv p q s : nm_inv (dns_nm s) → nm_inv (dns_nm (dns_cached p q s).1).
Proof.
  intros H. unfold dns_cached. apply dns_bind_inv; [by apply register_nids_inv|].
  intros [a b] s' Hs'. apply guard_mem_inv; [done|]. by intros [buf ?].
Qed.

Lemma dns_uncached_inv nofile fqdn q ev s :
  nm_inv (dns_nm s) → nm_inv (dns_nm (dns_uncached nofile fqdn q ev s).1).
Proof.
  intros H. unfold dns_uncached. case_match; [done|]. case_match; [done|].
  destruct (ev_response ev) as [d|]; [|done]. apply guard_mem_inv; [done|].
  intros [[[ret ?] ans] ?]. case_match; [|done].
  apply dns_bind_inv; [by apply register_nids_inv|].
  intros [a b] s' Hs'. apply guard_mem_inv; [done|]. by intros [buf ?].
Qed.

Lemma dns_step_inv nofile ev s : nm_inv (dns_nm s) → nm_inv (dns_nm (dns_step nofile ev s).1).
Proof.
  intros H. unfold dns_step. case_match; [done|].
  destruct (ev_query ev) as [[client d]|]; [|done]. apply guard_mem_inv; [done|].
  intros [[buf fqdn] q]. destruct (getNIDsbyName _ _) as [p|].
  - apply dns_bind_inv; [by apply dns_cached_inv|]. intros rc s' Hs'. by case_match.
  - apply dns_bind_inv; [by apply dns_uncached_inv|]. intros rc s' Hs'. by case_match.
Qed.

(** ** DHCP *)

Lemma on_token_ok token assign c :
  (∀ t c, conf_ok c → conf_ok (assign t c)) → conf_ok c → conf_ok (on_token token assign c).
Proof. intros H Hc. destruct token; simpl; auto. Qed.

Lemma set_conf_dhcp_fields_ok str c : conf_ok c → conf_ok (set_conf_dhcp_fields str c).
Proof.
  intros Hc. unfold set_conf_dhcp_fields.
  repeat match goal with |- context [strtok ?d ?s] => destruct (strtok d s) end.
  repeat (apply on_token_ok;
    [intros t c' []; split; cbn [conf_nid conf_nidgw conf_nidrvs conf_nidcore conf_nidcorehome
       conf_niddns conf_gatewayIP conf_rvsIP set_field eta_of eta_config];
     first [done | by apply pton6_into_ok | by apply pton4_into_ok]|]).
  done.
Qed.

Lemma dhcp_step_inv d s s' :
  conf_ok (dh_conf s) → nm_inv (dh_nm s) → dhcp_step d s = Go s' →
  conf_ok (dh_conf s') ∧ nm_inv (dh_nm s') ∧ nid_ok (dh_nidcore s').
Proof.
  intros Hc [Ho Hn] H. unfold dhcp_step in H. destruct d as [d|]; [|done].
  destruct (strdup _) as [resp|]; [|done].
  destruct (strtok 124 resp) as [t0 r0]. destruct (strtok 124 r0) as [[t|] r1]; [|done].
  apply Go_inj in H as <-. unfold set_conf_dhcp. cbn [dh_conf dh_nm dh_nidcore].
  set (m := mobility_types_val _).
  assert (Hc1 : conf_ok (set_mobility (dh_conf s) m)) by (destruct Hc; by split).
  apply (set_conf_dhcp_fields_ok (cstr (overlay (take dhcp_MAXBUFLEN d)
    (replicate dhcp_MAXBUFLEN 0)))) in Hc1.
  set (c1 := set_conf_dhcp_fields _ _) in *.
  set (c2 := set_field conf_server_address _ c1).
  assert (Hc2 : conf_ok c2) by (destruct Hc1; by split).
  destruct (updateNM_get c2 (dh_nm s) Ho) as [Hu _].
  split; [done|]. split; [|apply Hc2]. split; [done|]. by apply updateNM_nids.
Qed.

(** ** Turns *)

(** Projections and assignments of the node's structures. *)
Ltac node_cbn_in H :=
  cbn [n_sh n_nidcore n_ch n_loc n_threads sh_conf sh_nm sh_cm sh_rt sh_registry sh_dht
    env_cm env_queue sp_cm2rvs dhtable dht_pending sp_dht
    c_nf2ph c_ph2nr c_nr2ph c_nr c_mo2ph c_gwt2ph c_co2gwl c_ph2co c_rvs2ph c_co2rvs
    c_rvs2gwt c_gwl2gwt
    l_ph_output l_ph_input l_nr_output l_nr_input l_control l_gw_talker l_gw_listener
    l_rvs_update l_rvs_get l_proxy_send l_proxy_recv l_rvs2gw l_mo_count l_dht_coreIP l_dht_get
    l_dns_buffer l_dns_ansAns l_dns_table l_dns_fds
    set_field eta_of eta_node eta_shared eta_env eta_dht eta_channels eta_locals put_cm
    ph_pop mbind option_bind fst snd] in H.

(** Name every part of a well-formed node. *)
Ltac open_node H :=
  match type of H with
  | node_ok ?n =>
      destruct n as [[c nm [cm qu c2r] rt reg [dt dp cdht]] core
        [nf pn np nr mo gp cg pc rp cr rg gg]
        [lpo lpi lno lni lco lgt lgl lru lrg lps lpr lr2 lmc ldc ldg ldb lda ldt ldf] ths];
      destruct H as [[Hnm [Hcm Hqu] Hrt Hreg [Hdt Hdp]] Hcf Hni Hbi Hc2r Hcdht Hcore
        [Hnf Hpn Hnp Hnr Hmo Hgp Hcg Hpc Hrp Hcr Hrg Hgg]
        [Hlpo Hlpi Hlno Hlni Hlco Hlgt Hlgl Hlru Hlrg Hlps Hlpr Hlr2]];
      node_cbn_in Hnm; node_cbn_in Hcm; node_cbn_in Hqu; node_cbn_in Hrt; node_cbn_in Hreg;
      node_cbn_in Hdt; node_cbn_in Hdp; node_cbn_in Hcf; node_cbn_in Hni; node_cbn_in Hbi;
      node_cbn_in Hc2r; node_cbn_in Hcdht; node_cbn_in Hcore;
      node_cbn_in Hnf; node_cbn_in Hpn; node_cbn_in Hnp; node_cbn_in Hnr; node_cbn_in Hmo;
      node_cbn_in Hgp; node_cbn_in Hcg; node_cbn_in Hpc; node_cbn_in Hrp; node_cbn_in Hcr;
      node_cbn_in Hrg; node_cbn_in Hgg; node_cbn_in Hlpo; node_cbn_in Hlpi; node_cbn_in Hlno;
      node_cbn_in Hlni; node_cbn_in Hlco; node_cbn_in Hlgt; node_cbn_in Hlgl; node_cbn_in Hlru;
      node_cbn_in Hlrg; node_cbn_in Hlps; node_cbn_in Hlpr; node_cbn_in Hlr2
  end.

Ltac open_node_in H E := open_node H; node_cbn_in E.

(** Put the parts back, leaving those that changed. *)
Ltac close_node :=
  split; [split; [|split| | |split]| | | | | | |split|split]; simpl; try assumption.

Lemma hdr_nids_ok buf :
  buf_ok buf → nid_ok (hdr_destNID buf) ∧ nid_ok (hdr_destNIDgw buf) ∧
  nid_ok (nh_srcNID (header_of buf)).
Proof. intros H. apply buf_header_ok in H as (_ & ? & ? & _ & ?). done. Qed.

Lemma turn_nidfilter_ok m n n' r :
  node_ok n → event_ok (EvNidfilter m) → turn_nidfilter m n = Some (n', r) → node_ok n'.
Proof.
  intros H Hev E. unfold turn_nidfilter, nidfilter_step in E.
  destruct m as [ip|]; [|by simplify_eq]. simpl in Hev.
  destruct (length ip <? _)%nat; [by simplify_eq|]. open_node_in H E. simplify_eq. close_node.
  auto with nid.
Qed.

Lemma ph_select_ok nf rvs mo gwt src d :
  chan_ok nf → chan_ok rvs → chan_ok mo → chan_ok gwt →
  ph_select nf rvs mo gwt = Some (src, d) → bytes_ok d.
Proof.
  intros Hn Hr Hm Hg E. unfold ph_select in E.
  repeat case_match; simplify_eq;
    match goal with H : chan_ok (?d :: _) |- bytes_ok ?d => by inversion H end.
Qed.

Lemma ph_output_sent src d core nm buf b :
  buf_ok (ph_output_step src d core nm buf).1 →
  (ph_output_step src d core nm buf).2 = Some b →
  bytes_ok b.
Proof.
  intros Hb E. assert (∃ k, b = take k (ph_output_step src d core nm buf).1) as [k ->].
  { unfold ph_output_step in *. destruct src; [case_match; [|done]|..];
      cbn [fst snd] in *; apply (inj Some) in E; eexists; by symmetry. }
  apply bytes_ok_take, Hb.
Qed.

Lemma chan_drop_ok k c : chan_ok c → chan_ok (drop k c).
Proof. apply Forall_drop. Qed.

Lemma turn_ph_output_ok n n' r : node_ok n → turn_ph_output n = Some (n', r) → node_ok n'.
Proof.
  intros H E. unfold turn_ph_output in E. open_node_in H E.
  destruct (ph_select nf rp mo gp) as [[src d]|] eqn:Es; [|done].
  pose proof (ph_select_ok _ _ _ _ _ _ Hnf Hrp Hmo Hgp Es) as Hd.
  node_cbn_in E.
  pose proof (ph_output_step_ok src d core nm lpo Hlpo Hd Hcore Hni) as Hb.
  pose proof (ph_output_sent src d core nm lpo) as Hs. specialize (Hs) with (1 := Hb).
  destruct (ph_output_step src d core nm lpo) as [buf out]. cbn [fst snd] in Hb, Hs. node_cbn_in E.
  assert (chan_ok (opt_write out pn)) by (apply opt_write_ok; [apply Hs|done]).
  simplify_eq. destruct src; close_node; by apply chan_drop_ok.
Qed.

Lemma turn_ph_input_ok a n n' r : node_ok n → turn_ph_input a n = Some (n', r) → node_ok n'.
Proof.
  intros H E. unfold turn_ph_input in E. open_node_in H E.
  destruct (chan_read MAXBUFLEN np) as [[d ch]|] eqn:Er; [|done].
  destruct (chan_read_ok _ _ _ _ Hnp Er) as [Hd Hch']. node_cbn_in E.
  pose proof (ph_input_step_ok (λ _, a) d nm lpi Hlpi Hd Hnm Hni) as (Hb & Hn' & Hi').
  assert (Hm : ∀ m, (ph_input_step (λ _, a) d nm lpi).2 = Go (ToControl m) → bytes_ok m).
  { intros m [k ->]%ph_deliver_control. apply bytes_ok_take, (payload_ok _ Hb). }
  destruct (ph_input_step (λ _, a) d nm lpi) as [[buf nm'] res]. cbn [fst snd] in Hb, Hn', Hi', Hm; node_cbn_in E.
  simplify_eq. destruct res as [[]| | |]; simplify_eq; close_node.
  apply chan_write_ok; [by apply Hm|done].
Qed.

Lemma turn_nr_output_ok ck n n' r : node_ok n → turn_nr_output ck n = Some (n', r) → node_ok n'.
Proof.
  intros H E. unfold turn_nr_output in E. open_node_in H E.
  destruct (chan_read MAXBUFLEN pn) as [[d ch]|] eqn:Er; [|done].
  destruct (chan_read_ok _ _ _ _ Hpn Er) as [Hd Hch']. node_cbn_in E.
  unfold nr_output_step in E. pose proof (overlay_buf_ok d lno Hlno Hd) as Hb.
  set (buf := overlay (take MAXBUFLEN d) lno) in *.
  destruct (hdr_nids_ok buf Hb) as (Hdst & _ & _).
  pose proof (getCMEntry_env_ok (hdr_destNID buf) ck (mkEnv cm qu c2r)) as He.
  pose proof (getCMEntry_bindings (hdr_destNID buf) ck (mkEnv cm qu c2r)) as Heb.
  destruct (getCMEntry (hdr_destNID buf) ck _) as [[[cm' qu' c2r'] f] ip].
  destruct He as [Hcm' Hqu']; [by split|]. destruct Heb as [Hbi' Hc2r']; [by split|done|by split|].
  cbn [fst snd env_cm env_queue sp_cm2rvs] in *. node_cbn_in E. simplify_eq. close_node.
Qed.

Lemma nr_select_ok ch src d ch' :
  channels_ok ch → nr_select ch = Some (src, d, ch') → bytes_ok d ∧ channels_ok ch'.
Proof.
  intros [] E. unfold nr_select in E. destruct ch as [nf pn np nr mo gp cg pc rp cr rg gg].
  simpl in *.
  repeat case_match; simplify_eq; simpl;
    match goal with H : chan_ok (_ :: _) |- _ => apply Forall_cons in H as [? ?] end;
    (split; [by apply bytes_ok_take|by split]).
Qed.

Lemma turn_nr_output_gw_ok ck now n n' r :
  node_ok n → turn_nr_output_gw ck now n = Some (n', r) → node_ok n'.
Proof.
  intros H E. unfold turn_nr_output_gw in E.
  destruct (nr_select (n_ch n)) as [[[src d] ch']|] eqn:Es; [|done].
  destruct (nr_select_ok _ _ _ _ (node_channels n H) Es) as [Hd Hch'].
  clear Es. node_cbn_in E. open_node_in H E.
  unfold nr_output_gw_step in E. pose proof (overlay_buf_ok d lno Hlno Hd) as Hb.
  set (buf := overlay (take MAXBUFLEN d) lno) in *.
  destruct (hdr_nids_ok buf Hb) as (Hdst & _ & _).
  pose proof (getCMEntry_env_ok (hdr_destNID buf) ck (mkEnv cm qu c2r)) as He.
  pose proof (getCMEntry_bindings (hdr_destNID buf) ck (mkEnv cm qu c2r)) as Heb.
  pose proof (getRTEntry_ok (hdr_destNID buf) now rt Hrt) as Hrt'.
  destruct (getCMEntry (hdr_destNID buf) ck _) as [[[cm' qu' c2r'] f] ip].
  destruct He as [Hcm' Hqu']; [by split|]. destruct Heb as [Hbi' Hc2r']; [by split|done|by split|].
  destruct (getRTEntry (hdr_destNID buf) now rt) as [[rt' f'] ip'].
  destruct Hch'. cbn [fst snd env_cm env_queue sp_cm2rvs dhtable dht_pending sp_dht] in *.
  node_cbn_in E.
  destruct src; [destruct (f =? 0)|]; simplify_eq; close_node.
Qed.

Lemma turn_nr_output_core_ok ck now now1 now2 n n' r :
  node_ok n → turn_nr_output_core ck now now1 now2 n = Some (n', r) → node_ok n'.
Proof.
  intros H E. unfold turn_nr_output_core in E.
  destruct (nr_select (n_ch n)) as [[[src d] ch']|] eqn:Es; [|done].
  destruct (nr_select_ok _ _ _ _ (node_channels n H) Es) as [Hd Hch'].
  clear Es. node_cbn_in E. open_node_in H E.
  unfold nr_output_core_step in E. pose proof (overlay_buf_ok d lno Hlno Hd) as Hb.
  set (buf := overlay (take MAXBUFLEN d) lno) in *.
  destruct (hdr_nids_ok buf Hb) as (Hdst & Hdgw & _).
  pose proof (getCMEntry_env_ok (hdr_destNID buf) ck (mkEnv cm qu c2r)) as He.
  pose proof (getCMEntry_bindings (hdr_destNID buf) ck (mkEnv cm qu c2r)) as Heb.
  pose proof (core_route_ok (hdr_destNID buf) (hdr_destNIDgw buf) now now1 now2 rt reg
    (mkDht dt dp cdht) Hrt) as Hro.
  pose proof (core_route_chan (hdr_destNID buf) (hdr_destNIDgw buf) now now1 now2 rt reg
    (mkDht dt dp cdht)) as Hrc.
  destruct (getCMEntry (hdr_destNID buf) ck _) as [[[cm' qu' c2r'] f] ip].
  destruct He as [Hcm' Hqu']; [by split|]. destruct Heb as [Hbi' Hc2r']; [by split|done|by split|].
  destruct (core_route _ _ _ _ _ _ _ _) as [[rt' [dt' dp' cdht']] ip'].
  destruct Hro as [Hrt' [Hdt' Hdp']]; [by split|].
  specialize (Hrc ltac:(by split) Hdgw Hcdht).
  destruct Hch'. cbn [fst snd env_cm env_queue sp_cm2rvs dhtable dht_pending sp_dht] in *.
  node_cbn_in E.
  destruct src; [destruct (f =? 0)|]; simplify_eq; close_node.
Qed.

Lemma nr_input_step_inv nid r now l cm c :
  nri_ok l → recv_ok r → cm_ok cm → cm_bindings cm → chan_ok c →
  let s := nr_input_step nid r now l cm c in
  nri_ok s.1.1 ∧ cm_ok s.1.2 ∧ cm_bindings s.1.2 ∧ chan_ok s.2.
Proof.
  intros Hl Hr Hc Hb Hch s. subst s. unfold nr_input_step.
  pose proof (recvfrom_ok r l Hl Hr) as H. destruct (recvfrom r l) as [n l'] eqn:E. simpl in H.
  pose proof H as [Hbuf Ha]. destruct (hdr_nids_ok _ Hbuf) as (_ & _ & Hs).
  case_decide; [|done]. cbn [fst snd]. split; [done|]. split; [by apply newCMEntry_ok|].
  split; [by apply newCMEntry_bindings|]. apply chan_write_len_ok; [apply Hbuf|done].
Qed.

Lemma turn_nr_input_ok r now n n' res :
  node_ok n → recv_ok r → turn_nr_input r now n = Some (n', res) → node_ok n'.
Proof.
  intros H Hr E. unfold turn_nr_input in E. open_node_in H E.
  pose proof (nr_input_step_inv (getNID c) r now lni cm np Hlni Hr Hcm Hbi Hnp) as Hs.
  destruct (nr_input_step (getNID c) r now lni cm np) as [[l cm'] c'].
  destruct Hs as (?&?&?&?). node_cbn_in E. simplify_eq. close_node.
Qed.

Lemma turn_nr_input_gw_ok r now n n' res :
  node_ok n → recv_ok r → turn_nr_input_gw r now n = Some (n', res) → node_ok n'.
Proof.
  intros H Hr E. unfold turn_nr_input_gw in E. open_node_in H E.
  pose proof (nr_input_step_inv (getNID c) r now lni cm np Hlni Hr Hcm Hbi Hnp) as Hs.
  assert (Hn : chan_ok (nr_input_gw_step (getNID c) r now lni cm np nr).2).
  { unfold nr_input_gw_step. pose proof (recvfrom_ok r lni Hlni Hr) as Hf.
    destruct (recvfrom r lni) as [k l']. case_decide; [done|]. cbn [snd] in *.
    apply chan_write_len_ok; [apply Hf|done]. }
  pose proof (nr_input_gw_step_same (getNID c) r now lni cm np nr) as Hg.
  destruct (nr_input_gw_step (getNID c) r now lni cm np nr) as [[[l cm'] c'] c''].
  cbn [fst snd] in Hn, Hg. rewrite <-Hg in Hs. destruct Hs as (?&?&?&?).
  node_cbn_in E. simplify_eq. close_node.
Qed.

(** The control threads. *)
Lemma msg_nid_ip m : msg_ok m → nid_ok (nm_nid m) ∧ nid32_ok (nm_ip m).
Proof. intros (_&_&_&_&_&?&?). done. Qed.

Lemma control_step_bindings d m now e :
  bytes_ok d → msg_ok m → env_ok e → env_bindings e →
  env_bindings (control_step d m now e).2 .
Proof.
  intros Hd Hm [Hc Hq] [Hb Hs].
  destruct (msg_nid_ip (read_msg d m) ltac:(auto with nid)) as [Hn Hi].
  unfold control_step. cbn [snd].
  destruct (msg_type_of (nm_type (read_msg d m))) as [[[]|[]]|]; try by split.
  - split; [|done]. by apply newCMEntry_bindings.
  - split; [|done]. by apply delCMEntry_bindings.
  - destruct (negb _); [|by split]. split; [|done]. by apply newCMEntry_bindings.
Qed.

Lemma turn_control_ok now n n' r : node_ok n → turn_control now n = Some (n', r) → node_ok n'.
Proof.
  intros H E. unfold turn_control in E. open_node_in H E.
  destruct (chan_read nmsg_len pc) as [[d ch]|] eqn:Er; [|done].
  destruct (chan_read_ok _ _ _ _ Hpc Er) as [Hd Hch']. node_cbn_in E.
  pose proof (control_step_bindings d lco now (mkEnv cm qu c2r) Hd Hlco ltac:(by split)
    ltac:(by split)) as [Hb' Hs'].
  pose proof (control_step_env_ok d lco now (mkEnv cm qu c2r) ltac:(by split)) as [Hc' Hq'].
  pose proof (read_msg_ok d lco Hd Hlco) as Hm'.
  rewrite <-(control_step_nmsg d lco now (mkEnv cm qu c2r)) in Hm'.
  destruct (control_step d lco now (mkEnv cm qu c2r)) as [m [cm' qu' c2r']].
  cbn [fst snd env_cm env_queue sp_cm2rvs] in *. node_cbn_in E. simplify_eq. close_node.
Qed.

(** What the other three do to the mapper, and what they pass on. *)
Lemma control_rvs_step_inv d m now cm c :
  bytes_ok d → msg_ok m → cm_ok cm → cm_bindings cm → chan_ok c →
  let r := control_rvs_step d m now cm c in
  msg_ok r.1.1 ∧ cm_bindings r.1.2 ∧ chan_ok r.2.
Proof.
  intros Hd Hm Hc Hb Hch r. pose proof (read_msg_ok d m Hd Hm) as Hr.
  destruct (msg_nid_ip _ Hr) as [Hn Hi]. subst r. unfold control_rvs_step.
  destruct (msg_type_of _) as [[[]|[]]|]; cbn [fst snd];
    (split; [done|]); (split; [auto with nid|]); auto with nid.
Qed.

Lemma control_gw_step_inv d m now cm c :
  bytes_ok d → msg_ok m → cm_ok cm → cm_bindings cm → chan_ok c →
  let r := control_gw_step d m now cm c in
  msg_ok r.1.1 ∧ cm_bindings r.1.2 ∧ chan_ok r.2.
Proof.
  intros Hd Hm Hc Hb Hch r. pose proof (read_msg_ok d m Hd Hm) as Hr.
  destruct (msg_nid_ip _ Hr) as [Hn Hi]. subst r. unfold control_gw_step.
  destruct (msg_type_of _) as [[[]|[]]|]; cbn [fst snd];
    (split; [done|]); (split; [auto with nid|]); auto with nid.
Qed.

Lemma control_gw_core_step_inv d m now cm reg c :
  bytes_ok d → msg_ok m → cm_ok cm → cm_bindings cm → chan_ok c →
  let r := control_gw_core_step d m now cm reg c in
  msg_ok r.1.1.1 ∧ cm_bindings r.1.1.2 ∧ chan_ok r.2.
Proof.
  intros Hd Hm Hc Hb Hch r. pose proof (read_msg_ok d m Hd Hm) as Hr.
  destruct (msg_nid_ip _ Hr) as [Hn Hi]. subst r. unfold control_gw_core_step.
  destruct (msg_type_of _) as [[[]|[]]|]; cbn [fst snd];
    (split; [done|]); (split; [auto with nid|]); auto with nid.
Qed.

Lemma turn_control_rvs_ok now n n' r :
  node_ok n → turn_control_rvs now n = Some (n', r) → node_ok n'.
Proof.
  intros H E. unfold turn_control_rvs in E. open_node_in H E.
  destruct (chan_read nmsg_len pc) as [[d ch]|] eqn:Er; [|done].
  destruct (chan_read_ok _ _ _ _ Hpc Er) as [Hd Hch']. node_cbn_in E.
  pose proof (control_rvs_step_inv d lco now cm cr Hd Hlco Hcm Hbi Hcr) as Hi.
  pose proof (control_rvs_step_cm_ok d lco now cm cr Hcm) as Hc'.
  destruct (control_rvs_step d lco now cm cr) as [[m cm'] c']. destruct Hi as (?&?&?).
  cbn [fst snd] in *. node_cbn_in E. simplify_eq. close_node.
Qed.

Lemma turn_control_gw_ok now n n' r :
  node_ok n → turn_control_gw now n = Some (n', r) → node_ok n'.
Proof.
  intros H E. unfold turn_control_gw in E. open_node_in H E.
  destruct (chan_read nmsg_len pc) as [[d ch]|] eqn:Er; [|done].
  destruct (chan_read_ok _ _ _ _ Hpc Er) as [Hd Hch']. node_cbn_in E.
  pose proof (control_gw_step_inv d lco now cm cg Hd Hlco Hcm Hbi Hcg) as Hi.
  pose proof (control_gw_step_cm_ok d lco now cm cg Hcm) as Hc'.
  destruct (control_gw_step d lco now cm cg) as [[m cm'] c']. destruct Hi as (?&?&?).
  cbn [fst snd] in *. node_cbn_in E. simplify_eq. close_node.
Qed.

Lemma turn_control_gw_core_ok now n n' r :
  node_ok n → turn_control_gw_core now n = Some (n', r) → node_ok n'.
Proof.
  intros H E. unfold turn_control_gw_core in E. open_node_in H E.
  destruct (chan_read nmsg_len pc) as [[d ch]|] eqn:Er; [|done].
  destruct (chan_read_ok _ _ _ _ Hpc Er) as [Hd Hch']. node_cbn_in E.
  pose proof (control_gw_core_step_inv d lco now cm reg cg Hd Hlco Hcm Hbi Hcg) as Hi.
  pose proof (control_gw_core_step_ok d lco now cm reg cg Hcm Hreg) as [Hc' Hr'].
  destruct (control_gw_core_step d lco now cm reg cg) as [[[m cm'] reg'] c'].
  destruct Hi as (?&?&?). cbn [fst snd] in *. node_cbn_in E. simplify_eq. close_node.
Qed.

(** The gateway threads. *)
Lemma turn_gw_listener_ok now n n' r :
  node_ok n → turn_gw_listener now n = Some (n', r) → node_ok n'.
Proof.
  intros H E. unfold turn_gw_listener in E. open_node_in H E.
  destruct (chan_read nmsg_len cg) as [[d ch]|] eqn:Er; [|done].
  destruct (chan_read_ok _ _ _ _ Hcg Er) as [Hd Hch']. node_cbn_in E.
  unfold gw_listener_step in E. node_cbn_in E. simplify_eq.
  pose proof (read_msg_ok d lgl Hd Hlgl). close_node; auto with nid.
Qed.

Lemma gw_core_listener_tables nid locator d m now rt reg :
  rt_ok rt → et_ok reg →
  rt_ok (gw_core_listener_step nid locator d m now rt reg).1.1.2
  ∧ et_ok (gw_core_listener_step nid locator d m now rt reg).1.2.
Proof.
  intros Hrt Hreg. unfold gw_core_listener_step.
  destruct (decide _); cbn [fst snd]; auto using newRTEntry_ok, addRegistry_ok.
Qed.

Lemma turn_gw_core_listener_ok locator now n n' r :
  node_ok n → turn_gw_core_listener locator now n = Some (n', r) → node_ok n'.
Proof.
  intros H E. unfold turn_gw_core_listener in E. open_node_in H E.
  destruct (chan_read nmsg_len cg) as [[d ch]|] eqn:Er; [|done].
  destruct (chan_read_ok _ _ _ _ Hcg Er) as [Hd Hch']. node_cbn_in E.
  destruct (gw_core_listener_msg (getNID c) locator d lgl now rt reg
    (conf_ok_nid c Hcf) Hd Hlgl) as [Hm' Ho'].
  destruct (gw_core_listener_tables (getNID c) locator d lgl now rt reg Hrt Hreg) as [Hrt' Hreg'].
  destruct (gw_core_listener_step _ _ _ _ _ _ _) as [[[m rt'] reg'] out].
  cbn [fst snd] in *. node_cbn_in E. simplify_eq. close_node. by apply opt_write_ok.
Qed.

Lemma talker_select_ok ch d ch' :
  channels_ok ch → talker_select ch = Some (d, ch') → bytes_ok d ∧ channels_ok ch'.
Proof.
  intros [] E. unfold talker_select in E. destruct ch as [nf pn np nr mo gp cg pc rp cr rg gg].
  simpl in *.
  repeat case_match; simplify_eq; simpl;
    match goal with H : chan_ok (_ :: _) |- _ => apply Forall_cons in H as [? ?] end;
    (split; [done|by split]).
Qed.

Lemma turn_gw_talker_ok locator n n' r :
  node_ok n → turn_gw_talker locator n = Some (n', r) → node_ok n'.
Proof.
  intros H E. unfold turn_gw_talker in E.
  destruct (talker_select (n_ch n)) as [[d ch']|] eqn:Es; [|done].
  destruct (talker_select_ok _ _ _ (node_channels n H) Es) as [Hd Hch'].
  clear Es. open_node_in H E.
  destruct ch' as [nf' pn' np' nr' mo' gp' cg' pc' rp' cr' rg' gg']; destruct Hch'.
  cbn [c_nf2ph c_ph2nr c_nr2ph c_nr c_mo2ph c_gwt2ph c_co2gwl c_ph2co c_rvs2ph c_co2rvs
    c_rvs2gwt c_gwl2gwt] in *.
  pose proof (gw_talker_msg c locator d lgt Hcf Hd Hlgt) as Hm.
  assert (Ho : (gw_talker_step c locator d lgt).2 = msg_bytes (gw_talker_step c locator d lgt).1)
    by done.
  destruct (gw_talker_step c locator d lgt) as [m out]. cbn [fst snd] in Hm, Ho. subst out.
  node_cbn_in E. simplify_eq. close_node. auto with nid.
Qed.

(** The rendezvous threads. *)
Lemma turn_rvs_update_ok locator n n' r :
  node_ok n → turn_rvs_update locator n = Some (n', r) → node_ok n'.
Proof.
  intros H E. unfold turn_rvs_update in E. open_node_in H E.
  pose proof (rvs_update_msg c locator lru Hcf Hlru) as Hm.
  assert (Ho : (rvs_update_step c locator lru).2 = msg_bytes (rvs_update_step c locator lru).1)
    by done.
  destruct (rvs_update_step c locator lru) as [m out]. cbn [fst snd] in Hm, Ho. subst out.
  node_cbn_in E. simplify_eq. close_node. auto with nid.
Qed.

(** The requests written to [sp_cm2rvs] never overrun [nmsg]. *)
Lemma rvs_get_step_go c d m :
  nid_ok d → msg_ok m → nid_ok (getNIDrvs c) →
  ∃ m', rvs_get_step c d m = Go (m', msg_bytes m') ∧ msg_ok m'.
Proof.
  intros Hd Hm Hr. exists (m <| nm_nid := d |> <| nm_destNID := getNIDrvs c |>). split.
  - rewrite <-rvs_get_step_nid by done. by rewrite take_ge by (destruct Hd; lia).
  - destruct m. solve_msg.
Qed.

Lemma chan_read_nid k c d c' :
  (16 ≤ k)%nat → Forall nid_ok c → chan_read k c = Some (d, c') → nid_ok d ∧ Forall nid_ok c'.
Proof.
  intros Hk H E. destruct c as [|b c]; simplify_eq/=. apply Forall_cons in H as [Hb Hc].
  rewrite take_ge by (destruct Hb; lia). done.
Qed.

Lemma turn_rvs_get_ok n n' r : node_ok n → turn_rvs_get n = Some (n', r) → node_ok n'.
Proof.
  intros H E. unfold turn_rvs_get in E. open_node_in H E.
  destruct (chan_read nmsg_len c2r) as [[d ch]|] eqn:Er; [|done].
  apply chan_read_nid in Er as [Hd Hch']; [|unfold nmsg_len; lia|done].
  destruct (rvs_get_step_go c d lrg Hd Hlrg (conf_ok_nidrvs c Hcf)) as (m' & Hg & Hm').
  node_cbn_in E. rewrite Hg in E. simplify_eq. close_node. auto with nid.
Qed.

Lemma turn_rvs_proxy_send_ok b n n' r :
  node_ok n → turn_rvs_proxy_send b n = Some (n', r) → node_ok n'.
Proof.
  intros H E. unfold turn_rvs_proxy_send in E. open_node_in H E.
  destruct (chan_read nmsg_len cr) as [[d ch]|] eqn:Er; [|done].
  destruct (chan_read_ok _ _ _ _ Hcr Er) as [Hd Hch']. node_cbn_in E.
  pose proof (read_msg_ok d lps Hd Hlps).
  unfold rvs_proxy_send_step in E. destruct b; node_cbn_in E; simplify_eq; close_node.
Qed.

Lemma turn_rvs_proxy_recv_ok d n n' r :
  node_ok n → event_ok (EvRvsProxyRecv d) → turn_rvs_proxy_recv d n = Some (n', r) → node_ok n'.
Proof.
  intros H Hev E. unfold turn_rvs_proxy_recv in E. open_node_in H E.
  destruct (rvs_proxy_recv_msg d lpr) as (Hm & Ho & Ha); [|done|].
  { intros b ->. exact Hev. }
  destruct (rvs_proxy_recv_step d lpr) as [[m out] ack]. cbn [fst snd] in *.
  node_cbn_in E. simplify_eq. close_node; [auto with nid|by apply opt_write_ok].
Qed.

Lemma turn_rvs2gw_ok n n' r : node_ok n → turn_rvs2gw n = Some (n', r) → node_ok n'.
Proof.
  intros H E. unfold turn_rvs2gw in E. open_node_in H E.
  destruct (chan_read nmsg_len rg) as [[d ch]|] eqn:Er; [|done].
  destruct (chan_read_ok _ _ _ _ Hrg Er) as [Hd Hch']. node_cbn_in E.
  pose proof (rvs2gw_msg c d lr2 Hcf Hd Hlr2) as Hm.
  assert (Ho : (rvs2gw_step c d lr2).2 = msg_bytes (rvs2gw_step c d lr2).1) by done.
  destruct (rvs2gw_step c d lr2) as [m out]. cbn [fst snd] in Hm, Ho. subst out.
  node_cbn_in E. simplify_eq. close_node. auto with nid.
Qed.

(** Mobility. *)
Lemma rvs_update_bytes c locator : conf_ok c → bytes_ok (rvs_update c locator).
Proof.
  intros Hc. unfold rvs_update. apply bytes_ok_msg_bytes, set_locator_ok.
  pose proof nid_zero_ok. unfold msg_zero. cbn [set_field eta_of eta_msg]. solve_msg; apply Hc.
Qed.

Lemma mobility_step_inv c ev ls l clk clk1 clk2 s s' :
  conf_ok c → cm_ok (mo_cm s) → cm_bindings (mo_cm s) →
  chan_ok (Mobility.sp_mo2ph s) → chan_ok (mo_rvs2ph s) →
  mobility_step c ev ls l clk clk1 clk2 s = Go s' →
  cm_bindings (mo_cm s') ∧ chan_ok (Mobility.sp_mo2ph s') ∧ chan_ok (mo_rvs2ph s').
Proof.
  intros Hc Hs Hb Hm Hr E. unfold mobility_step in E.
  destruct (read_event ev) as [[]| | |]; try done; [|by apply Go_inj in E as <-].
  destruct (2 <=? mo_count s + 1); [|by apply Go_inj in E as <-].
  apply Go_inj in E as <-. cbn [mo_cm Mobility.sp_mo2ph mo_rvs2ph].
  split; [by apply updateCMconf_bindings|]. split.
  - destruct (_ =? _); [|done]. apply redirect_all_ok; [|by apply getAllConnections_nids|done].
    pose proof nid_zero_ok. unfold msg_zero. cbn [set_field eta_of eta_msg]. solve_msg; apply Hc.
  - apply chan_write_ok; [by apply rvs_update_bytes|done].
Qed.

Lemma turn_mobility_ok ev ls l clk clk1 clk2 n n' r :
  node_ok n → turn_mobility ev ls l clk clk1 clk2 n = Some (n', r) → node_ok n'.
Proof.
  intros H E. unfold turn_mobility in E. open_node_in H E.
  destruct (mobility_step c ev ls l clk clk1 clk2 (mkMo lmc cm mo rp)) as [s'| | |] eqn:Em;
    [|simplify_eq; close_node..].
  destruct (mobility_step_inv c ev ls l clk clk1 clk2 (mkMo lmc cm mo rp) s' Hcf Hcm Hbi Hmo Hrp
    Em) as (?&?&?).
  pose proof (mobility_step_ok c ev ls l clk clk1 clk2 (mkMo lmc cm mo rp) s' Hcm Em).
  simplify_eq. close_node.
Qed.

(** The DHT. *)
Lemma turn_dht_get_ok b res now n n' r :
  node_ok n → turn_dht_get b res now n = Some (n', r) → node_ok n'.
Proof.
  intros H E. unfold turn_dht_get in E. open_node_in H E.
  destruct (chan_read 16 cdht) as [[d ch]|] eqn:Er; [|done].
  apply chan_read_nid in Er as [Hd Hch']; [|lia|done]. node_cbn_in E.
  destruct (dht_get_step d b (λ _, res) now ldg (mkDht dt dp ch)) as [[l' [dt' dp' ch']]| | |] eqn:Es.
  - pose proof (dht_get_step_ok d b (λ _, res) now ldg (mkDht dt dp ch) l' (mkDht dt' dp' ch') ltac:(by split) Es) as [Hdt' Hdp'].
    apply dht_get_step_chan in Es. cbn [sp_dht] in Es. subst ch'. simplify_eq. close_node.
  - simplify_eq. close_node.
  - simplify_eq. close_node.
  - simplify_eq. close_node.
Qed.

(** DHCP and DNS. *)
Lemma turn_dhcp_ok d n n' r : node_ok n → turn_dhcp d n = Some (n', r) → node_ok n'.
Proof.
  intros H E. unfold turn_dhcp in E. open_node_in H E.
  destruct (dhcp_step d (mkDhcp c nm core)) as [s'| | |] eqn:Es;
    [|simplify_eq; close_node..].
  destruct (dhcp_step_inv d (mkDhcp c nm core) s' Hcf (conj Hnm Hni) Es) as (?&[??]&?).
  simplify_eq. close_node.
Qed.

Lemma turn_dns_ok nofile ev n n' r : node_ok n → turn_dns nofile ev n = Some (n', r) → node_ok n'.
Proof.
  intros H E. unfold turn_dns in E. open_node_in H E.
  pose proof (dns_step_inv nofile ev (mkDns ldb lda ldt nm ldf) (conj Hnm Hni)) as [Ho' Hi'].
  destruct (dns_step nofile ev (mkDns ldb lda ldt nm ldf)) as [s' r'].
  cbn [fst] in Ho', Hi'. node_cbn_in E. simplify_eq. close_node.
Qed.

(** ** Every turn, and every run *)

Lemma take_turn_ok nofile ev n n' r :
  node_ok n → event_ok ev → take_turn nofile ev n = Some (n', r) → node_ok n'.
Proof.
  intros H Hev E. destruct ev; cbn [take_turn] in E.
  - by eapply turn_nidfilter_ok.
  - by eapply turn_ph_output_ok.
  - by eapply turn_ph_input_ok.
  - by eapply turn_nr_output_ok.
  - by eapply turn_nr_output_gw_ok.
  - by eapply turn_nr_output_core_ok.
  - by eapply turn_nr_input_ok.
  - by eapply turn_nr_input_gw_ok.
  - by eapply turn_control_ok.
  - by eapply turn_control_rvs_ok.
  - by eapply turn_control_gw_ok.
  - by eapply turn_control_gw_core_ok.
  - by eapply turn_gw_listener_ok.
  - by eapply turn_gw_core_listener_ok.
  - by eapply turn_gw_talker_ok.
  - by eapply turn_rvs_update_ok.
  - by eapply turn_rvs_get_ok.
  - by eapply turn_rvs_proxy_send_ok.
  - by eapply turn_rvs_proxy_recv_ok.
  - by eapply turn_rvs2gw_ok.
  - by eapply turn_mobility_ok.
  - by unfold turn_dht_update in E; simplify_eq.
  - by eapply turn_dht_get_ok.
  - by eapply turn_dhcp_ok.
  - by eapply turn_dns_ok.
Qed.

Definition system_ok (s : system) : Prop :=
  match s with Running n => node_ok n | Down => True end.

Lemma node_ok_threads n ths : node_ok n → node_ok (n <| n_threads := ths |>).
Proof. intros [????????]. by split. Qed.

Lemma node_step_ok nofile ev n s out :
  node_ok n → event_ok ev → node_step nofile ev n = Some (s, out) → system_ok s.
Proof.
  intros H Hev E. unfold node_step in E. destruct (decide _); [|done].
  destruct (take_turn nofile ev n) as [[n' r]|] eqn:Et; [|done].
  pose proof (take_turn_ok _ _ _ _ _ H Hev Et) as Hn'. cbn [mbind option_bind] in E.
  destruct r; simplify_eq; simpl; [done|by apply node_ok_threads|done..].
Qed.

(** The states reached when the environment contributes bytes. *)
Inductive reachable_ok (nofile : nat) : system → system → Prop :=
  | reach_ok_refl s : reachable_ok nofile s s
  | reach_ok_step s1 s2 s3 ev out :
      reachable_ok nofile s1 s2 → event_ok ev → step nofile s2 ev out s3 →
      reachable_ok nofile s1 s3.

Lemma reachable_system_ok nofile s s' : reachable_ok nofile s s' → system_ok s → system_ok s'.
Proof.
  induction 1 as [|s1 s2 s3 ev out _ IH Hev Hs]; intros H; [done|].
  specialize (IH H). destruct Hs as [n ev s out Hs]. by eapply node_step_ok.
Qed.

(** The start is well formed. *)
Lemma first_bindings_conf t s : sh_conf (first_bindings t s) = sh_conf s.
Proof. by destruct t. Qed.

Lemma static_pair_bindings c s :
  conf_ok c → cm_ok s → cm_bindings s →
  cm_bindings (staticCMEntry (getNIDgw c) (getGatewayIP c)
    (staticCMEntry (getNIDrvs c) (getRvsIP c) s)).
Proof.
  intros [] Hs Hb. apply staticCMEntry_bindings; auto with nid.
Qed.

Lemma init_cm_bindings c : conf_ok c → cm_bindings (init_conn_mapper c).
Proof.
  intros []. split; try done. intros k v Hk.
  unfold init_conn_mapper in Hk. cbn [connmap] in Hk. by rewrite et_get_construct in Hk.
Qed.

Lemma start_locals_ok c locator fds : conf_ok c → locals_ok (start_locals c locator fds).
Proof.
  intros Hc. pose proof msg_zero_ok. pose proof zeros_ok. pose proof nid_zero_ok.
  assert (nid32_ok 0) by (unfold nid32_ok; lia).
  split; cbn [start_locals l_ph_output l_ph_input l_nr_output l_nr_input l_control l_gw_talker
    l_gw_listener l_rvs_update l_rvs_get l_proxy_send l_proxy_recv l_rvs2gw]; try done.
  - apply ph_output_init_ok, Hc.
  - unfold rvs_update_init, msg_zero. cbn [set_field eta_of eta_msg]. solve_msg; apply Hc.
  - unfold rvs_get_init, msg_zero. cbn [set_field eta_of eta_msg]. solve_msg; apply Hc.
Qed.

Lemma init_nid_mapper_nids c : nm_nids_ok (init_nid_mapper c).
Proof.
  assert (He : nm_nids_ok (mkNM (et_empty (construct_hash_table true 10))
            (et_empty (construct_hash_table32 true 10)) nid_zero 0)).
  { split. intros a e H. change (et_get (V := NMEntry32)
      (et_empty (construct_hash_table32 true 10)) a = Some e) in H.
    rewrite et_get_empty in H; [done|]. intros k. apply lookup_construct. }
  assert (Hl : ∀ s, nid_ok (lit6 s)).
  { intros s. unfold lit6. destruct (inet_pton6 (chars s)) eqn:E; simpl; [|apply nid_zero_ok].
    by eapply inet_pton6_ok. }
  unfold init_nid_mapper. case_match; [|done].
  generalize (empty_nm_ok nid_zero 0). revert He. generalize (mkNM
    (et_empty (construct_hash_table true 10)) (et_empty (construct_hash_table32 true 10))
    nid_zero 0).
  induction init_bindings as [|[[ip nid] gw] l IH]; intros s Hn Hs; cbn [foldl]; [done|].
  apply IH; [by apply newNMEntry32_nids|by apply newNMEntry32_ok].
Qed.

Lemma nidd_main_start lib_ok sym_ok create_ok c sh su :
  nidd_main lib_ok sym_ok create_ok c = Go (sh, su) →
  ∃ t, node_type_of (getType c) = Some t ∧ sh = first_bindings t (init_tables c).
Proof.
  unfold nidd_main. intros H. destruct (node_type_of (getType c)) as [t|]; [|done].
  exists t. split; [done|]. by repeat case_match; simplify_eq.
Qed.

Lemma start_node_ok lib_ok sym_ok create_ok c sh su locator fds :
  conf_ok c → nidd_main lib_ok sym_ok create_ok c = Go (sh, su) →
  node_ok (start_node c locator fds sh su).
Proof.
  intros Hc H. destruct (nidd_main_start _ _ _ _ _ _ H) as (t & _ & ->).
  pose proof (first_bindings_ok t _ (init_tables_ok c)) as Hsh.
  split; cbn [start_node n_sh n_nidcore n_ch n_loc]; [done|..].
  - by rewrite first_bindings_conf.
  - assert (nm_nids_ok (newNMEntry (getNIDrvs c) (getNIDcore c) (init_nid_mapper c)))
      by (apply newNMEntry_nids; try apply Hc; [apply init_nid_mapper_ok|apply init_nid_mapper_nids]).
    by destruct t.
  - pose proof (static_pair_bindings c _ Hc (init_conn_mapper_ok c) (init_cm_bindings c Hc)).
    destruct t; [done..|]. by apply init_cm_bindings.
  - destruct t; constructor.
  - destruct t; constructor.
  - apply Hc.
  - split; constructor.
  - by apply start_locals_ok.
Qed.
