(* ===== verification/Network.v ===== *)
(** Several hosts: a network carries the datagrams of their daemons, in any
    order, loses some, and receives others from outside; hosts move to other
    addresses.  A host's own turns are those of [System]. *)

From S2P Require Import Prelude NidTypes Inet HashTable Hash EntryTable Configuration QueueTable.
From S2P Require Import ConnectionMapper NidMapper RoutingTable Gwc Dhtc PacketHandler NidRouting.
From S2P Require Import Control Rvsc Mobility DnsHandler Dhcp Nidd NidFilter System SystemInv.

Local Open Scope Z_scope.

(** ** State *)

(** A host: the address of its interface, and its daemon. *)
Record host := mkHost { h_addr : NID32; h_sys : system }.

Record datagram := mkDatagram { d_from : NID32; d_to : NID32; d_data : list Z }.

(** The hosts, the datagrams on their way, and what the daemons gave to other
    programs, by host. *)
Record network := mkNet {
  nt_hosts : list host;
  nt_air : list datagram;
  nt_log : list (nat * packet);
}.

Inductive net_event :=
  | NetTurn (i : nat) (ev : event)            (* a turn that receives no datagram *)
  | NetDeliver (i k : nat) (now : Z)          (* the [k]-th datagram reaches host [i] *)
  | NetLose (k : nat)
  | NetInject (d : datagram)                  (* from a host that is not modelled *)
  | NetMove (i : nat) (a : NID32).            (* the interface gets another address *)

(** ** Steps *)

(** The address of the interface is what [get_locator] reads; datagrams come
    from the network only. *)
Definition place (a : NID32) (ev : event) : option event :=
  match ev with
  | EvNrInput _ _ | EvNrInputGw _ _ => None
  | EvMobility t _ _ clk clk1 clk2 => Some (EvMobility t (λ _, a) a clk clk1 clk2)
  | EvGwTalker _ => Some (EvGwTalker a)
  | EvRvsUpdate _ => Some (EvRvsUpdate a)
  | EvGwCoreListener _ now => Some (EvGwCoreListener a now)
  | ev => Some ev
  end.

(** The thread that waits on the socket of the data port. *)
Definition receive_event (n : node) (from : NID32) (d : list Z) (now : Z) : event :=
  if decide (thread_nr_input ∈ n_threads n) then EvNrInput (Received from d) now
  else EvNrInputGw (Received from d) now.

Definition sent_by (a : NID32) (p : packet) : option datagram :=
  match p with Udp ip d => Some (mkDatagram a ip d) | _ => None end.

Definition local_output (i : nat) (p : packet) : option (nat * packet) :=
  match p with Udp _ _ => None | _ => Some (i, p) end.

(** Host [i], at address [a], goes on as [s] and sends [out]. *)
Definition host_goes (i : nat) (a : NID32) (s : system) (out : list packet) (net : network) : network :=
  mkNet (<[i := mkHost a s]> (nt_hosts net)) (nt_air net ++ omap (sent_by a) out)
    (nt_log net ++ omap (local_output i) out).

Definition running (h : host) : option node :=
  match h_sys h with Running n => Some n | Down => None end.

Definition net_step (nofile : nat) (e : net_event) (net : network) : option network :=
  match e with
  | NetTurn i ev =>
      h ← nt_hosts net !! i;
      n ← running h;
      ev ← place (h_addr h) ev;
      '(s, out) ← node_step nofile ev n;
      Some (host_goes i (h_addr h) s out net)
  | NetDeliver i k now =>
      h ← nt_hosts net !! i;
      n ← running h;
      d ← nt_air net !! k;
      if decide (d_to d = h_addr h) then
        '(s, out) ← node_step nofile (receive_event n (d_from d) (d_data d) now) n;
        Some (host_goes i (h_addr h) s out (mkNet (nt_hosts net) (delete k (nt_air net)) (nt_log net)))
      else None
  | NetLose k => Some (mkNet (nt_hosts net) (delete k (nt_air net)) (nt_log net))
  | NetInject d => Some (mkNet (nt_hosts net) (nt_air net ++ [d]) (nt_log net))
  | NetMove i a =>
      h ← nt_hosts net !! i;
      Some (mkNet (<[i := mkHost a (h_sys h)]> (nt_hosts net)) (nt_air net) (nt_log net))
  end.

Fixpoint net_run (nofile : nat) (es : list net_event) (net : network) : option network :=
  match es with
  | [] => Some net
  | e :: es => net_step nofile e net ≫= net_run nofile es
  end.

(** ** What the daemons send *)

Definition datagram_ok (d : datagram) : Prop :=
  nid32_ok (d_from d) ∧ bytes_ok (d_data d).

(** A datagram of a daemon is the start of one of its buffers. *)
Definition udp_ok (p : packet) : Prop := match p with Udp _ d => bytes_ok d | _ => True end.

Lemma buf_start_ok k buf : buf_ok buf → bytes_ok (take k buf).
Proof. intros [_ B]. by apply bytes_ok_take. Qed.

Lemma nr_output_sent_ok d ck buf e :
  buf_ok buf → bytes_ok d → udp_ok (Udp 0 (nr_output_step d ck buf e).2.2).
Proof.
  intros Hb Hd. unfold nr_output_step. destruct (getCMEntry _ ck e) as [[e' f] ip].
  apply buf_start_ok. by apply overlay_buf_ok.
Qed.

Lemma nr_output_gw_sent_ok src d ck now buf e rt :
  buf_ok buf → bytes_ok d → udp_ok (Udp 0 (nr_output_gw_step src d ck now buf e rt).2.2).
Proof.
  intros Hb Hd. unfold nr_output_gw_step. pose proof (overlay_buf_ok d buf Hb Hd) as H.
  destruct src; repeat case_match; cbn [snd]; by apply buf_start_ok.
Qed.

Lemma nr_output_core_sent_ok src d ck now now1 now2 buf e rt reg dht ip pkt :
  buf_ok buf → bytes_ok d →
  (nr_output_core_step src d ck now now1 now2 buf e rt reg dht).2 = Some (ip, pkt) → udp_ok (Udp ip pkt).
Proof.
  intros Hb Hd. unfold nr_output_core_step. pose proof (overlay_buf_ok d buf Hb Hd) as H.
  destruct src; repeat case_match; cbn [snd]; intros E; simplify_option_eq; by apply buf_start_ok.
Qed.

(** Every case in which a turn goes on; nothing but UDP is left to show. *)
Ltac turn_cases E :=
  repeat first
    [ progress simplify_option_eq
    | match type of E with context [match ?x with _ => _ end] => destruct x end ];
  repeat constructor.

Lemma take_turn_udp nofile ev n n' out :
  node_ok n → take_turn nofile ev n = Some (n', Go out) → Forall udp_ok out.
Proof.
  intros H E. pose proof (ok_nr_output _ (node_locals n H)) as Hb. pose proof (node_channels n H) as Hc.
  destruct ev; cbn [take_turn] in E;
    unfold turn_nidfilter, turn_ph_output, turn_ph_input, turn_control, turn_control_rvs, turn_control_gw,
      turn_control_gw_core, turn_gw_listener, turn_gw_core_listener, turn_gw_talker, turn_rvs_update,
      turn_rvs_get, turn_rvs_proxy_send, turn_rvs_proxy_recv, turn_rvs2gw, turn_mobility, turn_dht_update,
      turn_dht_get, turn_dhcp, turn_dns, turn_nr_input, turn_nr_input_gw in E;
    try (solve [turn_cases E]).
  - unfold turn_nr_output in E. destruct (chan_read _ _) as [[d c]|] eqn:Er; [|done].
    apply chan_read_ok in Er as [Hd _]; [|apply Hc]. cbn [mbind option_bind] in E.
    pose proof (nr_output_sent_ok d ck _ (sh_cm (n_sh n)) Hb Hd) as Hs.
    destruct (nr_output_step _ _ _ _) as [[buf e] [ip pkt]]. injection E as <- <-. constructor; [exact Hs|constructor].
  - unfold turn_nr_output_gw in E. destruct (nr_select _) as [[[src d] ch']|] eqn:Es; [|done].
    apply nr_select_ok in Es as [Hd _]; [|done]. cbn [mbind option_bind] in E.
    pose proof (nr_output_gw_sent_ok src d ck now _ (sh_cm (n_sh n)) (sh_rt (n_sh n)) Hb Hd) as Hs.
    destruct (nr_output_gw_step _ _ _ _ _ _ _) as [[[buf e] rt] [ip pkt]]. injection E as <- <-.
    constructor; [exact Hs|constructor].
  - unfold turn_nr_output_core in E. destruct (nr_select _) as [[[src d] ch']|] eqn:Es; [|done].
    apply nr_select_ok in Es as [Hd _]; [|done]. cbn [mbind option_bind] in E.
    destruct (nr_output_core_step _ _ _ _ _ _ _ _ _ _ _) as [[[[buf e] rt] dht] o] eqn:Eo.
    injection E as <- <-. destruct o as [[ip pkt]|]; [|constructor]. constructor; [|constructor].
    eapply nr_output_core_sent_ok; [exact Hb|exact Hd|by rewrite Eo].
  - destruct (dht_update_step _ _ _); simplify_eq. by repeat constructor.
  - destruct (dns_step _ _ _) as [s []]; simplify_eq. by repeat constructor.
Qed.

Lemma node_step_udp nofile ev n s out :
  node_ok n → node_step nofile ev n = Some (s, out) → Forall udp_ok out.
Proof.
  intros H E. unfold node_step in E. destruct (decide _); [|done].
  destruct (take_turn nofile ev n) as [[n' r]|] eqn:Et; [|done]. cbn [mbind option_bind] in E.
  destruct r; simplify_eq; [by eapply take_turn_udp|constructor..].
Qed.

(** ** The invariant of the network *)

Definition host_ok (h : host) : Prop := nid32_ok (h_addr h) ∧ system_ok (h_sys h).

Record net_ok (net : network) : Prop := {
  net_hosts_ok : Forall host_ok (nt_hosts net);
  net_air_ok : Forall datagram_ok (nt_air net);
}.

(** What comes from outside is made of bytes, and addresses have 32 bits. *)
Definition net_event_ok (e : net_event) : Prop :=
  match e with
  | NetTurn _ ev => event_ok ev
  | NetInject d => datagram_ok d
  | NetMove _ a => nid32_ok a
  | _ => True
  end.

Lemma place_ok a ev ev' : event_ok ev → place a ev = Some ev' → event_ok ev'.
Proof. intros H E. destruct ev; simplify_eq/=; done. Qed.

Lemma sent_by_ok a out :
  nid32_ok a → Forall udp_ok out → Forall datagram_ok (omap (sent_by a) out).
Proof.
  intros Ha. induction 1 as [|p out Hp _ IH]; [constructor|]. destruct p; cbn [omap list_omap sent_by]; try done.
  by constructor.
Qed.

Lemma host_goes_ok i a s out net :
  net_ok net → nid32_ok a → system_ok s → Forall udp_ok out → net_ok (host_goes i a s out net).
Proof.
  intros [Hh Hd] Ha Hs Ho. split; cbn [host_goes nt_hosts nt_air].
  - by apply Forall_insert.
  - apply Forall_app. split; [done|]. by apply sent_by_ok.
Qed.

Lemma running_ok h n : host_ok h → running h = Some n → node_ok n.
Proof. intros [_ H]. unfold running. destruct (h_sys h); [by intros [= <-]|done]. Qed.

Lemma Forall_delete {A} (P : A → Prop) k l : Forall P l → Forall P (delete k l).
Proof. intros H. rewrite delete_take_drop. apply Forall_app. split; [by apply Forall_take|by apply Forall_drop]. Qed.

Lemma net_step_ok nofile e net net' :
  net_ok net → net_event_ok e → net_step nofile e net = Some net' → net_ok net'.
Proof.
  intros [Hh Hd] He E. destruct e as [i ev|i k now|k|d|i a]; cbn [net_step] in E.
  - destruct (nt_hosts net !! i) as [h|] eqn:Ei; [|done]. cbn [mbind option_bind] in E.
    pose proof (Forall_lookup_1 _ _ _ _ Hh Ei) as Hi.
    destruct (running h) as [n|] eqn:En; [|done]. pose proof (running_ok _ _ Hi En) as Hn. cbn [mbind option_bind] in E.
    destruct (place (h_addr h) ev) as [ev'|] eqn:Ep; [|done]. cbn [mbind option_bind] in E.
    destruct (node_step nofile ev' n) as [[s out]|] eqn:Es; [|done]. injection E as <-.
    apply host_goes_ok; [done|apply Hi| |by eapply node_step_udp].
    eapply node_step_ok; [exact Hn| |exact Es]. by eapply place_ok.
  - destruct (nt_hosts net !! i) as [h|] eqn:Ei; [|done]. cbn [mbind option_bind] in E.
    pose proof (Forall_lookup_1 _ _ _ _ Hh Ei) as Hi.
    destruct (running h) as [n|] eqn:En; [|done]. pose proof (running_ok _ _ Hi En) as Hn. cbn [mbind option_bind] in E.
    destruct (nt_air net !! k) as [d|] eqn:Ed; [|done]. cbn [mbind option_bind] in E.
    pose proof (Forall_lookup_1 _ _ _ _ Hd Ed) as [Hf Hb]. case_decide; [|done].
    destruct (node_step nofile _ n) as [[s out]|] eqn:Es; [|done]. injection E as <-.
    apply host_goes_ok; [|apply Hi| |by eapply node_step_udp].
    + split; [done|]. by apply Forall_delete.
    + eapply node_step_ok; [exact Hn| |exact Es]. unfold receive_event. by case_decide.
  - injection E as <-. split; [done|]. by apply Forall_delete.
  - injection E as <-. split; [done|]. apply Forall_app. split; [done|]. by constructor.
  - destruct (nt_hosts net !! i) as [h|] eqn:Ei; [|done]. injection E as <-. split; [|done].
    apply Forall_insert; [done|]. split; [done|]. apply (Forall_lookup_1 _ _ _ _ Hh Ei).
Qed.

Lemma net_run_ok nofile es net net' :
  net_ok net → Forall net_event_ok es → net_run nofile es net = Some net' → net_ok net'.
Proof.
  intros Hn He. revert net Hn. induction He as [|e es He _ IH]; intros net Hn E; [by simplify_eq/=|].
  cbn [net_run] in E. destruct (net_step nofile e net) as [net1|] eqn:E1; [|done].
  eapply IH; [|exact E]. by eapply net_step_ok.
Qed.

(** ** Runs *)

Lemma net_run_app nofile es es' net net1 :
  net_run nofile es net = Some net1 → net_run nofile (es ++ es') net = net_run nofile es' net1.
Proof.
  revert net. induction es as [|e es IH]; intros net E; [by injection E as ->|]. cbn [net_run app] in *.
  destruct (net_step nofile e net) as [net2|]; [|done]. by apply IH.
Qed.

(** The turns of one host are a run of its daemon. *)
Lemma net_run_turns nofile i a evs n n' out net :
  nt_hosts net !! i = Some (mkHost a (Running n)) → Forall (λ ev, place a ev = Some ev) evs →
  run nofile evs n = Some (n', out) →
  net_run nofile (NetTurn i <$> evs) net = Some (host_goes i a (Running n') out net).
Proof.
  intros Hi Hp. revert n out net Hi. induction Hp as [|ev evs Hp _ IH]; intros n out net Hi E; cbn [run] in E.
  - injection E as -> <-. cbn [fmap list_fmap net_run]. unfold host_goes. cbn [omap list_omap].
    rewrite !app_nil_r, list_insert_id by done. by destruct net.
  - destruct (node_step nofile ev n) as [[[n1|] out1]|] eqn:E1; [|done..].
    destruct (run nofile evs n1) as [[n2 out2]|] eqn:E2; [|done]. injection E as -> <-.
    cbn [fmap list_fmap net_run net_step]. rewrite Hi. cbn [mbind option_bind running h_sys h_addr].
    rewrite Hp. cbn [mbind option_bind]. rewrite E1. cbn [mbind option_bind].
    rewrite (IH n1 out2) by (done || apply list_lookup_insert_eq; by eapply lookup_lt_Some).
    f_equal. unfold host_goes. cbn [nt_hosts nt_air nt_log]. rewrite list_insert_insert_eq.
    by rewrite !omap_app, !app_assoc.
Qed.
