(* ===== verification/Memory.v ===== *)
(** Memory with checked accesses.  A program runs over the bytes of one object,
    a buffer or a structure; reading or writing a byte that the object does not
    have is [Fault].  Members are accessed at the offsets the packed structures
    of nid.h have on the target. *)

From S2P Require Import Prelude NidTypes.

Local Open Scope Z_scope.

(** ** Programs *)

Definition mem (A : Type) : Type := list Z → outcome (A * list Z).

#[export] Instance mem_ret : MRet mem := λ A x o, Go (x, o).
#[export] Instance mem_bind : MBind mem := λ A B f m o,
  match m o with
  | Go (x, o) => f x o
  | ThreadExit => ThreadExit
  | ProcessExit => ProcessExit
  | Fault => Fault
  end.

Definition mem_lift {A} (r : outcome A) : mem A := λ o,
  match r with
  | Go x => Go (x, o)
  | ThreadExit => ThreadExit
  | ProcessExit => ProcessExit
  | Fault => Fault
  end.

(** ** Accesses *)

Definition load (off n : nat) : mem (list Z) := λ o,
  if decide (off + n ≤ length o)%nat then Go (slice off n o, o) else Fault.

Definition store (off : nat) (d : list Z) : mem () := λ o,
  if decide (off + length d ≤ length o)%nat then Go ((), splice off d o) else Fault.

Definition load_int (off : nat) : mem Z := d ← load off 4; mret (le_val d).
Definition store_int (off : nat) (z : Z) : mem () := store off (le_bytes 4 z).

(** [read (fd, object + off, n)] of the datagram [d]: at most [n] bytes of it
    are written; the result is their number. *)
Definition sys_read (d : list Z) (off n : nat) : mem nat :=
  _ ← store off (take n d); mret (length (take n d)).

(** [write (fd, object + off, len)]; a negative [len] is a huge [size_t], with
    which the call fails. *)
Definition sys_write (off : nat) (len : Z) : mem (option (list Z)) :=
  if len <? 0 then mret None else d ← load off (Z.to_nat len); mret (Some d).

(** ** Offsets of the members

    [NID_header] and [NID_msg] agree up to [nid] and [ip]. *)

Definition at_type : nat := 0.
Definition at_srcNID : nat := 4.
Definition at_destNID : nat := 20.
Definition at_srcNIDgw : nat := 36.
Definition at_destNIDgw : nat := 52.
Definition at_nid : nat := 68.
Definition at_ip : nat := 84.

(** ** Accesses that stay inside *)

Lemma load_at a x r n :
  length a = n → load n (length x) (a ++ x ++ r) = Go (x, a ++ x ++ r).
Proof.
  intros <-. unfold load. rewrite decide_True by (rewrite !length_app; lia).
  by rewrite slice_app_at.
Qed.

Lemma store_at a x y r n :
  length a = n → length y = length x → store n y (a ++ x ++ r) = Go ((), a ++ y ++ r).
Proof.
  intros <- Hl. unfold store. rewrite decide_True by (rewrite !length_app; lia).
  by rewrite splice_mid.
Qed.

Lemma load_end a r n m :
  length a = n → load (n + m) 0 (a ++ r) = if decide (m ≤ length r)%nat then Go ([], a ++ r) else Fault.
Proof.
  intros <-. unfold load. rewrite length_app. repeat case_decide; try done; lia.
Qed.

Lemma load_right a r n m k :
  length a = n → (m + k ≤ length r)%nat → load (n + m) k (a ++ r) = Go (slice m k r, a ++ r).
Proof.
  intros <- H. unfold load. rewrite decide_True by (rewrite length_app; lia).
  by rewrite slice_app_r.
Qed.

Lemma sys_read_in d off n o :
  (off + length (take n d) ≤ length o)%nat →
  sys_read d off n o = Go (length (take n d), splice off (take n d) o).
Proof.
  intros H. unfold sys_read, mbind, mem_bind, store. by rewrite decide_True.
Qed.

Lemma sys_write_in off len o :
  (off + Z.to_nat len ≤ length o)%nat →
  sys_write off len o = Go (if len <? 0 then None else Some (slice off (Z.to_nat len) o), o).
Proof.
  intros H. unfold sys_write. case_match; [done|].
  unfold mbind, mem_bind, load. by rewrite decide_True.
Qed.

(** And those that do not. *)
Lemma sys_read_out d off n o :
  (length o < off + length (take n d))%nat → sys_read d off n o = Fault.
Proof.
  intros H. unfold sys_read, mbind, mem_bind, store. rewrite decide_False; [done|lia].
Qed.
