(* ===== verification/CheckedTurns.v ===== *)
(** The turns of the packet path on memory: the threads of packetHandler.c,
    nid_routing.c, control.c, gwc.c and rvsc.c as programs over the bytes of
    their buffer or message, with every access checked against the size of that
    object.  [MemoryProps] shows that they do what the turns of [System] do. *)

From S2P Require Import Prelude NidTypes Inet HashTable Hash EntryTable Configuration.
From S2P Require Import QueueTable ConnectionMapper NidMapper RoutingTable Gwc Dhtc.
From S2P Require Import PacketHandler NidRouting Control Rvsc Nidd System Memory.

Local Open Scope Z_scope.

(** ** packetHandler.c

    [pt] is [buf + nh_len]; a structure at [pt] has its members there. *)

Definition at_pt (off : nat) : nat := nh_len + off.

(** [write (sp_ph2nr[1], buf, recv_bytes + nh_len)] *)
Definition mem_send (recv_bytes : nat) : mem (option (list Z)) :=
  sys_write 0 (Z.of_nat (recv_bytes + nh_len)).

(** [nh_pt->type = nmsg_pt->type] and the two assignments after it. *)
Definition mem_copy_msg_nids : mem () :=
  t ← load_int (at_pt at_type); _ ← store_int at_type t;
  s ← load (at_pt at_srcNID) 16; _ ← store at_srcNID s;
  d ← load (at_pt at_destNID) 16; store at_destNID d.

Definition mem_ph_output (src : ph_source) (d : list Z) (nidcore : NID) (nm : nm_state)
    : mem (option (list Z)) :=
  recv_bytes ← sys_read d nh_len ph_size;
  match src with
  | FromNf =>
      daddr ← load_int (at_pt 16);
      match getNMEntry32 daddr nm with
      | Some e =>
          _ ← store_int at_type (nid_ctrl_type_val DATA);
          _ ← store at_srcNIDgw nidcore;
          _ ← store at_destNID (nme32_nid e);
          _ ← store at_destNIDgw (nme32_nidgw e);
          mem_send recv_bytes
      | None => mret None
      end
  | FromRvs | FromMo => _ ← mem_copy_msg_nids; mem_send recv_bytes
  | FromGwt =>
      _ ← mem_copy_msg_nids;
      s ← load (at_pt at_srcNIDgw) 16; _ ← store at_srcNIDgw s;
      d ← load (at_pt at_destNIDgw) 16; _ ← store at_destNIDgw d;
      mem_send recv_bytes
  end.

(** [sendto (raw, pt, recv_bytes - nh_len, ...)]: a length the kernel refuses,
    or a packet it does not accept, ends the process. *)
Definition mem_raw (accepts : bool) (proto len : Z) : mem ph_delivery :=
  pkt ← sys_write nh_len len;
  match pkt with
  | Some pkt => if accepts then mret (ToRaw proto pkt) else mem_lift ProcessExit
  | None => mem_lift ProcessExit
  end.

Definition mem_ph_input (accepts : bool) (d : list Z) (nm : nm_state)
    : mem (nm_state * ph_delivery) :=
  recv_bytes ← sys_read d 0 MAXBUFLEN;
  srcNID ← load at_srcNID 16;
  srcNIDgw ← load at_srcNIDgw 16;
  let nm := newNMEntry srcNID srcNIDgw nm in
  type ← load_int at_type;
  let len := Z.of_nat recv_bytes - Z.of_nat nh_len in
  r ← match msg_type_of type with
      | Some (Ctrl DATA) =>
          p ← load (at_pt 9) 1;
          let p := le_val p in
          if p =? IPPROTO_TCP then mem_raw accepts IPPROTO_TCP len
          else if p =? IPPROTO_UDP then mem_raw accepts IPPROTO_UDP len
          else if p =? IPPROTO_ICMP then mem_raw accepts IPPROTO_ICMP len
          else mret Dropped
      | Some (Ctrl RELOCATE) | None => mret Dropped
      | Some _ =>
          w ← sys_write nh_len len;
          mret (match w with Some m => ToControl m | None => Dropped end)
      end;
  mret (nm, r).

(** ** nid_routing.c *)

(** [sendto (s, buf, recv_bytes, ...)] *)
Definition mem_sendto (ip : NID32) (recv_bytes : nat) : mem (list packet) :=
  w ← sys_write 0 (Z.of_nat recv_bytes);
  mret (match w with Some pkt => [Udp ip pkt] | None => [] end).

Definition mem_nr_output (d : list Z) (ck : cm_clock) (e : cm_env)
    : mem (cm_env * list packet) :=
  recv_bytes ← sys_read d 0 MAXBUFLEN;
  dst ← load at_destNID 16;
  let '(e, _, ip) := getCMEntry dst ck e in
  out ← mem_sendto ip recv_bytes; mret (e, out).

Definition mem_nr_output_gw (src : nr_source) (d : list Z) (ck : cm_clock) (now : Z)
    (e : cm_env) (rt : rt_state) : mem (cm_env * rt_state * list packet) :=
  recv_bytes ← sys_read d 0 MAXBUFLEN;
  dst ← load at_destNID 16;
  match src with
  | FromPh =>
      let '(e, found, ip) := getCMEntry dst ck e in
      if found =? 0 then
        dst ← load at_destNID 16;
        let '(rt, _, ip) := getRTEntry dst now rt in
        out ← mem_sendto ip recv_bytes; mret (e, rt, out)
      else out ← mem_sendto ip recv_bytes; mret (e, rt, out)
  | FromNr =>
      let '(rt, _, ip) := getRTEntry dst now rt in
      out ← mem_sendto ip recv_bytes; mret (e, rt, out)
  end.

(** The lookups after the connection mapper, and [continue] when all fail. *)
Definition mem_core_route (recv_bytes : nat) (now : Z) (now1 now2 : timeval) (rt : rt_state)
    (registry : conn_table) (dht : dht_env) : mem (rt_state * dht_env * list packet) :=
  dst ← load at_destNID 16;
  let '(rt, found, ip) := getRTEntry dst now rt in
  if found =? 0 then
    dst ← load at_destNID 16;
    let '(found, ip) := getRegistry dst registry in
    if found =? 0 then
      dstgw ← load at_destNIDgw 16;
      let '(dht, found, ip) := getDHTEntry dstgw now1 now2 dht in
      match ip with
      | Some ip =>
          if found =? 0 then mret (rt, dht, [])
          else out ← mem_sendto ip recv_bytes; mret (rt, dht, out)
      | None => mret (rt, dht, [])
      end
    else out ← mem_sendto ip recv_bytes; mret (rt, dht, out)
  else out ← mem_sendto ip recv_bytes; mret (rt, dht, out).

Definition mem_nr_output_core (src : nr_source) (d : list Z) (ck : cm_clock) (now : Z)
    (now1 now2 : timeval) (e : cm_env) (rt : rt_state) (registry : conn_table) (dht : dht_env)
    : mem (cm_env * (rt_state * dht_env * list packet)) :=
  recv_bytes ← sys_read d 0 MAXBUFLEN;
  match src with
  | FromPh =>
      dst ← load at_destNID 16;
      let '(e, found, ip) := getCMEntry dst ck e in
      if found =? 0 then
        r ← mem_core_route recv_bytes now now1 now2 rt registry dht; mret (e, r)
      else out ← mem_sendto ip recv_bytes; mret (e, (rt, dht, out))
  | FromNr => r ← mem_core_route recv_bytes now now1 now2 rt registry dht; mret (e, r)
  end.

(** [recvfrom (s, buf, MAXBUFLEN, ...)]: the number of bytes and the sender. *)
Definition mem_recvfrom (r : recv_result) (recv_addr : NID32) : mem (Z * NID32) :=
  match r with
  | Received from d => n ← sys_read d 0 MAXBUFLEN; mret (Z.of_nat n, from)
  | RecvError => mret (-1, recv_addr)
  end.

(** What is written for this node, and what is to be routed on. *)
Definition mem_nr_input (nid : NID) (r : recv_result) (now : Z) (recv_addr : NID32)
    (cm : cm_state) : mem (NID32 * cm_state * option (list Z) * option (list Z)) :=
  '(recv_bytes, recv_addr) ← mem_recvfrom r recv_addr;
  dst ← load at_destNID 16;
  if decide (dst = nid) then
    src ← load at_srcNID 16;
    w ← sys_write 0 recv_bytes;
    mret (recv_addr, newCMEntry src recv_addr now cm, w, None)
  else
    w ← sys_write 0 recv_bytes;
    mret (recv_addr, cm, None, w).

(** ** control.c *)

Definition mem_newCMEntry (now : Z) (cm : cm_state) : mem cm_state :=
  nid ← load at_nid 16; ip ← load_int at_ip; mret (newCMEntry nid ip now cm).

Definition mem_delCMEntry (cm : cm_state) : mem cm_state :=
  nid ← load at_nid 16; mret (delCMEntry nid cm).

(** [write (fd, &nmsg, nmsg_len)] *)
Definition mem_write_msg : mem (option (list Z)) := sys_write 0 (Z.of_nat nmsg_len).

Definition mem_control (d : list Z) (now : Z) (e : cm_env) : mem cm_env :=
  _ ← sys_read d 0 nmsg_len;
  type ← load_int at_type;
  match msg_type_of type with
  | Some (Ctrl REDIRECT) => cm ← mem_newCMEntry now (env_cm e); mret (e <| env_cm := cm |>)
  | Some (Ctrl RELOCATE) => cm ← mem_delCMEntry (env_cm e); mret (e <| env_cm := cm |>)
  | Some (Rvs RVS_RESPONSE) =>
      ip ← load_int at_ip;
      if negb (ip =? 0) then
        nid ← load at_nid 16;
        cm ← mem_newCMEntry now (env_cm e);
        mret (e <| env_queue ::= unqueue nid |> <| env_cm := cm |>)
      else mret e
  | _ => mret e
  end.

Definition mem_control_rvs (d : list Z) (now : Z) (cm : cm_state)
    : mem (cm_state * option (list Z)) :=
  _ ← sys_read d 0 nmsg_len;
  type ← load_int at_type;
  match msg_type_of type with
  | Some (Ctrl REDIRECT) => cm ← mem_newCMEntry now cm; mret (cm, None)
  | Some (Ctrl RELOCATE) => cm ← mem_delCMEntry cm; mret (cm, None)
  | Some (Rvs RVS_UPDATE) | Some (Rvs RVS_GET) => w ← mem_write_msg; mret (cm, w)
  | _ => mret (cm, None)
  end.

Definition mem_control_gw (d : list Z) (now : Z) (cm : cm_state)
    : mem (cm_state * option (list Z)) :=
  _ ← sys_read d 0 nmsg_len;
  type ← load_int at_type;
  match msg_type_of type with
  | Some (Ctrl REDIRECT) => cm ← mem_newCMEntry now cm; mret (cm, None)
  | Some (Ctrl RELOCATE) => cm ← mem_delCMEntry cm; mret (cm, None)
  | Some (Ctrl REGISTRY) => w ← mem_write_msg; mret (cm, w)
  | _ => mret (cm, None)
  end.

Definition mem_control_gw_core (d : list Z) (now : Z) (cm : cm_state) (registry : conn_table)
    : mem (cm_state * conn_table * option (list Z)) :=
  _ ← sys_read d 0 nmsg_len;
  type ← load_int at_type;
  match msg_type_of type with
  | Some (Ctrl REDIRECT) => cm ← mem_newCMEntry now cm; mret (cm, registry, None)
  | Some (Ctrl RELOCATE) => cm ← mem_delCMEntry cm; mret (cm, registry, None)
  | Some (Ctrl REGISTRY) => w ← mem_write_msg; mret (cm, registry, w)
  | Some (Ctrl REDIRECT_CORE) =>
      nid ← load at_nid 16; ip ← load_int at_ip;
      mret (cm, addRegistry nid ip registry, None)
  | _ => mret (cm, registry, None)
  end.

(** ** gwc.c *)

(** [inet_pton (AF_INET, get_locator (getPrimaryIface ()), &nmsg.ip)] *)
Definition mem_set_locator (locator : NID32) : mem () :=
  match inet_pton_in (get_locator locator) with
  | Some ip => store_int at_ip ip
  | None => mret ()
  end.

Definition mem_gw_listener (d : list Z) (now : Z) (rt : rt_state)
    : mem (rt_state * option (list Z)) :=
  _ ← sys_read d 0 nmsg_len;
  nid ← load at_nid 16; ip ← load_int at_ip;
  w ← mem_write_msg;
  mret (newRTEntry nid ip now rt, w).

Definition mem_gw_core_listener (nid : NID) (locator : NID32) (d : list Z) (now : Z)
    (rt : rt_state) (registry : conn_table) : mem (rt_state * conn_table * option (list Z)) :=
  _ ← sys_read d 0 nmsg_len;
  mnid ← load at_nid 16; ip ← load_int at_ip;
  let rt := newRTEntry mnid ip now rt in
  srcgw ← load at_srcNIDgw 16;
  if decide (srcgw = nid) then
    mnid ← load at_nid 16; mret (rt, addRegistry mnid 0 registry, None)
  else
    _ ← store_int at_type (nid_ctrl_type_val REDIRECT_CORE);
    _ ← store at_srcNID nid;
    g ← load at_srcNIDgw 16; _ ← store at_destNID g;
    g ← load at_srcNIDgw 16; _ ← store at_destNIDgw g;
    _ ← store at_srcNIDgw nid;
    _ ← mem_set_locator locator;
    w ← mem_write_msg;
    mret (rt, registry, w).

Definition mem_gw_talker (c : config) (locator : NID32) (d : list Z) : mem (option (list Z)) :=
  _ ← sys_read d 0 nmsg_len;
  _ ← store_int at_type (nid_ctrl_type_val REGISTRY);
  _ ← store at_destNID (getNIDgw c);
  _ ← mem_set_locator locator;
  mem_write_msg.

(** ** rvsc.c *)

(** The members copied one by one into another structure, whose bytes are the
    result; [swap] exchanges source and destination. *)
Definition mem_copy_members (swap : bool) : mem (list Z) :=
  t ← load at_type 4; s ← load at_srcNID 16; d ← load at_destNID 16;
  sg ← load at_srcNIDgw 16; dg ← load at_destNIDgw 16;
  n ← load at_nid 16; ip ← load at_ip 4;
  mret (if swap then t ++ d ++ s ++ sg ++ dg ++ n ++ ip
        else t ++ s ++ d ++ sg ++ dg ++ n ++ ip).

Definition mem_rvs_proxy_send (d : list Z) (sent_ok : bool) : mem (list Z) :=
  _ ← sys_read d 0 nmsg_len;
  rvs_msg ← mem_copy_members false;
  if sent_ok then mret rvs_msg else mem_lift ProcessExit.

Definition mem_rvs_proxy_recv (d : option (list Z)) : mem (list Z * option (list Z)) :=
  _ ← match d with Some d => sys_read d 0 nmsg_len | None => mret 0%nat end;
  nmsg ← mem_copy_members true;
  mret (nmsg, if le_val (slice at_type 4 nmsg) =? rvs_msg_type_val RVS_ACK
              then Some nmsg else None).

Definition mem_rvs_update (c : config) (locator : NID32) : mem (option (list Z)) :=
  _ ← store at_destNID (getNIDrvs c);
  _ ← mem_set_locator locator;
  mem_write_msg.

(** [read (sp_cm2rvs[0], &nmsg.nid, nmsg_len)] *)
Definition mem_rvs_get (c : config) (d : list Z) : mem (option (list Z)) :=
  _ ← sys_read d at_nid nmsg_len;
  _ ← store at_destNID (getNIDrvs c);
  mem_write_msg.

Definition mem_rvs2gw (c : config) (d : list Z) : mem (option (list Z)) :=
  _ ← sys_read d 0 nmsg_len;
  _ ← store_int at_type (nid_ctrl_type_val REGISTRY);
  _ ← store at_destNID (getNIDgw c);
  mem_write_msg.

(** ** The turns *)

(** A program over the message a thread keeps. *)
Definition on_msg {A} (p : mem A) (m : NID_msg) : outcome (A * NID_msg) :=
  '(x, o) ← p (msg_bytes m); Go (x, msg_of o).

(** A turn, checked: the node after it and what it sends, or how it ended. *)
Abbreviation checked := (option (outcome (node * list packet))).

Definition checked_ph_output (n : node) : checked :=
  let c := n_ch n in
  '(src, d) ← ph_select (c_nf2ph c) (c_rvs2ph c) (c_mo2ph c) (c_gwt2ph c);
  Some ('(out, buf) ← mem_ph_output src d (n_nidcore n) (sh_nm (n_sh n)) (l_ph_output (n_loc n));
        Go (n <| n_loc ::= (λ l, l <| l_ph_output := buf |>) |>
              <| n_ch := ph_pop src c <| c_ph2nr ::= opt_write out |> |>, [])).

Definition checked_ph_input (accepts : bool) (n : node) : checked :=
  match c_nr2ph (n_ch n) with
  | [] => None
  | d :: c =>
      Some ('(nm, r, buf) ← mem_ph_input accepts d (sh_nm (n_sh n)) (l_ph_input (n_loc n));
            let n := n <| n_loc ::= (λ l, l <| l_ph_input := buf |>) |>
                       <| n_sh ::= (λ s, s <| sh_nm := nm |>) |>
                       <| n_ch ::= (λ ch, ch <| c_nr2ph := c |>) |> in
            Go match r with
               | ToRaw proto pkt => (n, [RawIp proto pkt])
               | ToControl m => (n <| n_ch ::= (λ ch, ch <| c_ph2co ::= chan_write m |>) |>, [])
               | Dropped => (n, [])
               end)
  end.

Definition checked_nr_output (ck : cm_clock) (n : node) : checked :=
  match c_ph2nr (n_ch n) with
  | [] => None
  | d :: c =>
      Some ('(e, out, buf) ← mem_nr_output d ck (sh_cm (n_sh n)) (l_nr_output (n_loc n));
            Go (n <| n_loc ::= (λ l, l <| l_nr_output := buf |>) |>
                  <| n_sh ::= (λ s, s <| sh_cm := e |>) |>
                  <| n_ch ::= (λ ch, ch <| c_ph2nr := c |>) |>, out))
  end.

(** The source a gateway serves, and what is left on the channels. *)
Definition nr_source_of (ch : channels) : option (nr_source * list Z * channels) :=
  match c_ph2nr ch, c_nr ch with
  | d :: c, _ => Some (FromPh, d, ch <| c_ph2nr := c |>)
  | [], d :: c => Some (FromNr, d, ch <| c_nr := c |>)
  | [], [] => None
  end.

Definition checked_nr_output_gw (ck : cm_clock) (now : Z) (n : node) : checked :=
  '(src, d, ch) ← nr_source_of (n_ch n);
  Some ('(e, rt, out, buf) ←
          mem_nr_output_gw src d ck now (sh_cm (n_sh n)) (sh_rt (n_sh n)) (l_nr_output (n_loc n));
        Go (n <| n_loc ::= (λ l, l <| l_nr_output := buf |>) |>
              <| n_sh ::= (λ s, s <| sh_cm := e |> <| sh_rt := rt |>) |>
              <| n_ch := ch |>, out)).

Definition checked_nr_output_core (ck : cm_clock) (now : Z) (now1 now2 : timeval) (n : node)
    : checked :=
  '(src, d, ch) ← nr_source_of (n_ch n);
  Some ('(e, (rt, dht, out), buf) ←
          mem_nr_output_core src d ck now now1 now2 (sh_cm (n_sh n)) (sh_rt (n_sh n))
            (sh_registry (n_sh n)) (sh_dht (n_sh n)) (l_nr_output (n_loc n));
        Go (n <| n_loc ::= (λ l, l <| l_nr_output := buf |>) |>
              <| n_sh ::= (λ s, s <| sh_cm := e |> <| sh_rt := rt |> <| sh_dht := dht |>) |>
              <| n_ch := ch |>, out)).

Definition checked_nr_input (r : recv_result) (now : Z) (n : node) : checked :=
  let l := l_nr_input (n_loc n) in
  Some ('(addr, cm, local, _, buf) ←
          mem_nr_input (getNID (sh_conf (n_sh n))) r now (nri_addr l)
            (env_cm (sh_cm (n_sh n))) (nri_buf l);
        Go (n <| n_loc ::= (λ loc, loc <| l_nr_input := mkNri buf addr |>) |>
              <| n_sh ::= put_cm cm |>
              <| n_ch ::= (λ ch, ch <| c_nr2ph ::= opt_write local |>) |>, [])).

Definition checked_nr_input_gw (r : recv_result) (now : Z) (n : node) : checked :=
  let l := l_nr_input (n_loc n) in
  Some ('(addr, cm, local, transit, buf) ←
          mem_nr_input (getNID (sh_conf (n_sh n))) r now (nri_addr l)
            (env_cm (sh_cm (n_sh n))) (nri_buf l);
        Go (n <| n_loc ::= (λ loc, loc <| l_nr_input := mkNri buf addr |>) |>
              <| n_sh ::= put_cm cm |>
              <| n_ch ::= (λ ch, ch <| c_nr2ph ::= opt_write local |>
                                    <| c_nr ::= opt_write transit |>) |>, [])).

Definition checked_control (now : Z) (n : node) : checked :=
  match c_ph2co (n_ch n) with
  | [] => None
  | d :: c =>
      Some ('(e, m) ← on_msg (mem_control d now (sh_cm (n_sh n))) (l_control (n_loc n));
            Go (n <| n_loc ::= (λ l, l <| l_control := m |>) |>
                  <| n_sh ::= (λ s, s <| sh_cm := e |>) |>
                  <| n_ch ::= (λ ch, ch <| c_ph2co := c |>) |>, []))
  end.

Definition checked_control_rvs (now : Z) (n : node) : checked :=
  match c_ph2co (n_ch n) with
  | [] => None
  | d :: c =>
      Some ('(cm, w, m) ←
              on_msg (mem_control_rvs d now (env_cm (sh_cm (n_sh n)))) (l_control (n_loc n));
            Go (n <| n_loc ::= (λ l, l <| l_control := m |>) |>
                  <| n_sh ::= put_cm cm |>
                  <| n_ch ::= (λ ch, ch <| c_ph2co := c |> <| c_co2rvs ::= opt_write w |>) |>, []))
  end.

Definition checked_control_gw (now : Z) (n : node) : checked :=
  match c_ph2co (n_ch n) with
  | [] => None
  | d :: c =>
      Some ('(cm, w, m) ←
              on_msg (mem_control_gw d now (env_cm (sh_cm (n_sh n)))) (l_control (n_loc n));
            Go (n <| n_loc ::= (λ l, l <| l_control := m |>) |>
                  <| n_sh ::= put_cm cm |>
                  <| n_ch ::= (λ ch, ch <| c_ph2co := c |> <| c_co2gwl ::= opt_write w |>) |>, []))
  end.

Definition checked_control_gw_core (now : Z) (n : node) : checked :=
  match c_ph2co (n_ch n) with
  | [] => None
  | d :: c =>
      Some ('(cm, reg, w, m) ←
              on_msg (mem_control_gw_core d now (env_cm (sh_cm (n_sh n))) (sh_registry (n_sh n)))
                (l_control (n_loc n));
            Go (n <| n_loc ::= (λ l, l <| l_control := m |>) |>
                  <| n_sh ::= (λ s, put_cm cm s <| sh_registry := reg |>) |>
                  <| n_ch ::= (λ ch, ch <| c_ph2co := c |> <| c_co2gwl ::= opt_write w |>) |>, []))
  end.

Definition checked_gw_listener (now : Z) (n : node) : checked :=
  match c_co2gwl (n_ch n) with
  | [] => None
  | d :: c =>
      Some ('(rt, w, m) ← on_msg (mem_gw_listener d now (sh_rt (n_sh n))) (l_gw_listener (n_loc n));
            Go (n <| n_loc ::= (λ l, l <| l_gw_listener := m |>) |>
                  <| n_sh ::= (λ s, s <| sh_rt := rt |>) |>
                  <| n_ch ::= (λ ch, ch <| c_co2gwl := c |> <| c_gwl2gwt ::= opt_write w |>) |>,
                []))
  end.

Definition checked_gw_core_listener (locator : NID32) (now : Z) (n : node) : checked :=
  match c_co2gwl (n_ch n) with
  | [] => None
  | d :: c =>
      Some ('(rt, reg, w, m) ←
              on_msg (mem_gw_core_listener (getNID (sh_conf (n_sh n))) locator d now
                        (sh_rt (n_sh n)) (sh_registry (n_sh n))) (l_gw_listener (n_loc n));
            Go (n <| n_loc ::= (λ l, l <| l_gw_listener := m |>) |>
                  <| n_sh ::= (λ s, s <| sh_rt := rt |> <| sh_registry := reg |>) |>
                  <| n_ch ::= (λ ch, ch <| c_co2gwl := c |> <| c_gwt2ph ::= opt_write w |>) |>, []))
  end.

Definition checked_gw_talker (locator : NID32) (n : node) : checked :=
  '(d, ch) ← talker_select (n_ch n);
  Some ('(w, m) ← on_msg (mem_gw_talker (sh_conf (n_sh n)) locator d) (l_gw_talker (n_loc n));
        Go (n <| n_loc ::= (λ l, l <| l_gw_talker := m |>) |>
              <| n_ch := ch <| c_gwt2ph ::= opt_write w |> |>, [])).

Definition checked_rvs_update (locator : NID32) (n : node) : checked :=
  Some ('(w, m) ← on_msg (mem_rvs_update (sh_conf (n_sh n)) locator) (l_rvs_update (n_loc n));
        Go (n <| n_loc ::= (λ l, l <| l_rvs_update := m |>) |>
              <| n_ch ::= (λ ch, ch <| c_rvs2ph ::= opt_write w |>) |>, [])).

Definition checked_rvs_get (n : node) : checked :=
  match sp_cm2rvs (sh_cm (n_sh n)) with
  | [] => None
  | d :: c =>
      let n := n <| n_sh ::= (λ s, s <| sh_cm ::= (λ e, e <| sp_cm2rvs := c |>) |>) |> in
      Some ('(w, m) ← on_msg (mem_rvs_get (sh_conf (n_sh n)) d) (l_rvs_get (n_loc n));
            Go (n <| n_loc ::= (λ l, l <| l_rvs_get := m |>) |>
                  <| n_ch ::= (λ ch, ch <| c_rvs2ph ::= opt_write w |>) |>, []))
  end.

Definition checked_rvs_proxy_send (sent_ok : bool) (n : node) : checked :=
  match c_co2rvs (n_ch n) with
  | [] => None
  | d :: c =>
      Some ('(out, m) ← on_msg (mem_rvs_proxy_send d sent_ok) (l_proxy_send (n_loc n));
            Go (n <| n_ch ::= (λ ch, ch <| c_co2rvs := c |>) |>
                  <| n_loc ::= (λ l, l <| l_proxy_send := m |>) |>, [RvsRequest out]))
  end.

Definition checked_rvs_proxy_recv (d : option (list Z)) (n : node) : checked :=
  Some ('(out, ack, m) ← on_msg (mem_rvs_proxy_recv d) (l_proxy_recv (n_loc n));
        Go (n <| n_loc ::= (λ l, l <| l_proxy_recv := m |>) |>
              <| n_ch ::= (λ ch, ch <| c_rvs2ph ::= chan_write out |>
                                    <| c_rvs2gwt ::= opt_write ack |>) |>, [])).

Definition checked_rvs2gw (n : node) : checked :=
  match c_rvs2gwt (n_ch n) with
  | [] => None
  | d :: c =>
      Some ('(w, m) ← on_msg (mem_rvs2gw (sh_conf (n_sh n)) d) (l_rvs2gw (n_loc n));
            Go (n <| n_loc ::= (λ l, l <| l_rvs2gw := m |>) |>
                  <| n_ch ::= (λ ch, ch <| c_rvs2gwt := c |> <| c_gwt2ph ::= opt_write w |>) |>,
                []))
  end.

(** The turn of a thread of the packet path. *)
Definition checked_turn (ev : event) (n : node) : checked :=
  match ev with
  | EvPhOutput => checked_ph_output n
  | EvPhInput a => checked_ph_input a n
  | EvNrOutput ck => checked_nr_output ck n
  | EvNrOutputGw ck now => checked_nr_output_gw ck now n
  | EvNrOutputCore ck now now1 now2 => checked_nr_output_core ck now now1 now2 n
  | EvNrInput r now => checked_nr_input r now n
  | EvNrInputGw r now => checked_nr_input_gw r now n
  | EvControl now => checked_control now n
  | EvControlRvs now => checked_control_rvs now n
  | EvControlGw now => checked_control_gw now n
  | EvControlGwCore now => checked_control_gw_core now n
  | EvGwListener now => checked_gw_listener now n
  | EvGwCoreListener locator now => checked_gw_core_listener locator now n
  | EvGwTalker locator => checked_gw_talker locator n
  | EvRvsUpdate locator => checked_rvs_update locator n
  | EvRvsGet => checked_rvs_get n
  | EvRvsProxySend b => checked_rvs_proxy_send b n
  | EvRvsProxyRecv d => checked_rvs_proxy_recv d n
  | EvRvs2gw => checked_rvs2gw n
  | _ => None
  end.
