(* ===== verification/UdpIp.v ===== *)
(** The UDP/IP packets of the DHCP client,
    src/src/dhcpcd-1.3.22-pl4/udpipgen.c: the Internet checksum, the headers in
    front of a message, and the test of a packet received.  Memory is the list
    of bytes of an object; [None] is an access outside it. *)

From S2P Require Import Prelude NidTypes PacketHandler.

Local Open Scope Z_scope.

(** ** [in_cksum] *)

(** Conversion to [unsigned short], and [~] of an [int] converted to it. *)
Definition u16_wrap (z : Z) : Z := z `mod` 2 ^ 16.

(** The loop: [w] is what is in memory from [addr] on, [nleft] the bytes left,
    and [sum] an [int]. *)
Fixpoint cksum_loop (w : list Z) (nleft : nat) (sum : Z) : option Z :=
  match nleft with
  | O => Some sum
  | 1%nat => match w with a :: _ => Some (sum + a) | [] => None end
  | S (S nleft) =>
      match w with
      | a :: b :: w => cksum_loop w nleft (sum + le_val [a; b])
      | _ => None
      end
  end.

(** The two carries and the complement. *)
Definition cksum_fold (sum : Z) : Z :=
  let sum := Z.shiftr sum 16 + Z.land sum 65535 in
  let sum := sum + Z.shiftr sum 16 in
  u16_wrap (Z.lnot sum).

Definition in_cksum (addr : list Z) (len : Z) : option Z :=
  cksum_fold <$> cksum_loop addr (Z.to_nat len) 0.

(** ** [udpipgen] *)

Definition ip_len : nat := 20.           (* sizeof (struct ip) *)
Definition udpip_len : nat := 28.        (* sizeof (udpiphdr) *)
Definition IPVERSION : Z := 4.
Definition IPDEFTTL : Z := 64.

(** The 28 bytes as [struct ipovly] and [struct udphdr] see them, with
    [uh_sum] zero.  Ports are in network order, as [saddr] and [daddr]. *)
Definition pseudo_header (saddr daddr sport dport msglen : Z) : list Z :=
  let ih_len := swap16 (u16_wrap (msglen + 8)) in
  replicate 8 0                                     (* ih_next, ih_prev *)
    ++ [0; IPPROTO_UDP] ++ le_bytes 2 ih_len        (* ih_x1, ih_pr, ih_len *)
    ++ le_bytes 4 saddr ++ le_bytes 4 daddr
    ++ le_bytes 2 sport ++ le_bytes 2 dport ++ le_bytes 2 ih_len ++ [0; 0].

(** [ip_local] with [ip_sum] zero. *)
Definition ip_header (saddr daddr msglen ip_id : Z) : list Z :=
  [Z.lor (Z.shiftl IPVERSION 4) 5; 0]               (* ip_v, ip_hl, ip_tos *)
    ++ le_bytes 2 (swap16 (u16_wrap (msglen + Z.of_nat udpip_len)))
    ++ le_bytes 2 (swap16 ip_id) ++ [0; 0]          (* ip_id, ip_off *)
    ++ [IPDEFTTL; IPPROTO_UDP; 0; 0]                (* ip_ttl, ip_p, ip_sum *)
    ++ le_bytes 4 saddr ++ le_bytes 4 daddr.

(** [udpip] is the memory from the headers on; the result is that memory and
    the next [ip_id]. *)
Definition udpipgen (udpip : list Z) (saddr daddr sport dport msglen ip_id : Z)
    : option (list Z * Z) :=
  if (length udpip <? udpip_len)%nat then None else
  let udpip := overlay (pseudo_header saddr daddr sport dport msglen) udpip in
  uh_sum ← in_cksum udpip (msglen + Z.of_nat udpip_len);
  let uh_sum := if uh_sum =? 0 then 65535 else uh_sum in
  let udpip := splice 26 (le_bytes 2 uh_sum) udpip in
  let ip := ip_header saddr daddr msglen ip_id in
  ip_sum ← in_cksum ip (Z.of_nat ip_len);
  Some (overlay (splice 10 (le_bytes 2 ip_sum) ip) udpip, u16_wrap (ip_id + 1)).

(** ** [udpipchk] *)

(** Memory is an object and the packet starts at [off] in it: with IP options
    the headers are looked for behind them, with a header length below 20
    before the packet.  The result is the object and the returned [int]. *)
Definition udpipchk (obj : list Z) (off : nat) : option (list Z * Z) :=
  ip0 ← obj !! off;
  let hl := 4 * Z.land ip0 15 in
  c ← in_cksum (drop off obj) hl;
  if negb (c =? 0) then Some (obj, -1) else
  if (length obj <? off + ip_len)%nat then None else
  let save_ip := slice off ip_len obj in
  let n := Z.of_nat off + (hl - Z.of_nat ip_len) in
  if (n <? 0) || (Z.of_nat (length obj) <? n + Z.of_nat udpip_len) then None else
  let n := Z.to_nat n in
  let obj := splice n save_ip obj in
  let uh_sum := slice (n + 26) 2 obj in
  if le_val uh_sum =? 0 then Some (obj, 0) else
  let uh_ulen := slice (n + 24) 2 obj in
  let obj := splice n (replicate 9 0) obj in       (* ih_next, ih_prev, ih_x1 *)
  let obj := splice (n + 10) uh_ulen obj in        (* ih_len *)
  let hl := swap16 (le_val uh_ulen) + Z.of_nat ip_len in
  c ← in_cksum (drop n obj) hl;
  if negb (c =? 0) then Some (obj, -2) else
  Some (splice off save_ip obj, 0).

(** ** Sums of words *)

(** The sum of the 16-bit words in memory order, a last odd byte alone. *)
Fixpoint wsum (bs : list Z) : Z :=
  match bs with
  | a :: b :: bs => le_val [a; b] + wsum bs
  | [a] => a
  | [] => 0
  end.

(** Induction on a list of bytes two by two. *)
Lemma pairs_ind (P : list Z → Prop) :
  P [] → (∀ a, P [a]) → (∀ a b bs, P bs → P (a :: b :: bs)) → ∀ bs, P bs.
Proof.
  intros H0 H1 H2. assert (H : ∀ bs, P bs ∧ ∀ a, P (a :: bs)); [|intros bs; apply H].
  induction bs as [|x bs [IH1 IH2]]; split; auto.
Qed.

Lemma wsum_bounds bs : bytes_ok bs → 0 ≤ wsum bs ≤ 65535 * Z.of_nat (Nat.div2 (S (length bs))).
Proof.
  induction bs as [|a|a b bs IH] using pairs_ind; intros H; cbn [wsum le_val]; [simpl; lia|..].
  - apply Forall_cons in H as [Ha _]. unfold byte_ok in Ha. simpl. lia.
  - apply Forall_cons in H as [Ha H]. apply Forall_cons in H as [Hb H].
    specialize (IH H). unfold byte_ok in *.
    change (Nat.div2 (S (length (a :: b :: bs)))) with (S (Nat.div2 (S (length bs)))). lia.
Qed.

Lemma wsum_app bs bs' : Nat.even (length bs) = true → wsum (bs ++ bs') = wsum bs + wsum bs'.
Proof.
  induction bs as [|a|a b bs IH] using pairs_ind; intros H; [done|done|].
  cbn [app wsum]. rewrite IH by done. lia.
Qed.

Lemma cksum_loop_sum w n sum :
  (n ≤ length w)%nat → cksum_loop w n sum = Some (sum + wsum (take n w)).
Proof.
  revert n sum. induction w as [|a|a b w IH] using pairs_ind; intros n sum H; cbn [length] in H.
  - by replace n with O by lia; simpl; rewrite Z.add_0_r.
  - destruct n as [|[|n]]; simpl; [by rewrite Z.add_0_r|done|lia].
  - destruct n as [|[|n]]; [by simpl; rewrite Z.add_0_r|done|].
    change (cksum_loop (a :: b :: w) (S (S n)) sum) with (cksum_loop w n (sum + le_val [a; b])).
    rewrite IH by lia. cbn [take wsum]. f_equal. lia.
Qed.

Lemma in_cksum_sum addr len :
  0 ≤ len ≤ Z.of_nat (length addr) →
  in_cksum addr len = Some (cksum_fold (wsum (take (Z.to_nat len) addr))).
Proof. intros. unfold in_cksum. rewrite cksum_loop_sum by lia. done. Qed.

Lemma in_cksum_all addr n :
  length addr = n → in_cksum addr (Z.of_nat n) = Some (cksum_fold (wsum addr)).
Proof. intros <-. rewrite in_cksum_sum by lia. by rewrite Nat2Z.id, firstn_all. Qed.

(** The accumulator is an [int] and does not overflow on a packet. *)
Lemma wsum_int bs : bytes_ok bs → Z.of_nat (length bs) ≤ 65535 → 0 ≤ wsum bs < 2 ^ 31.
Proof.
  intros H L. pose proof (wsum_bounds bs H).
  rewrite Nat.div2_div, Nat2Z.inj_div in H0. Z.to_euclidean_division_equations; lia.
Qed.

(** The fold is the complement of the sum modulo 65535. *)
Lemma cksum_fold_spec s :
  0 ≤ s < 2 ^ 31 →
  let r := 65535 - cksum_fold s in
  0 ≤ r ≤ 65535 ∧ (∃ k, s = 65535 * k + r) ∧ (r = 0 ↔ s = 0).
Proof.
  intros Hs. unfold cksum_fold, u16_wrap.
  rewrite !Z.shiftr_div_pow2 by lia. change 65535 with (Z.ones 16). rewrite Z.land_ones by lia.
  change (Z.ones 16) with 65535. cbv zeta.
  set (q := s `div` 2 ^ 16). set (m := s `mod` 2 ^ 16).
  pose proof (Z.div_mod s (2 ^ 16)) as E. fold q m in E.
  pose proof (Z.mod_pos_bound s (2 ^ 16)) as B. fold m in B.
  assert (0 ≤ q < 2 ^ 15) by (subst q; Z.to_euclidean_division_equations; lia).
  assert (Hl : ∀ x, 0 ≤ x < 2 ^ 16 → Z.lnot x `mod` 2 ^ 16 = 65535 - x).
  { intros x Hx. replace (Z.lnot x) with (65535 - x + (-1) * 2 ^ 16) by (unfold Z.lnot; lia).
    rewrite Z.mod_add, Z.mod_small by lia. done. }
  destruct (Z.lt_ge_cases (q + m) (2 ^ 16)) as [C|C].
  - rewrite (Z.div_small (q + m)), Z.add_0_r, Hl by lia.
    split; [lia|]. split; [exists q; lia|lia].
  - assert (D : (q + m) `div` 2 ^ 16 = 1) by (Z.to_euclidean_division_equations; lia).
    rewrite D.
    replace (Z.lnot (q + m + 1)) with (65535 - (q + m + 1 - 2 ^ 16) + (-2) * 2 ^ 16)
      by (unfold Z.lnot; lia).
    rewrite Z.mod_add, Z.mod_small by lia.
    split; [lia|]. split; [exists (q + 1); lia|lia].
Qed.

(** A sum completed with its checksum, as it is sent, is found correct. *)
Definition sent_sum (c : Z) : Z := if c =? 0 then 65535 else c.

Lemma cksum_fold_bounds s : 0 ≤ s < 2 ^ 31 → 0 ≤ cksum_fold s ≤ 65535.
Proof. intros Hs. destruct (cksum_fold_spec s Hs) as [? _]. lia. Qed.

Lemma cksum_verify s c :
  0 ≤ s → s + 65535 < 2 ^ 31 → c = cksum_fold s ∨ c = sent_sum (cksum_fold s) →
  cksum_fold (s + c) = 0.
Proof.
  intros H0 H1 Hc. destruct (cksum_fold_spec s) as (B & [k K] & Z0); [lia|].
  assert (Hd : ∃ j, s + c = 65535 * j ∧ 0 < s + c ∧ c ≤ 65535).
  { unfold sent_sum in Hc. destruct (cksum_fold s =? 0) eqn:E; zbool.
    - destruct Hc as [->| ->]; [exists (k + 1); lia|exists (k + 2); lia].
    - exists (k + 1). destruct Hc as [->| ->]; lia. }
  destruct Hd as (j & J & P & C). destruct (cksum_fold_spec (s + c)) as (B' & [k' K'] & Z'); [lia|].
  nia.
Qed.

(** ** The packet [udpipgen] leaves *)

Definition udp_header (sport dport msglen sum : Z) : list Z :=
  le_bytes 2 sport ++ le_bytes 2 dport ++ le_bytes 2 (swap16 (u16_wrap (msglen + 8)))
    ++ le_bytes 2 sum.

Lemma length_pseudo_header a b c d e : length (pseudo_header a b c d e) = udpip_len.
Proof. done. Qed.

Lemma length_ip_header a b c d : length (ip_header a b c d) = ip_len.
Proof. done. Qed.

Lemma pseudo_header_ok a b c d e : bytes_ok (pseudo_header a b c d e).
Proof.
  unfold pseudo_header. rewrite !bytes_ok_app.
  split_and!; auto with nid; repeat constructor; unfold byte_ok, IPPROTO_UDP; lia.
Qed.

Lemma ip_header_ok a b c d : bytes_ok (ip_header a b c d).
Proof.
  unfold ip_header. rewrite !bytes_ok_app.
  split_and!; auto with nid; by apply (bool_decide_unpack _); vm_compute.
Qed.

(** The checksum written into the pseudo header, and the IP header over it. *)
Lemma headers_shape saddr daddr sport dport msglen x sum m :
  length x = ip_len →
  overlay x (splice 26 (le_bytes 2 sum) (pseudo_header saddr daddr sport dport msglen ++ m))
  = x ++ udp_header sport dport msglen sum ++ m.
Proof.
  intros Hx. unfold overlay. rewrite Hx. unfold pseudo_header, udp_header. cbv zeta.
  generalize (swap16 (u16_wrap (msglen + 8))). intros u. cbn. reflexivity.
Qed.

(** The pseudo header [udpipchk] makes of the packet again. *)
Lemma back_to_pseudo saddr daddr sport dport msglen ip_id c sum m :
  splice 10 (le_bytes 2 (swap16 (u16_wrap (msglen + 8)))) (splice 0 (replicate 9 0)
    (splice 10 (le_bytes 2 c) (ip_header saddr daddr msglen ip_id)
       ++ udp_header sport dport msglen sum ++ m))
  = splice 26 (le_bytes 2 sum) (pseudo_header saddr daddr sport dport msglen) ++ m.
Proof.
  unfold ip_header, pseudo_header, udp_header. cbv zeta.
  generalize (swap16 (u16_wrap (msglen + 8))), (swap16 (u16_wrap (msglen + Z.of_nat udpip_len))).
  intros u v. cbn. reflexivity.
Qed.

(** The IP header put back over what the test of the UDP checksum changed. *)
Lemma restore_ip x u m :
  length x = ip_len →
  splice 0 x (splice 10 (le_bytes 2 u) (splice 0 (replicate 9 0) (x ++ m))) = x ++ m.
Proof.
  intros Hx. assert (H : ∀ y, length y = ip_len → splice 0 x (y ++ m) = x ++ m).
  { intros y Hy. unfold splice. cbn [app take]. rewrite Nat.add_0_l, Hx, <-Hy.
    by rewrite drop_app_length. }
  transitivity (splice 0 x (splice 10 (le_bytes 2 u) (splice 0 (replicate 9 0) x) ++ m)).
  - f_equal. do 20 (destruct x as [|? x]; [done|]). done.
  - apply H. rewrite !length_splice; rewrite ?length_splice; rewrite Hx; simpl; unfold ip_len; lia.
Qed.

(** The words of a checksum that is filled in where it was zero. *)
Lemma wsum_splice k c x :
  Nat.even k = true → (k + 2 ≤ length x)%nat → slice k 2 x = [0; 0] → 0 ≤ c ≤ 65535 →
  wsum (splice k (le_bytes 2 c) x) = wsum x + c.
Proof.
  intros He Hk Hs Hc. unfold splice. rewrite length_le_bytes.
  assert (Hx : x = take k x ++ [0; 0] ++ drop (k + 2) x).
  { rewrite <-Hs. unfold slice. rewrite <-drop_drop, take_drop, take_drop. done. }
  assert (El : Nat.even (length (take k x)) = true) by (by rewrite length_take_le by lia).
  rewrite Hx at 3. rewrite !wsum_app by done.
  cbn [le_bytes app wsum le_val].
  rewrite (Z.mod_small (c `div` 256)) by (Z.to_euclidean_division_equations; lia).
  pose proof (Z.div_mod c 256). lia.
Qed.

(** A packet without IP options whose header is correct. *)
Lemma udpipchk_plain before x b :
  x !! O = Some b → Z.land b 15 = 5 → (udpip_len ≤ length x)%nat →
  cksum_fold (wsum (take ip_len x)) = 0 →
  udpipchk (before ++ x) (length before)
  = let l := slice 24 2 x in
    let y := splice 10 l (splice 0 (replicate 9 0) x) in
    if le_val (slice 26 2 x) =? 0 then Some (before ++ x, 0) else
    c ← in_cksum y (swap16 (le_val l) + Z.of_nat ip_len);
    Some (if negb (c =? 0) then (before ++ y, -2) else (before ++ splice 0 (take ip_len x) y, 0)).
Proof.
  intros Hb H5 Lx Hc. unfold udpipchk.
  replace ((before ++ x) !! length before) with (Some b)
    by (rewrite lookup_app_r, Nat.sub_diag by done; done).
  rewrite bind_ret, H5. change (4 * 5) with (Z.of_nat ip_len).
  rewrite drop_app_length, (in_cksum_sum x) by (unfold ip_len, udpip_len in *; lia).
  rewrite Nat2Z.id, bind_ret, Hc. cbn [negb Z.eqb].
  rewrite length_app, (proj2 (Nat.ltb_ge _ _)) by (unfold ip_len, udpip_len in *; lia).
  rewrite Z.sub_diag, Z.add_0_r, (proj2 (Z.ltb_ge _ 0)) by lia.
  rewrite (proj2 (Z.ltb_ge _ _)) by lia. cbn [orb]. rewrite Nat2Z.id.
  assert (E0 : slice (length before) ip_len (before ++ x) = take ip_len x).
  { rewrite <-(Nat.add_0_r (length before)), slice_app_r. unfold slice. by rewrite drop_0. }
  assert (E1 : ∀ d y, splice (length before) d (before ++ y) = before ++ splice 0 d y).
  { intros d y. by rewrite <-(Nat.add_0_r (length before)) at 1; rewrite splice_app_r. }
  rewrite E0, E1. assert (E2 : splice 0 (take ip_len x) x = x).
  { apply (splice_same 0 ip_len x). unfold ip_len, udpip_len in *. lia. }
  rewrite E2, !slice_app_r, E1, splice_app_r, E1, drop_app_length. cbv zeta.
  case_match; [done|]. destruct (in_cksum _ _); [|done]. cbn. by destruct (negb _).
Qed.

Section Gen.
Context (saddr daddr sport dport ip_id : Z) (msg : list Z).
Context (Hmsg : bytes_ok msg) (Hlen : Z.of_nat (length msg) + 28 ≤ 65535).

Let msglen := Z.of_nat (length msg).
Let pseudo := pseudo_header saddr daddr sport dport msglen.
Let ip := ip_header saddr daddr msglen ip_id.

Definition gen_udp_sum : Z := sent_sum (cksum_fold (wsum (pseudo ++ msg))).
Definition gen_ip : list Z := splice 10 (le_bytes 2 (cksum_fold (wsum ip))) ip.
Definition gen_udp : list Z := udp_header sport dport msglen gen_udp_sum.

Lemma length_gen_ip : length gen_ip = ip_len.
Proof. unfold gen_ip. rewrite length_splice; [apply length_ip_header|]. simpl. lia. Qed.

Lemma pseudo_sum : 0 ≤ wsum (pseudo ++ msg) ∧ wsum (pseudo ++ msg) + 65535 < 2 ^ 31.
Proof.
  change (wsum (pseudo ++ msg)) with (wsum (replicate 8 0 ++ drop 8 pseudo ++ msg)).
  rewrite wsum_app by done. change (wsum (replicate 8 0)) with 0.
  assert (Hb : bytes_ok (drop 8 pseudo ++ msg))
    by (apply bytes_ok_app; split; [apply bytes_ok_drop, pseudo_header_ok|done]).
  pose proof (wsum_bounds _ Hb) as H. rewrite Nat.div2_div, Nat2Z.inj_div in H.
  rewrite length_app in H. change (length (drop 8 pseudo)) with 20%nat in H.
  Z.to_euclidean_division_equations; lia.
Qed.

Lemma udpipgen_eq hdr rest :
  length hdr = udpip_len →
  udpipgen (hdr ++ msg ++ rest) saddr daddr sport dport msglen ip_id
  = Some (gen_ip ++ gen_udp ++ msg ++ rest, u16_wrap (ip_id + 1)).
Proof.
  intros Hh. unfold udpipgen.
  rewrite (proj2 (Nat.ltb_ge _ _)) by (rewrite !length_app; lia). fold pseudo.
  assert (Ho : overlay pseudo (hdr ++ msg ++ rest) = pseudo ++ msg ++ rest).
  { unfold overlay. by rewrite drop_app_length' by done. }
  rewrite Ho. rewrite (in_cksum_sum (pseudo ++ msg ++ rest))
    by (rewrite !length_app; change (length pseudo) with 28%nat; unfold udpip_len; lia).
  replace (take (Z.to_nat (msglen + Z.of_nat udpip_len)) (pseudo ++ msg ++ rest))
    with (pseudo ++ msg).
  2:{ rewrite (app_assoc pseudo), take_app_length'; [done|].
      rewrite length_app. change (length pseudo) with 28%nat. unfold udpip_len. lia. }
  rewrite bind_ret. fold ip. rewrite (in_cksum_all ip) by apply length_ip_header.
  rewrite bind_ret. fold (sent_sum (cksum_fold (wsum (pseudo ++ msg)))). fold gen_udp_sum gen_ip.
  unfold pseudo. by rewrite headers_shape by apply length_gen_ip.
Qed.

Lemma gen_ip_sum : cksum_fold (wsum gen_ip) = 0.
Proof.
  assert (Hb : 0 ≤ wsum ip ∧ wsum ip + 65535 < 2 ^ 31).
  { pose proof (wsum_bounds ip (ip_header_ok _ _ _ _)) as H.
    change (length ip) with 20%nat in H. simpl Nat.div2 in H. lia. }
  pose proof (cksum_fold_bounds (wsum ip)) as Hc.
  unfold gen_ip. rewrite wsum_splice; [|done|simpl; lia|done|lia].
  apply cksum_verify; [lia..|by left].
Qed.

Lemma gen_udp_sum_bounds : 0 < gen_udp_sum ≤ 65535.
Proof.
  pose proof pseudo_sum. pose proof (cksum_fold_bounds (wsum (pseudo ++ msg))).
  unfold gen_udp_sum, sent_sum. case_match; zbool; lia.
Qed.

Lemma gen_pseudo_sum :
  cksum_fold (wsum (splice 26 (le_bytes 2 gen_udp_sum) pseudo ++ msg)) = 0.
Proof.
  pose proof gen_udp_sum_bounds. destruct pseudo_sum as [H0 H1].
  rewrite wsum_app by done. rewrite wsum_splice; [|done|simpl; lia|done|lia].
  rewrite <-Z.add_assoc, (Z.add_comm gen_udp_sum), Z.add_assoc, <-wsum_app by done.
  apply cksum_verify; [done..|by right].
Qed.

Lemma gen_ulen_val :
  swap16 (le_val (le_bytes 2 (swap16 (u16_wrap (msglen + 8))))) = msglen + 8.
Proof.
  assert (Hm : 0 ≤ msglen + 8 < 2 ^ 16) by lia.
  unfold u16_wrap. rewrite Z.mod_small by done. unfold swap16 at 1.
  assert (H : le_bytes 2 (le_val (le_bytes 2 (swap16 (msglen + 8)))) = be_bytes 2 (msglen + 8)).
  { rewrite <-le_bytes_swap16. apply (le_bytes_val (le_bytes 2 _)), le_bytes_ok. }
  rewrite H, be_val_bytes. by apply Z.mod_small.
Qed.

Lemma udpipchk_gen before rest :
  let obj := before ++ gen_ip ++ gen_udp ++ msg ++ rest in
  udpipchk obj (length before) = Some (obj, 0).
Proof.
  cbv zeta. pose proof gen_udp_sum_bounds as Hs. pose proof length_gen_ip as Li.
  rewrite (udpipchk_plain _ _ 69);
    [|done|done|rewrite !length_app, Li; simpl; unfold udpip_len, ip_len; lia
     |rewrite take_app_length' by done; apply gen_ip_sum].
  assert (El : slice 24 2 (gen_ip ++ gen_udp ++ msg ++ rest)
               = le_bytes 2 (swap16 (u16_wrap (msglen + 8)))) by done.
  assert (Es : slice 26 2 (gen_ip ++ gen_udp ++ msg ++ rest) = le_bytes 2 gen_udp_sum) by done.
  cbv zeta. rewrite El, Es, gen_ulen_val, le_val_bytes, Z.mod_small by lia.
  rewrite (proj2 (Z.eqb_neq _ _)) by lia.
  pose proof (back_to_pseudo saddr daddr sport dport msglen ip_id (cksum_fold (wsum ip))
    gen_udp_sum (msg ++ rest)) as Hp.
  fold ip gen_ip in Hp. fold gen_udp in Hp. fold pseudo in Hp.
  assert (Lp : length (splice 26 (le_bytes 2 gen_udp_sum) pseudo) = udpip_len) by done.
  pose proof gen_pseudo_sum as Gp. revert Hp Lp Gp.
  generalize (splice 26 (le_bytes 2 gen_udp_sum) pseudo). intros p Hp Lp Gp. rewrite Hp.
  rewrite (in_cksum_sum (p ++ msg ++ rest)) by (rewrite !length_app, Lp; unfold ip_len, udpip_len; lia).
  assert (Et : take (Z.to_nat (msglen + 8 + Z.of_nat ip_len)) (p ++ msg ++ rest) = p ++ msg).
  { rewrite (app_assoc p). apply take_app_length'. rewrite length_app, Lp.
    unfold ip_len, udpip_len. lia. }
  rewrite bind_ret, Et, Gp. cbn [negb Z.eqb]. do 3 f_equal.
  rewrite take_app_length' by done. rewrite <-Hp. by apply restore_ip.
Qed.
End Gen.
