(* ===== verification/DhcpMsg.v ===== *)
(** The data of the DHCP client, src/src/dhcpcd-1.3.22-pl4/client.h: messages
    and their layout in a frame, the options received, the interface, and the
    variables the command line sets (dhcpcd.c). *)

From S2P Require Import Prelude NidTypes UdpIp.

Local Open Scope Z_scope.

(** ** Constants *)

Definition ETH_ALEN : nat := 6.
Definition IPPACKET_SIZE : nat := 1500.
Definition MAGIC_COOKIE : Z := 0x63825363.
Definition BROADCAST_FLAG : Z := 0x8000.
Definition MAC_BCAST_ADDR : list Z := replicate 6 255.
Definition CLASS_ID_MAX_LEN : nat := 48.
Definition CLIENT_ID_MAX_LEN : nat := 48.
Definition HOSTNAME_MAX_LEN : nat := 64.
Definition DHCP_SERVER_PORT : Z := 67.
Definition DHCP_CLIENT_PORT : Z := 68.
Definition DHCP_BOOTREQUEST : Z := 1.
Definition DHCP_BOOTREPLY : Z := 2.
Definition DHCP_INITIAL_RTO : Z := 4 * 1000000.
Definition DHCP_MAX_RTO : Z := 64 * 1000000.
Definition ETHERTYPE_IP : Z := 0x0800.
Definition ETHERTYPE_ARP : Z := 0x0806.
Definition ARPHRD_ETHER : Z := 1.
Definition ARPHRD_IEEE802_TR : Z := 800.
Definition INADDR_BROADCAST : Z := 0xffffffff.

(** [DHCP_DISCOVER] to [DHCP_INFORM]. *)
Inductive dhcp_type :=
  | DISCOVER | OFFER | REQUEST | DECLINE | ACK | NAK | RELEASE | INFORM.

#[export] Instance dhcp_type_eq_dec : EqDecision dhcp_type.
Proof. solve_decision. Defined.

Definition dhcp_type_val (t : dhcp_type) : Z :=
  match t with
  | DISCOVER => 1 | OFFER => 2 | REQUEST => 3 | DECLINE => 4
  | ACK => 5 | NAK => 6 | RELEASE => 7 | INFORM => 8
  end.

(** The option codes the program names. *)
Definition padOption : Z := 0.
Definition subnetMask : Z := 1.
Definition routersOnSubnet : Z := 3.
Definition dns : Z := 6.
Definition hostName : Z := 12.
Definition domainName : Z := 15.
Definition rootPath : Z := 17.
Definition defaultIPTTL : Z := 23.
Definition broadcastAddr : Z := 28.
Definition performMaskDiscovery : Z := 29.
Definition performRouterDiscovery : Z := 31.
Definition staticRoute : Z := 33.
Definition nisDomainName : Z := 40.
Definition nisServers : Z := 41.
Definition ntpServers : Z := 42.
Definition dhcpRequestedIPaddr : Z := 50.
Definition dhcpIPaddrLeaseTime : Z := 51.
Definition dhcpMessageType : Z := 53.
Definition dhcpServerIdentifier : Z := 54.
Definition dhcpParamRequest : Z := 55.
Definition dhcpMsg : Z := 56.
Definition dhcpMaxMsgSize : Z := 57.
Definition dhcpT1value : Z := 58.
Definition dhcpT2value : Z := 59.
Definition dhcpClassIdentifier : Z := 60.
Definition dhcpClientIdentifier : Z := 61.
Definition endOption : Z := 255.

(** ** Messages *)

Record dhcpMessage := mkDM {
  dm_op : Z; dm_htype : Z; dm_hlen : Z; dm_hops : Z;
  dm_xid : Z; dm_secs : Z; dm_flags : Z;
  dm_ciaddr : Z; dm_yiaddr : Z; dm_siaddr : Z; dm_giaddr : Z;
  dm_chaddr : list Z; dm_sname : list Z; dm_file : list Z; dm_options : list Z;
}.

#[export] Instance eta_dhcpMessage : Eta dhcpMessage := λ m,
  mkDM (dm_op m) (dm_htype m) (dm_hlen m) (dm_hops m) (dm_xid m) (dm_secs m) (dm_flags m)
    (dm_ciaddr m) (dm_yiaddr m) (dm_siaddr m) (dm_giaddr m) (dm_chaddr m) (dm_sname m)
    (dm_file m) (dm_options m).

Definition dhcp_len : nat := 548.
Definition options_off : nat := 236.
Definition options_len : nat := 312.

Definition dhcp_bytes (m : dhcpMessage) : list Z :=
  [dm_op m; dm_htype m; dm_hlen m; dm_hops m]
    ++ le_bytes 4 (dm_xid m) ++ le_bytes 2 (dm_secs m) ++ le_bytes 2 (dm_flags m)
    ++ le_bytes 4 (dm_ciaddr m) ++ le_bytes 4 (dm_yiaddr m) ++ le_bytes 4 (dm_siaddr m)
    ++ le_bytes 4 (dm_giaddr m)
    ++ dm_chaddr m ++ dm_sname m ++ dm_file m ++ dm_options m.

Definition byte_at (off : nat) (buf : list Z) : Z := default 0 (buf !! off).

Definition dhcp_of (buf : list Z) : dhcpMessage :=
  mkDM (byte_at 0 buf) (byte_at 1 buf) (byte_at 2 buf) (byte_at 3 buf)
    (le_val (slice 4 4 buf)) (le_val (slice 8 2 buf)) (le_val (slice 10 2 buf))
    (le_val (slice 12 4 buf)) (le_val (slice 16 4 buf)) (le_val (slice 20 4 buf))
    (le_val (slice 24 4 buf))
    (slice 28 16 buf) (slice 44 64 buf) (slice 108 128 buf) (slice 236 312 buf).

(** A message in a zeroed object. *)
Definition dhcp_zero : dhcpMessage :=
  mkDM 0 0 0 0 0 0 0 0 0 0 0 (replicate 16 0) (replicate 64 0) (replicate 128 0)
    (replicate 312 0).

(** ** Frames

    [udpipMessage]: Ethernet header, IP packet, and room for the headers of a
    token ring frame. *)

Definition eth_len : nat := 14.
Definition frame_len : nat := eth_len + IPPACKET_SIZE + 40.

(** Where [DhcpMsgSend] points. *)
Definition msg_off : nat := eth_len + udpip_len.

Definition eth_header (dhost shost : list Z) (type : Z) : list Z :=
  dhost ++ shost ++ le_bytes 2 (swap16 type).

(** ** Options received

    [len[i]] and [val[i]]: the length and the block of memory of option [i];
    an option without an entry has length 0 and a null pointer. *)

Record dhcpOptions := mkOpts { o_num : Z; o_tab : gmap Z (Z * list Z) }.

#[export] Instance eta_dhcpOptions : Eta dhcpOptions := λ o, mkOpts (o_num o) (o_tab o).

Definition opts_zero : dhcpOptions := mkOpts 0 ∅.

Definition opt_len (o : dhcpOptions) (i : Z) : Z := default 0 (fst <$> o_tab o !! i).
Definition opt_val (o : dhcpOptions) (i : Z) : option (list Z) := snd <$> o_tab o !! i.

Definition opt_put (i len : Z) (block : list Z) (o : dhcpOptions) : dhcpOptions :=
  o <| o_tab ::= <[i := (len, block)]> |>.

(** [DhcpOptions.num++] on an [u_char]. *)
Definition opt_count (o : dhcpOptions) : dhcpOptions := o <| o_num ::= λ n, (n + 1) `mod` 256 |>.

(** [memcpy (dst, val[i], n)], and the [unsigned] at [val[i]]. *)
Definition opt_read (n : nat) (i : Z) (o : dhcpOptions) : option (list Z) :=
  b ← opt_val o i; if (length b <? n)%nat then None else Some (take n b).

Definition opt_u32 (i : Z) (o : dhcpOptions) : option Z := le_val <$> opt_read 4 i o.

(** ** The interface

    [if_client_id] is the member with the two bytes of padding behind it. *)

Record dhcpInterface := mkIface {
  if_version : list Z;
  if_ciaddr : Z; if_siaddr : Z;
  if_class_len : Z; if_client_len : Z;
  if_xid : Z;
  if_shaddr : list Z;
  if_class_id : list Z; if_client_id : list Z;
}.

#[export] Instance eta_dhcpInterface : Eta dhcpInterface := λ i,
  mkIface (if_version i) (if_ciaddr i) (if_siaddr i) (if_class_len i) (if_client_len i)
    (if_xid i) (if_shaddr i) (if_class_id i) (if_client_id i).

Definition iface_zero : dhcpInterface :=
  mkIface (replicate 11 0) 0 0 0 0 0 (replicate 6 0) (replicate 48 0) (replicate 50 0).

(** ** Variables of the command line *)

(** [HostName], [ClassID] and [ClientID] without their NUL, [None] for a null
    pointer; [nleaseTime] in network order. *)
Record dhcp_vars := mkVars {
  v_IfName : list Z;
  v_IfNameExt : list Z;
  v_HostName : option (list Z);
  v_ClassID : option (list Z);
  v_ClientID : option (list Z);
  v_BeRFC1541 : bool;
  v_LeaseTime : Z;
  v_ReplResolvConf : bool;
  v_ReplNISConf : bool;
  v_ReplNTPConf : bool;
  v_SetDomainName : bool;
  v_SetHostName : bool;
  v_BroadcastResp : bool;
  v_TimeOut : Z;
  v_DoCheckSum : bool;
  v_TestCase : bool;
  v_SendSecondDiscover : bool;
  v_Window : Z;
  v_ConfigDir : list Z;
  v_Cfilename : option (list Z);
  v_SetDHCPDefaultRoutes : bool;
  v_default_router : Z;
  v_inform_ipaddr : Z;
  v_DebugFlag : bool;
}.

#[export] Instance eta_dhcp_vars : Eta dhcp_vars := λ v,
  mkVars (v_IfName v) (v_IfNameExt v) (v_HostName v) (v_ClassID v) (v_ClientID v)
    (v_BeRFC1541 v) (v_LeaseTime v) (v_ReplResolvConf v) (v_ReplNISConf v) (v_ReplNTPConf v)
    (v_SetDomainName v) (v_SetHostName v) (v_BroadcastResp v) (v_TimeOut v) (v_DoCheckSum v)
    (v_TestCase v) (v_SendSecondDiscover v) (v_Window v) (v_ConfigDir v) (v_Cfilename v)
    (v_SetDHCPDefaultRoutes v) (v_default_router v) (v_inform_ipaddr v) (v_DebugFlag v).

(** Set in [main] from the others. *)
Definition magic_cookie : list Z := be_bytes 4 MAGIC_COOKIE.
Definition dhcpMsgSize : list Z := be_bytes 2 (Z.of_nat dhcp_len).
Definition nleaseTime (v : dhcp_vars) : list Z := be_bytes 4 (v_LeaseTime v).

(** Set by [dhcpStart]. *)
Record dhcp_link := mkLink { l_ClientHwAddr : list Z; l_TokenRingIf : bool }.

(** ** The layout of a message *)

Definition dhcp_ok (m : dhcpMessage) : Prop :=
  byte_ok (dm_op m) ∧ byte_ok (dm_htype m) ∧ byte_ok (dm_hlen m) ∧ byte_ok (dm_hops m)
  ∧ nid32_ok (dm_xid m) ∧ 0 ≤ dm_secs m < 2 ^ 16 ∧ 0 ≤ dm_flags m < 2 ^ 16
  ∧ nid32_ok (dm_ciaddr m) ∧ nid32_ok (dm_yiaddr m)
  ∧ nid32_ok (dm_siaddr m) ∧ nid32_ok (dm_giaddr m)
  ∧ (length (dm_chaddr m) = 16%nat ∧ bytes_ok (dm_chaddr m))
  ∧ (length (dm_sname m) = 64%nat ∧ bytes_ok (dm_sname m))
  ∧ (length (dm_file m) = 128%nat ∧ bytes_ok (dm_file m))
  ∧ (length (dm_options m) = options_len ∧ bytes_ok (dm_options m)).

Lemma length_dhcp_bytes m : dhcp_ok m → length (dhcp_bytes m) = dhcp_len.
Proof.
  intros (_&_&_&_&_&_&_&_&_&_&_&[H1 _]&[H2 _]&[H3 _]&[H4 _]). unfold dhcp_bytes.
  autorewrite with bytes. by rewrite H1, H2, H3, H4.
Qed.

Lemma dhcp_bytes_ok m : dhcp_ok m → bytes_ok (dhcp_bytes m).
Proof.
  intros (?&?&?&?&_&_&_&_&_&_&_&[_ ?]&[_ ?]&[_ ?]&[_ ?]). unfold dhcp_bytes.
  rewrite !bytes_ok_app. split_and!; auto with nid. by repeat (apply Forall_cons_2; [done|]); apply Forall_nil_2.
Qed.

Lemma le_val_bytes2 z : 0 ≤ z < 2 ^ 16 → le_val (le_bytes 2 z) = z.
Proof. intros H. rewrite le_val_bytes. by apply Z.mod_small. Qed.

(** The part before the options has a fixed size. *)
Definition dhcp_head (m : dhcpMessage) : list Z := take options_off (dhcp_bytes m).

Lemma dhcp_bytes_split m : dhcp_ok m → dhcp_bytes m = dhcp_head m ++ dm_options m.
Proof.
  intros Hm. unfold dhcp_head. rewrite <-(take_drop options_off (dhcp_bytes m)) at 1. f_equal.
  destruct Hm as (_&_&_&_&_&_&_&_&_&_&_&[H1 _]&[H2 _]&[H3 _]&[H4 _]). unfold dhcp_bytes.
  rewrite !app_assoc. apply drop_app_length'.
  autorewrite with bytes. rewrite H1, H2, H3. done.
Qed.

Lemma dhcp_of_bytes m r : dhcp_ok m → dhcp_of (dhcp_bytes m ++ r) = m.
Proof.
  intros (?&?&?&?&Hx&Hs&Hf&Hc&Hy&Hi&Hg&[H1 _]&[H2 _]&[H3 _]&[H4 _]).
  destruct m as [a b c d x s f ci yi si gi ch sn fl op]. unfold dhcp_of, dhcp_bytes.
  cbn [dm_op dm_htype dm_hlen dm_hops dm_xid dm_secs dm_flags dm_ciaddr dm_yiaddr dm_siaddr
       dm_giaddr dm_chaddr dm_sname dm_file dm_options] in *.
  set (h := [a; b; c; d] ++ le_bytes 4 x ++ le_bytes 2 s ++ le_bytes 2 f ++ le_bytes 4 ci
             ++ le_bytes 4 yi ++ le_bytes 4 si ++ le_bytes 4 gi).
  replace (_ ++ r) with (h ++ ch ++ sn ++ fl ++ op ++ r) by (unfold h; by rewrite <-!app_assoc).
  f_equal; try done;
    try (etransitivity; [|by apply le_val_bytes4]; by f_equal);
    try (etransitivity; [|by apply le_val_bytes2]; by f_equal);
    try by apply (slice_app_at 28).
  - rewrite (app_assoc h). apply slice_app_at; [|done]. by rewrite length_app, H1.
  - rewrite (app_assoc h), (app_assoc _ sn). apply slice_app_at; [|done].
    by rewrite !length_app, H1, H2.
  - rewrite (app_assoc h), (app_assoc _ sn), (app_assoc _ fl). apply slice_app_at; [|done].
    by rewrite !length_app, H1, H2, H3.
Qed.
