(* ===== verification/DhcpOptions.v ===== *)
(** The options of a DHCP message: [parseDhcpMsgRecv] of
    src/src/dhcpcd-1.3.22-pl4/client.c, with the change that hands the
    parameters of the node to the daemon. *)

From S2P Require Import Prelude NidTypes Inet UdpIp DhcpMsg.

Local Open Scope Z_scope.

(** ** The loop over the options *)

(** The [default] case for an option that is not empty: the block is written
    again when the length is the same, otherwise it is replaced. *)
Definition opt_store (i : Z) (data : list Z) (o : dhcpOptions) : option dhcpOptions :=
  let n := Z.of_nat (length data) in
  if opt_len o i =? n then
    b ← opt_val o i;
    if (length b <? length data)%nat then None else Some (opt_put i n (overlay data b) o)
  else
    let o := match opt_val o i with Some _ => o | None => opt_count o end in
    Some (opt_put i n (data ++ [0]) o).

(** [rem] is [end - p], [p] the memory from [p] to the end of the object. *)
Fixpoint parse_options (rem : nat) (p : list Z) (o : dhcpOptions) : option dhcpOptions :=
  match rem with
  | O => Some o
  | S rem =>
      match p with
      | [] => None
      | c :: p =>
          if c =? endOption then Some o
          else if c =? padOption then parse_options rem p o
          else
            match p with
            | [] => None
            | l :: p =>
                let n := Z.to_nat l in
                if (length p <? n)%nat then None else
                o ← (if l =? 0 then Some o else opt_store c (take n p) o);
                parse_options (rem - S n) (drop n p) o
            end
      end
  end.

(** ** Defaults *)

(** [memset (val[i], 0, len[i])] *)
Definition opt_clear (i : Z) (o : dhcpOptions) : outcome dhcpOptions :=
  match opt_val o i with
  | Some b =>
      if 0 <? opt_len o i then
        let n := Z.to_nat (opt_len o i) in
        if (length b <? n)%nat then Fault
        else Go (opt_put i (opt_len o i) (overlay (replicate n 0) b) o)
      else Go o
  | None => Go o
  end.

(** A new block of four bytes. *)
Definition opt_new4 (i : Z) (data : list Z) (o : dhcpOptions) : dhcpOptions :=
  opt_count (opt_put i 4 data o).

(** [if ( ! val[i] )] *)
Definition opt_default (i : Z) (data : dhcpOptions → outcome (list Z)) (o : dhcpOptions)
    : outcome dhcpOptions :=
  match opt_val o i with
  | Some _ => Go o
  | None => d ← data o; Go (opt_new4 i d o)
  end.

(** [if ( val[i] && len[i] == 4 )], for the three times. *)
Definition opt_time (i : Z) (data : dhcpOptions → outcome (list Z)) (o : dhcpOptions)
    : outcome dhcpOptions :=
  match opt_val o i with
  | Some b =>
      if opt_len o i =? 4 then
        t ← accessed (opt_u32 i o);
        if t =? 0 then d ← data o; Go (opt_put i 4 (overlay d b) o) else Go o
      else d ← data o; Go (opt_new4 i d o)
  | None => d ← data o; Go (opt_new4 i d o)
  end.

(** [IN_CLASSA] to [IN_CLASSC], on an address in host order. *)
Definition IN_CLASSA (a : Z) : bool := Z.land a 0x80000000 =? 0.
Definition IN_CLASSB (a : Z) : bool := Z.land a 0xc0000000 =? 0x80000000.
Definition IN_CLASSC (a : Z) : bool := Z.land a 0xe0000000 =? 0xc0000000.

Definition class_mask (yiaddr : Z) : list Z :=
  let a := swap32 yiaddr in
  if IN_CLASSA a then [255; 0; 0; 0]
  else if IN_CLASSB a then [255; 255; 0; 0]
  else if IN_CLASSC a then [255; 255; 255; 0]
  else [255; 255; 255; 255].

(** [yiaddr | ~mask] *)
Definition broadcast_of (yiaddr mask : Z) : Z := u32_wrap (Z.lor yiaddr (Z.lnot mask)).

(** [htonl (num / den * ntohl (lease))], the product computed exactly. *)
Definition lease_part (num den : Z) (o : dhcpOptions) : outcome (list Z) :=
  t ← accessed (opt_u32 dhcpIPaddrLeaseTime o);
  Go (be_bytes 4 (num * swap32 t `div` den)).

(** The options a server left out; [src] is the address of the sender.  First
    the addresses, then the times. *)
Definition fill_addresses (src : list Z) (yiaddr : Z) (o : dhcpOptions) : outcome dhcpOptions :=
  o ← opt_default dhcpServerIdentifier (λ _, Go src) o;
  o ← opt_default dns (λ o, accessed (opt_read 4 dhcpServerIdentifier o)) o;
  o ← opt_default subnetMask (λ _, Go (class_mask yiaddr)) o;
  opt_default broadcastAddr
    (λ o, mask ← accessed (opt_u32 subnetMask o);
          Go (le_bytes 4 (broadcast_of yiaddr mask))) o.

Definition fill_times (lease : list Z) (o : dhcpOptions) : outcome dhcpOptions :=
  o ← opt_time dhcpIPaddrLeaseTime (λ _, Go lease) o;
  o ← opt_time dhcpT1value (lease_part 1 2) o;
  opt_time dhcpT2value (lease_part 7 8) o.

(** ** Parameters for the daemon *)

Definition INET_ADDRSTRLEN : nat := 16.

(** [strcpy], [strcat] and [write] of [size] bytes: the text of option 17, the
    address and a separator, in a zeroed block. *)
Definition nidd_message (root : list Z) (yiaddr : Z) : list Z :=
  let text := cstr root ++ inet_ntop4 yiaddr ++ [124] in
  overlay text (replicate (length (cstr root) + INET_ADDRSTRLEN + 1) 0).

(** ** [parseDhcpMsgRecv] *)

(** What the function works on: [DhcpOptions], the frame received, and the
    position of [DhcpMsgRecv] in it. *)
Record parse_state := mkParse {
  ps_opts : dhcpOptions;
  ps_recv : list Z;
  ps_msg : nat;
}.

Definition recv_msg (recv : list Z) (off : nat) : dhcpMessage := dhcp_of (drop off recv).

(** [ipRecv->ip_src]: the source of the packet at the start of [udpipmsg]. *)
Definition ip_src (recv : list Z) : list Z := slice (eth_len + 12) 4 recv.

(** The message for the daemon, when the message type is 5; [socket_ok] is the
    result of [socket].  A failed [connect] is reported and the [write] then
    fails, so [connected] tells whether the daemon gets it. *)
Definition tell_nidd (socket_ok connected : bool) (yiaddr : Z) (o : dhcpOptions)
    : outcome (option (list Z)) :=
  b53 ← accessed (opt_val o dhcpMessageType);
  t ← accessed (b53 !! O);
  if t =? dhcp_type_val ACK then
    if negb socket_ok then ProcessExit else
    root ← accessed (opt_val o rootPath);
    if (length root <=? strlen root)%nat then Fault       (* no NUL in the block *)
    else Go (if connected then Some (nidd_message root yiaddr) else None)
  else Go None.

(** [send_ciaddr] is [DhcpMsgSend->ciaddr].  The result is the state, what the
    daemon receives, and the message type returned. *)
Definition parseDhcpMsgRecv (lease : list Z) (send_ciaddr : Z) (socket_ok connected : bool)
    (s : parse_state) : outcome (parse_state * option (list Z) * Z) :=
  let m := recv_msg (ps_recv s) (ps_msg s) in
  o ← opt_clear dhcpT1value (ps_opts s);
  o ← opt_clear dhcpT2value o;
  o ← accessed (parse_options (options_len - 4)
                  (drop (ps_msg s + options_off + 4) (ps_recv s)) o);
  told ← tell_nidd socket_ok connected (dm_yiaddr m) o;
  let yiaddr := if dm_yiaddr m =? 0 then send_ciaddr else dm_yiaddr m in
  let recv := splice (ps_msg s + 16) (le_bytes 4 yiaddr) (ps_recv s) in
  o ← fill_addresses (ip_src recv) yiaddr o;
  o ← fill_times lease o;
  b53 ← accessed (opt_val o dhcpMessageType);
  t ← accessed (b53 !! O);
  Go (mkParse o recv (ps_msg s), told, t).

(** ** The table of options

    Every block holds the bytes of its option, and those that are used as
    strings have a NUL behind them. *)

Definition text_options : list Z := [hostName; domainName; rootPath; nisDomainName; dhcpMsg].

Definition entry_ok (i : Z) (e : Z * list Z) : Prop :=
  0 ≤ e.1 ≤ 255 ∧ e.1 ≤ Z.of_nat (length e.2) ∧ bytes_ok e.2
  ∧ (i ∈ text_options → e.2 !! Z.to_nat e.1 = Some 0).

Definition opts_ok (o : dhcpOptions) : Prop := map_Forall entry_ok (o_tab o).

(** The bytes of an option. *)
Definition opt_data (o : dhcpOptions) (i : Z) : option (list Z) :=
  (λ e, take (Z.to_nat e.1) e.2) <$> o_tab o !! i.

Lemma opts_zero_ok : opts_ok opts_zero.
Proof. apply map_Forall_empty. Qed.

Lemma opt_put_ok i l b o : opts_ok o → entry_ok i (l, b) → opts_ok (opt_put i l b o).
Proof. intros. by apply map_Forall_insert_2. Qed.

Lemma opt_count_ok o : opts_ok o → opts_ok (opt_count o).
Proof. done. Qed.

Lemma opts_ok_entry o i b :
  opts_ok o → opt_val o i = Some b →
  0 ≤ opt_len o i ≤ 255 ∧ opt_len o i ≤ Z.of_nat (length b) ∧ bytes_ok b
  ∧ (i ∈ text_options → b !! Z.to_nat (opt_len o i) = Some 0).
Proof.
  unfold opt_val, opt_len. intros H E. destruct (o_tab o !! i) as [[l c]|] eqn:Ei; simplify_eq/=.
  apply (H i _ Ei).
Qed.

Lemma opt_len_val o i : opt_len o i ≠ 0 → is_Some (opt_val o i).
Proof. unfold opt_len, opt_val. destruct (o_tab o !! i) as [[]|]; [by eexists|done]. Qed.

Lemma opt_data_put i j l b o :
  opt_data (opt_put i l b o) j = if decide (i = j) then Some (take (Z.to_nat l) b) else opt_data o j.
Proof. unfold opt_data, opt_put. simpl. rewrite lookup_insert. by case_decide. Qed.

Lemma opt_val_put i j l b o :
  opt_val (opt_put i l b o) j = if decide (i = j) then Some b else opt_val o j.
Proof. unfold opt_val, opt_put. simpl. rewrite lookup_insert. by case_decide. Qed.

Lemma opt_len_put i j l b o :
  opt_len (opt_put i l b o) j = if decide (i = j) then l else opt_len o j.
Proof. unfold opt_len, opt_put. simpl. rewrite lookup_insert. by case_decide. Qed.

(** Storing an option of a message always succeeds and changes that option
    only. *)
Lemma opt_store_spec i d o :
  opts_ok o → bytes_ok d → (0 < length d ≤ 255)%nat →
  ∃ o', opt_store i d o = Some o' ∧ opts_ok o'
    ∧ (∀ j, opt_data o' j = if decide (i = j) then Some d else opt_data o j)
    ∧ (∀ j, i ≠ j → o_tab o' !! j = o_tab o !! j)
    ∧ opt_len o' i = Z.of_nat (length d).
Proof.
  intros Ho Hd Hl. unfold opt_store. case_match eqn:E; zbool.
  - destruct (opt_len_val o i) as [b Hb]; [lia|]. rewrite Hb, bind_ret.
    destruct (opts_ok_entry _ _ _ Ho Hb) as (_ & B & C & D).
    rewrite (proj2 (Nat.ltb_ge _ _)) by lia. eexists. split; [done|]. split_and!.
    + apply opt_put_ok; [done|]. unfold entry_ok. simpl. rewrite length_overlay by lia.
      split; [lia|]. split; [lia|]. split; [auto with nid|]. intros Ht. specialize (D Ht).
      rewrite E in D. rewrite Nat2Z.id in D |- *. unfold overlay.
      rewrite lookup_app_r, Nat.sub_diag by done. by rewrite lookup_drop, Nat.add_0_r.
    + intros j. rewrite opt_data_put, Nat2Z.id, take_overlay. done.
    + intros j Hj. simpl. by rewrite lookup_insert_ne.
    + by rewrite opt_len_put, decide_True.
  - eexists. split; [done|].
    set (o1 := match opt_val o i with Some _ => o | None => opt_count o end).
    assert (o_tab o1 = o_tab o) as Et by (subst o1; by destruct (opt_val o i)).
    split_and!.
    + apply opt_put_ok; [subst o1; by destruct (opt_val o i)|]. unfold entry_ok. simpl.
      rewrite length_app, bytes_ok_app. simpl. split; [lia|]. split; [lia|].
      split; [split; [done|by repeat constructor]|]. intros _. rewrite Nat2Z.id.
      by apply list_lookup_middle.
    + intros j. rewrite opt_data_put, Nat2Z.id, take_app_length.
      case_decide; [done|]. unfold opt_data. by rewrite Et.
    + intros j Hj. simpl. rewrite lookup_insert_ne by done. by rewrite Et.
    + by rewrite opt_len_put, decide_True.
Qed.

(** The loop stays in the object when 256 bytes follow the options. *)
Lemma parse_options_total rem p o :
  opts_ok o → bytes_ok p → (rem = 0 ∨ rem + 256 ≤ length p)%nat →
  ∃ o', parse_options rem p o = Some o' ∧ opts_ok o'.
Proof.
  revert p o. induction (lt_wf rem) as [rem _ IH]. intros p o Ho Hp Hr.
  destruct rem as [|rem]; [by exists o|]. destruct Hr as [?|Hr]; [done|].
  destruct p as [|c p]; [simpl in Hr; lia|]. cbn [length] in Hr.
  apply Forall_cons in Hp as [_ Hp]. cbn [parse_options].
  destruct (c =? endOption); [by exists o|].
  destruct (c =? padOption); [apply IH; [lia|done|done|lia]|].
  destruct p as [|l p]; [simpl in Hr; lia|]. cbn [length] in Hr.
  apply Forall_cons in Hp as [Hl Hp]. unfold byte_ok in Hl.
  rewrite (proj2 (Nat.ltb_ge _ _)) by lia.
  destruct (l =? 0) eqn:E0; zbool.
  - subst l. rewrite bind_ret. apply IH; [lia|done|by apply bytes_ok_drop|].
    rewrite length_drop. lia.
  - destruct (opt_store_spec c (take (Z.to_nat l) p) o) as (o1 & -> & Ho1 & _);
      [done|by apply bytes_ok_take|rewrite length_take; lia|].
    rewrite bind_ret. apply IH; [lia|done|by apply bytes_ok_drop|].
    rewrite length_drop. lia.
Qed.

(** ** Options written and read *)

(** An option as the client and the servers write it. *)
Abbreviation tlv := (Z * list Z)%type.

Definition tlv_bytes (t : tlv) : list Z := t.1 :: Z.of_nat (length t.2) :: t.2.
Definition tlvs_bytes (l : list tlv) : list Z := concat (tlv_bytes <$> l).

Definition tlv_ok (t : tlv) : Prop :=
  byte_ok t.1 ∧ t.1 ≠ endOption ∧ t.1 ≠ padOption
  ∧ bytes_ok t.2 ∧ (0 < length t.2 ≤ 255)%nat.

#[export] Instance tlv_ok_dec t : Decision (tlv_ok t).
Proof. unfold tlv_ok. apply _. Defined.

(** The data of option [i] after the options [l], the last one deciding. *)
Definition tlv_last (i : Z) (l : list tlv) (d : option (list Z)) : option (list Z) :=
  foldl (λ d t, if decide (t.1 = i) then Some t.2 else d) d l.

Lemma tlvs_bytes_cons t l : tlvs_bytes (t :: l) = t.1 :: Z.of_nat (length t.2) :: t.2 ++ tlvs_bytes l.
Proof. done. Qed.

Lemma tlvs_bytes_app l l' : tlvs_bytes (l ++ l') = tlvs_bytes l ++ tlvs_bytes l'.
Proof. unfold tlvs_bytes. by rewrite fmap_app, concat_app. Qed.

Lemma tlvs_bytes_ok l : Forall tlv_ok l → bytes_ok (tlvs_bytes l).
Proof.
  induction 1 as [|t l (Hc & _ & _ & Hd & Hl) _ IH]; [by constructor|].
  rewrite tlvs_bytes_cons. constructor; [done|]. constructor; [unfold byte_ok; lia|].
  by apply bytes_ok_app.
Qed.

Lemma parse_tlv t rem p o :
  tlv_ok t → (length (tlv_bytes t) ≤ rem)%nat →
  parse_options rem (tlv_bytes t ++ p) o
  = (o ← opt_store t.1 t.2 o; parse_options (rem - length (tlv_bytes t)) p o).
Proof.
  intros (_ & He & Hp & _ & Hl) Hr. destruct t as [c d]. unfold tlv_bytes in *. cbn [fst snd] in *.
  cbn [length] in Hr. destruct rem as [|rem]; [lia|]. cbn [app parse_options].
  rewrite (proj2 (Z.eqb_neq c endOption)), (proj2 (Z.eqb_neq c padOption)) by done.
  rewrite Nat2Z.id, (proj2 (Nat.ltb_ge _ _)) by (rewrite length_app; lia).
  rewrite (proj2 (Z.eqb_neq _ 0)) by lia. rewrite take_app_length, drop_app_length. done.
Qed.

(** The options of a message are read back, whatever follows their end. *)
Lemma parse_tlvs l rem rest o :
  opts_ok o → Forall tlv_ok l → (length (tlvs_bytes l) < rem)%nat →
  ∃ o', parse_options rem (tlvs_bytes l ++ endOption :: rest) o = Some o' ∧ opts_ok o'
    ∧ (∀ i, opt_data o' i = tlv_last i l (opt_data o i))
    ∧ (∀ i, i ∉ l.*1 → o_tab o' !! i = o_tab o !! i).
Proof.
  intros Ho Hl. revert rem o Ho. induction Hl as [|t l Ht Hl IH]; intros rem o Ho Hr.
  - exists o. destruct rem as [|rem]; [simpl in Hr; lia|]. done.
  - change (tlvs_bytes (t :: l)) with (tlv_bytes t ++ tlvs_bytes l) in *.
    rewrite length_app in Hr. rewrite <-app_assoc, parse_tlv by (done || lia).
    destruct Ht as (_ & _ & _ & Hd & Hn).
    destruct (opt_store_spec t.1 t.2 o Ho Hd Hn) as (o1 & -> & Ho1 & D1 & T1 & _).
    rewrite bind_ret. destruct (IH (rem - length (tlv_bytes t))%nat o1 Ho1) as (o' & -> & Ho' & D & T);
      [lia|]. exists o'. split_and!; [done..| |].
    + intros i. rewrite D. unfold tlv_last. cbn [foldl]. by rewrite D1.
    + intros i Hi. rewrite fmap_cons, not_elem_of_cons in Hi. destruct Hi as [Hi Hi'].
      rewrite T by done. by apply T1.
Qed.

(** ** Reading blocks *)

Lemma opt_read_spec n i o b :
  opt_val o i = Some b → (n ≤ length b)%nat → opt_read n i o = Some (take n b).
Proof. intros E H. unfold opt_read. rewrite E, bind_ret. by rewrite (proj2 (Nat.ltb_ge _ _)). Qed.

Lemma opt_read_data n i o d :
  opts_ok o → opt_data o i = Some d → (n ≤ length d)%nat → opt_read n i o = Some (take n d).
Proof.
  intros Ho E H. unfold opt_data in E. destruct (o_tab o !! i) as [[l b]|] eqn:Ei; [|done].
  cbn in E. assert (d = take (Z.to_nat l) b) as -> by congruence. rewrite length_take in H.
  rewrite (opt_read_spec n i o b); [|unfold opt_val; by rewrite Ei|lia].
  by rewrite take_take, Nat.min_l by lia.
Qed.

(** ** What the defaults leave *)

(** [i] has a block of four bytes or more. *)
Definition has4 (o : dhcpOptions) (i : Z) : Prop := ∃ b, opt_val o i = Some b ∧ (4 ≤ length b)%nat.

(** [o'] is [o] except for option [i]. *)
Definition keeps_others (i : Z) (o o' : dhcpOptions) : Prop :=
  ∀ j, i ≠ j → o_tab o' !! j = o_tab o !! j.

Lemma keeps_others_data i o o' : keeps_others i o o' → ∀ j, i ≠ j → opt_data o' j = opt_data o j.
Proof. intros H j Hj. unfold opt_data. by rewrite H. Qed.

Lemma keeps_others_val i o o' : keeps_others i o o' → ∀ j, i ≠ j → opt_val o' j = opt_val o j.
Proof. intros H j Hj. unfold opt_val. by rewrite H. Qed.

Lemma keeps_others_put i l b o : keeps_others i o (opt_put i l b o).
Proof. intros j Hj. simpl. by rewrite lookup_insert_ne. Qed.

Lemma opt_new4_spec i d o :
  opts_ok o → i ∉ text_options → bytes_ok d → length d = 4%nat →
  opts_ok (opt_new4 i d o) ∧ opt_data (opt_new4 i d o) i = Some d
  ∧ opt_val (opt_new4 i d o) i = Some d ∧ opt_len (opt_new4 i d o) i = 4
  ∧ keeps_others i o (opt_new4 i d o).
Proof.
  intros Ho Hi Hd Hl. unfold opt_new4. split_and!.
  - apply opt_count_ok, opt_put_ok; [done|]. unfold entry_ok. simpl. rewrite Hl. by split_and!.
  - change (opt_data (opt_put i 4 d o) i = Some d).
    rewrite opt_data_put, decide_True by done. by rewrite take_ge by (rewrite Hl; done).
  - change (opt_val (opt_put i 4 d o) i = Some d). by rewrite opt_val_put, decide_True.
  - change (opt_len (opt_put i 4 d o) i = 4). by rewrite opt_len_put, decide_True.
  - apply keeps_others_put.
Qed.

Lemma opt_clear_spec i o :
  opts_ok o → i ∉ text_options →
  ∃ o', opt_clear i o = Go o' ∧ opts_ok o' ∧ keeps_others i o o'
    ∧ opt_len o' i = opt_len o i
    ∧ opt_data o' i = (λ d, replicate (length d) 0) <$> opt_data o i.
Proof.
  intros Ho Hi. unfold opt_clear, opt_data.
  destruct (o_tab o !! i) as [[l b]|] eqn:E.
  2:{ exists o. unfold opt_val, opt_len. rewrite E. by split_and!. }
  assert (Ev : opt_val o i = Some b) by (unfold opt_val; by rewrite E).
  assert (El : opt_len o i = l) by (unfold opt_len; by rewrite E).
  destruct (opts_ok_entry _ _ _ Ho Ev) as (A & B & C & _). rewrite El in *. rewrite Ev.
  case_match eqn:E0; zbool.
  - rewrite (proj2 (Nat.ltb_ge _ _)) by lia. eexists. split; [done|]. split_and!.
    + apply opt_put_ok; [done|]. unfold entry_ok. simpl.
      rewrite length_overlay by (rewrite length_replicate; lia). split_and!; try lia.
      * auto with nid.
      * done.
    + apply keeps_others_put.
    + by rewrite opt_len_put, decide_True.
    + simpl. rewrite lookup_insert_eq. simpl. rewrite length_take, Nat.min_l by lia.
      rewrite <-(length_replicate (Z.to_nat l) 0) at 1. by rewrite take_overlay.
  - exists o. split_and!; [done..|]. rewrite E. simpl. f_equal. by replace l with 0 by lia.
Qed.

(** A missing option gets its default, one that is there is left alone. *)
Lemma opt_default_spec i f o d :
  opts_ok o → i ∉ text_options →
  (opt_val o i = None → f o = Go d ∧ bytes_ok d ∧ length d = 4%nat) →
  ∃ o', opt_default i f o = Go o' ∧ opts_ok o' ∧ keeps_others i o o'
    ∧ opt_val o' i = Some (default d (opt_val o i))
    ∧ opt_data o' i = Some (default d (opt_data o i)).
Proof.
  intros Ho Hi Hf. unfold opt_default. destruct (opt_val o i) as [b|] eqn:E.
  - exists o. split_and!; [done..|]. unfold opt_val in E. unfold opt_data.
    by destruct (o_tab o !! i).
  - destruct (Hf eq_refl) as (-> & Hd & Hl). rewrite bind_Go.
    destruct (opt_new4_spec i d o Ho Hi Hd Hl) as (? & D & V & _ & K).
    eexists. split; [done|]. split_and!; [done..|]. rewrite D. unfold opt_data.
    unfold opt_val in E. by destruct (o_tab o !! i).
Qed.

(** A time of four bytes that are not all zero is kept; otherwise the default
    is stored. *)
Lemma opt_time_spec i f o d :
  opts_ok o → i ∉ text_options → f o = Go d → bytes_ok d → length d = 4%nat →
  ∃ o', opt_time i f o = Go o' ∧ opts_ok o' ∧ keeps_others i o o' ∧ opt_len o' i = 4
    ∧ opt_data o' i = Some (match opt_data o i with
                            | Some t => if decide (length t = 4%nat ∧ le_val t ≠ 0) then t else d
                            | None => d
                            end).
Proof.
  intros Ho Hi Hf Hd Hl. destruct (opt_new4_spec i d o Ho Hi Hd Hl) as (N1 & N2 & _ & N3 & N4).
  unfold opt_time, opt_data at 2. rewrite Hf.
  destruct (o_tab o !! i) as [[l b]|] eqn:E.
  2:{ unfold opt_val. rewrite E. eexists. by split_and!. }
  assert (Ev : opt_val o i = Some b) by (unfold opt_val; by rewrite E).
  assert (El : opt_len o i = l) by (unfold opt_len; by rewrite E).
  destruct (opts_ok_entry _ _ _ Ho Ev) as (A & B & C & _). rewrite El in *. rewrite Ev. simpl fmap.
  assert (Lt : length (take (Z.to_nat l) b) = Z.to_nat l) by (rewrite length_take; lia).
  cbn [option_map fst snd]. destruct (l =? 4) eqn:E4; zbool.
  - subst l. unfold opt_u32. rewrite (opt_read_spec 4 i o b) by (done || lia). simpl fmap.
    cbn [accessed]. rewrite bind_Go. rewrite E4 in *. change (Z.to_nat 4) with 4%nat in *.
    destruct (le_val (take 4 b) =? 0) eqn:E0; zbool.
    + rewrite bind_Go, decide_False by (intros [_ Hne]; by destruct Hne). eexists. split; [done|]. split_and!.
      * apply opt_put_ok; [done|]. unfold entry_ok. simpl. rewrite length_overlay by lia.
        split_and!; [lia..|auto with nid|done].
      * apply keeps_others_put.
      * by rewrite opt_len_put, decide_True.
      * rewrite opt_data_put, decide_True by done. change (Z.to_nat 4) with 4%nat. rewrite <-Hl.
        by rewrite take_overlay.
    + rewrite decide_True by done. exists o. split_and!; [done..|]. unfold opt_data. by rewrite E.
  - rewrite bind_Go, decide_False by (rewrite Lt; lia). eexists. by split_and!.
Qed.

(** The value of a time: what the server gave, unless it is missing or zero. *)
Definition time_or (t : option (list Z)) (d : list Z) : list Z :=
  match t with
  | Some t => if decide (length t = 4%nat ∧ le_val t ≠ 0) then t else d
  | None => d
  end.

Definition long4 (o : dhcpOptions) (i : Z) : Prop :=
  ∀ d, opt_data o i = Some d → (4 ≤ length d)%nat.

Lemma time_or_ok t d :
  (∀ b, t = Some b → bytes_ok b) → bytes_ok d → length d = 4%nat →
  bytes_ok (time_or t d) ∧ length (time_or t d) = 4%nat.
Proof. intros Ht Hd Hl. unfold time_or. destruct t as [t|]; [|done]. case_decide; naive_solver. Qed.

Lemma opt_data_ok o i d : opts_ok o → opt_data o i = Some d → bytes_ok d ∧ (length d ≤ 255)%nat.
Proof.
  intros Ho E. unfold opt_data in E. destruct (o_tab o !! i) as [[l b]|] eqn:Ei; [|done].
  simplify_eq/=. destruct (Ho i _ Ei) as (A & B & C & _). simpl in *.
  split; [auto with nid|]. rewrite length_take. lia.
Qed.

Lemma class_mask_ok y : bytes_ok (class_mask y) ∧ length (class_mask y) = 4%nat.
Proof.
  unfold class_mask. repeat case_match; split; try done; by apply (bool_decide_unpack _); vm_compute.
Qed.

Lemma be_bytes_ok n z : bytes_ok (be_bytes n z).
Proof. apply bytes_ok_reverse, le_bytes_ok. Qed.

Lemma lease_part_spec num den o d :
  opts_ok o → opt_data o dhcpIPaddrLeaseTime = Some d → length d = 4%nat →
  lease_part num den o = Go (be_bytes 4 (num * swap32 (le_val d) `div` den)).
Proof.
  intros Ho E Hl. unfold lease_part, opt_u32. rewrite (opt_read_data 4 _ _ d Ho E) by lia.
  simpl fmap. cbn [accessed]. rewrite bind_Go, take_ge by lia. done.
Qed.

Definition address_codes : list Z := [dhcpServerIdentifier; dns; subnetMask; broadcastAddr].
Definition time_codes : list Z := [dhcpIPaddrLeaseTime; dhcpT1value; dhcpT2value].

(** Two tables agree except on some codes. *)
Definition keeps_except (codes : list Z) (o o' : dhcpOptions) : Prop :=
  ∀ i, i ∉ codes → o_tab o' !! i = o_tab o !! i.

Lemma keeps_except_data codes o o' i :
  keeps_except codes o o' → i ∉ codes → opt_data o' i = opt_data o i.
Proof. intros H Hi. unfold opt_data. by rewrite H. Qed.

Record filled_addresses (src : list Z) (yiaddr : Z) (o o' : dhcpOptions) : Prop := {
  filled_sid : opt_data o' dhcpServerIdentifier
    = Some (default src (opt_data o dhcpServerIdentifier));
  filled_dns : opt_data o' dns
    = Some (default (take 4 (default src (opt_data o dhcpServerIdentifier))) (opt_data o dns));
  filled_mask : opt_data o' subnetMask
    = Some (default (class_mask yiaddr) (opt_data o subnetMask));
  filled_broadcast : opt_data o' broadcastAddr
    = Some (default (le_bytes 4 (broadcast_of yiaddr
               (le_val (take 4 (default (class_mask yiaddr) (opt_data o subnetMask))))))
             (opt_data o broadcastAddr));
  filled_keep : keeps_except address_codes o o';
}.

Definition lease_time (lease : list Z) (o : dhcpOptions) : list Z :=
  time_or (opt_data o dhcpIPaddrLeaseTime) lease.

(** [num/den] of the lease, as four bytes in network order. *)
Definition part_of (num den : Z) (lease : list Z) : list Z :=
  be_bytes 4 (num * swap32 (le_val lease) `div` den).

Record filled_times (lease : list Z) (o o' : dhcpOptions) : Prop := {
  filled_lease : opt_data o' dhcpIPaddrLeaseTime = Some (lease_time lease o);
  filled_T1 : opt_data o' dhcpT1value
    = Some (time_or (opt_data o dhcpT1value) (part_of 1 2 (lease_time lease o)));
  filled_T2 : opt_data o' dhcpT2value
    = Some (time_or (opt_data o dhcpT2value) (part_of 7 8 (lease_time lease o)));
  filled_keep_times : keeps_except time_codes o o';
}.

Lemma not_text i : bool_decide (i ∈ text_options) = false → i ∉ text_options.
Proof. by intros H%bool_decide_eq_false. Qed.

Ltac not_text := apply not_text; vm_compute; reflexivity.

(** Options the earlier steps did not touch. *)
Ltac other_data :=
  repeat match goal with
         | K : keeps_others ?i ?o ?o' |- context [opt_data ?o' ?j] =>
             rewrite (keeps_others_data i o o' K j) by done
         end.

Lemma default_long4 o i d :
  long4 o i → (4 ≤ length d)%nat → (4 ≤ length (default d (opt_data o i)))%nat.
Proof. unfold long4. intros H Hd. destruct (opt_data o i); simpl; [by apply H|done]. Qed.

Lemma fill_addresses_spec src yiaddr o :
  opts_ok o → bytes_ok src → length src = 4%nat →
  long4 o dhcpServerIdentifier → long4 o subnetMask →
  ∃ o', fill_addresses src yiaddr o = Go o' ∧ opts_ok o' ∧ filled_addresses src yiaddr o o'.
Proof.
  intros Ho Bs Ls H54 H1. destruct (class_mask_ok yiaddr) as [Bm Lm]. unfold fill_addresses.
  pose proof (default_long4 _ _ src H54) as Lsid. pose proof (default_long4 _ _ (class_mask yiaddr) H1) as Lmask.
  destruct (opt_default_spec dhcpServerIdentifier (λ _, Go src) o src Ho)
    as (o1 & -> & O1 & K1 & _ & D1); [not_text|done|]. rewrite bind_Go.
  set (sid := default src (opt_data o dhcpServerIdentifier)) in *.
  pose proof (opt_data_ok _ _ _ O1 D1) as [Bsid _].
  destruct (opt_default_spec dns (λ o, accessed (opt_read 4 dhcpServerIdentifier o)) o1
    (take 4 sid) O1) as (o2 & -> & O2 & K2 & _ & D2); [not_text| |].
  { intros _. rewrite (opt_read_data 4 _ _ _ O1 D1) by lia. split; [done|].
    split; [auto with nid|]. rewrite length_take. lia. }
  rewrite bind_Go.
  destruct (opt_default_spec subnetMask (λ _, Go (class_mask yiaddr)) o2 (class_mask yiaddr) O2)
    as (o3 & -> & O3 & K3 & _ & D3); [not_text|done|]. rewrite bind_Go.
  assert (E3 : opt_data o2 subnetMask = opt_data o subnetMask) by (other_data; done).
  rewrite E3 in D3. set (mask := default (class_mask yiaddr) (opt_data o subnetMask)) in *.
  destruct (opt_default_spec broadcastAddr (λ o, mask ← accessed (opt_u32 subnetMask o);
              Go (le_bytes 4 (broadcast_of yiaddr mask))) o3
    (le_bytes 4 (broadcast_of yiaddr (le_val (take 4 mask)))) O3)
    as (o4 & -> & O4 & K4 & _ & D4); [not_text| |].
  { intros _. unfold opt_u32. rewrite (opt_read_data 4 _ _ _ O3 D3) by lia.
    split; [done|]. split; [auto with nid|done]. }
  exists o4. split; [done|]. split; [done|]. split; [by other_data|..].
  - other_data. rewrite D2. by other_data.
  - by other_data.
  - other_data. rewrite D4. by other_data.
  - intros i Hi. unfold address_codes in Hi. rewrite !not_elem_of_cons in Hi.
    destruct Hi as (?&?&?&?&_). rewrite K4, K3, K2, K1 by done. done.
Qed.

Lemma lease_time_ok lease o :
  opts_ok o → bytes_ok lease → length lease = 4%nat →
  bytes_ok (lease_time lease o) ∧ length (lease_time lease o) = 4%nat.
Proof.
  intros Ho Bl Ll. apply time_or_ok; [|done..]. intros b Hb.
  by apply (opt_data_ok o dhcpIPaddrLeaseTime).
Qed.

Lemma fill_times_spec lease o :
  opts_ok o → bytes_ok lease → length lease = 4%nat →
  ∃ o', fill_times lease o = Go o' ∧ opts_ok o' ∧ filled_times lease o o'
    ∧ Forall (λ i, opt_len o' i = 4) time_codes.
Proof.
  intros Ho Bl Ll. destruct (lease_time_ok lease o Ho Bl Ll) as [_ Llt]. unfold fill_times.
  destruct (opt_time_spec dhcpIPaddrLeaseTime (λ _, Go lease) o lease Ho)
    as (o1 & -> & O1 & K1 & N1 & D1); [not_text|done..|]. rewrite bind_Go.
  change (opt_data o1 dhcpIPaddrLeaseTime = Some (lease_time lease o)) in D1.
  destruct (opt_time_spec dhcpT1value (lease_part 1 2) o1 (part_of 1 2 (lease_time lease o)) O1)
    as (o2 & -> & O2 & K2 & N2 & D2);
    [not_text|by apply lease_part_spec|apply be_bytes_ok|apply length_be_bytes|]. rewrite bind_Go.
  assert (L2 : opt_data o2 dhcpIPaddrLeaseTime = Some (lease_time lease o)) by (by other_data).
  destruct (opt_time_spec dhcpT2value (lease_part 7 8) o2 (part_of 7 8 (lease_time lease o)) O2)
    as (o3 & -> & O3 & K3 & N3 & D3);
    [not_text|by apply lease_part_spec|apply be_bytes_ok|apply length_be_bytes|].
  exists o3. split; [done|]. split; [done|]. split; [split|].
  - by other_data.
  - other_data. rewrite D2. by other_data.
  - rewrite D3. by other_data.
  - intros i Hi. unfold time_codes in Hi. rewrite !not_elem_of_cons in Hi.
    destruct Hi as (?&?&?&_). by rewrite K3, K2, K1 by done.
  - unfold opt_len in *. repeat constructor; rewrite ?K3, ?K2 by done; done.
Qed.
