(* ===== verification/BuildMsg.v ===== *)
(** The messages the DHCP client sends,
    src/src/dhcpcd-1.3.22-pl4/buildmsg.c, with the class and client
    identifiers they carry (client.c). *)

From S2P Require Import Prelude NidTypes UdpIp DhcpMsg DhcpOptions.

Local Open Scope Z_scope.

(** ** Identifiers *)

(** [snprintf (class_id, CLASS_ID_MAX_LEN, ...)] of the text [s]: at most 47
    characters are stored, the length of the whole text is returned. *)
Definition snprintf_into (size : nat) (s buf : list Z) : list Z :=
  overlay (take (size - 1) s ++ [0]) buf.

(** [uname] is what the three [%s] print. *)
Definition classIDsetup (uname : list Z) (i : dhcpInterface) : dhcpInterface :=
  i <| if_class_id := snprintf_into CLASS_ID_MAX_LEN uname (if_class_id i) |>
    <| if_class_len := Z.of_nat (length uname) |>.

(** Writing [client_id] from its start; beyond the structure it is a fault. *)
Definition put_client_id (data : list Z) (i : dhcpInterface) : outcome dhcpInterface :=
  if (length (if_client_id i) <? length data)%nat then Fault
  else Go (i <| if_client_id := overlay data (if_client_id i) |>
             <| if_client_len := Z.of_nat (length data) |>).

Definition clientIDsetup (ClientID : option (list Z)) (l : dhcp_link) (i : dhcpInterface)
    : outcome dhcpInterface :=
  match ClientID with
  | Some id => put_client_id ([dhcpClientIdentifier; Z.of_nat (length id + 1) `mod` 256; 0] ++ id) i
  | None =>
      put_client_id ([dhcpClientIdentifier; Z.of_nat ETH_ALEN + 1;
                      (if l_TokenRingIf l then ARPHRD_IEEE802_TR else ARPHRD_ETHER) `mod` 256]
                       ++ l_ClientHwAddr l) i
  end.

(** [memcpy (class_id, ClassID, ClassID_len)], at most 48 characters. *)
Definition put_class_id (id : list Z) (i : dhcpInterface) : dhcpInterface :=
  i <| if_class_id := overlay id (if_class_id i) |> <| if_class_len := Z.of_nat (length id) |>.

Definition classclientsetup (v : dhcp_vars) (uname : list Z) (l : dhcp_link) (i : dhcpInterface)
    : outcome dhcpInterface :=
  let i := match v_ClassID v with Some id => put_class_id id i | None => classIDsetup uname i end in
  clientIDsetup (v_ClientID v) l i.

(** [memcpy (p, class_id, class_len)]: behind [class_id] lies [client_id]. *)
Definition class_bytes (i : dhcpInterface) : option (list Z) :=
  let mem := if_class_id i ++ if_client_id i in
  if (if_class_len i <? 0) || (Z.of_nat (length mem) <? if_class_len i) then None
  else Some (take (Z.to_nat (if_class_len i)) mem).

Definition client_bytes (i : dhcpInterface) : option (list Z) :=
  if (if_client_len i <? 0) || (Z.of_nat (length (if_client_id i)) <? if_client_len i) then None
  else Some (take (Z.to_nat (if_client_len i)) (if_client_id i)).

(** ** Options sent *)

(** [*p++ = code; *p++ = n; memcpy (p, data, n)], the length stored in a byte. *)
Definition put_opt (code : Z) (data : list Z) : list Z :=
  code :: Z.of_nat (length data) `mod` 256 :: data.

Definition type_opt (t : dhcp_type) : list Z := put_opt dhcpMessageType [dhcp_type_val t].
Definition size_opt : list Z := put_opt dhcpMaxMsgSize dhcpMsgSize.
Definition addr_opt (a : Z) : list Z := put_opt dhcpRequestedIPaddr (le_bytes 4 a).

(** The fourteen options the client asks for. *)
Definition requested_params : list Z :=
  [subnetMask; routersOnSubnet; dns; hostName; domainName; rootPath; defaultIPTTL;
   broadcastAddr; performMaskDiscovery; performRouterDiscovery; staticRoute;
   nisDomainName; nisServers; ntpServers].

Definition param_opt : list Z := put_opt dhcpParamRequest requested_params.

Section Build.
Context (v : dhcp_vars) (l : dhcp_link) (i : dhcpInterface) (o : dhcpOptions).

(** [HostName_len] counts the NUL. *)
Definition host_opt : list Z :=
  match v_HostName v with Some h => put_opt hostName (h ++ [0]) | None => [] end.

(** The class identifier and the client identifier, which already is an
    option, end the options. *)
Definition ident_opts : option (list Z) :=
  class ← class_bytes i; client ← client_bytes i;
  Some (dhcpClassIdentifier :: if_class_len i `mod` 256 :: class ++ client ++ [endOption]).

Definition client_opts : option (list Z) := client ← client_bytes i; Some (client ++ [endOption]).

(** The server identifier and the lease the server sent. *)
Definition sid_opt : option (list Z) :=
  put_opt dhcpServerIdentifier <$> opt_read 4 dhcpServerIdentifier o.

Definition lease_opt : option (list Z) :=
  match opt_val o dhcpIPaddrLeaseTime with
  | Some _ => put_opt dhcpIPaddrLeaseTime <$> opt_read 4 dhcpIPaddrLeaseTime o
  | None => Some []
  end.

(** Without RFC 1541 the address is an option. *)
Definition asked_addr_opt : list Z := if v_BeRFC1541 v then [] else addr_opt (if_ciaddr i).
Definition asked_ciaddr : Z := if v_BeRFC1541 v then if_ciaddr i else 0.

(** The header of a request. *)
Definition request_msg (xid secs flags ciaddr : Z) : dhcpMessage :=
  dhcp_zero <| dm_op := DHCP_BOOTREQUEST |>
    <| dm_htype := (if l_TokenRingIf l then ARPHRD_IEEE802_TR else ARPHRD_ETHER) `mod` 256 |>
    <| dm_hlen := Z.of_nat ETH_ALEN |> <| dm_xid := xid |> <| dm_secs := secs |>
    <| dm_flags := flags |> <| dm_ciaddr := ciaddr |>
    <| dm_chaddr := overlay (l_ClientHwAddr l) (replicate 16 0) |>.

Definition secs10 : Z := swap16 10.
Definition resp_flags : Z := if v_BroadcastResp v then swap16 BROADCAST_FLAG else 0.

(** [memset (&UdpIpMsgSend, ...)], the Ethernet header, the message, its
    options behind the cookie, and [udpipgen]. *)
Definition send_frame (dhost : list Z) (m : dhcpMessage) (opts : list Z) (saddr daddr ip_id : Z)
    : outcome (list Z * Z) :=
  if (frame_len <? msg_off + options_off + 4 + length opts)%nat then Fault else
  let frame := overlay (eth_header dhost (l_ClientHwAddr l) ETHERTYPE_IP) (replicate frame_len 0) in
  let frame := splice msg_off (dhcp_bytes m) frame in
  let frame := splice (msg_off + options_off) (magic_cookie ++ opts) frame in
  '(udpip, ip_id) ← accessed (udpipgen (drop eth_len frame) saddr daddr
      (swap16 DHCP_CLIENT_PORT) (swap16 DHCP_SERVER_PORT) (Z.of_nat dhcp_len) ip_id);
  Go (take eth_len frame ++ udpip, ip_id).

Definition buildDhcpDiscover (xid ip_id : Z) : outcome (list Z * Z) :=
  ident ← accessed ident_opts;
  let '(ciaddr, addr) :=
    if if_ciaddr i =? 0 then (0, []) else (asked_ciaddr, asked_addr_opt) in
  send_frame MAC_BCAST_ADDR (request_msg xid secs10 resp_flags ciaddr)
    (type_opt DISCOVER ++ size_opt ++ addr ++ put_opt dhcpIPaddrLeaseTime (nleaseTime v)
       ++ param_opt ++ host_opt ++ ident)
    0 INADDR_BROADCAST ip_id.

Definition buildDhcpRequest (xid ip_id : Z) : outcome (list Z * Z) :=
  sid ← accessed sid_opt; lease ← accessed lease_opt; ident ← accessed ident_opts;
  send_frame MAC_BCAST_ADDR (request_msg xid secs10 resp_flags asked_ciaddr)
    (type_opt REQUEST ++ size_opt ++ sid ++ asked_addr_opt ++ lease
       ++ param_opt ++ host_opt ++ ident)
    0 INADDR_BROADCAST ip_id.

Definition buildDhcpRenew (xid ip_id : Z) : outcome (list Z * Z) :=
  ident ← accessed ident_opts;
  send_frame (if_shaddr i) (request_msg xid secs10 resp_flags (if_ciaddr i))
    (type_opt REQUEST ++ size_opt ++ param_opt ++ host_opt ++ ident)
    (if_ciaddr i) (if_siaddr i) ip_id.

Definition buildDhcpRebind (xid ip_id : Z) : outcome (list Z * Z) :=
  lease ← accessed lease_opt; ident ← accessed ident_opts;
  send_frame MAC_BCAST_ADDR (request_msg xid secs10 resp_flags (if_ciaddr i))
    (type_opt REQUEST ++ size_opt ++ lease ++ param_opt ++ host_opt ++ ident)
    (if_ciaddr i) INADDR_BROADCAST ip_id.

Definition buildDhcpReboot (xid ip_id : Z) : outcome (list Z * Z) :=
  ident ← accessed ident_opts;
  send_frame MAC_BCAST_ADDR (request_msg xid secs10 resp_flags asked_ciaddr)
    (type_opt REQUEST ++ size_opt ++ asked_addr_opt ++ put_opt dhcpIPaddrLeaseTime (nleaseTime v)
       ++ param_opt ++ host_opt ++ ident)
    0 INADDR_BROADCAST ip_id.

Definition buildDhcpRelease (xid ip_id : Z) : outcome (list Z * Z) :=
  sid ← accessed sid_opt; client ← accessed client_opts;
  send_frame (if_shaddr i) (request_msg xid 0 0 (if_ciaddr i))
    (type_opt RELEASE ++ sid ++ client)
    (if_ciaddr i) (if_siaddr i) ip_id.

(** Compiled with [ARPCHECK] only. *)
Definition buildDhcpDecline (xid ip_id : Z) : outcome (list Z * Z) :=
  sid ← accessed sid_opt; client ← accessed client_opts;
  send_frame (if_shaddr i) (request_msg xid 0 0 asked_ciaddr)
    (type_opt DECLINE ++ sid ++ asked_addr_opt ++ client)
    0 (if_siaddr i) ip_id.

Definition buildDhcpInform (xid ip_id : Z) : outcome (list Z * Z) :=
  ident ← accessed ident_opts;
  send_frame MAC_BCAST_ADDR (request_msg xid secs10 resp_flags (v_inform_ipaddr v))
    (type_opt INFORM ++ size_opt ++ param_opt ++ host_opt ++ ident)
    0 INADDR_BROADCAST ip_id.
End Build.

(** ** The frame sent *)

(** The options of a message: the cookie, the options, and zeros. *)
Definition sent_options (opts : list Z) : list Z :=
  magic_cookie ++ opts ++ replicate (options_len - 4 - length opts) 0.

Lemma length_sent_options opts :
  (length opts ≤ options_len - 4)%nat → length (sent_options opts) = options_len.
Proof.
  intros H. unfold sent_options, options_len in *.
  rewrite !length_app, length_replicate. change (length magic_cookie) with 4%nat. lia.
Qed.

Lemma sent_options_ok opts : bytes_ok opts → bytes_ok (sent_options opts).
Proof.
  intros H. unfold sent_options. rewrite !bytes_ok_app. split_and!; [|done|auto with nid].
  apply be_bytes_ok.
Qed.

Lemma length_dhcp_head m : dhcp_ok m → length (dhcp_head m) = options_off.
Proof. intros H. unfold dhcp_head. by rewrite length_take, (length_dhcp_bytes m H). Qed.

Lemma dhcp_head_options m opts :
  dhcp_ok m → dhcp_head (m <| dm_options := opts |>) = dhcp_head m.
Proof.
  destruct m as [a b c d x s f ci yi si gi ch sn fl op].
  intros (_&_&_&_&_&_&_&_&_&_&_&[H1 _]&[H2 _]&[H3 _]&_). cbn in H1, H2, H3.
  unfold dhcp_head, dhcp_bytes. cbn [dm_op dm_htype dm_hlen dm_hops dm_xid dm_secs dm_flags
    dm_ciaddr dm_yiaddr dm_siaddr dm_giaddr dm_chaddr dm_sname dm_file dm_options set_field].
  rewrite !app_assoc.
  rewrite !take_app_length' by (autorewrite with bytes; rewrite H1, H2, H3; done). done.
Qed.

Section Sent.
Context (l : dhcp_link) (dhost : list Z) (m : dhcpMessage) (opts : list Z) (saddr daddr ip_id : Z).
Context (Hd : length dhost = 6%nat) (Hs : length (l_ClientHwAddr l) = 6%nat).
Context (Hm : dhcp_ok m) (Hz : dm_options m = replicate options_len 0).
Context (Ho : bytes_ok opts) (Hl : (length opts ≤ options_len - 4)%nat).

Definition sent_msg : dhcpMessage := m <| dm_options := sent_options opts |>.

Lemma sent_msg_ok : dhcp_ok sent_msg.
Proof.
  destruct Hm as (?&?&?&?&?&?&?&?&?&?&?&?&?&?&_). unfold dhcp_ok, sent_msg. cbn. split_and!; try tauto.
  - by apply length_sent_options.
  - by apply sent_options_ok.
Qed.

Lemma sent_msg_head : dhcp_head sent_msg = dhcp_head m.
Proof. by apply dhcp_head_options. Qed.

Definition sent_frame : list Z :=
  eth_header dhost (l_ClientHwAddr l) ETHERTYPE_IP
    ++ gen_ip saddr daddr ip_id (dhcp_bytes sent_msg)
    ++ gen_udp saddr daddr (swap16 DHCP_CLIENT_PORT) (swap16 DHCP_SERVER_PORT) (dhcp_bytes sent_msg)
    ++ dhcp_bytes sent_msg ++ replicate 964 0.

Lemma send_frame_eq :
  send_frame l dhost m opts saddr daddr ip_id = Go (sent_frame, u16_wrap (ip_id + 1)).
Proof.
  set (eth := eth_header dhost (l_ClientHwAddr l) ETHERTYPE_IP).
  assert (Le : length eth = eth_len) by (unfold eth, eth_header; by rewrite !length_app, Hd, Hs).
  pose proof (length_dhcp_bytes m Hm) as Lm.
  pose proof (length_dhcp_bytes _ sent_msg_ok) as Lsm.
  unfold send_frame. fold eth.
  rewrite (proj2 (Nat.ltb_ge _ _)) by (unfold frame_len, msg_off, options_off, options_len,
    eth_len, udpip_len, IPPACKET_SIZE in *; lia).
  assert (E1 : overlay eth (replicate frame_len 0)
               = eth ++ replicate udpip_len 0 ++ replicate dhcp_len 0 ++ replicate 964 0).
  { unfold overlay. f_equal. rewrite Le.
    rewrite (replicate_split eth_len 1540 frame_len), drop_app_length' by (done || apply length_replicate).
    by rewrite (replicate_split 28 1512 1540), (replicate_split 548 964 1512) by done. }
  rewrite E1, app_assoc, splice_mid; [|by rewrite length_app, Le|by rewrite Lm].
  assert (E2 : splice (msg_off + options_off) (magic_cookie ++ opts)
     ((eth ++ replicate udpip_len 0) ++ dhcp_bytes m ++ replicate 964 0)
     = eth ++ replicate udpip_len 0 ++ dhcp_bytes sent_msg ++ replicate 964 0).
  { rewrite (dhcp_bytes_split m Hm), (dhcp_bytes_split _ sent_msg_ok), sent_msg_head, Hz.
    change (dm_options sent_msg) with (sent_options opts). unfold sent_options.
    rewrite (replicate_split (length (magic_cookie ++ opts)) (options_len - 4 - length opts) options_len).
    2:{ rewrite length_app. change (length magic_cookie) with 4%nat. unfold options_len in *. lia. }
    rewrite <-!app_assoc, (app_assoc eth), (app_assoc _ (dhcp_head m)).
    rewrite splice_mid; [by rewrite <-!app_assoc| |by rewrite length_replicate].
    rewrite !length_app, Le, length_dhcp_head by done. done. }
  rewrite E2, drop_app_length' by done.
  pose proof (udpipgen_eq saddr daddr (swap16 DHCP_CLIENT_PORT) (swap16 DHCP_SERVER_PORT) ip_id
    (dhcp_bytes sent_msg)) as Hg.
  rewrite Lsm in Hg. rewrite Hg by (done || apply length_replicate).
  cbn [accessed]. rewrite bind_Go, take_app_length' by done. done.
Qed.
End Sent.

(** ** The messages and what they say *)

(** The argument [buildUdpIpMsg] of [dhcpSendAndRecv]. *)
Inductive client_msg :=
  | MDiscover | MRequest | MRenew | MRebind | MReboot | MRelease | MDecline | MInform.

Definition buildUdpIpMsg (k : client_msg) (v : dhcp_vars) (l : dhcp_link) (i : dhcpInterface)
    (o : dhcpOptions) (xid ip_id : Z) : outcome (list Z * Z) :=
  match k with
  | MDiscover => buildDhcpDiscover v l i xid ip_id
  | MRequest => buildDhcpRequest v l i o xid ip_id
  | MRenew => buildDhcpRenew v l i xid ip_id
  | MRebind => buildDhcpRebind v l i o xid ip_id
  | MReboot => buildDhcpReboot v l i xid ip_id
  | MRelease => buildDhcpRelease l i o xid ip_id
  | MDecline => buildDhcpDecline v l i o xid ip_id
  | MInform => buildDhcpInform v l i xid ip_id
  end.

Definition sent_type (k : client_msg) : dhcp_type :=
  match k with
  | MDiscover => DISCOVER
  | MRequest | MRenew | MRebind | MReboot => REQUEST
  | MRelease => RELEASE
  | MDecline => DECLINE
  | MInform => INFORM
  end.

(** The identifiers of an interface that [classclientsetup] filled. *)
Definition class_data (i : dhcpInterface) : list Z := take (Z.to_nat (if_class_len i)) (if_class_id i).
Definition client_data (i : dhcpInterface) : list Z :=
  drop 2 (take (Z.to_nat (if_client_len i)) (if_client_id i)).

Definition iface_ok (i : dhcpInterface) : Prop :=
  nid32_ok (if_ciaddr i) ∧ nid32_ok (if_siaddr i)
  ∧ (length (if_shaddr i) = 6%nat ∧ bytes_ok (if_shaddr i))
  ∧ length (if_class_id i) = 48%nat ∧ bytes_ok (if_class_id i) ∧ 0 < if_class_len i ≤ 48
  ∧ client_bytes i = Some (tlv_bytes (dhcpClientIdentifier, client_data i))
  ∧ tlv_ok (dhcpClientIdentifier, client_data i) ∧ (length (client_data i) ≤ 48)%nat.

#[export] Instance iface_ok_dec i : Decision (iface_ok i).
Proof. unfold iface_ok, nid32_ok. apply _. Defined.

Definition link_ok (l : dhcp_link) : Prop :=
  length (l_ClientHwAddr l) = 6%nat ∧ bytes_ok (l_ClientHwAddr l).

#[export] Instance link_ok_dec l : Decision (link_ok l).
Proof. unfold link_ok. apply _. Defined.

(** The variables of the command line; a host name of at most 163 characters
    leaves room for the other options. *)
Definition vars_ok (v : dhcp_vars) : Prop :=
  nid32_ok (v_inform_ipaddr v)
  ∧ match v_HostName v with Some h => bytes_ok h ∧ (length h ≤ 163)%nat | None => True end.

#[export] Instance vars_ok_dec v : Decision (vars_ok v).
Proof. unfold vars_ok, nid32_ok. destruct (v_HostName v); apply _. Defined.

Section Tlvs.
Context (v : dhcp_vars) (i : dhcpInterface) (o : dhcpOptions).

Definition host_tlv : list tlv :=
  match v_HostName v with Some h => [(hostName, h ++ [0])] | None => [] end.
Definition read_tlv (c : Z) : list tlv :=
  match opt_read 4 c o with Some d => [(c, d)] | None => [] end.
Definition addr_tlv : list tlv :=
  if v_BeRFC1541 v then [] else [(dhcpRequestedIPaddr, le_bytes 4 (if_ciaddr i))].
Definition ident_tlvs : list tlv :=
  [(dhcpParamRequest, requested_params)] ++ host_tlv
    ++ [(dhcpClassIdentifier, class_data i); (dhcpClientIdentifier, client_data i)].
Definition size_tlv : list tlv := [(dhcpMaxMsgSize, dhcpMsgSize)].
Definition nlease_tlv : list tlv := [(dhcpIPaddrLeaseTime, nleaseTime v)].
Definition client_tlv : list tlv := [(dhcpClientIdentifier, client_data i)].

(** The options of each message. *)
Definition msg_tlvs (k : client_msg) : list tlv :=
  (dhcpMessageType, [dhcp_type_val (sent_type k)]) ::
  match k with
  | MDiscover => size_tlv ++ (if if_ciaddr i =? 0 then [] else addr_tlv) ++ nlease_tlv ++ ident_tlvs
  | MRequest => size_tlv ++ read_tlv dhcpServerIdentifier ++ addr_tlv
                  ++ read_tlv dhcpIPaddrLeaseTime ++ ident_tlvs
  | MRenew | MInform => size_tlv ++ ident_tlvs
  | MRebind => size_tlv ++ read_tlv dhcpIPaddrLeaseTime ++ ident_tlvs
  | MReboot => size_tlv ++ addr_tlv ++ nlease_tlv ++ ident_tlvs
  | MRelease => read_tlv dhcpServerIdentifier ++ client_tlv
  | MDecline => read_tlv dhcpServerIdentifier ++ addr_tlv ++ client_tlv
  end.

(** Its header. *)
Definition msg_ciaddr (k : client_msg) : Z :=
  match k with
  | MDiscover => if if_ciaddr i =? 0 then 0 else asked_ciaddr v i
  | MRequest | MReboot | MDecline => asked_ciaddr v i
  | MRenew | MRebind | MRelease => if_ciaddr i
  | MInform => v_inform_ipaddr v
  end.

Definition msg_secs (k : client_msg) : Z :=
  match k with MRelease | MDecline => 0 | _ => secs10 end.
Definition msg_flags (k : client_msg) : Z :=
  match k with MRelease | MDecline => 0 | _ => resp_flags v end.

(** The addresses of the packet. *)
Definition msg_dhost (k : client_msg) : list Z :=
  match k with MRenew | MRelease | MDecline => if_shaddr i | _ => MAC_BCAST_ADDR end.
Definition msg_saddr (k : client_msg) : Z :=
  match k with MRenew | MRebind | MRelease => if_ciaddr i | _ => 0 end.
Definition msg_daddr (k : client_msg) : Z :=
  match k with MRenew | MRelease | MDecline => if_siaddr i | _ => INADDR_BROADCAST end.
End Tlvs.

(** What a message needs of the options the server sent. *)
Definition names_server (k : client_msg) : bool :=
  match k with MRequest | MRelease | MDecline => true | _ => false end.

Definition server_known (k : client_msg) (o : dhcpOptions) : Prop :=
  opts_ok o
  ∧ (names_server k → is_Some (opt_read 4 dhcpServerIdentifier o))
  ∧ (is_Some (opt_val o dhcpIPaddrLeaseTime) → is_Some (opt_read 4 dhcpIPaddrLeaseTime o)).

(** ** The messages are what they say *)

Lemma put_opt_tlv c d : (length d ≤ 255)%nat → put_opt c d = tlv_bytes (c, d).
Proof. intros H. unfold put_opt, tlv_bytes. cbn. by rewrite Z.mod_small by lia. Qed.

Lemma read_tlv_ok o c :
  opts_ok o → byte_ok c → c ≠ endOption → c ≠ padOption → Forall tlv_ok (read_tlv o c).
Proof.
  intros Ho Hc He Hp. unfold read_tlv. destruct (opt_read 4 c o) as [d|] eqn:E; [|constructor].
  constructor; [|constructor]. unfold opt_read in E. destruct (opt_val o c) as [b|] eqn:Eb; [|done].
  rewrite bind_ret in E. case_match eqn:El; [done|]. simplify_eq.
  apply Nat.ltb_ge in El. destruct (opts_ok_entry _ _ _ Ho Eb) as (_ & _ & Hb & _).
  split_and!; try done; [apply bytes_ok_take, Hb|..]; cbn [snd]; rewrite length_take; lia.
Qed.

Lemma length_read_tlv o c : (length (tlvs_bytes (read_tlv o c)) ≤ 6)%nat.
Proof.
  unfold read_tlv. destruct (opt_read 4 c o) as [d|] eqn:E; [|simpl; lia].
  unfold opt_read in E. destruct (opt_val o c); [|done]. rewrite bind_ret in E.
  case_match; [done|]. simplify_eq. assert (length (take 4 l) ≤ 4)%nat as Hl by (rewrite length_take; lia).
  revert Hl. generalize (take 4 l). intros d Hl. rewrite tlvs_bytes_cons. cbn [length snd].
  rewrite app_nil_r. lia.
Qed.

Lemma tlvs_bytes_one t : tlvs_bytes [t] = tlv_bytes t.
Proof. unfold tlvs_bytes. cbn [fmap list_fmap concat]. by rewrite app_nil_r. Qed.

Section Builds.
Context (v : dhcp_vars) (l : dhcp_link) (i : dhcpInterface) (o : dhcpOptions).
Context (Hv : vars_ok v) (Hl : link_ok l) (Hi : iface_ok i).

Lemma class_bytes_eq : class_bytes i = Some (class_data i).
Proof.
  destruct Hi as (_&_&_&Lc&_&Hc&_). unfold class_bytes, class_data.
  rewrite length_app, Lc. case_match eqn:E; zbool; [destruct E; zbool; lia|]. rewrite take_app_le by lia. done.
Qed.

Lemma class_tlv_ok : tlv_ok (dhcpClassIdentifier, class_data i).
Proof.
  destruct Hi as (_&_&_&Lc&Hb&Hc&_). unfold class_data. split_and!; try done.
  - by apply bytes_ok_take.
  - cbn. rewrite length_take. lia.
  - cbn. rewrite length_take. lia.
Qed.

Lemma ident_opts_eq :
  ident_opts i = Some (tlvs_bytes [(dhcpClassIdentifier, class_data i);
                                   (dhcpClientIdentifier, client_data i)] ++ [endOption]).
Proof.
  destruct Hi as (_&_&_&Lc&_&Hc&Hk&_). unfold ident_opts. rewrite class_bytes_eq, Hk, !bind_ret.
  rewrite tlvs_bytes_cons, tlvs_bytes_one. cbn [fst snd]. unfold class_data at 2.
  rewrite length_take, Lc, Nat.min_l, Z2Nat.id, Z.mod_small by lia. cbn [app]. by rewrite <-app_assoc.
Qed.

Lemma client_opts_eq : client_opts i = Some (tlvs_bytes (client_tlv i) ++ [endOption]).
Proof. destruct Hi as (_&_&_&_&_&_&Hk&_). unfold client_opts. unfold client_tlv. by rewrite Hk, tlvs_bytes_one. Qed.

Lemma host_opt_eq : host_opt v = tlvs_bytes (host_tlv v).
Proof.
  destruct Hv as [_ Hh]. unfold host_opt, host_tlv. destruct (v_HostName v) as [h|]; [|done].
  rewrite tlvs_bytes_one. apply put_opt_tlv. rewrite length_app. simpl. lia.
Qed.

Lemma host_tlv_ok :
  Forall tlv_ok (host_tlv v) ∧ (length (tlvs_bytes (host_tlv v)) ≤ 166)%nat.
Proof.
  destruct Hv as [_ Hh]. unfold host_tlv. destruct (v_HostName v) as [h|]; [|split; [constructor|simpl; lia]].
  destruct Hh as [Hb Hn]. split.
  - constructor; [|constructor]. split_and!; try done; cbn [snd]; rewrite ?length_app; simpl; try lia.
    apply bytes_ok_app. split; [done|]. by repeat constructor.
  - rewrite tlvs_bytes_cons. cbn [snd length]. rewrite !length_app. simpl. lia.
Qed.

Lemma asked_addr_opt_eq : asked_addr_opt v i = tlvs_bytes (addr_tlv v i).
Proof. unfold asked_addr_opt, addr_tlv. destruct (v_BeRFC1541 v); [done|]. by rewrite tlvs_bytes_one. Qed.

Lemma addr_tlv_ok :
  Forall tlv_ok (addr_tlv v i) ∧ (length (tlvs_bytes (addr_tlv v i)) ≤ 6)%nat.
Proof.
  unfold addr_tlv. destruct (v_BeRFC1541 v); [split; [constructor|simpl; lia]|].
  split; [|simpl; lia]. constructor; [|constructor]. split_and!; try done; [apply le_bytes_ok|simpl; lia..].
Qed.

Lemma read_opt_eq c : is_Some (opt_read 4 c o) →
  put_opt c <$> opt_read 4 c o = Some (tlvs_bytes (read_tlv o c)).
Proof.
  unfold read_tlv. intros [d E]. rewrite E, tlvs_bytes_one. simpl. f_equal. apply put_opt_tlv.
  unfold opt_read in E. destruct (opt_val o c); [|done]. rewrite bind_ret in E.
  case_match; [done|]. simplify_eq. rewrite length_take. lia.
Qed.

Lemma lease_opt_eq :
  (is_Some (opt_val o dhcpIPaddrLeaseTime) → is_Some (opt_read 4 dhcpIPaddrLeaseTime o)) →
  lease_opt o = Some (tlvs_bytes (read_tlv o dhcpIPaddrLeaseTime)).
Proof.
  intros H. unfold lease_opt. destruct (opt_val o dhcpIPaddrLeaseTime) eqn:E.
  - apply read_opt_eq. auto.
  - unfold read_tlv, opt_read. by rewrite E.
Qed.

Lemma client_tlv_ok : Forall tlv_ok (client_tlv i).
Proof. destruct Hi as (_&_&_&_&_&_&_&Hk&_). by constructor. Qed.

Lemma ident_tlvs_ok : Forall tlv_ok (ident_tlvs v i).
Proof.
  destruct host_tlv_ok as [Hh _]. unfold ident_tlvs. rewrite !Forall_app. split_and!; [|done|].
  - constructor; [|constructor]. by apply (bool_decide_unpack _); vm_compute.
  - constructor; [apply class_tlv_ok|apply client_tlv_ok].
Qed.

Lemma length_client_tlv : (length (tlvs_bytes (client_tlv i)) ≤ 50)%nat.
Proof.
  destruct Hi as (_&_&_&_&_&_&_&_&Hk). unfold client_tlv. rewrite tlvs_bytes_cons. cbn [snd length].
  rewrite length_app. simpl. lia.
Qed.

Lemma length_ident_tlvs : (length (tlvs_bytes (ident_tlvs v i)) ≤ 282)%nat.
Proof.
  destruct host_tlv_ok as [_ Hh]. pose proof length_client_tlv as Hk.
  destruct Hi as (_&_&_&Lc&_&Hc&_). unfold ident_tlvs.
  change [(dhcpClassIdentifier, class_data i); (dhcpClientIdentifier, client_data i)]
    with ([(dhcpClassIdentifier, class_data i)] ++ client_tlv i).
  rewrite !tlvs_bytes_app, !length_app, !tlvs_bytes_one.
  assert (length (class_data i) ≤ 48)%nat by (unfold class_data; rewrite length_take; lia).
  unfold tlv_bytes at 1 2. cbn [length fst snd].
  change (length requested_params) with 14%nat. lia.
Qed.

Lemma msg_tlvs_ok k :
  server_known k o →
  Forall tlv_ok (msg_tlvs v i o k) ∧ (length (tlvs_bytes (msg_tlvs v i o k)) ≤ 307)%nat.
Proof.
  intros (Ho & _). pose proof ident_tlvs_ok. pose proof length_ident_tlvs.
  pose proof client_tlv_ok. pose proof length_client_tlv.
  destruct addr_tlv_ok.
  assert (Forall tlv_ok (read_tlv o dhcpServerIdentifier)) by by apply read_tlv_ok.
  assert (Forall tlv_ok (read_tlv o dhcpIPaddrLeaseTime)) by by apply read_tlv_ok.
  pose proof (length_read_tlv o dhcpServerIdentifier). pose proof (length_read_tlv o dhcpIPaddrLeaseTime).
  assert (tlv_ok (dhcpMessageType, [dhcp_type_val (sent_type k)]))
    by (destruct k; by apply (bool_decide_unpack _); vm_compute).
  assert (Forall tlv_ok size_tlv) by (constructor; [|constructor]; by apply (bool_decide_unpack _); vm_compute).
  assert (Forall tlv_ok (nlease_tlv v)).
  { constructor; [|constructor]. split_and!; try done; [apply be_bytes_ok|simpl; lia..]. }
  unfold msg_tlvs. split.
  - constructor; [done|]. destruct k; rewrite ?Forall_app; split_and!; try done.
    by case_match.
  - rewrite tlvs_bytes_cons. change (length (tlvs_bytes size_tlv)) with 4%nat in *.
    destruct k; rewrite ?tlvs_bytes_app, ?length_app; cbn [length]; rewrite ?length_app;
      change (length (tlvs_bytes size_tlv)) with 4%nat;
      change (length (tlvs_bytes (nlease_tlv v))) with 6%nat; cbn [snd length];
      try (case_match; [change (length (tlvs_bytes [])) with O|]); lia.
Qed.

(** The header and the options of a message. *)
Definition msg_header (k : client_msg) (xid : Z) : dhcpMessage :=
  request_msg l xid (msg_secs k) (msg_flags v k) (msg_ciaddr v i k).
Definition msg_options (k : client_msg) : list Z := tlvs_bytes (msg_tlvs v i o k) ++ [endOption].

Lemma build_eq k xid ip_id :
  server_known k o →
  buildUdpIpMsg k v l i o xid ip_id
  = send_frame l (msg_dhost i k) (msg_header k xid) (msg_options k)
      (msg_saddr i k) (msg_daddr i k) ip_id.
Proof.
  intros (Ho & Hs & Ht).
  assert (Et : type_opt (sent_type k) = tlvs_bytes [(dhcpMessageType, [dhcp_type_val (sent_type k)])])
    by done.
  assert (Es : size_opt = tlvs_bytes size_tlv) by done.
  assert (Ep : param_opt = tlvs_bytes [(dhcpParamRequest, requested_params)]) by done.
  assert (En : put_opt dhcpIPaddrLeaseTime (nleaseTime v) = tlvs_bytes (nlease_tlv v)) by done.
  assert (Er : names_server k → sid_opt o = Some (tlvs_bytes (read_tlv o dhcpServerIdentifier)))
    by (intros; unfold sid_opt; auto using read_opt_eq).
  unfold msg_options, msg_tlvs, ident_tlvs, msg_header, msg_secs, msg_flags, msg_ciaddr,
    msg_dhost, msg_saddr, msg_daddr.
  set (t := (dhcpMessageType, [dhcp_type_val (sent_type k)])) in *.
  assert (Ha : ∀ b, tlvs_bytes (t :: b) ++ [endOption] = tlvs_bytes [t] ++ tlvs_bytes b ++ [endOption])
    by (intros b; by rewrite tlvs_bytes_cons, tlvs_bytes_one).
  rewrite Ha, <-Et.
  destruct k; cbn [buildUdpIpMsg names_server sent_type] in *;
    unfold buildDhcpDiscover, buildDhcpRequest, buildDhcpRenew, buildDhcpRebind, buildDhcpReboot,
      buildDhcpRelease, buildDhcpDecline, buildDhcpInform;
    rewrite ?Er, ?lease_opt_eq, ?ident_opts_eq, ?client_opts_eq by done;
    cbn [accessed]; rewrite ?bind_Go.
  all: rewrite ?Es, ?Ep, ?En, ?host_opt_eq, ?asked_addr_opt_eq.
  1: destruct (if_ciaddr i =? 0); rewrite ?asked_addr_opt_eq.
  all: by rewrite ?tlvs_bytes_app, <-?app_assoc.
Qed.

Lemma request_msg_ok xid secs flags ciaddr :
  nid32_ok xid → 0 ≤ secs < 2 ^ 16 → 0 ≤ flags < 2 ^ 16 → nid32_ok ciaddr →
  dhcp_ok (request_msg l xid secs flags ciaddr).
Proof.
  intros. destruct Hl as [Hh Hb]. unfold dhcp_ok, request_msg. cbn -[overlay replicate].
  split_and!; try done; try lia; try apply bytes_ok_replicate.
  - by destruct (l_TokenRingIf l).
  - rewrite length_overlay; rewrite ?Hh, ?length_replicate; lia.
  - apply bytes_ok_overlay; [apply bytes_ok_replicate|done].
Qed.

Lemma msg_header_ok k xid : nid32_ok xid → dhcp_ok (msg_header k xid).
Proof.
  intros Hx. destruct Hi as (Hc & _), Hv as [Hf _]. unfold msg_header; apply request_msg_ok; [exact Hx|..].
  - change (0 ≤ msg_secs k < 2 ^ 16). assert (0 ≤ secs10 < 2 ^ 16) by by apply (bool_decide_unpack _).
    destruct k; unfold msg_secs; lia.
  - assert (0 ≤ resp_flags v < 2 ^ 16)
      by (unfold resp_flags; destruct (v_BroadcastResp v); by apply (bool_decide_unpack _)).
    destruct k; unfold msg_flags; lia.
  - unfold msg_ciaddr, asked_ciaddr. destruct k; repeat case_match; done.
Qed.

Lemma msg_options_ok k :
  server_known k o → bytes_ok (msg_options k) ∧ (length (msg_options k) ≤ options_len - 4)%nat.
Proof.
  intros Hk. destruct (msg_tlvs_ok k Hk) as [Ht Hn]. unfold msg_options. split.
  - apply bytes_ok_app. split; [by apply tlvs_bytes_ok|by repeat constructor].
  - rewrite length_app. unfold options_len. change (length [endOption]) with 1%nat. lia.
Qed.

Lemma length_msg_dhost k : length (msg_dhost i k) = 6%nat.
Proof. destruct Hi as (_&_&[H _]&_). by destruct k. Qed.

(** Every message of a well-formed client can be built. *)
Lemma build_sent k xid ip_id :
  nid32_ok xid → server_known k o →
  buildUdpIpMsg k v l i o xid ip_id
  = Go (sent_frame l (msg_dhost i k) (msg_header k xid) (msg_options k)
          (msg_saddr i k) (msg_daddr i k) ip_id, u16_wrap (ip_id + 1)).
Proof.
  intros Hx Hk. rewrite build_eq by done. destruct (msg_options_ok k Hk), Hl.
  apply send_frame_eq; try done; [apply length_msg_dhost|by apply msg_header_ok].
Qed.
End Builds.

(** ** The identifiers *)

(** The members [classclientsetup] writes have their sizes. *)
Definition iface_sized (i : dhcpInterface) : Prop :=
  nid32_ok (if_ciaddr i) ∧ nid32_ok (if_siaddr i)
  ∧ (length (if_shaddr i) = 6%nat ∧ bytes_ok (if_shaddr i))
  ∧ (length (if_class_id i) = 48%nat ∧ bytes_ok (if_class_id i))
  ∧ (length (if_client_id i) = 50%nat ∧ bytes_ok (if_client_id i)).

(** Identifiers that fit: the class, given or the one of the system, has 1 to
    48 characters, the client identifier at most 47. *)
Definition idents_ok (v : dhcp_vars) (uname : list Z) : Prop :=
  let class := default uname (v_ClassID v) in
  (bytes_ok class ∧ (0 < length class ≤ 48)%nat)
  ∧ match v_ClientID v with Some id => bytes_ok id ∧ (length id ≤ 47)%nat | None => True end.

#[export] Instance idents_ok_dec v uname : Decision (idents_ok v uname).
Proof. unfold idents_ok. destruct (v_ClientID v); apply _. Defined.

Lemma iface_zero_sized : iface_sized iface_zero.
Proof. repeat split; (lia || by apply (bool_decide_unpack _); vm_compute). Qed.

Lemma put_client_id_ok i data :
  iface_sized i → 0 < if_class_len i ≤ 48 → bytes_ok data → (0 < length data ≤ 48)%nat →
  ∃ i', put_client_id (tlv_bytes (dhcpClientIdentifier, data)) i = Go i' ∧ iface_ok i'
    ∧ client_data i' = data ∧ class_data i' = class_data i.
Proof.
  intros (Hc & Hs & Hh & (Lc & Bc) & (Lk & Bk)) Hn Hb Hl. unfold put_client_id.
  assert (Lt : length (tlv_bytes (dhcpClientIdentifier, data)) = (2 + length data)%nat) by done.
  rewrite (proj2 (Nat.ltb_ge _ _)) by lia.
  set (i' := _ <| if_client_len := _ |>).
  assert (Et : take (Z.to_nat (if_client_len i')) (if_client_id i')
               = tlv_bytes (dhcpClientIdentifier, data)).
  { subst i'. cbn [if_client_len if_client_id set_field]. rewrite Nat2Z.id. apply take_overlay. }
  assert (Ed : client_data i' = data) by (unfold client_data; by rewrite Et).
  destruct Hn, Hh. exists i'. split; [done|]. split; [|done]. split_and!; try done.
  - rewrite Ed. unfold client_bytes. rewrite Et. subst i'. cbn [if_client_len if_client_id set_field].
    rewrite length_overlay by lia. rewrite Lk, Lt.
    by rewrite (proj2 (orb_false_iff _ _)) by (split; apply Z.ltb_ge; lia).
  - rewrite Ed. split_and!; try done; cbn [snd]; lia.
  - rewrite Ed. lia.
Qed.

Lemma classclientsetup_ok v uname l i :
  iface_sized i → idents_ok v uname → link_ok l →
  ∃ i', classclientsetup v uname l i = Go i' ∧ iface_ok i'.
Proof.
  intros Hi [[Bc Lc] Hk] [Lh Bh]. unfold classclientsetup.
  set (i1 := match v_ClassID v with Some id => _ | None => _ end).
  assert (iface_sized i1 ∧ 0 < if_class_len i1 ≤ 48) as [H1 Hn].
  { destruct Hi as (? & ? & [? ?] & [Lc' Bc'] & [? ?]). subst i1.
    destruct (v_ClassID v) as [id|]; cbn [from_option Datatypes.id] in Bc, Lc.
    - split; [|cbn; lia]. split_and!; try done; 
        [by rewrite <-Lc'; apply (length_overlay id); lia|].
      by apply bytes_ok_overlay.
    - split; [|cbn; lia]. split_and!; try done.
      + rewrite <-Lc'. apply (length_overlay (take 47 uname ++ [0])). rewrite length_app, length_take, Lc'. change (length [0]) with 1%nat. lia.
      + apply bytes_ok_overlay; [done|]. apply bytes_ok_app. split; [by apply bytes_ok_take|].
        by repeat constructor. }
  unfold clientIDsetup. destruct (v_ClientID v) as [id|].
  - destruct Hk as [Bk Lk]. replace (Z.of_nat (length id + 1) `mod` 256)
      with (Z.of_nat (length (0 :: id))) by (rewrite Z.mod_small by lia; cbn [length]; lia).
    destruct (put_client_id_ok i1 (0 :: id)) as (i' & E & Hi' & _); try done.
    + by constructor.
    + simpl. lia.
    + by exists i'.
  - set (ht := _ `mod` 256).
    destruct (put_client_id_ok i1 (ht :: l_ClientHwAddr l)) as (i' & E & Hi' & _); try done.
    + constructor; [|done]. subst ht. destruct (l_TokenRingIf l); by apply (bool_decide_unpack _); vm_compute.
    + simpl. lia.
    + exists i'. split; [|done]. rewrite <-E. unfold tlv_bytes. cbn [fst snd length]. by rewrite Lh.
Qed.
