(* ===== verification/TokenRing.v ===== *)
(** Token ring frames of the DHCP client: [eth2tr] and [tr2eth] of
    src/src/dhcpcd-1.3.22-pl4/client.c.  [struct trh_hdr] has 32 bytes (access
    and frame control, two addresses, [rcf], eight [rseg]) and [struct trllc]
    eight. *)

From S2P Require Import Prelude NidTypes UdpIp DhcpMsg.

Local Open Scope Z_scope.

Definition AC : Z := 0x10.
Definition LLC_FRAME : Z := 0x40.
Definition EXTENDED_SAP : Z := 0xAA.
Definition UI_CMD : Z := 0x03.
Definition TR_RII : Z := 0x80.
Definition TR_RCF_BROADCAST : Z := 0x8000.
Definition TR_RCF_LEN_MASK : Z := 0x1f00.
Definition trh_len : nat := 32.
Definition trllc_len : nat := 8.
Definition TR_MAXRIFLEN : nat := 18.

(** [x |= TR_RII] and [x &= ~TR_RII] on the first byte of an address. *)
Definition set_rii (a : list Z) : list Z :=
  match a with b :: a => Z.lor b TR_RII :: a | [] => [] end.
Definition clear_rii (a : list Z) : list Z :=
  match a with b :: a => Z.ldiff b TR_RII :: a | [] => [] end.
Definition has_rii (a : list Z) : bool := negb (Z.land (byte_at 0 a) TR_RII =? 0).

Definition trllc (ethertype : list Z) : list Z :=
  [EXTENDED_SAP; EXTENDED_SAP; UI_CMD; 0; 0; 0] ++ ethertype.

(** The header [eth2tr] installs. *)
Definition tr_header (dhost shost ethertype : list Z) : list Z :=
  if negb (Z.land (byte_at 0 dhost) 0x80 =? 0) then
    [AC; LLC_FRAME] ++ dhost ++ set_rii shost
      ++ le_bytes 2 (Z.lor 2 (swap16 (Z.lor TR_RCF_BROADCAST 0x70))) ++ trllc ethertype
  else [AC; LLC_FRAME] ++ dhost ++ shost ++ trllc ethertype.

(** The result is the object and the length of the frame. *)
Definition eth2tr (frame : list Z) (datalen : nat) : option (list Z * nat) :=
  if (length frame <? eth_len + datalen)%nat then None else
  let header := tr_header (slice 0 6 frame) (slice 6 6 frame) (slice 12 2 frame) in
  let len := length header in
  if (length frame <? len + datalen)%nat then None else
  Some (overlay header (splice len (slice eth_len datalen frame) frame), (len + datalen)%nat).

(** The length field of [rcf]; [None] is [return 1]. *)
Definition rif_len (rcf : Z) : option nat :=
  let hlen := Z.land rcf (swap16 TR_RCF_LEN_MASK) in
  if (hlen <? 2) || Z.odd hlen then None else Some (Z.to_nat hlen).

(** The test of [pllc], [hlen] bytes behind the addresses. *)
Definition llc_ok (frame : list Z) (hlen : nat) : bool :=
  (byte_at (eth_len + hlen) frame =? EXTENDED_SAP) && (byte_at (eth_len + hlen + 2) frame =? UI_CMD).

(** The frame without its token ring header, [memmove] of 1500 bytes
    included. *)
Definition tr_strip (frame : list Z) (shost : list Z) (hlen : nat) : option (list Z) :=
  let data := (eth_len + hlen + trllc_len)%nat in
  if (length frame <? data + IPPACKET_SIZE)%nat then None else
  let ethertype := slice (data - 2) 2 frame in
  let frame := splice 12 ethertype (splice 6 shost (splice 0 (slice 2 6 frame) frame)) in
  Some (splice eth_len (slice data IPPACKET_SIZE frame) frame).

(** [fake_rif]: the frame with a routing field.  [None] is an access outside
    the object, [Some None] is [return 1]. *)
Definition tr_routed (frame shost : list Z) : option (option (list Z)) :=
  match rif_len (le_val (slice eth_len 2 frame)) with
  | None => Some None
  | Some hlen =>
      if (length frame <? eth_len + hlen + trllc_len)%nat then None
      else if llc_ok frame hlen then Some <$> tr_strip frame (clear_rii shost) hlen
      else Some None
  end.

Definition tr2eth (frame : list Z) : option (option (list Z)) :=
  if (length frame <? trh_len)%nat then None else
  let shost := slice 8 6 frame in
  if has_rii shost then tr_routed frame shost
  else if llc_ok frame 0 then Some <$> tr_strip frame shost 0
  else tr_routed frame shost.

(** ** Conversion there and back *)

Lemma eth2tr_shape dhost shost ty data rest :
  length dhost = 6%nat → length shost = 6%nat → length ty = 2%nat →
  (10 ≤ length rest)%nat →
  ∃ rest', eth2tr (dhost ++ shost ++ ty ++ data ++ rest) (length data)
           = Some (tr_header dhost shost ty ++ data ++ rest', length (tr_header dhost shost ty ++ data))
    ∧ length (tr_header dhost shost ty ++ data ++ rest')
      = length (dhost ++ shost ++ ty ++ data ++ rest).
Proof.
  intros Hd Hs Ht Hr.
  set (f := dhost ++ shost ++ ty ++ data ++ rest).
  assert (Lf : length f = (14 + length data + length rest)%nat)
    by (subst f; rewrite !length_app, Hd, Hs, Ht; lia).
  assert (S0 : slice 0 6 f = dhost) by (apply (slice_app_at 0 6 [] dhost); done).
  assert (S1 : slice 6 6 f = shost) by (by apply slice_app_at).
  assert (S2 : slice 12 2 f = ty).
  { subst f. rewrite (app_assoc dhost). apply slice_app_at; [|done]. by rewrite length_app, Hd, Hs. }
  assert (S3 : slice eth_len (length data) f = data).
  { subst f. rewrite (app_assoc dhost), (app_assoc _ ty). apply slice_app_at; [|done].
    by rewrite !length_app, Hd, Hs, Ht. }
  unfold eth2tr. rewrite S0, S1, S2, S3. set (h := tr_header dhost shost ty).
  assert (Lh : (length h = 22 ∨ length h = 24)%nat).
  { subst h. unfold tr_header, trllc. destruct shost; [done|].
    case_match; cbn [set_rii]; rewrite !length_app, ?length_le_bytes; rewrite Hd;
      rewrite ?length_app, Ht; simpl in *; lia. }
  rewrite (proj2 (Nat.ltb_ge _ _)) by (unfold eth_len; lia).
  rewrite (proj2 (Nat.ltb_ge _ _)) by lia.
  exists (drop (length h + length data) f). split.
  - do 2 f_equal; [|by rewrite length_app]. unfold overlay, splice.
    rewrite drop_app_length' by (rewrite length_take; lia). done.
  - rewrite !length_app, length_drop. lia.
Qed.

Lemma clear_set_rii a : has_rii a = false → clear_rii (set_rii a) = a.
Proof.
  destruct a as [|b a]; [done|]. unfold has_rii, byte_at. cbn [set_rii clear_rii lookup list_lookup].
  change (default 0 (Some b)) with b. intros H. f_equal.
  apply negb_false_iff, Z.eqb_eq in H. apply Z.bits_inj'. intros n Hn.
  assert (Hb : Z.testbit (Z.land b TR_RII) n = false) by (rewrite H; apply Z.testbit_0_l).
  rewrite Z.land_spec in Hb. rewrite Z.ldiff_spec, Z.lor_spec.
  by destruct (Z.testbit b n), (Z.testbit TR_RII n).
Qed.

Lemma has_set_rii a : a ≠ [] → has_rii (set_rii a) = true.
Proof.
  destruct a as [|b a]; [done|]. intros _. unfold has_rii, byte_at. cbn [set_rii lookup list_lookup].
  change (default 0 (Some (Z.lor b TR_RII))) with (Z.lor b TR_RII).
  apply negb_true_iff, Z.eqb_neq. intros H.
  assert (Hb : Z.testbit (Z.land (Z.lor b TR_RII) TR_RII) 7 = false) by (rewrite H; apply Z.testbit_0_l).
  rewrite Z.land_spec, Z.lor_spec in Hb. change (Z.testbit TR_RII 7) with true in Hb.
  by rewrite orb_true_r in Hb.
Qed.

(** Stripping a header [AC; LLC_FRAME] with a routing field [rif]. *)
Lemma tr_strip_shape dhost shost shost' rif ty body :
  length dhost = 6%nat → length shost = 6%nat → length shost' = 6%nat → length ty = 2%nat →
  (length rif = 0 ∨ length rif = 2)%nat →
  (IPPACKET_SIZE ≤ length body)%nat →
  ∃ tail, tr_strip ([AC; LLC_FRAME] ++ dhost ++ shost' ++ rif ++ trllc ty ++ body) shost (length rif)
          = Some (dhost ++ shost ++ ty ++ take IPPACKET_SIZE body ++ tail).
Proof.
  intros Hd Hs Hs' Ht Hr Hb.
  set (f := [AC; LLC_FRAME] ++ dhost ++ shost' ++ rif ++ trllc ty ++ body).
  assert (Ll : length (trllc ty) = 8%nat) by (unfold trllc; rewrite length_app, Ht; done).
  assert (Lf : length f = (22 + length rif + length body)%nat)
    by (subst f; rewrite !length_app, Hd, Hs', Ll; change (length [AC; LLC_FRAME]) with 2%nat; lia).
  assert (S0 : slice 2 6 f = dhost) by by apply (slice_app_at 2 6 [AC; LLC_FRAME] dhost).
  assert (S1 : slice (eth_len + length rif + trllc_len - 2) 2 f = ty).
  { replace f with (([AC; LLC_FRAME] ++ dhost ++ shost' ++ rif
                     ++ [EXTENDED_SAP; EXTENDED_SAP; UI_CMD; 0; 0; 0]) ++ ty ++ body)
      by (subst f; unfold trllc; by rewrite <-!app_assoc).
    apply slice_app_at; [|done]. rewrite !length_app, Hd, Hs'. unfold eth_len, trllc_len.
    cbn [length]. lia. }
  assert (S2 : slice (eth_len + length rif + trllc_len) IPPACKET_SIZE f = take IPPACKET_SIZE body).
  { replace f with (([AC; LLC_FRAME] ++ dhost ++ shost' ++ rif ++ trllc ty) ++ body)
      by (subst f; by rewrite <-!app_assoc).
    unfold slice. rewrite drop_app_length'; [done|].
    rewrite !length_app, Hd, Hs', Ll. unfold eth_len, trllc_len. cbn [length]. lia. }
  unfold tr_strip. rewrite (proj2 (Nat.ltb_ge _ _)) by (unfold eth_len, trllc_len; lia).
  rewrite S0, S1.
  assert (G : splice 12 ty (splice 6 shost (splice 0 dhost f)) = dhost ++ shost ++ ty ++ drop 14 f).
  { change (splice 0 dhost f) with (dhost ++ drop (length dhost) f). rewrite splice_at by done.
    rewrite app_assoc, splice_at by (rewrite length_app, Hd, Hs; done).
    rewrite !drop_drop, Hd, Hs, Ht. by rewrite <-!app_assoc. }
  rewrite G, !app_assoc, splice_at, <-!app_assoc by (rewrite !length_app, Hd, Hs, Ht; done).
  assert (S3 : slice (eth_len + length rif + trllc_len) IPPACKET_SIZE (dhost ++ shost ++ ty ++ drop 14 f)
               = take IPPACKET_SIZE body).
  { rewrite <-S2. unfold slice. f_equal. rewrite !app_assoc.
    rewrite drop_app_ge by (rewrite !length_app, Hd, Hs, Ht; unfold eth_len, trllc_len; lia).
    rewrite drop_drop. f_equal. rewrite !length_app, Hd, Hs, Ht. unfold eth_len, trllc_len. lia. }
  rewrite S3. by eexists.
Qed.

(** The bytes of an address. *)
Ltac explode6 l := do 6 (destruct l as [|? l]; [done|]); destruct l; [|done].

Lemma llc_ok_shape dhost shost rif ty body :
  length dhost = 6%nat → length shost = 6%nat → (length rif = 0 ∨ length rif = 2)%nat →
  llc_ok ([AC; LLC_FRAME] ++ dhost ++ shost ++ rif ++ trllc ty ++ body) (length rif) = true.
Proof.
  intros Hd Hs Hr. explode6 dhost. explode6 shost.
  destruct rif as [|? [|? [|? rif]]]; simpl in Hr; try lia; done.
Qed.

Lemma tr2eth_shape dhost shost ty body :
  length dhost = 6%nat → length shost = 6%nat → length ty = 2%nat →
  has_rii shost = false → (IPPACKET_SIZE ≤ length body)%nat →
  ∃ tail, tr2eth (tr_header dhost shost ty ++ body)
          = Some (Some (dhost ++ shost ++ ty ++ take IPPACKET_SIZE body ++ tail)).
Proof.
  intros Hd Hs Ht Hr Hb. unfold tr_header.
  assert (Ll : length (trllc ty) = 8%nat) by (unfold trllc; rewrite length_app, Ht; done).
  assert (Hn : shost ≠ []) by by intros ->.
  assert (Hb' : (1500 ≤ length body)%nat) by done.
  assert (Lf : ∀ s' rif, length s' = 6%nat →
    length ([AC; LLC_FRAME] ++ dhost ++ s' ++ rif ++ trllc ty ++ body)
    = (22 + length rif + length body)%nat).
  { intros s' rif Hs'. rewrite !length_app, Hd, Hs', Ll. change (length [AC; LLC_FRAME]) with 2%nat. lia. }
  assert (S1 : ∀ s' r, length s' = 6%nat → slice 8 6 ([AC; LLC_FRAME] ++ dhost ++ s' ++ r) = s').
  { intros s' r Hs'. rewrite (app_assoc [_;_]). apply slice_app_at; [|done]. by rewrite length_app, Hd. }
  destruct (negb (Z.land (byte_at 0 dhost) 0x80 =? 0)); rewrite <-!app_assoc.
  - set (rif := le_bytes 2 (Z.lor 2 (swap16 (Z.lor TR_RCF_BROADCAST 0x70)))).
    assert (Hs' : length (set_rii shost) = 6%nat) by (by destruct shost).
    destruct (tr_strip_shape dhost shost (set_rii shost) rif ty body) as [tail E]; [done..|by right|done|].
    exists tail. unfold tr2eth. rewrite (proj2 (Nat.ltb_ge _ _)) by (rewrite Lf by done; unfold trh_len; lia).
    rewrite S1, has_set_rii by done. unfold tr_routed.
    assert (S2 : slice eth_len 2 ([AC; LLC_FRAME] ++ dhost ++ set_rii shost ++ rif ++ trllc ty ++ body) = rif).
    { rewrite (app_assoc [_;_]), (app_assoc _ (set_rii shost)).
      apply slice_app_at; [|done]. by rewrite !length_app, Hd, Hs'. }
    rewrite S2. change (rif_len (le_val rif)) with (Some (length rif)). cbv beta iota.
    rewrite (proj2 (Nat.ltb_ge _ _)) by (rewrite Lf by done; unfold eth_len, trllc_len; lia).
    rewrite llc_ok_shape by (done || by right). by rewrite clear_set_rii, E.
  - destruct (tr_strip_shape dhost shost shost [] ty body) as [tail E]; [done..|by left|done|].
    exists tail. unfold tr2eth. pose proof (Lf shost [] Hs) as L0. cbn [app length] in E, L0.
    rewrite (proj2 (Nat.ltb_ge _ _)) by (cbn [app length]; rewrite L0; unfold trh_len; lia). cbv zeta.
    rewrite S1, Hr by done. pose proof (llc_ok_shape dhost shost [] ty body Hd Hs) as Hk.
    cbn [app length] in Hk |- *. rewrite Hk by by left. by rewrite E.
Qed.

(** A frame converted for the ring and back keeps its addresses, its type and
    its data. *)
Lemma tr_roundtrip dhost shost ty data rest :
  length dhost = 6%nat → length shost = 6%nat → length ty = 2%nat → has_rii shost = false →
  (IPPACKET_SIZE + 10 ≤ length data + length rest)%nat → (length data ≤ IPPACKET_SIZE)%nat →
  (10 ≤ length rest)%nat →
  ∃ tr len tail, eth2tr (dhost ++ shost ++ ty ++ data ++ rest) (length data) = Some (tr, len)
    ∧ tr2eth tr = Some (Some (dhost ++ shost ++ ty ++ data ++ tail)).
Proof.
  intros Hd Hs Ht Hr Hl Hn Hm.
  destruct (eth2tr_shape dhost shost ty data rest Hd Hs Ht Hm) as (rest' & E & L).
  assert (Lb : (IPPACKET_SIZE ≤ length (data ++ rest'))%nat).
  { assert (length (tr_header dhost shost ty) ≤ 24)%nat.
    { unfold tr_header, trllc. destruct shost; [done|].
      case_match; cbn [set_rii]; rewrite !length_app, ?length_le_bytes; rewrite Hd;
        rewrite ?length_app, Ht; simpl in *; lia. }
    rewrite (length_app (tr_header _ _ _)), !(length_app dhost), !(length_app shost), (length_app ty),
      Hd, Hs, Ht, (length_app data rest) in L. lia. }
  destruct (tr2eth_shape dhost shost ty (data ++ rest') Hd Hs Ht Hr Lb) as [tail E'].
  do 2 eexists. exists (drop (length data) (take IPPACKET_SIZE (data ++ rest')) ++ tail).
  split; [exact E|]. rewrite E'. do 5 f_equal. rewrite app_assoc. f_equal.
  rewrite <-(take_drop (length data) (take IPPACKET_SIZE (data ++ rest'))) at 1. f_equal.
  rewrite take_take, Nat.min_l by done. apply take_app_length.
Qed.
