(* ===== verification/DhcpEnv.v ===== *)
(** The variables of the DHCP client and what it exchanges with the system:
    a program is a function of the variables and of the answers the system
    gives to its calls, in order. *)

From S2P Require Import Prelude NidTypes UdpIp DhcpMsg DhcpOptions BuildMsg.

Local Open Scope Z_scope.

(** ** The system *)

Definition SIGHUP : Z := 1.
Definition SIGKILL : Z := 9.
Definition SIGALRM : Z := 14.
Definition SIGCHLD : Z := 17.

(** The answer to a call, or to a wait. *)
Inductive answer :=
  | Succeeds | Fails
  | Number (n : Z)                             (* time, random *)
  | Clock (sec usec : Z)                       (* gettimeofday *)
  | Ready | Silence                            (* select: the descriptor is set, or not *)
  | Datagram (d : list Z) (daemon : option bool)
      (* recvfrom; and when the daemon is told: None if socket fails,
         otherwise whether connect succeeds *)
  | Hardware (family : Z) (addr : list Z)      (* SIOCGIFHWADDR *)
  | Text (s : list Z)                          (* a string, the contents of a file *)
  | Signal (sig : Z).                          (* a signal while the client waits *)

Record rtentry := mkRt {
  rt_dst : Z; rt_gateway : Z; rt_genmask : Z; rt_flags : Z; rt_metric : Z; rt_window : Z;
}.

(** The calls made that change something outside the client. *)
Inductive effect :=
  | Sendto (frame : list Z)
  | TellDaemon (msg : list Z)
  | SetAddress (a : Z) | SetNetmask (a : Z) | SetBroadcast (a : Z)
  | SetFlags (f : Z)
  | AddRoute (r : rtentry)
  | Rename (from to : list Z)
  | WriteFile (name content : list Z)
  | Unlink (name : list Z)
  | Execute (path hostinfo prm : list Z)
  | SetHost (name : list Z) | SetDomain (name : list Z)
  | CloseSocket.

(** ** The client *)

(** The functions [currState] can point to. *)
Inductive cstate := SReboot | SInit | SBound | SRenew | SRebind | SStop | SStart | SInform.

#[export] Instance cstate_eq_dec : EqDecision cstate.
Proof. solve_decision. Defined.

(** [c_recv] and [c_msg]: [UdpIpMsgRecv] and where [DhcpMsgRecv] points in it;
    [c_alarm]: the seconds of the pending [alarm], 0 for none; [c_host0] and
    [c_dom0]: [InitialHostName] and [InitialDomainName], [None] for a length of
    -1. *)
Record client := mkClient {
  c_vars : dhcp_vars;
  c_link : dhcp_link;
  c_iface : dhcpInterface;
  c_opts : dhcpOptions;
  c_send : list Z;
  c_recv : list Z;
  c_msg : nat;
  c_ip_id : Z;
  c_req_time : Z;
  c_prev_ip_addr : Z;
  c_saved_flags : Z;
  c_alarm : Z;
  c_state : cstate;
  c_resolv_renamed : bool; c_yp_renamed : bool; c_ntp_renamed : bool;
  c_host0 : option (list Z); c_dom0 : option (list Z);
  c_hostinfo : list Z;
  c_in : list answer;
  c_out : list effect;
}.

#[export] Instance eta_client : Eta client := λ c,
  mkClient (c_vars c) (c_link c) (c_iface c) (c_opts c) (c_send c) (c_recv c) (c_msg c)
    (c_ip_id c) (c_req_time c) (c_prev_ip_addr c) (c_saved_flags c) (c_alarm c) (c_state c)
    (c_resolv_renamed c) (c_yp_renamed c) (c_ntp_renamed c) (c_host0 c) (c_dom0 c)
    (c_hostinfo c) (c_in c) (c_out c).

(** ** Programs *)

Inductive res (A : Type) :=
  | Val (x : A)
  | Jump                   (* siglongjmp *)
  | Exited (code : Z)
  | Crash                  (* an access outside an object, or through NULL *)
  | Waiting.               (* no answer yet, or not one to this call *)
Arguments Val {A} _.
Arguments Jump {A}.
Arguments Exited {A} _.
Arguments Crash {A}.
Arguments Waiting {A}.

Definition M (A : Type) : Type := client → res A * client.

#[export] Instance M_ret : MRet M := λ A x c, (Val x, c).
#[export] Instance M_bind : MBind M := λ A B f m c,
  match m c with
  | (Val x, c) => f x c
  | (Jump, c) => (Jump, c)
  | (Exited n, c) => (Exited n, c)
  | (Crash, c) => (Crash, c)
  | (Waiting, c) => (Waiting, c)
  end.

Definition exit {A} (n : Z) : M A := λ c, (Exited n, c).
Definition longjmp {A} : M A := λ c, (Jump, c).

(** [if ( sigsetjmp (env, ...) ) handler], then the rest of the function. *)
Definition setjmp {A} (handler body : M A) : M A := λ c,
  match body c with
  | (Jump, c) => handler c
  | r => r
  end.

Definition get {A} (f : client → A) : M A := λ c, (Val (f c), c).
Definition modify (f : client → client) : M unit := λ c, (Val tt, f c).

Definition lift {A} (m : outcome A) : M A := λ c,
  match m with
  | Go x => (Val x, c)
  | ProcessExit => (Exited 1, c)
  | ThreadExit | Fault => (Crash, c)
  end.

(** The next answer, if it answers this call. *)
Definition ask {A} (f : answer → option A) : M A := λ c,
  match c_in c with
  | a :: rest => match f a with Some x => (Val x, c <| c_in := rest |>) | None => (Waiting, c) end
  | [] => (Waiting, c)
  end.

Definition emit (e : effect) : M unit := modify (λ c, c <| c_out ::= λ l, l ++ [e] |>).

Definition succeeds : M bool :=
  ask (λ a, match a with Succeeds => Some true | Fails => Some false | _ => None end).
Definition number : M Z := ask (λ a, match a with Number n => Some n | _ => None end).
Definition clock : M (Z * Z) := ask (λ a, match a with Clock s u => Some (s, u) | _ => None end).

(** A text, or the failure to get it. *)
Definition text : M (option (list Z)) :=
  ask (λ a, match a with Text s => Some (Some s) | Fails => Some None | _ => None end).

Definition alarm (n : Z) : M unit := modify (λ c, c <| c_alarm := n |>).

(** A call that ends the program when it fails. *)
Definition must : M unit := ok ← succeeds; if (ok : bool) then mret tt else exit 1.

(** [sendto (dhcpSocket, ...)]. *)
Definition sendto (frame : list Z) : M bool := _ ← emit (Sendto frame); succeeds.

(** [memcpy (..., IfName, IfName_len)] into a socket address of [room] bytes
    from the member written on: a name of up to [IFNAMSIZ] (16) bytes is
    accepted, and [sa_data] ends the [struct sockaddr] after 14.  The 14 bytes of
    [spkt_device] have [spkt_protocol] behind them, two more bytes of the same
    [struct sockaddr_pkt], which [bind] is not given. *)
Definition SA_DATA_ROOM : nat := 14.
Definition SPKT_DEVICE_ROOM : nat := 16.

Definition device_name (room : nat) : M unit :=
  v ← get c_vars;
  lift (if (length (v_IfName v) <=? room)%nat then Go tt else Fault).

(** [buildUdpIpMsg (xid)]. *)
Definition build (k : client_msg) (xid : Z) : M unit :=
  c ← get id;
  '(frame, ip_id) ← lift (buildUdpIpMsg k (c_vars c) (c_link c) (c_iface c) (c_opts c) xid (c_ip_id c));
  modify (λ c, c <| c_send := frame |> <| c_ip_id := ip_id |>).

(** ** Rules *)

Lemma M_bind_val {A B} (f : A → M B) (m : M A) c x c' :
  m c = (Val x, c') → (m ≫= f) c = f x c'.
Proof. intros E. unfold mbind, M_bind. by rewrite E. Qed.
