(* ===== verification/Arp.v ===== *)
(** ARP messages of the DHCP client, src/src/dhcpcd-1.3.22-pl4/arp.c, and what
    the client does when it stops: [dhcpRelease] and [dhcpStop] of client.c,
    and the handler of signals, signals.c. *)

From S2P Require Import Prelude NidTypes Inet UdpIp DhcpMsg DhcpOptions BuildMsg TokenRing DhcpEnv.

Local Open Scope Z_scope.

(** ** [arpMessage] *)

Definition ARPOP_REQUEST : Z := 1.
Definition ARPOP_REPLY : Z := 2.

Record arpMessage := mkArp {
  am_dhost : list Z; am_shost : list Z;
  am_htype : Z; am_ptype : Z; am_hlen : Z; am_plen : Z; am_operation : Z;
  am_sHaddr : list Z; am_sInaddr : Z; am_tHaddr : list Z; am_tInaddr : Z;
}.

Definition arp_len : nat := 60.
Definition BasicArpLen : nat := 28.

Definition arp_bytes (m : arpMessage) : list Z :=
  eth_header (am_dhost m) (am_shost m) ETHERTYPE_ARP
    ++ le_bytes 2 (swap16 (am_htype m)) ++ le_bytes 2 (swap16 (am_ptype m))
    ++ [am_hlen m; am_plen m] ++ le_bytes 2 (swap16 (am_operation m))
    ++ am_sHaddr m ++ le_bytes 4 (am_sInaddr m) ++ am_tHaddr m ++ le_bytes 4 (am_tInaddr m)
    ++ replicate 18 0.

(** The members read from a frame. *)
Definition arp_type (f : list Z) : list Z := slice 12 2 f.
Definition arp_operation (f : list Z) : list Z := slice 20 2 f.
Definition arp_sInaddr (f : list Z) : list Z := slice 28 4 f.
Definition arp_tHaddr (f : list Z) : list Z := slice 32 6 f.

Definition arp_htype (l : dhcp_link) : Z :=
  if l_TokenRingIf l then ARPHRD_IEEE802_TR else ARPHRD_ETHER.

(** [ArpMsgSend] of [arpCheck], [arpRelease] and [arpInform]. *)
Definition arp_request (l : dhcp_link) (i : dhcpInterface) : arpMessage :=
  mkArp MAC_BCAST_ADDR (l_ClientHwAddr l) (arp_htype l) ETHERTYPE_IP (Z.of_nat ETH_ALEN) 4
    ARPOP_REQUEST (l_ClientHwAddr l) 0 (replicate 6 0) (if_ciaddr i).

Definition arp_release (l : dhcp_link) (i : dhcpInterface) : arpMessage :=
  mkArp MAC_BCAST_ADDR (l_ClientHwAddr l) (arp_htype l) ETHERTYPE_IP 0 4
    ARPOP_REPLY (replicate 6 0) (if_ciaddr i) (replicate 6 0) INADDR_BROADCAST.

Definition arp_inform (l : dhcp_link) (i : dhcpInterface) : arpMessage :=
  mkArp MAC_BCAST_ADDR (l_ClientHwAddr l) (arp_htype l) ETHERTYPE_IP (Z.of_nat ETH_ALEN) 4
    ARPOP_REPLY (l_ClientHwAddr l) (if_ciaddr i) (if_shaddr i) INADDR_BROADCAST.

(** What is sent of [ArpMsgSend] and the object afterwards: on a token ring
    [eth2tr] converts it in place, whatever it holds, so that a second sending
    converts the converted object again. *)
Definition arp_frame (l : dhcp_link) (obj : list Z) : option (list Z * list Z) :=
  if l_TokenRingIf l then
    '(obj, len) ← eth2tr obj BasicArpLen; Some (take len obj, obj)
  else Some (obj, obj).

(** One sending: whether it succeeds, and the object. *)
Definition send_arp (obj : list Z) : M (bool * list Z) :=
  l ← get c_link;
  _ ← device_name SA_DATA_ROOM;
  '(f, obj) ← lift (accessed (arp_frame l obj));
  ok ← sendto f;
  mret (ok, obj).

(** [arpRelease] and [arpInform] fill the object and send it once. *)
Definition arp_once (m : dhcp_link → dhcpInterface → arpMessage) : M bool :=
  c ← get id;
  '(ok, _) ← send_arp (arp_bytes (m (c_link c) (c_iface c)));
  mret ok.

Definition arpRelease : M bool := arp_once arp_release.
Definition arpInform : M bool := arp_once arp_inform.

(** ** Files *)

(** [snprintf (buf, size, "%s/dhcpcd-%s<suffix>", ConfigDir, IfNameExt)]. *)
Definition config_path (size : nat) (suffix : list Z) (v : dhcp_vars) : list Z :=
  take (size - 1) (v_ConfigDir v ++ chars "/dhcpcd-" ++ v_IfNameExt v ++ suffix).

Definition pid_file (v : dhcp_vars) : list Z := config_path 64 (chars ".pid") v.
Definition cache_file (v : dhcp_vars) : list Z := config_path 128 (chars ".cache") v.

Definition RESOLV_CONF : list Z := chars "/etc/resolv.conf".
Definition NIS_CONF : list Z := chars "/etc/yp.conf".
Definition NTP_CONF : list Z := chars "/etc/ntp.conf".
Definition saved_as (f : list Z) : list Z := f ++ chars ".sv".

Definition deleteDhcpCache : M unit := v ← get c_vars; emit (Unlink (cache_file v)).
Definition deletePidFile : M unit := v ← get c_vars; emit (Unlink (pid_file v)).

(** The child of [fork]; a file name from the command line is a format, taken
    here to have no directive. *)
Definition execute_on_change (prm : list Z) : M unit :=
  c ← get id;
  let path := match v_Cfilename (c_vars c) with
              | Some f => take 127 f
              | None => take 127 (v_ConfigDir (c_vars c) ++ chars "/dhcpcd.exe")
              end in
  emit (Execute path (c_hostinfo c) prm).

(** ** Stopping *)

Definition releaseDhcpOptions : M unit := modify (λ c, c <| c_opts := opts_zero |>).

Definition IFF_UP : Z := 0x1.
Definition IFF_BROADCAST : Z := 0x2.
Definition IFF_NOTRAILERS : Z := 0x20.
Definition IFF_RUNNING : Z := 0x40.

(** [saved_if_flags] is a [short]. *)
Definition flags_down (saved : Z) : Z := Z.land saved (Z.lnot IFF_UP).
Definition flags_up (saved : Z) : Z :=
  Z.lor (Z.lor (Z.lor (Z.lor saved IFF_UP) IFF_BROADCAST) IFF_NOTRAILERS) IFF_RUNNING.

Definition when (b : bool) (m : M unit) : M unit := if b then m else mret tt.

Definition dhcpStop : M cstate :=
  _ ← releaseDhcpOptions;
  c ← get id;
  let v := c_vars c in
  _ ← when (negb (v_TestCase v))
        (_ ← emit (SetAddress 0);
         when (length (v_IfName v) =? length (v_IfNameExt v))%nat
           (emit (SetFlags (flags_down (c_saved_flags c)))));
  _ ← emit CloseSocket;
  _ ← when (c_resolv_renamed c) (emit (Rename (saved_as RESOLV_CONF) RESOLV_CONF));
  _ ← when (c_yp_renamed c) (emit (Rename (saved_as NIS_CONF) NIS_CONF));
  _ ← when (c_ntp_renamed c) (emit (Rename (saved_as NTP_CONF) NTP_CONF));
  _ ← execute_on_change (chars "down");
  mret SStart.

(** The name an initial length of -1 gives to [sethostname] is refused. *)
Definition restore (set : list Z → effect) (initial : option (list Z)) : M unit :=
  match initial with Some n => emit (set n) | None => mret tt end.

(** [random ()], here and below, is an answer. *)
Definition dhcpRelease : M cstate :=
  _ ← deleteDhcpCache;
  addr ← get (λ c, if_ciaddr (c_iface c));
  if addr =? 0 then mret SInit else
  xid ← number;
  _ ← build MRelease xid;
  _ ← device_name SA_DATA_ROOM;
  frame ← get c_send;
  _ ← sendto (take (msg_off + dhcp_len) frame);
  _ ← arpRelease;
  c ← get id;
  _ ← when (v_SetHostName (c_vars c)) (restore SetHost (c_host0 c));
  _ ← when (v_SetDomainName (c_vars c)) (restore SetDomain (c_dom0 c));
  _ ← modify (λ c, c <| c_iface ::= λ i, i <| if_ciaddr := 0 |> |>);
  mret SInit.

(** ** Signals *)

(** Installed for 1 to 15 and for [SIGCHLD]; 9 cannot be caught. *)
Definition handled (sig : Z) : bool :=
  (1 <=? sig) && (sig <? 16) && negb (sig =? SIGKILL) || (sig =? SIGCHLD).

(** The handler returns for [SIGCHLD] only. *)
Definition terminate (sig : Z) : M unit :=
  _ ← dhcpStop; _ ← deletePidFile; exit sig.

Definition sigHandler (sig : Z) : M unit :=
  if sig =? SIGCHLD then mret tt
  else if sig =? SIGALRM then
    s ← get c_state;
    match s with
    | SBound | SRenew | SRebind | SReboot => longjmp
    | _ => terminate sig
    end
  else
    _ ← (if sig =? SIGHUP then (_ ← dhcpRelease; mret tt) else mret tt);
    terminate sig.

(** A signal while the client waits.  An alarm comes only when one is
    pending. *)
Definition interrupted (sig : Z) : M unit := λ c,
  if negb (handled sig) then (Waiting, c)
  else if sig =? SIGALRM then
    if c_alarm c =? 0 then (Waiting, c) else sigHandler sig (c <| c_alarm := 0 |>)
  else sigHandler sig c.

Inductive waited := WReady | WSilence | WSignal (sig : Z).

Definition wait_answer (a : answer) : option waited :=
  match a with
  | Ready => Some WReady | Silence => Some WSilence | Signal s => Some (WSignal s) | _ => None
  end.

(** [peekfd (dhcpSocket, ...) == 0]: [select] sees a datagram; an interrupted
    [select] fails. *)
Definition peekfd : M bool :=
  w ← ask wait_answer;
  match w with
  | WReady => mret true
  | WSilence => mret false
  | WSignal sig => _ ← interrupted sig; mret false
  end.

(** [sleep (n)]; a signal that is handled ends it. *)
Definition sleep : M unit :=
  w ← ask wait_answer;
  match w with
  | WSignal sig => interrupted sig
  | _ => mret tt
  end.

(** ** [arpCheck]

    Compiled with [ARPCHECK] only; [ArpMsgRecv] is an object of 60 bytes. *)

Definition recv_arp : M (option (list Z)) :=
  ask (λ a, match a with
            | Datagram d _ => Some (Some (overlay (take arp_len d) (replicate arp_len 0)))
            | Fails => Some None
            | _ => None
            end).

(** The reply looked for: an [ARPOP_REPLY] to this hardware address from the
    address asked for. *)
Definition arp_in_use (l : dhcp_link) (i : dhcpInterface) (f : list Z) : bool :=
  bool_decide (arp_type f = be_bytes 2 ETHERTYPE_ARP)
  && bool_decide (arp_operation f = be_bytes 2 ARPOP_REPLY)
  && bool_decide (arp_tHaddr f = l_ClientHwAddr l)
  && bool_decide (arp_sInaddr f = le_bytes 4 (if_ciaddr i)).

Inductive arp_verdict := AUsed | ANext.

(** One turn of the loop that receives. *)
Definition arp_examine (f : list Z) : M arp_verdict :=
  c ← get id;
  g ← (if l_TokenRingIf (c_link c) then lift (accessed (tr2eth f)) else mret (Some f));
  mret (match g with
        | None => ANext
        | Some f => if arp_in_use (c_link c) (c_iface c) f then AUsed else ANext
        end).

(** [probes] are left; [receiving] tells which of the two loops runs; [obj] is
    [ArpMsgSend].  The result is what the function returns. *)
Fixpoint arp_loop (fuel probes : nat) (receiving : bool) (obj : list Z) : M Z :=
  match fuel with
  | O => λ c, (Waiting, c)
  | S fuel =>
      if receiving then
        d ← recv_arp;
        match d with
        | None => mret (-1)
        | Some f =>
            a ← arp_examine f;
            match a with
            | AUsed => mret 1
            | ANext => more ← peekfd; arp_loop fuel probes more obj
            end
        end
      else
        match probes with
        | O => mret 0
        | S probes =>
            '(ok, obj) ← send_arp obj;
            if (ok : bool) then (ready ← peekfd; arp_loop fuel probes ready obj) else mret (-1)
        end
  end.

(** [ArpMsgSend] is filled once.  Every turn of either loop takes an answer. *)
Definition arpCheck : M Z := λ c,
  arp_loop (S (length (c_in c))) 5 false (arp_bytes (arp_request (c_link c) (c_iface c))) c.
