(* ===== verification/SendRecv.v ===== *)
(** Sending a message and waiting for the reply: [dhcpSendAndRecv] of
    src/src/dhcpcd-1.3.22-pl4/client.c. *)

From S2P Require Import Prelude NidTypes Inet PacketHandler UdpIp DhcpMsg DhcpOptions BuildMsg.
From S2P Require Import TokenRing DhcpEnv Arp.

Local Open Scope Z_scope.

(** ** Time *)

(** Conversion to a 32-bit [int]. *)
Definition i32_wrap (z : Z) : Z := (z + 2 ^ 31) `mod` 2 ^ 32 - 2 ^ 31.

(** The result, the structure [y] as the function leaves it, and the value
    returned. *)
Definition timeval_subtract (x y : timeval) : timeval * timeval * bool :=
  let y :=
    if tv_usec x <? tv_usec y then
      let nsec := Z.quot (tv_usec y - tv_usec x) 1000000 + 1 in
      mkTv (tv_sec y + nsec) (tv_usec y - 1000000 * nsec)
    else y in
  let y :=
    if 1000000 <? tv_usec x - tv_usec y then
      let nsec := Z.quot (tv_usec x - tv_usec y) 1000000 in
      mkTv (tv_sec y - nsec) (tv_usec y + 1000000 * nsec)
    else y in
  (mkTv (tv_sec x - tv_sec y) (tv_usec x - tv_usec y), y, tv_sec x <? tv_sec y).

(** ** Finding a message in a frame *)

(** The search for the first two bytes of an IP header without options, over
    the first 18 bytes of the packet. *)
Fixpoint find_ip_from (n : nat) (off : nat) (frame : list Z) : option nat :=
  match n with
  | O => None
  | S n =>
      if (byte_at off frame =? 0x45) && (byte_at (off + 1) frame =? 0x00) then Some off
      else find_ip_from n (off + 2) frame
  end.

Definition find_ip (frame : list Z) : nat := default eth_len (find_ip_from 9 eth_len frame).

(** What the tests of a frame give: the object, which [udpipchk] may have
    changed, where [DhcpMsgRecv] points, and whether the frame goes on to
    [parseDhcpMsgRecv].  [None] for [e_msg] leaves the pointer alone. *)
Record examined := mkEx { e_frame : list Z; e_msg : option nat; e_good : bool }.

(** [htype] compared with [(char) ARPHRD_IEEE802_TR]. *)
Definition known_htype (h : Z) : bool := (h =? ARPHRD_ETHER) || (h =? ARPHRD_IEEE802_TR `mod` 256).

Definition reply_for (xid : Z) (m : dhcpMessage) : bool :=
  (dm_xid m =? xid) && known_htype (dm_htype m) && (dm_op m =? DHCP_BOOTREPLY).

(** The tests up to the checksum, on the position [off] of the packet; [len] is
    what [recvfrom] returned. *)
Definition packet_sane (token_ring : bool) (off : nat) (len : Z) (frame : list Z) : bool :=
  let ip_len := swap16 (le_val (slice (off + 2) 2 frame)) in
  let hl := 4 * Z.land (byte_at off frame) 15 in
  let uh_dport := le_val (slice (off + 22) 2 frame) in
  let uh_ulen := swap16 (le_val (slice (off + 24) 2 frame)) in
  (byte_at (off + 9) frame =? IPPROTO_UDP)
  && (negb token_ring || (uh_dport =? swap16 DHCP_CLIENT_PORT))
  && (ip_len <=? len - Z.of_nat eth_len)
  && (uh_ulen <=? ip_len - hl).

Definition examine (checksum token_ring : bool) (xid len : Z) (frame : list Z) : option examined :=
  if negb (bool_decide (slice 12 2 frame = be_bytes 2 ETHERTYPE_IP)) then Some (mkEx frame None false)
  else
    let off := find_ip frame in
    let hl := 4 * Z.land (byte_at off frame) 15 in
    if negb (packet_sane token_ring off len frame) then Some (mkEx frame None false) else
    '(frame, bad) ← (if checksum then udpipchk frame off else Some (frame, 0));
    if negb (bad =? 0) then Some (mkEx frame None false) else
    let msg := (off + Z.to_nat hl + 8)%nat in
    Some (mkEx frame (Some msg) (reply_for xid (recv_msg frame msg))).

(** ** [dhcpSendAndRecv] *)

(** [j], [timeout], [begin], and which of the inner loops runs. *)
Record sr_state := mkSr { sr_j : Z; sr_timeout : Z; sr_begin : timeval; sr_receiving : bool }.

Definition next_rto (j : Z) : Z := if DHCP_MAX_RTO <? j + j then DHCP_MAX_RTO else j + j.

(** The frame as [sendto] gets it. *)
Definition dhcp_frame : M (list Z) :=
  c ← get id;
  let n := (udpip_len + dhcp_len)%nat in
  if l_TokenRingIf (c_link c) then
    '(f, len) ← lift (accessed (eth2tr (c_send c) n));
    _ ← modify (λ c, c <| c_send := f |>);
    mret (take len f)
  else mret (take (eth_len + n) (c_send c)).

(** [sendto], [gettimeofday] and [random]: the time of sending, or [return -1]. *)
Definition send_message (k : client_msg) (xid : Z) : M (option timeval) :=
  _ ← device_name SA_DATA_ROOM;
  _ ← build k xid;
  f ← dhcp_frame;
  ok ← sendto f;
  if negb ok then mret None else
  '(s, u) ← clock; _ ← number; mret (Some (mkTv s u)).

(** [recvfrom] into the cleared [UdpIpMsgRecv]: the bytes received, and what
    [Datagram] says of the daemon. *)
Definition recv_frame : M (option (Z * option bool)) :=
  d ← ask (λ a, match a with
                | Datagram d daemon => Some (Some (take frame_len d, daemon))
                | Fails => Some None
                | _ => None
                end);
  match d with
  | None => mret None
  | Some (d, daemon) =>
      _ ← modify (λ c, c <| c_recv := overlay d (replicate frame_len 0) |>);
      mret (Some (Z.of_nat (length d), daemon))
  end.

(** [parseDhcpMsgRecv ()] and its effect on the daemon. *)
Definition parse_reply (daemon : option bool) : M Z :=
  c ← get id;
  let m := recv_msg (c_send c) msg_off in
  '(s, told, t) ← lift (parseDhcpMsgRecv (nleaseTime (c_vars c)) (dm_ciaddr m)
      (bool_decide (is_Some daemon)) (default false daemon)
      (mkParse (c_opts c) (c_recv c) (c_msg c)));
  _ ← modify (λ c, c <| c_opts := ps_opts s |> <| c_recv := ps_recv s |>);
  _ ← match told with Some d => emit (TellDaemon d) | None => mret tt end;
  mret t.

(** The body of the loop that receives: the next value of [timeout], or the
    value to return. *)
Definition receive_turn (xid : Z) (msg : dhcp_type) (s : sr_state) : M (sr_state + Z) :=
  r ← recv_frame;
  match r with
  | None => mret (inr (-1))
  | Some (len, daemon) =>
      c ← get id;
      let tr := l_TokenRingIf (c_link c) in
      g ← (if tr then lift (accessed (tr2eth (c_recv c))) else mret (Some (c_recv c)));
      match g with
      | None => mret (inl s)
      | Some f =>
          '(sec, usec) ← clock; r ← number;
          let '(diff, begin, _) := timeval_subtract (mkTv sec usec) (sr_begin s) in
          let timeout := i32_wrap (sr_j s - tv_sec diff * 1000000 - tv_usec diff + r `mod` 200000) in
          let s := mkSr (sr_j s) timeout begin (sr_receiving s) in
          e ← lift (accessed (examine (v_DoCheckSum (c_vars c)) tr xid len f));
          _ ← modify (λ c, c <| c_recv := e_frame e |> <| c_msg := default (c_msg c) (e_msg e) |>);
          if negb (e_good e) then mret (inl s) else
          t ← parse_reply daemon;
          if t =? dhcp_type_val msg then mret (inr 0)
          else if t =? dhcp_type_val NAK then mret (inr 1)
          else mret (inl s)
      end
  end.

(** [while ( timeout > 0 && peekfd (dhcpSocket, timeout) == 0 )]. *)
Definition more_to_receive (s : sr_state) : M bool :=
  if 0 <? sr_timeout s then peekfd else mret false.

Fixpoint sr_loop (fuel : nat) (k : client_msg) (xid : Z) (msg : dhcp_type) (s : sr_state) : M Z :=
  match fuel with
  | O => λ c, (Waiting, c)
  | S fuel =>
      if sr_receiving s then
        r ← receive_turn xid msg s;
        match r with
        | inr n => mret n
        | inl s =>
            more ← more_to_receive s;
            sr_loop fuel k xid msg (mkSr (sr_j s) (sr_timeout s) (sr_begin s) more)
        end
      else
        t ← send_message k xid;
        match t with
        | None => mret (-1)
        | Some begin =>
            ready ← peekfd;
            sr_loop fuel k xid msg (mkSr (next_rto (sr_j s)) (sr_timeout s) begin ready)
        end
  end.

(** Every turn takes an answer, that of [sendto] or of [recvfrom]. *)
Definition dhcpSendAndRecv (xid : Z) (msg : dhcp_type) (k : client_msg) : M Z := λ c,
  sr_loop (S (length (c_in c))) k xid msg
    (mkSr (DHCP_INITIAL_RTO `div` 2) 0 (mkTv 0 0) false) c.
