(* ===== verification/DhcpConfig.v ===== *)
(** What the DHCP client does with an address it got:
    src/src/dhcpcd-1.3.22-pl4/dhcpconfig.c.  The interface, the routes, the
    files of the resolver, NIS and NTP, the host information and the cache. *)

From S2P Require Import Prelude NidTypes Inet UdpIp DhcpMsg DhcpOptions BuildMsg DhcpEnv Arp.
From S2P Require Import SendRecv.

Local Open Scope Z_scope.

(** ** Texts *)

Definition nl : list Z := [10].

(** ["%u.%u.%u.%u"] *)
Definition quad (b : list Z) : list Z := inet_ntop4 (le_val b).

(** ["%u"]: the decimal digits, at most ten. *)
Fixpoint digits (n : nat) (z : Z) : list Z :=
  match n with
  | O => []
  | S n => if z <? 10 then [48 + z] else digits n (z `div` 10) ++ [48 + z `mod` 10]
  end.

Definition unsigned_text (z : Z) : list Z := digits 10 z.

(** Six times ["%02X"]. *)
Fixpoint hex_addr (a : list Z) : list Z :=
  match a with
  | [] => []
  | [b] => hex2 b
  | b :: a => hex2 b ++ [58] ++ hex_addr a
  end.

(** [cleanmetas]: quotes become spaces, up to the NUL. *)
Fixpoint cleanmetas (s : list Z) : option (list Z) :=
  match s with
  | [] => None
  | c :: s => if c =? 0 then Some (c :: s) else cons (if c =? 39 then 32 else c) <$> cleanmetas s
  end.

(** The string in a block. *)
Definition string_of (b : list Z) : option (list Z) :=
  if (strlen b <? length b)%nat then Some (cstr b) else None.

(** ** Options as lists of addresses *)

(** [n] bytes of option [i] from [off] on. *)
Definition opt_at (i : Z) (off n : nat) (o : dhcpOptions) : option (list Z) :=
  b ← opt_val o i; if (length b <? off + n)%nat then None else Some (slice off n b).

(** The values of [i] in [for (i=start;i<len;i+=step)]. *)
Definition offsets (start step len : nat) : list nat :=
  (λ k, (start + step * k)%nat) <$> seq 0 ((len - start + (step - 1)) / step).

(** The items of [n] bytes at those places. *)
Definition opt_items (i : Z) (start n : nat) (o : dhcpOptions) : option (list (list Z)) :=
  mapM (λ off, opt_at i off n o) (offsets start n (Z.to_nat (opt_len o i))).

(** [",%u.%u.%u.%u"] of each item but the first. *)
Definition quad_list (items : list (list Z)) : list Z :=
  match items with
  | [] => []
  | q :: qs => quad q ++ concat ((λ q, [44] ++ quad q) <$> qs)
  end.

Definition opt_string (i : Z) (o : dhcpOptions) : option (list Z) := b ← opt_val o i; string_of b.

(** ** [getgenmask] *)

Fixpoint mask_loop (fuel : nat) (t p : Z) : option Z :=
  match fuel with
  | O => None
  | S fuel => if Z.land t p =? 0 then Some t else mask_loop fuel (Z.shiftr t 1) p
  end.

(** The bits of the host part of each class. *)
Definition class_host (p : Z) : Z :=
  if IN_CLASSA p then 0x00ffffff
  else if IN_CLASSB p then 0x0000ffff
  else if IN_CLASSC p then 0x000000ff
  else 0.

Definition mask_fuel : nat := 25.

Definition getgenmask (ip_in : Z) : option Z :=
  let p := swap32 ip_in in
  t ← mask_loop mask_fuel (class_host p) p;
  Some (swap32 (u32_wrap (Z.lnot t))).

(** ** Routes *)

Definition RTF_UP : Z := 0x1.
Definition RTF_GATEWAY : Z := 0x2.
Definition RTF_HOST : Z := 0x4.
Definition RTF_WINDOW : Z := 0x80.
Definition ENETUNREACH : Z := 101.

(** [ioctl (dhcpSocket, SIOCADDRT, ...)]: 0, or [errno]. *)
Definition add_route (r : rtentry) : M Z := _ ← emit (AddRoute r); number.

Definition default_route (window gateway : Z) : rtentry :=
  mkRt 0 gateway 0 (Z.lor (Z.lor RTF_UP RTF_GATEWAY) (if window =? 0 then 0 else RTF_WINDOW)) 1 window.

Definition gateway_host (gateway : Z) : rtentry :=
  mkRt gateway 0 0xffffffff (Z.lor RTF_UP RTF_HOST) 0 0.

Definition setDefaultRoute (gateway : Z) : M Z :=
  w ← get (λ c, v_Window (c_vars c));
  e ← add_route (default_route w gateway);
  if e =? 0 then mret 0
  else if e =? ENETUNREACH then
    e ← add_route (gateway_host gateway);
    if e =? 0 then
      e ← add_route (default_route w gateway);
      mret (if e =? 0 then 0 else -1)
    else mret 0
  else mret (-1).

(** A static route: destination and gateway. *)
Definition static_route (item : list Z) : option rtentry :=
  let dst := le_val (take 4 item) in
  mask ← getgenmask dst;
  let flags := Z.lor RTF_UP RTF_GATEWAY in
  Some (mkRt dst (le_val (drop 4 item)) mask
          (if mask =? 0xffffffff then Z.lor flags RTF_HOST else flags) 1 0).

Definition iterate {A B} (f : A → M B) : list A → M unit :=
  fix go l := match l with [] => mret tt | x :: l => _ ← f x; go l end.

Definition set_static_routes : M unit :=
  o ← get c_opts;
  items ← lift (accessed (opt_items staticRoute 0 8 o));
  iterate (λ item, r ← lift (accessed (static_route item)); add_route r) items.

(** The first router, as often as there are routers. *)
Definition set_default_routes : M unit :=
  c ← get id;
  let o := c_opts c in
  if v_SetDHCPDefaultRoutes (c_vars c) then
    if 3 <? opt_len o routersOnSubnet then
      iterate (λ _, gw ← lift (accessed (opt_u32 routersOnSubnet o)); setDefaultRoute gw)
        (offsets 0 4 (Z.to_nat (opt_len o routersOnSubnet)))
    else mret tt
  else if 0 <? v_default_router (c_vars c) then
    _ ← setDefaultRoute (v_default_router (c_vars c)); mret tt
  else mret tt.

(** ** The interface *)

(** Whether the function goes on. *)
Definition set_interface : M bool :=
  c ← get id;
  let o := c_opts c in
  _ ← emit (SetAddress (if_ciaddr (c_iface c)));
  ok ← succeeds;
  if negb ok then mret false else
  mask ← lift (accessed (opt_u32 subnetMask o));
  _ ← emit (SetNetmask mask);
  ok ← succeeds;
  ok ← (if (ok : bool) then mret true else (_ ← emit (SetNetmask 0xffffffff); succeeds));
  if negb ok then mret false else
  bcast ← lift (accessed (opt_u32 broadcastAddr o));
  _ ← emit (SetBroadcast bcast);
  mret true.

(** ** Files

    The text of a file, [None] for an access outside a block. *)

Definition resolv_text (o : dhcpOptions) : option (list Z) :=
  servers ← opt_items dns 0 4 o;
  search ← (if opt_len o domainName =? 0 then Some []
            else (λ d, chars "search " ++ d ++ nl) <$> opt_string domainName o);
  Some (concat ((λ q, chars "nameserver " ++ quad q ++ nl) <$> servers) ++ search).

(** [domain ? domain : "localdomain"] *)
Definition nis_domain (o : dhcpOptions) : option (list Z) :=
  let i := if opt_len o nisDomainName =? 0 then domainName else nisDomainName in
  match opt_val o i with
  | Some b => string_of b
  | None => Some (chars "localdomain")
  end.

Definition nis_text (o : dhcpOptions) : option (list Z) :=
  servers ← opt_items nisServers 0 4 o;
  domain ← nis_domain o;
  Some (concat ((λ q, chars "domain " ++ domain ++ chars " server " ++ quad q ++ nl) <$> servers)
          ++ if opt_len o nisServers =? 0 then chars "domain " ++ domain ++ chars " broadcast" ++ nl
             else []).

Definition ntp_server_text (q : list Z) : list Z :=
  chars "restrict " ++ quad q ++ nl ++ chars "server " ++ quad q ++ nl.

Definition ntp_text (ciaddr : Z) (o : dhcpOptions) : option (list Z) :=
  mask ← opt_read 4 subnetMask o;
  servers ← (if 4 <=? opt_len o ntpServers then opt_items ntpServers 0 4 o else Some []);
  Some (chars "restrict default noquery notrust nomodify" ++ nl
     ++ chars "restrict 127.0.0.1" ++ nl
     ++ chars "restrict " ++ inet_ntop4 (Z.land ciaddr (le_val mask)) ++ chars " mask " ++ quad mask ++ nl
     ++ (if 4 <=? opt_len o ntpServers then concat (ntp_server_text <$> servers)
         else chars "fudge 127.127.1.0 stratum 3" ++ nl ++ chars "server 127.127.1.0" ++ nl)
     ++ chars "driftfile /etc/ntp.drift" ++ nl ++ chars "logfile /var/log/ntp.log" ++ nl).

(** The old file is kept under another name; the result tells whether that
    worked.  The contents are read and written only if [fopen] succeeds. *)
Definition replace_file (name : list Z) (contents : option (list Z)) : M bool :=
  _ ← emit (Rename name (saved_as name));
  renamed ← succeeds;
  opened ← succeeds;
  _ ← when opened (text ← lift (accessed contents); emit (WriteFile name text));
  mret (renamed : bool).

Definition write_resolv : M unit :=
  c ← get id;
  when (v_ReplResolvConf (c_vars c))
    (r ← replace_file RESOLV_CONF (resolv_text (c_opts c));
     modify (λ c, c <| c_resolv_renamed := r |>)).

Definition write_nis : M unit :=
  c ← get id;
  when (v_ReplNISConf (c_vars c))
    (r ← replace_file NIS_CONF (nis_text (c_opts c));
     modify (λ c, c <| c_yp_renamed := r |>)).

Definition write_ntp : M unit :=
  c ← get id;
  when (v_ReplNTPConf (c_vars c))
    (r ← replace_file NTP_CONF (ntp_text (if_ciaddr (c_iface c)) (c_opts c));
     modify (λ c, c <| c_ntp_renamed := r |>)).

(** ** Host name and domain name *)

(** [while ( *dname > 32 )], on a signed [char]. *)
Fixpoint printable (s : list Z) : list Z :=
  match s with
  | [] => []
  | c :: s => if 32 <? schar c then c :: printable s else []
  end.

(** The text behind the first dot, or where the loop stops without one. *)
Fixpoint after_dot (s : list Z) : list Z :=
  match s with
  | [] => []
  | c :: s' => if 32 <? schar c then (if c =? 46 then s' else after_dot s') else s
  end.

(** A name as an option, the length stored in a byte. *)
Definition put_name (i : Z) (name : list Z) (o : dhcpOptions) : dhcpOptions :=
  opt_count (opt_put i (Z.of_nat (length name) `mod` 256) (name ++ [0]) o).

Definition update_opts (f : dhcpOptions → dhcpOptions) : M unit :=
  modify (λ c, c <| c_opts ::= f |>).

(** The name [sethostname] or [setdomainname] gets. *)
Definition set_name (i : Z) (set : list Z → effect) : M unit :=
  o ← get c_opts;
  if opt_len o i =? 0 then mret tt else
  name ← lift (accessed (opt_at i 0 (Z.to_nat (opt_len o i)) o));
  emit (set name).

(** The result of [gethostbyaddr], if it was called. *)
Definition set_host : M (option (list Z)) :=
  c ← get id;
  if negb (v_SetHostName (c_vars c)) then mret None else
  hp ← (if opt_len (c_opts c) hostName =? 0 then text else mret None);
  _ ← match hp with Some h => update_opts (put_name hostName (printable h)) | None => mret tt end;
  _ ← (match c_host0 c with
       | None => n ← text; modify (λ c, c <| c_host0 := n |>)
       | Some _ => mret tt
       end);
  _ ← set_name hostName SetHost;
  mret hp.

Definition set_domain (hp : option (list Z)) : M unit :=
  c ← get id;
  if negb (v_SetDomainName (c_vars c)) then mret tt else
  _ ← (match c_dom0 c with
       | None => n ← text; modify (λ c, c <| c_dom0 := n |>)
       | Some _ => mret tt
       end);
  _ ← (if opt_len (c_opts c) domainName =? 0 then
         hp ← match hp with Some h => mret (Some h) | None => text end;
         match hp with
         | Some h => when (0 <? length (after_dot h))%nat
                       (update_opts (put_name domainName (after_dot h)))
         | None => mret tt
         end
       else mret tt);
  set_name domainName SetDomain.

(** ** Host information *)

Definition VERSION : list Z := chars "1.3.22-pl4".

Definition iface_bytes (i : dhcpInterface) : list Z :=
  if_version i ++ [0] ++ le_bytes 4 (if_ciaddr i) ++ le_bytes 4 (if_siaddr i)
    ++ le_bytes 4 (if_class_len i) ++ le_bytes 4 (if_client_len i) ++ le_bytes 4 (if_xid i)
    ++ if_shaddr i ++ if_class_id i ++ if_client_id i.

Definition iface_len : nat := 136.

Definition iface_of (b : list Z) : dhcpInterface :=
  mkIface (slice 0 11 b) (le_val (slice 12 4 b)) (le_val (slice 16 4 b))
    (i32_wrap (le_val (slice 20 4 b))) (i32_wrap (le_val (slice 24 4 b))) (le_val (slice 28 4 b))
    (slice 32 6 b) (slice 38 48 b) (slice 86 50 b).

Definition hostinfo_path (v : dhcp_vars) : list Z := config_path 128 (chars ".info") v.
Definition hostinfo_old (v : dhcp_vars) : list Z := config_path 128 (chars ".info.old") v.

(** [IPADDR] to [BROADCAST]. *)
Definition info_addresses (ciaddr : Z) (o : dhcpOptions) : option (list Z) :=
  mask ← opt_read 4 subnetMask o;
  bcast ← opt_read 4 broadcastAddr o;
  Some (chars "IPADDR=" ++ inet_ntop4 ciaddr ++ nl
     ++ chars "NETMASK=" ++ quad mask ++ nl
     ++ chars "NETWORK=" ++ inet_ntop4 (Z.land ciaddr (le_val mask)) ++ nl
     ++ chars "BROADCAST=" ++ quad bcast ++ nl).

Definition info_gateway (o : dhcpOptions) : option (list Z) :=
  if 3 <? opt_len o routersOnSubnet
  then (λ l, chars "GATEWAY=" ++ quad_list l) <$> opt_items routersOnSubnet 0 4 o
  else Some [].

(** A static route prints two addresses. *)
Definition pair_quad (b : list Z) : list Z := quad (take 4 b) ++ [44] ++ quad (drop 4 b).

Definition info_routes (o : dhcpOptions) : option (list Z) :=
  if opt_len o staticRoute =? 0 then Some [] else
  l ← opt_items staticRoute 0 8 o;
  Some (nl ++ chars "ROUTE=" ++
        match l with
        | [] => []
        | r :: rs => pair_quad r ++ concat ((λ r, [44] ++ pair_quad r) <$> rs)
        end).

(** [HOSTNAME], [DOMAIN], [NISDOMAIN] and [ROOTPATH]: the option is cleaned in
    place and printed between quotes. *)
Definition info_string (label : list Z) (i : Z) (o : dhcpOptions)
    : option (list Z * dhcpOptions) :=
  if opt_len o i =? 0 then Some ([], o) else
  b ← opt_val o i;
  b ← cleanmetas b;
  Some (nl ++ label ++ [39] ++ cstr b ++ [39], opt_put i (opt_len o i) b o).

Definition info_strings (o : dhcpOptions) : option (list Z * dhcpOptions) :=
  '(h, o) ← info_string (chars "HOSTNAME=") hostName o;
  '(d, o) ← info_string (chars "DOMAIN=") domainName o;
  '(n, o) ← info_string (chars "NISDOMAIN=") nisDomainName o;
  '(r, o) ← info_string (chars "ROOTPATH=") rootPath o;
  Some (h ++ d ++ n ++ r, o).

(** [DNS]: the first address is printed whatever the length. *)
Definition info_dns (o : dhcpOptions) : option (list Z) :=
  first ← opt_at dns 0 4 o;
  rest ← opt_items dns 4 4 o;
  Some (nl ++ chars "DNS=" ++ quad_list (first :: rest)).

(** [NTPSERVERS] and [NISSERVERS]. *)
Definition info_servers (label : list Z) (i : Z) (o : dhcpOptions) : option (list Z) :=
  if 4 <=? opt_len o i then (λ l, nl ++ label ++ quad_list l) <$> opt_items i 0 4 o else Some [].

(** [DHCPSID] to [DHCPSNAME]: the name of the server is cleaned in the frame
    received, [msg] bytes from its start. *)
Definition info_server (l : dhcp_link) (i : dhcpInterface) (msg : nat) (recv : list Z)
    (o : dhcpOptions) : option (list Z * list Z) :=
  sid ← opt_at dhcpServerIdentifier 0 4 o;
  let m := recv_msg recv msg in
  let off := (msg + 44)%nat in
  sname ← cleanmetas (drop off recv);
  Some (nl ++ chars "DHCPSID=" ++ quad sid ++ nl
     ++ chars "DHCPGIADDR=" ++ inet_ntop4 (dm_giaddr m) ++ nl
     ++ chars "DHCPSIADDR=" ++ inet_ntop4 (dm_siaddr m) ++ nl
     ++ chars "DHCPCHADDR=" ++ hex_addr (l_ClientHwAddr l) ++ nl
     ++ chars "DHCPSHADDR=" ++ hex_addr (if_shaddr i) ++ nl
     ++ chars "DHCPSNAME=" ++ [39] ++ cstr sname ++ [39] ++ nl,
     take off recv ++ sname).

Definition time_text (i : Z) (o : dhcpOptions) : option (list Z) :=
  (λ t, unsigned_text (swap32 t)) <$> opt_u32 i o.

(** [LEASETIME] to [CLIENTID]. *)
Definition info_client (v : dhcp_vars) (i : dhcpInterface) (o : dhcpOptions) : option (list Z) :=
  lease ← time_text dhcpIPaddrLeaseTime o;
  t1 ← time_text dhcpT1value o;
  t2 ← time_text dhcpT2value o;
  class ← string_of (if_class_id i ++ if_client_id i);
  Some (chars "LEASETIME=" ++ lease ++ nl
     ++ chars "RENEWALTIME=" ++ t1 ++ nl
     ++ chars "REBINDTIME=" ++ t2 ++ nl
     ++ chars "INTERFACE=" ++ [39] ++ v_IfNameExt v ++ [39] ++ nl
     ++ chars "CLASSID=" ++ [39] ++ class ++ [39] ++ nl
     ++ chars "CLIENTID="
     ++ match v_ClientID v with
        | Some id => [39] ++ id ++ [39]
        | None => hex_addr (slice 3 6 (if_client_id i))
        end ++ nl).

(** The whole file, with the options and the frame as cleaning leaves them. *)
Definition hostinfo_text (c : client) : option (list Z * dhcpOptions * list Z) :=
  let o := c_opts c in
  a ← info_addresses (if_ciaddr (c_iface c)) o;
  g ← info_gateway o;
  r ← info_routes o;
  '(s, o) ← info_strings o;
  d ← info_dns o;
  n ← info_servers (chars "NTPSERVERS=") ntpServers o;
  y ← info_servers (chars "NISSERVERS=") nisServers o;
  '(v, recv) ← info_server (c_link c) (c_iface c) (c_msg c) (c_recv c) o;
  t ← info_client (c_vars c) (c_iface c) o;
  Some (a ++ g ++ r ++ s ++ d ++ n ++ y ++ v ++ t, o, recv).

(** [open] with [O_TRUNC], [write] and [close]: a failed [write] leaves an empty
    file, a failed [open] the old one. *)
Definition write_cache (name content : list Z) : M unit :=
  opened ← succeeds;
  when opened (written ← succeeds; emit (WriteFile name (if (written : bool) then content else []))).

(** The cache, the old host information under another name, and the new
    one, which is composed only if [fopen] succeeds. *)
Definition write_hostinfo : M unit :=
  _ ← modify (λ c, c <| c_iface ::= λ i, i <| if_version := VERSION ++ [0] |> |>);
  c ← get id;
  let v := c_vars c in
  _ ← write_cache (cache_file v) (iface_bytes (c_iface c));
  _ ← modify (λ c, c <| c_hostinfo := hostinfo_path v |>);
  _ ← emit (Rename (hostinfo_path v) (hostinfo_old v));
  opened ← succeeds;
  when opened
    ('(info, o, recv) ← lift (accessed (hostinfo_text c));
     _ ← modify (λ c, c <| c_opts := o |> <| c_recv := recv |>);
     emit (WriteFile (hostinfo_path v) info)).

(** ** [dhcpConfig] *)

(** Up to the label [tsc]; the result tells whether it is reached. *)
Definition config_system : M bool :=
  ok ← set_interface;
  if negb ok then mret false else
  _ ← set_static_routes;
  _ ← set_default_routes;
  _ ← arpInform;
  _ ← write_resolv;
  _ ← write_nis;
  _ ← write_ntp;
  hp ← set_host;
  _ ← set_domain hp;
  mret true.

Definition announce_change : M unit :=
  c ← get id;
  if if_ciaddr (c_iface c) =? c_prev_ip_addr c then execute_on_change (chars "up")
  else
    _ ← execute_on_change (chars "new");
    modify (λ c, c <| c_prev_ip_addr := if_ciaddr (c_iface c) |>).

Definition dhcpConfig : M Z :=
  v ← get c_vars;
  ok ← (if v_TestCase v then mret true else config_system);
  if negb ok then mret (-1) else
  _ ← write_hostinfo;
  _ ← announce_change;
  o ← get c_opts;
  lease ← lift (accessed (opt_u32 dhcpIPaddrLeaseTime o));
  if lease =? 0xffffffff then exit 0 else mret 0.
