(* ===== verification/DhcpClient.v ===== *)
(** The states of the DHCP client: the functions [currState] points to in
    src/src/dhcpcd-1.3.22-pl4/client.c, the cache of cache.c, and the loops of
    [main], dhcpcd.c. *)

From S2P Require Import Prelude NidTypes Inet UdpIp DhcpMsg DhcpOptions BuildMsg DhcpEnv Arp.
From S2P Require Import SendRecv DhcpConfig.

Local Open Scope Z_scope.

(** ** The cache *)

Definition set_iface (f : dhcpInterface → dhcpInterface) : M unit :=
  modify (λ c, c <| c_iface ::= f |>).

(** Whether the cache is usable; what was read stays in [DhcpIface]. *)
Definition readDhcpCache : M bool :=
  t ← text;
  match t with
  | None => mret false
  | Some b =>
      let d := take iface_len b in
      _ ← set_iface (λ i, iface_of (overlay d (iface_bytes i)));
      i ← get c_iface;
      if (length d =? iface_len)%nat && bool_decide (if_version i = VERSION ++ [0]) then
        _ ← modify (λ c, c <| c_prev_ip_addr := if_ciaddr (c_iface c) |>);
        mret true
      else mret false
  end.

(** ** [dhcpStart] *)

Definition HWADDR_TRIES : nat := 3.

Definition known_family (f : Z) : bool := (f =? ARPHRD_ETHER) || (f =? ARPHRD_IEEE802_TR).

(** [ioctl (..., SIOCGIFHWADDR, ...)] and the test of the family. *)
Definition get_hardware : M (Z * list Z) :=
  h ← ask (λ a, match a with
                | Hardware f h => Some (Some (f, h))
                | Fails => Some None
                | _ => None
                end);
  match h with
  | Some (f, h) => if known_family f then mret (f, overlay (take 6 h) (replicate 6 0)) else exit 1
  | None => exit 1
  end.

Definition set_link (f : dhcp_link → dhcp_link) : M unit := modify (λ c, c <| c_link ::= f |>).

(** The loop that asks for the hardware address again while it is zero. *)
Fixpoint hardware_loop (tries : nat) : M unit :=
  match tries with
  | O => mret tt
  | S tries =>
      '(_, h) ← get_hardware;
      _ ← must;
      saved ← get c_saved_flags;
      _ ← emit (SetFlags (flags_up saved));
      _ ← must;
      _ ← device_name SPKT_DEVICE_ROOM;
      _ ← set_link (λ l, mkLink h (l_TokenRingIf l));
      if bool_decide (h = replicate 6 0) then hardware_loop tries else mret tt
  end.

(** [ip_id] from the time and the hardware address. *)
Definition seed (now : Z) (h : list Z) : Z :=
  let b i := byte_at i h in
  u32_wrap (now + b 5%nat + 4 * b 4%nat + 8 * b 3%nat + 16 * b 2%nat + 32 * b 1%nat + 64 * b 0%nat).

(** The flags of the interface. *)
Definition get_flags : M Z :=
  f ← ask (λ a, match a with Number n => Some (Some n) | Fails => Some None | _ => None end);
  match f with Some n => mret n | None => exit 1 end.

Definition dhcpStart : M cstate :=
  _ ← must;                                          (* socket *)
  '(family, _) ← get_hardware;
  _ ← when (family =? ARPHRD_IEEE802_TR) (set_link (λ l, mkLink (l_ClientHwAddr l) true));
  _ ← must;                                          (* SO_BROADCAST *)
  flags ← get_flags;
  _ ← modify (λ c, c <| c_saved_flags := flags |>);
  _ ← emit (SetFlags (flags_up flags));
  _ ← must;
  _ ← hardware_loop HWADDR_TRIES;
  now ← number;
  _ ← modify (λ c, c <| c_ip_id := u16_wrap (seed now (l_ClientHwAddr (c_link c))) |>);
  _ ← must;                                          (* udpFooSocket *)
  bound ← succeeds;
  _ ← when bound must;                               (* O_NONBLOCK *)
  mret SInit.

(** ** Identifiers *)

Definition uname : M (list Z) := ask (λ a, match a with Text s => Some s | _ => None end).

Definition setup_idents : M unit :=
  v ← get c_vars;
  u ← (match v_ClassID v with Some _ => mret [] | None => uname end);
  c ← get id;
  i ← lift (classclientsetup v u (c_link c) (c_iface c));
  set_iface (λ _, i).

(** ** Requests *)

Definition remember_server : M unit :=
  c ← get id;
  sid ← lift (accessed (opt_u32 dhcpServerIdentifier (c_opts c)));
  set_iface (λ i, i <| if_siaddr := sid |> <| if_shaddr := slice 6 6 (c_recv c) |>).

Definition set_req_time : M unit := now ← number; modify (λ c, c <| c_req_time := now |>).

Definition stop : M (option cstate) := _ ← dhcpStop; mret None.

(** With [ARPCHECK] only. *)
Definition dhcpDecline : M cstate :=
  xid ← number;
  _ ← build MDecline xid;
  c ← get id;
  '(udpip, ip_id) ← lift (accessed (udpipgen (drop eth_len (c_send c)) 0 INADDR_BROADCAST
      (swap16 DHCP_CLIENT_PORT) (swap16 DHCP_SERVER_PORT) (Z.of_nat dhcp_len) (c_ip_id c)));
  _ ← modify (λ c, c <| c_send := take eth_len (c_send c) ++ udpip |> <| c_ip_id := ip_id |>);
  _ ← device_name SA_DATA_ROOM;
  frame ← get c_send;
  _ ← sendto (take (msg_off + dhcp_len) frame);
  mret SInit.

Section States.
(** Whether the program is compiled with [ARPCHECK]. *)
Context (ARPCHECK : bool).

(** Whether the address is in use. *)
Definition arp_checked : M bool :=
  if ARPCHECK then
    r ← arpCheck;
    if r =? 0 then mret false else (_ ← dhcpDecline; mret true)
  else mret false.

Definition dhcpRequest (xid : Z) (k : client_msg) : M (option cstate) :=
  r ← dhcpSendAndRecv xid ACK k;
  if negb (r =? 0) then mret (Some SInit) else
  _ ← set_req_time;
  used ← arp_checked;
  if (used : bool) then (_ ← set_iface (λ i, i <| if_ciaddr := 0 |>); mret (Some SInit)) else
  r ← dhcpConfig;
  if negb (r =? 0) then stop else
  _ ← remember_server;
  mret (Some SBound).

(** What [dhcpInit] takes from the offer. *)
Definition take_offer : M unit :=
  c ← get id;
  let m := recv_msg (c_recv c) (c_msg c) in
  _ ← modify (λ c, c <| c_prev_ip_addr := if_ciaddr (c_iface c) |>
                     <| c_iface ::= λ i, i <| if_ciaddr := dm_yiaddr m |> |>);
  _ ← remember_server;
  set_iface (λ i, i <| if_xid := dm_xid m |>).

Definition dhcpInit : M (option cstate) :=
  _ ← releaseDhcpOptions;
  xid ← number;
  r ← dhcpSendAndRecv xid OFFER MDiscover;
  if negb (r =? 0) then stop else
  c ← get id;
  _ ← (if v_SendSecondDiscover (c_vars c)
       then dhcpSendAndRecv (dm_xid (recv_msg (c_recv c) (c_msg c))) OFFER MDiscover
       else mret 0);
  _ ← take_offer;
  xid ← get (λ c, if_xid (c_iface c));
  dhcpRequest xid MRequest.

Definition no_cache_setup : M unit :=
  _ ← set_iface (λ _, iface_zero);
  a ← ask (λ a, match a with Number n => Some (Some n) | Fails => Some None | _ => None end);
  _ ← match a with
      | Some a => set_iface (λ i, i <| if_ciaddr := a |>)
      | None => mret tt
      end;
  setup_idents.

Definition dhcpReboot : M (option cstate) :=
  setjmp (v ← get c_vars; _ ← alarm (v_TimeOut v); mret (Some SInit))
    (_ ← dhcpStart;
     _ ← modify (λ c, c <| c_opts := opts_zero |> <| c_iface := iface_zero |>);
     cached ← readDhcpCache;
     if (cached : bool) then
       _ ← setup_idents;
       xid ← number;
       dhcpRequest xid MReboot
     else _ ← no_cache_setup; mret (Some SInit)).

(** ** Keeping an address *)

(** [i = ReqSentTime + ntohl (...) - time (NULL)]: the seconds left of time
    [code], as an [int]. *)
Definition time_left (code : Z) : M Z :=
  c ← get id;
  t ← lift (accessed (opt_u32 code (c_opts c)));
  now ← number;
  mret (i32_wrap (c_req_time c + swap32 t - now)).

Definition dhcpBound : M (option cstate) :=
  setjmp (mret (Some SRenew))
    (i ← time_left dhcpT1value;
     if 0 <? i then (_ ← alarm i; _ ← sleep; mret (Some SRenew))
     else mret (Some SRenew)).

Definition dhcpRenew : M (option cstate) :=
  setjmp (mret (Some SRebind))
    (i ← time_left dhcpT2value;
     if 0 <? i then
       _ ← alarm i;
       xid ← number;
       r ← dhcpSendAndRecv xid ACK MRenew;
       if negb (r =? 0) then mret (Some SRebind) else
       _ ← set_req_time;
       mret (Some SBound)
     else mret (Some SRebind)).

Definition dhcpRebind : M (option cstate) :=
  setjmp (mret (Some SStop))
    (i ← time_left dhcpIPaddrLeaseTime;
     if 0 <? i then
       _ ← alarm i;
       xid ← number;
       r ← dhcpSendAndRecv xid ACK MRebind;
       if negb (r =? 0) then mret (Some SStop) else
       _ ← set_req_time;
       _ ← remember_server;
       mret (Some SBound)
     else mret (Some SStop)).

(** ** [dhcpInform] *)

Definition set_inform (a : Z) : M unit :=
  modify (λ c, c <| c_vars ::= λ v, v <| v_inform_ipaddr := a |> |>).

(** The address to ask about: given, of the interface, or of the cache; the
    result tells whether there is one. *)
Definition inform_address : M bool :=
  a ← get (λ c, v_inform_ipaddr (c_vars c));
  if negb (a =? 0) then mret true else
  a ← ask (λ a, match a with Number n => Some (Some n) | Fails => Some None | _ => None end);
  _ ← match a with Some a => set_inform a | None => mret tt end;
  a ← get (λ c, v_inform_ipaddr (c_vars c));
  if negb (a =? 0) then mret true else
  cached ← readDhcpCache;
  if negb cached then mret false else
  a ← get (λ c, if_ciaddr (c_iface c));
  _ ← set_inform a;
  mret true.

(** The identifiers the cache did not give. *)
Definition inform_idents : M unit :=
  v ← get c_vars;
  i ← get c_iface;
  _ ← (if if_class_len i =? 0 then
         match v_ClassID v with
         | Some id => set_iface (put_class_id id)
         | None => u ← uname; set_iface (classIDsetup u)
         end
       else mret tt);
  c ← get id;
  if if_client_len (c_iface c) =? 0 then
    i ← lift (clientIDsetup (v_ClientID v) (c_link c) (c_iface c));
    set_iface (λ _, i)
  else mret tt.

Definition dhcpInform : M (option cstate) :=
  _ ← dhcpStart;
  _ ← modify (λ c, c <| c_opts := opts_zero |> <| c_iface := iface_zero |>);
  known ← inform_address;
  if negb known then mret None else
  _ ← modify (λ c, c <| c_iface ::= λ i, i <| if_ciaddr := v_inform_ipaddr (c_vars c) |> |>);
  _ ← inform_idents;
  setjmp (mret None)
    (xid ← number;
     r ← dhcpSendAndRecv xid ACK MInform;
     if negb (r =? 0) then mret None else
     used ← arp_checked;
     if (used : bool) then mret None else
     r ← dhcpConfig;
     if negb (r =? 0) then mret None else exit 0).

(** ** [main]'s loops *)

Definition run_state (s : cstate) : M (option cstate) :=
  match s with
  | SReboot => dhcpReboot
  | SInit => dhcpInit
  | SBound => dhcpBound
  | SRenew => dhcpRenew
  | SRebind => dhcpRebind
  | SStop => s ← dhcpStop; mret (Some s)
  | SStart => s ← dhcpStart; mret (Some s)
  | SInform => dhcpInform
  end.

(** [currState = currState ()]. *)
Definition next_state : M (option cstate) :=
  s ← get c_state;
  r ← run_state s;
  _ ← match r with Some s => modify (λ c, c <| c_state := s |>) | None => mret tt end;
  mret r.

(** Until the address is bound. *)
Fixpoint acquire (fuel : nat) : M unit :=
  match fuel with
  | O => λ c, (Waiting, c)
  | S fuel =>
      r ← next_state;
      match r with
      | None => exit 1
      | Some SBound => mret tt
      | Some _ => acquire fuel
      end
  end.

Fixpoint maintain (fuel : nat) : M unit :=
  match fuel with
  | O => λ c, (Waiting, c)
  | S fuel =>
      r ← next_state;
      match r with
      | None => _ ← deletePidFile; exit 1
      | Some _ => maintain fuel
      end
  end.

Definition writePidFile (pid : Z) : M unit :=
  v ← get c_vars;
  ok ← succeeds;
  if negb ok then exit 1 else emit (WriteFile (pid_file v) (unsigned_text (u32_wrap pid) ++ nl)).

(** From the first [alarm] on; [fork] answers the process identifier, 0 in
    the child. *)
Definition dhcpcd (fuel : nat) : M unit :=
  v ← get c_vars;
  _ ← alarm (v_TimeOut v);
  _ ← acquire fuel;
  _ ← alarm 0;
  pid ← number;
  if negb (pid =? 0) then (_ ← writePidFile pid; exit 0)
  else maintain fuel.
End States.
