(* ===== verification/DhcpArgs.v ===== *)
(** The command line of the DHCP client: [main] of
    src/src/dhcpcd-1.3.22-pl4/dhcpcd.c up to the first [alarm]. *)

From S2P Require Import Prelude NidTypes Inet HashTable Hash EntryTable Configuration.
From S2P Require Import UdpIp DhcpMsg DhcpOptions BuildMsg DhcpEnv Arp SendRecv DhcpConfig DhcpClient.

Local Open Scope Z_scope.

(** ** Numbers and addresses *)

(** [atol], with a 32-bit [long]. *)
Definition atol (s : list Z) : Z := Z.max (- 2 ^ 31) (Z.min (2 ^ 31 - 1) (atoi s)).

(** The value of a digit in any base up to 16. *)
Definition digit_of (c : Z) : option Z :=
  if (48 <=? c) && (c <=? 57) then Some (c - 48)
  else if (97 <=? c) && (c <=? 102) then Some (c - 87)
  else if (65 <=? c) && (c <=? 70) then Some (c - 55)
  else None.

Definition is_digit (base c : Z) : bool :=
  match digit_of c with Some d => d <? base | None => false end.

Fixpoint span_digits (base : Z) (s : list Z) (acc : Z) : Z * list Z :=
  match s with
  | c :: s' =>
      if is_digit base c then span_digits base s' (acc * base + default 0 (digit_of c)) else (acc, s)
  | [] => (acc, [])
  end.

(** A number as [strtoul] with base 0 reads it. *)
Definition c_number (s : list Z) : option (Z * list Z) :=
  match s with
  | 48 :: x :: d :: s' =>
      if ((x =? 120) || (x =? 88)) && is_digit 16 d then Some (span_digits 16 (d :: s') 0)
      else Some (span_digits 8 s 0)
  | 48 :: _ => Some (span_digits 8 s 0)
  | c :: _ => if is_digit 10 c then Some (span_digits 10 s 0) else None
  | [] => None
  end.

(** [n] bytes of the address are left, [acc] are the ones read. *)
Fixpoint aton_go (n : nat) (acc : Z) (s : list Z) : option Z :=
  match c_number s with
  | None => None
  | Some (v, rest) =>
      match rest, n with
      | 46 :: rest, S (S _ as n) => if 255 <? v then None else aton_go n (acc * 256 + v) rest
      | 46 :: _, _ => None
      | _, _ =>
          if match rest with [] => true | c :: _ => is_space c end then
            if v <? 256 ^ Z.of_nat n then Some (acc * 256 ^ Z.of_nat n + v) else None
          else None
      end
  end.

(** [inet_aton]: the address in network order. *)
Definition inet_aton (s : list Z) : option Z := swap32 <$> aton_go 4 0 s.

(** ** The options *)

(** What the loop sets: the variables, [killFlag], [versionFlag], whether
    [currState] is [dhcpInform], and the other arguments. *)
Record parsed := mkParsed {
  p_vars : dhcp_vars;
  p_kill : Z;
  p_version : bool;
  p_inform : bool;
  p_rest : list (list Z);
}.

#[export] Instance eta_parsed : Eta parsed := λ p,
  mkParsed (p_vars p) (p_kill p) (p_version p) (p_inform p) (p_rest p).

Definition DEFAULT_TIMEOUT : Z := 60.
Definition DEFAULT_LEASETIME : Z := 0xffffffff.

Definition default_vars : dhcp_vars :=
  mkVars (chars "eth0") (chars "eth0") None None None false DEFAULT_LEASETIME true true true
    false false false DEFAULT_TIMEOUT false false false 0 (chars "/etc/dhcpc") None true 0 0 false.

Definition parsed_init : parsed := mkParsed default_vars 0 false false [].

(** The letters that stand for themselves. *)
Definition set_flag (c : Z) (p : parsed) : option parsed :=
  let on f := Some (p <| p_vars ::= f |>) in
  match c with
  | 107 => Some (p <| p_kill := SIGHUP |>)                          (* k *)
  | 110 => Some (p <| p_kill := SIGALRM |>)                         (* n *)
  | 100 => on (λ v, v <| v_DebugFlag := true |>)                    (* d *)
  | 114 => on (λ v, v <| v_BeRFC1541 := true |>)                    (* r *)
  | 68 => on (λ v, v <| v_SetDomainName := true |>)                 (* D *)
  | 72 => on (λ v, v <| v_SetHostName := true |>)                   (* H *)
  | 82 => on (λ v, v <| v_ReplResolvConf := false |>)               (* R *)
  | 89 => on (λ v, v <| v_ReplNISConf := false |>)                  (* Y *)
  | 78 => on (λ v, v <| v_ReplNTPConf := false |>)                  (* N *)
  | 86 => Some (p <| p_version := true |>)                          (* V *)
  | 66 => on (λ v, v <| v_BroadcastResp := true |>)                 (* B *)
  | 67 => on (λ v, v <| v_DoCheckSum := true |>)                    (* C *)
  | 84 => on (λ v, v <| v_TestCase := true |>)                      (* T *)
  | 83 => on (λ v, v <| v_SendSecondDiscover := true |>)            (* S *)
  | _ => None
  end.

(** The first character, 0 at the NUL. *)
Definition head_char (s : list Z) : Z := match s with c :: _ => c | [] => 0 end.

(** The letters with a value in the next argument; [None] is the usage. *)
Definition set_value (c : Z) (a : list Z) (p : parsed) : option parsed :=
  let on f := Some (p <| p_vars ::= f |>) in
  match c with
  | 99 =>                                                           (* c *)
      if head_char a =? 45 then None else on (λ v, v <| v_Cfilename := Some a |>)
  | 76 =>                                                           (* L *)
      if head_char a =? 47 then on (λ v, v <| v_ConfigDir := a |>) else None
  | 105 =>                                                          (* i *)
      if (head_char a =? 45) || negb (length a <? CLASS_ID_MAX_LEN + 1)%nat then None
      else on (λ v, v <| v_ClassID := Some a |>)
  | 73 =>                                                           (* I *)
      if (head_char a =? 45) || negb (length a <? CLIENT_ID_MAX_LEN + 1)%nat then None
      else on (λ v, v <| v_ClientID := Some a |>)
  | 104 =>                                                          (* h: a name that is too long is reported *)
      if head_char a =? 45 then None else on (λ v, v <| v_HostName := Some a |>)
  | 116 =>                                                          (* t *)
      if 0 <? atol a then on (λ v, v <| v_TimeOut := atol a |>) else None
  | 119 =>                                                          (* w *)
      if 0 <=? atol a then on (λ v, v <| v_Window := atol a |>) else None
  | 108 =>                                                          (* l *)
      let t := u32_wrap (atol a) in
      if 0 <? t then on (λ v, v <| v_LeaseTime := t |>) else None
  | _ => None
  end.

(** The letters with an address that may be missing. *)
Definition set_address (c : Z) (a : option Z) (p : parsed) : option parsed :=
  match c with
  | 115 =>                                                          (* s *)
      Some (p <| p_inform := true |> <| p_vars ::= λ v, v <| v_inform_ipaddr := default 0 a |> |>)
  | 71 =>                                                           (* G *)
      Some (p <| p_vars ::= λ v, v <| v_SetDHCPDefaultRoutes := false |>
                                   <| v_default_router := default 0 a |> |>)
  | _ => None
  end.

Definition takes_address (c : Z) : bool := (c =? 115) || (c =? 71).

(** The loop over [argc], without the name of the program.  [None] is
    [goto usage]. *)
Fixpoint parse_args (args : list (list Z)) (p : parsed) : option parsed :=
  match args with
  | [] => Some p
  | a :: rest =>
      match a with
      | 45 :: letters =>
          (fix prgs (letters : list Z) (p : parsed) : option parsed :=
             match letters with
             | [] => parse_args rest p
             | c :: more =>
                 match set_flag c p with
                 | Some p => prgs more p
                 | None =>
                     match more with
                     | _ :: _ => None
                     | [] =>
                         if takes_address c then
                           match rest with
                           | [] => set_address c None p
                           | v :: rest' =>
                               match inet_aton v with
                               | Some n =>
                                   match set_address c (Some n) p with
                                   | Some p => parse_args rest' p
                                   | None => None
                                   end
                               | None =>
                                   match set_address c None p with
                                   | Some p => parse_args rest p
                                   | None => None
                                   end
                               end
                           end
                         else
                           match rest with
                           | [] => None
                           | v :: rest' =>
                               match set_value c v p with
                               | Some p => parse_args rest' p
                               | None => None
                               end
                           end
                     end
                 end
             end) letters p
      | _ => parse_args rest (p <| p_rest ::= λ l, l ++ [a] |>)
      end
  end.

(** ** The interface *)

Definition IFNAMSIZ : nat := 16.

(** The name up to the colon of an alias. *)
Fixpoint before_colon (s : list Z) : list Z :=
  match s with
  | [] => []
  | c :: s => if c =? 58 then [] else c :: before_colon s
  end.

Definition set_interface_name (p : parsed) : option parsed :=
  match p_rest p with
  | [] => Some p
  | name :: _ =>
      if (IFNAMSIZ <? length name)%nat then None
      else Some (p <| p_vars ::= λ v, v <| v_IfNameExt := name |> <| v_IfName := before_colon name |> |>)
  end.

Definition command_line (args : list (list Z)) : option parsed :=
  p ← parse_args args parsed_init; set_interface_name p.

(** ** Before the loops *)

(** [fopen] and [fscanf] of the file with the process identifier, then
    [kill]. *)
Definition killPid (sig : Z) : M unit :=
  v ← get c_vars;
  t ← text;
  let not_running := if sig =? SIGALRM then mret tt else exit 1 in
  match t with
  | None => not_running
  | Some _ =>
      ok ← succeeds;
      if (ok : bool) then exit 0 else (_ ← emit (Unlink (pid_file v)); not_running)
  end.

(** The file exists when [open] succeeds. *)
Definition checkIfAlreadyRunning : M unit :=
  ok ← succeeds; if (ok : bool) then exit 1 else mret tt.

(** [main] after the options, for a super user; [mkdir] fails when it cannot
    make the directory and none exists. *)
Definition dhcpcd_main (ARPCHECK : bool) (fuel : nat) (p : parsed) : M unit :=
  _ ← modify (λ c, c <| c_vars := p_vars p |>
                     <| c_state := if p_inform p then SInform else SReboot |>);
  _ ← when (negb (p_kill p =? 0)) (killPid (p_kill p));
  _ ← when (negb (v_TestCase (p_vars p))) checkIfAlreadyRunning;
  _ ← must;
  dhcpcd ARPCHECK fuel.
