(* ===== verification/DhcpTurns.v ===== *)
(** The loops of the DHCP client's [main] make progress: every turn of
    [currState ()] but that of [dhcpStop] takes an answer of the system, and
    [dhcpStop] is followed by one that does, so fuel beyond twice the answers
    changes nothing. *)

From S2P Require Import Prelude NidTypes Inet UdpIp DhcpMsg DhcpOptions BuildMsg DhcpEnv Arp.
From S2P Require Import SendRecv DhcpConfig DhcpClient DhcpArgs.

Local Open Scope nat_scope.

(** ** Answers taken *)

(** A program that goes on, or jumps to a handler, has taken [n] answers at
    least. *)
Definition drains {A} (n : nat) (m : M A) : Prop :=
  ∀ c, match m c with
       | (Val _, c') | (Jump, c') => length (c_in c') + n ≤ length (c_in c)
       | _ => True
       end.

Create HintDb draining discriminated.

Lemma drains_weaken {A} n k (m : M A) : drains n m → k ≤ n → drains k m.
Proof. intros H Hk c. specialize (H c). destruct (m c) as [[] c']; try done; lia. Qed.

Lemma drains_some {A} (m : M A) : drains 1 m → drains 0 m.
Proof. intros H. by apply (drains_weaken 1); [|lia]. Qed.

Lemma drains_ret {A} (x : A) : drains 0 (mret x).
Proof. intros c. cbn. lia. Qed.

Lemma drains_ask {A} (f : answer → option A) : drains 1 (ask f).
Proof.
  intros c. unfold ask. destruct (c_in c) as [|a rest] eqn:E; [done|].
  destruct (f a); [|done]. cbn. lia.
Qed.

Lemma drains_lift {A} (m : outcome A) : drains 0 (lift m).
Proof. intros c. unfold lift. destruct m; try done. lia. Qed.

Lemma drains_get {A} (f : client → A) : drains 0 (get f).
Proof. intros c. cbn. lia. Qed.

Lemma drains_modify f : (∀ c, c_in (f c) = c_in c) → drains 0 (modify f).
Proof. intros H c. cbn. rewrite H. lia. Qed.

Lemma drains_exit {A} n k : drains n (exit k : M A).
Proof. by intros c. Qed.

Lemma drains_longjmp {A} : drains 0 (longjmp : M A).
Proof. intros c. cbn. lia. Qed.

Lemma drains_waiting {A} n : drains n (λ c, (Waiting : res A, c)).
Proof. by intros c. Qed.

(** The first part takes the answers, or one that neither takes any nor jumps is
    followed by one that does. *)
Lemma drains_bind {A B} n (m : M A) (f : A → M B) :
  drains n m → (∀ x, drains 0 (f x)) → drains n (m ≫= f).
Proof.
  intros Hm Hf c. specialize (Hm c). unfold mbind, M_bind.
  destruct (m c) as [[x| | | |] c1]; try done. specialize (Hf x c1).
  destruct (f x c1) as [[] c2]; try done; lia.
Qed.

Lemma drains_get_bind {A B} n (g : client → A) (f : A → M B) :
  (∀ x, drains n (f x)) → drains n (get g ≫= f).
Proof. intros H c. apply H. Qed.

Lemma drains_modify_bind {B} n g (f : unit → M B) :
  (∀ c, c_in (g c) = c_in c) → (∀ x, drains n (f x)) → drains n (modify g ≫= f).
Proof. intros Hg H c. specialize (H tt (g c)). rewrite Hg in H. exact H. Qed.

Lemma drains_lift_bind {A B} n (m : outcome A) (f : A → M B) :
  (∀ x, drains n (f x)) → drains n (lift m ≫= f).
Proof. intros H c. unfold lift, mbind, M_bind. destruct m; try done. apply H. Qed.

Lemma drains_device_bind {B} n room (f : unit → M B) :
  (∀ x, drains n (f x)) → drains n (device_name room ≫= f).
Proof.
  intros H c. specialize (H tt c). unfold device_name, mbind, M_bind, get, lift.
  destruct (_ <=? room); [exact H|done].
Qed.

Lemma drains_setjmp {A} n (h b : M A) : drains 0 h → drains n b → drains n (setjmp h b).
Proof.
  intros Hh Hb c. specialize (Hb c). unfold setjmp. destruct (b c) as [[] c1]; try done.
  specialize (Hh c1). destruct (h c1) as [[] c2]; try done; lia.
Qed.

Lemma drains_fuel {A} n (f : nat → M A) (g : client → nat) :
  (∀ k, drains n (f k)) → drains n (λ c, f (g c) c).
Proof. intros H c. apply H. Qed.

Lemma drains_iterate {A B} (f : A → M B) l : (∀ x, drains 0 (f x)) → drains 0 (iterate f l).
Proof.
  intros H. induction l as [|x l IH]; cbn [iterate]; [apply drains_ret|]. by apply drains_bind.
Qed.

#[export] Hint Resolve drains_ret drains_ask drains_lift drains_get drains_exit drains_longjmp
  drains_waiting : draining.
#[export] Hint Extern 5 (drains 0 (ask _)) => apply drains_some, drains_ask : draining.

(** [draining] follows a program, with the lemmas of the database for the
    operations it calls. *)
Ltac drain_step :=
  match goal with
  | |- drains _ (setjmp _ _) => apply drains_setjmp
  | |- drains _ (iterate _ _) => apply drains_iterate; intros ?
  | |- drains _ (get _ ≫= _) => apply drains_get_bind; intros ?
  | |- drains _ (lift _ ≫= _) => apply drains_lift_bind; intros ?
  | |- drains _ (device_name _ ≫= _) => apply drains_device_bind; intros ?
  | |- drains _ (modify _ ≫= _) => apply drains_modify_bind; [intros; reflexivity|intros _]
  | |- drains _ (emit _ ≫= _) => apply drains_modify_bind; [intros; reflexivity|intros _]
  | |- drains _ (modify _) => apply drains_modify; intros; reflexivity
  | |- drains _ (emit _) => apply drains_modify; intros; reflexivity
  | |- drains _ (when ?b _) => destruct b; cbn [when]
  | |- drains _ (_ ≫= _) => apply drains_bind; [|intros ?]
  | |- drains _ (if ?b then _ else _) => destruct b
  | |- drains _ (match ?x with _ => _ end) => destruct x
  | |- drains _ _ => solve [eauto 2 with draining | apply drains_some; eauto 2 with draining]
  end.

Ltac draining := repeat (cbv zeta; drain_step).

Lemma bind_drained {A B} (m1 m2 : M A) (f g : A → M B) c :
  m1 c = m2 c → drains 0 m1 → (∀ x c', length (c_in c') ≤ length (c_in c) → f x c' = g x c') →
  (m1 ≫= f) c = (m2 ≫= g) c.
Proof.
  intros E Hm H. specialize (Hm c). unfold mbind, M_bind. rewrite <-E.
  destruct (m1 c) as [[x| | | |] c']; try done. apply H. lia.
Qed.

(** ** Calls *)

Lemma drains_succeeds : drains 1 succeeds. Proof. apply drains_ask. Qed.
Lemma drains_number : drains 1 number. Proof. apply drains_ask. Qed.
Lemma drains_clock : drains 1 clock. Proof. apply drains_ask. Qed.
Lemma drains_text : drains 1 text. Proof. apply drains_ask. Qed.
Lemma drains_uname : drains 1 uname. Proof. apply drains_ask. Qed.
Lemma drains_alarm n : drains 0 (alarm n). Proof. by apply drains_modify. Qed.
#[export] Hint Resolve drains_succeeds drains_number drains_clock drains_text drains_uname drains_alarm : draining.

Lemma drains_must : drains 1 must. Proof. unfold must. draining. Qed.
Lemma drains_sendto f : drains 1 (sendto f). Proof. unfold sendto. draining. Qed.
Lemma drains_build k xid : drains 0 (build k xid). Proof. unfold build. draining. Qed.
#[export] Hint Resolve drains_must drains_sendto drains_build : draining.

Lemma drains_send_arp obj : drains 1 (send_arp obj). Proof. unfold send_arp. draining. Qed.
#[export] Hint Resolve drains_send_arp : draining.

Lemma drains_arp_once m : drains 0 (arp_once m). Proof. unfold arp_once. draining. Qed.
Lemma drains_execute prm : drains 0 (execute_on_change prm).
Proof. unfold execute_on_change. draining. Qed.
Lemma drains_deleteDhcpCache : drains 0 deleteDhcpCache. Proof. unfold deleteDhcpCache. draining. Qed.
Lemma drains_deletePidFile : drains 0 deletePidFile. Proof. unfold deletePidFile. draining. Qed.
Lemma drains_release : drains 0 releaseDhcpOptions. Proof. by apply drains_modify. Qed.
#[export] Hint Resolve drains_arp_once drains_execute drains_deleteDhcpCache drains_deletePidFile
  drains_release : draining.

Lemma drains_dhcpStop : drains 0 dhcpStop. Proof. unfold dhcpStop. draining. Qed.
Lemma drains_restore set n : drains 0 (restore set n). Proof. unfold restore. draining. Qed.
#[export] Hint Resolve drains_dhcpStop drains_restore : draining.

Lemma drains_dhcpRelease : drains 0 dhcpRelease.
Proof. unfold dhcpRelease, arpRelease. draining. Qed.
Lemma drains_terminate sig : drains 0 (terminate sig). Proof. unfold terminate. draining. Qed.
#[export] Hint Resolve drains_dhcpRelease drains_terminate : draining.

(** ** Waiting, and signals *)

Lemma drains_sigHandler sig : drains 0 (sigHandler sig). Proof. unfold sigHandler. draining. Qed.

Lemma drains_interrupted sig : drains 0 (interrupted sig).
Proof.
  intros c. unfold interrupted. pose proof (drains_sigHandler sig) as H.
  destruct (negb (handled sig)); [done|]. destruct (sig =? SIGALRM)%Z; [|exact (H c)].
  destruct (c_alarm c =? 0)%Z; [done|]. exact (H (c <| c_alarm := 0%Z |>)).
Qed.
#[export] Hint Resolve drains_interrupted : draining.

Lemma drains_peekfd : drains 1 peekfd. Proof. unfold peekfd. draining. Qed.
Lemma drains_sleep : drains 1 sleep. Proof. unfold sleep. draining. Qed.
Lemma drains_recv_arp : drains 1 recv_arp. Proof. apply drains_ask. Qed.
Lemma drains_arp_examine f : drains 0 (arp_examine f). Proof. unfold arp_examine. draining. Qed.
#[export] Hint Resolve drains_peekfd drains_sleep drains_recv_arp drains_arp_examine : draining.

Lemma drains_arp_loop fuel n b obj : drains 0 (arp_loop fuel n b obj).
Proof. revert n b obj. induction fuel as [|fuel IH]; intros n b obj; cbn [arp_loop]; draining; apply IH. Qed.

Lemma drains_arpCheck : drains 0 arpCheck.
Proof.
  intros c. exact (drains_arp_loop _ 5 false _ c).
Qed.
#[export] Hint Resolve drains_arpCheck : draining.

(** ** The exchange *)

Lemma drains_dhcp_frame : drains 0 dhcp_frame. Proof. unfold dhcp_frame. draining. Qed.
#[export] Hint Resolve drains_dhcp_frame : draining.

Lemma drains_send_message k xid : drains 0 (send_message k xid).
Proof. unfold send_message. draining. Qed.
Lemma drains_recv_frame : drains 1 recv_frame. Proof. unfold recv_frame. draining. Qed.
Lemma drains_parse_reply d : drains 0 (parse_reply d). Proof. unfold parse_reply. draining. Qed.
#[export] Hint Resolve drains_send_message drains_recv_frame drains_parse_reply : draining.

Lemma drains_receive_turn xid msg s : drains 0 (receive_turn xid msg s).
Proof. unfold receive_turn. draining. Qed.
Lemma drains_more_to_receive s : drains 0 (more_to_receive s).
Proof. unfold more_to_receive. draining. Qed.
#[export] Hint Resolve drains_receive_turn drains_more_to_receive : draining.

Lemma drains_sr_loop fuel k xid msg s : drains 0 (sr_loop fuel k xid msg s).
Proof. revert s. induction fuel as [|fuel IH]; intros s; cbn [sr_loop]; draining; apply IH. Qed.

Lemma drains_dhcpSendAndRecv xid msg k : drains 0 (dhcpSendAndRecv xid msg k).
Proof.
  unfold dhcpSendAndRecv.
  apply (drains_fuel 0 (λ n, sr_loop n k xid msg _)). intros. apply drains_sr_loop.
Qed.
#[export] Hint Resolve drains_dhcpSendAndRecv : draining.

(** ** The configuration of the host *)

Lemma drains_setDefaultRoute g : drains 0 (setDefaultRoute g).
Proof. unfold setDefaultRoute, add_route. draining. Qed.
#[export] Hint Resolve drains_setDefaultRoute : draining.

Lemma drains_replace_file name t : drains 0 (replace_file name t).
Proof. unfold replace_file. draining. Qed.
Lemma drains_set_name i set : drains 0 (set_name i set). Proof. unfold set_name. draining. Qed.
#[export] Hint Resolve drains_replace_file drains_set_name : draining.

Lemma drains_config_system : drains 0 config_system.
Proof.
  unfold config_system, set_interface, set_static_routes, set_default_routes, add_route, arpInform, write_resolv,
    write_nis, write_ntp, set_host, set_domain, update_opts. draining.
Qed.
Lemma drains_write_hostinfo : drains 0 write_hostinfo.
Proof. unfold write_hostinfo, write_cache. draining. Qed.
Lemma drains_announce : drains 0 announce_change. Proof. unfold announce_change. draining. Qed.
#[export] Hint Resolve drains_config_system drains_write_hostinfo drains_announce : draining.

Lemma drains_dhcpConfig : drains 0 dhcpConfig. Proof. unfold dhcpConfig. draining. Qed.
#[export] Hint Resolve drains_dhcpConfig : draining.

(** ** The states *)

Lemma drains_set_iface f : drains 0 (set_iface f). Proof. by apply drains_modify. Qed.
Lemma drains_set_link f : drains 0 (set_link f). Proof. by apply drains_modify. Qed.
#[export] Hint Resolve drains_set_iface drains_set_link : draining.

Lemma drains_readDhcpCache : drains 0 readDhcpCache. Proof. unfold readDhcpCache. draining. Qed.
Lemma drains_get_hardware : drains 0 get_hardware. Proof. unfold get_hardware. draining. Qed.
Lemma drains_get_flags : drains 0 get_flags. Proof. unfold get_flags. draining. Qed.
Lemma drains_setup_idents : drains 0 setup_idents. Proof. unfold setup_idents. draining. Qed.
Lemma drains_remember : drains 0 remember_server. Proof. unfold remember_server. draining. Qed.
Lemma drains_set_req_time : drains 0 set_req_time. Proof. unfold set_req_time. draining. Qed.
#[export] Hint Resolve drains_readDhcpCache drains_get_hardware drains_get_flags drains_setup_idents
  drains_remember drains_set_req_time : draining.

Lemma drains_hardware_loop n : drains 0 (hardware_loop n).
Proof. induction n as [|n IH]; cbn [hardware_loop]; draining. Qed.
#[export] Hint Resolve drains_hardware_loop : draining.

Lemma drains_dhcpStart : drains 1 dhcpStart. Proof. unfold dhcpStart. draining. Qed.
Lemma drains_stop : drains 0 stop. Proof. unfold stop. draining. Qed.
Lemma drains_dhcpDecline : drains 0 dhcpDecline. Proof. unfold dhcpDecline. draining. Qed.
Lemma drains_time_left code : drains 1 (time_left code). Proof. unfold time_left. draining. Qed.
Lemma drains_take_offer : drains 0 take_offer. Proof. unfold take_offer. draining. Qed.
Lemma drains_no_cache : drains 0 no_cache_setup. Proof. unfold no_cache_setup. draining. Qed.
Lemma drains_inform_address : drains 0 inform_address.
Proof. unfold inform_address, set_inform. draining. Qed.
Lemma drains_inform_idents : drains 0 inform_idents. Proof. unfold inform_idents. draining. Qed.
#[export] Hint Resolve drains_dhcpStart drains_stop drains_dhcpDecline drains_time_left drains_take_offer
  drains_no_cache drains_inform_address drains_inform_idents : draining.

Section States.
Context (ARPCHECK : bool).

Lemma drains_arp_checked : drains 0 (arp_checked ARPCHECK).
Proof. unfold arp_checked. draining. Qed.
#[local] Hint Resolve drains_arp_checked : draining.

Lemma drains_dhcpRequest xid k : drains 0 (dhcpRequest ARPCHECK xid k).
Proof. unfold dhcpRequest. draining. Qed.
#[local] Hint Resolve drains_dhcpRequest : draining.

(** Every function [currState] points to takes an answer, [dhcpStop] apart. *)
Lemma drains_run_state s : drains (if decide (s = SStop) then 0 else 1) (run_state ARPCHECK s).
Proof.
  destruct s; cbn [decide run_state];
    unfold dhcpReboot, dhcpInit, dhcpBound, dhcpRenew, dhcpRebind, dhcpInform, releaseDhcpOptions; draining.
Qed.

(** Twice the answers left, and one for [dhcpStop]. *)
Definition turns_left (c : client) : nat :=
  2 * length (c_in c) + (if decide (c_state c = SStop) then 1 else 0).

Lemma next_state_decreases c s c' :
  next_state ARPCHECK c = (Val (Some s), c') → turns_left c' < turns_left c.
Proof.
  unfold next_state, mbind, M_bind, get, turns_left. intros E.
  pose proof (drains_run_state (c_state c) c) as H.
  destruct (run_state ARPCHECK (c_state c) c) as [[r| | | |] c1] eqn:E1; try discriminate.
  destruct r as [s1|]; [|discriminate]. cbn in E. injection E as <- <-. cbn.
  destruct (decide (c_state c = SStop)) as [Hs|Hs]; [|case_decide; lia].
  rewrite Hs in E1. cbn in E1. unfold mbind, M_bind in E1.
  destruct (dhcpStop c) as [[s2| | | |] c2] eqn:E2; try discriminate. injection E1 as <- <-.
  assert (s2 = SStart) as ->.
  { unfold dhcpStop in E2. revert E2. unfold mbind, M_bind.
    repeat (case_match; try discriminate); by intros [= <- _]. }
  rewrite decide_False by done. lia.
Qed.

Lemma acquire_fuel f1 f2 c : turns_left c < f1 → turns_left c < f2 → acquire ARPCHECK f1 c = acquire ARPCHECK f2 c.
Proof.
  revert f2 c. induction f1 as [|f1 IH]; intros f2 c H1 H2; [lia|]. destruct f2 as [|f2]; [lia|].
  cbn [acquire]. unfold mbind, M_bind. destruct (next_state ARPCHECK c) as [[[s|]| | | |] c'] eqn:E; try done.
  apply next_state_decreases in E. destruct s; try done; apply IH; lia.
Qed.

Lemma maintain_fuel f1 f2 c :
  turns_left c < f1 → turns_left c < f2 → maintain ARPCHECK f1 c = maintain ARPCHECK f2 c.
Proof.
  revert f2 c. induction f1 as [|f1 IH]; intros f2 c H1 H2; [lia|]. destruct f2 as [|f2]; [lia|].
  cbn [maintain]. unfold mbind, M_bind. destruct (next_state ARPCHECK c) as [[[s|]| | | |] c'] eqn:E; try done.
  apply next_state_decreases in E. apply IH; lia.
Qed.

Lemma drains_next_state : drains 0 (next_state ARPCHECK).
Proof.
  unfold next_state. draining. eapply drains_weaken; [apply drains_run_state|lia].
Qed.
#[local] Hint Resolve drains_next_state : draining.

Lemma drains_acquire fuel : drains 0 (acquire ARPCHECK fuel).
Proof. induction fuel as [|fuel IH]; cbn [acquire]; draining; apply IH. Qed.
#[local] Hint Resolve drains_acquire : draining.

(** The whole client: [2 * n + 2] turns are enough for [n] answers. *)
Lemma dhcpcd_main_fuel f1 f2 p c :
  2 * length (c_in c) + 1 < f1 → 2 * length (c_in c) + 1 < f2 →
  dhcpcd_main ARPCHECK f1 p c = dhcpcd_main ARPCHECK f2 p c.
Proof.
  assert (Hk : ∀ k, drains 0 (killPid k)) by (intros k; unfold killPid; draining).
  assert (Hr : drains 0 checkIfAlreadyRunning) by (unfold checkIfAlreadyRunning; draining).
  intros H1 H2. unfold dhcpcd_main, dhcpcd.
  apply bind_drained; [done|draining|intros _ c1 L1].
  apply bind_drained; [done|draining; apply Hk|intros _ c2 L2].
  apply bind_drained; [done|draining; apply Hr|intros _ c3 L3].
  do 3 (apply bind_drained; [done|draining|intros ? ? ?]).
  assert (Hl : ∀ d, length (c_in d) ≤ length (c_in c) → turns_left d < f1 ∧ turns_left d < f2)
    by (intros d Hd; unfold turns_left; case_decide; lia).
  apply bind_drained; [apply acquire_fuel; apply Hl; lia|draining|intros _ c7 L7].
  do 2 (apply bind_drained; [done|draining|intros ? ? ?]).
  destruct (negb _); [done|]. apply maintain_fuel; apply Hl; lia.
Qed.
End States.
