(* ===== verification/Gui.v ===== *)
(** The window that edits the configuration, src/src/gui/janela.ui.h: the file it
    writes and the fields it enables for a type of node.  The fields are the texts
    and the checks of its widgets. *)

From S2P Require Import Prelude NidTypes Inet Configuration.

Local Open Scope Z_scope.

(** ** The form *)

Record form := mkForm {
  comboBox1 : Z;
  lineEdit : nat → list Z;
  checkBox1 : bool; checkBox2 : bool; checkBox3 : bool;
}.

(** [if self.lineEdit<n>.text ().ascii () != '']. *)
Definition edited (f : form) (n : nat) (initial : string) : list Z :=
  match lineEdit f n with [] => chars initial | t => t end.

(** [str (type)], a type having one digit, and [str (int (b))]. *)
Definition str_type (t : Z) : list Z := [48 + t].
Definition str_bool (b : bool) : list Z := [if b then 49 else 48].

(** The elements [salvar] writes, in order. *)
Definition form_elements (f : form) : list (string * list Z) :=
  [("type", str_type (comboBox1 f));
   ("nodeID", lineEdit f 1);
   ("nidcorehome", lineEdit f 2);
   ("nidcore", edited f 3 "dead::dead");
   ("nidrvs", edited f 4 "dead::dead");
   ("rvsIP", edited f 5 "0.0.0.0");
   ("rvsTimeout", edited f 6 "5");
   ("nidgw", edited f 7 "dead::dead");
   ("ip", edited f 8 "0.0.0.0");
   ("dhtIP", edited f 9 "0.0.0.0");
   ("dhtPort", edited f 10 "0");
   ("niddns", edited f 11 "dead::dead");
   ("dns", str_bool (checkBox1 f));
   ("dhcp", str_bool (checkBox2 f));
   ("dht", str_bool (checkBox3 f));
   ("primaryIface", edited f 12 "eth0")]%string.

Definition open_tag (name : string) : list Z := chars "<" ++ chars name ++ chars ">".
Definition close_tag (name : string) : list Z := chars "</" ++ chars name ++ chars ">" ++ [10].

Definition element_text (e : string * list Z) : list Z := open_tag e.1 ++ e.2 ++ close_tag e.1.

(** The contents of nid.conf. *)
Definition salvar (f : form) : list Z :=
  open_tag "configuration" ++ [10] ++ concat (element_text <$> form_elements f)
    ++ close_tag "configuration".

(** ** The type of node *)

Inductive widget := Check (n : nat) | Edit (n : nat).

#[export] Instance widget_eq_dec : EqDecision widget.
Proof. solve_decision. Defined.

Inductive widget_call := SetEnabled (w : widget) (b : bool) | SetChecked (w : widget) (b : bool).

(** Which of the edits 1 to 11 are enabled. *)
Definition edits (off : list nat) : list widget_call :=
  (λ n, SetEnabled (Edit n) (bool_decide (n ∉ off))) <$> seq 1 11.

(** The calls of [nodeType] for the item chosen. *)
Definition nodeType (tipo : Z) : list widget_call :=
  if tipo =? 0 then
    [SetEnabled (Check 2) true; SetChecked (Check 2) false;
     SetEnabled (Check 3) false; SetChecked (Check 3) false] ++ edits [9; 10]%nat
  else if tipo =? 1 then
    [SetEnabled (Check 2) false; SetChecked (Check 2) false;
     SetEnabled (Check 3) false; SetChecked (Check 3) false] ++ edits [4; 5; 9; 10]%nat
  else if tipo =? 2 then
    [SetEnabled (Check 2) false; SetChecked (Check 2) false;
     SetEnabled (Check 3) false; SetChecked (Check 3) false] ++ edits [9; 10]%nat
  else if tipo =? 3 then
    [SetEnabled (Check 2) false; SetChecked (Check 2) false;
     SetEnabled (Check 3) true; SetChecked (Check 3) true] ++ edits [7; 8]%nat
  else [].

(** A form after the calls: what can be entered, and the checks. *)
Definition widget_call_apply (s : (widget → bool) * form) (c : widget_call) : (widget → bool) * form :=
  match c with
  | SetEnabled w b => (λ x, if decide (x = w) then b else s.1 x, s.2)
  | SetChecked (Check 1) b => (s.1, mkForm (comboBox1 s.2) (lineEdit s.2) b (checkBox2 s.2) (checkBox3 s.2))
  | SetChecked (Check 2) b => (s.1, mkForm (comboBox1 s.2) (lineEdit s.2) (checkBox1 s.2) b (checkBox3 s.2))
  | SetChecked (Check 3) b => (s.1, mkForm (comboBox1 s.2) (lineEdit s.2) (checkBox1 s.2) (checkBox2 s.2) b)
  | SetChecked _ _ => s
  end.

Definition choose_type (tipo : Z) (s : (widget → bool) * form) : (widget → bool) * form :=
  foldl widget_call_apply (s.1, mkForm tipo (lineEdit s.2) (checkBox1 s.2) (checkBox2 s.2) (checkBox3 s.2))
    (nodeType tipo).
