(* ===== verification/Sockets.v ===== *)
(** Sockets and interfaces: the helpers of src/src/tools.c, the virtual interface of
    src/src/tuntap.c, and the netlink socket of src/src/mobility.c.  A function is
    the calls it makes to the kernel, given what they answer. *)

From S2P Require Import Prelude NidTypes Inet.

Local Open Scope Z_scope.

(** ** Calls *)

Inductive skt_option := SO_SNDBUF | SO_RCVBUF | SO_BROADCAST | IP_HDRINCL | SO_REUSEADDR.

Inductive ioctl_request := TUNSETIFF | SIOCSIFADDR | SIOCSIFMTU | SIOCGIFFLAGS | SIOCSIFFLAGS.

Inductive skt_call :=
  | Getfl | Setfl (flags : Z)                       (* fcntl *)
  | Getsockopt (o : skt_option) | Setsockopt (o : skt_option) (v : Z)
  | Ioctl (request : ioctl_request) (ifr : list Z).

Definition O_NONBLOCK : Z := 0x800.

(** ** tools.c *)

(** A failure of [F_GETFL] leaves -1 in [flags]. *)
Definition set_skt_nonblock (getfl : option Z) : list skt_call :=
  [Getfl; Setfl (Z.lor (default (-1) getfl) O_NONBLOCK)].

(** The calls, and the value returned. *)
Definition get_skt_sndbuf (answer : option Z) : list skt_call * Z :=
  ([Getsockopt SO_SNDBUF], default 0 answer).
Definition get_skt_rcvbuf (answer : option Z) : list skt_call * Z :=
  ([Getsockopt SO_RCVBUF], default 0 answer).

Definition set_skt_sndbuf (sndbuf : Z) : list skt_call := [Setsockopt SO_SNDBUF sndbuf].
Definition set_skt_rcvbuf (rcvbuf : Z) : list skt_call := [Setsockopt SO_RCVBUF rcvbuf].
Definition set_skt_broadcast : list skt_call := [Setsockopt SO_BROADCAST 1].
Definition set_iphdr_included : list skt_call := [Setsockopt IP_HDRINCL 1].
Definition set_skt_reuseaddr : list skt_call := [Setsockopt SO_REUSEADDR 1].

Definition new_socket (s : option Z) : outcome Z :=
  match s with Some s => Go s | None => ProcessExit end.

(** ** [struct ifreq]: a name of 16 bytes and a union *)

Definition ifreq_len : nat := 32.
Definition ifr_data : nat := 16.

(** [memcpy (ifr.ifr_name, dev, strlen (dev))]. *)
Definition copy_name (dev ifr : list Z) : outcome (list Z) :=
  if (length ifr <? length dev)%nat then Fault else Go (overlay dev ifr).

Definition ifr_name (ifr : list Z) : list Z := cstr (take ifr_data ifr).
Definition ifr_short (ifr : list Z) : Z := le_val (slice ifr_data 2 ifr).
Definition ifr_int (ifr : list Z) : Z := le_val (slice ifr_data 4 ifr).
Definition ifr_addr (ifr : list Z) : Z := le_val (slice (ifr_data + 4) 4 ifr).

Definition AF_INET : Z := 2.
Definition IFF_UP : Z := 0x1.
Definition IFF_TAP : Z := 0x2.
Definition IFF_NO_PI : Z := 0x1000.

(** ** tuntap.c *)

(** What the kernel answers: whether a call succeeds, and the flags read. *)
Record tap_answers := mkTap {
  ta_socket : option Z; ta_open : option Z; ta_tunset : bool; ta_setaddr : bool; ta_setmtu : bool;
  ta_getflags : option Z; ta_setflags : bool;
}.

(** The calls made so far and what became of the function. *)
Definition taps (A : Type) : Type := list skt_call * outcome A.

Definition taps_call (c : skt_call) (ok : bool) : taps unit := ([c], if ok then Go tt else ProcessExit).

#[export] Instance taps_ret : MRet taps := λ A x, ([], Go x).
#[export] Instance taps_bind : MBind taps := λ A B f m,
  match m.2 with
  | Go x => let r := f x in (m.1 ++ r.1, r.2)
  | ThreadExit => (m.1, ThreadExit)
  | ProcessExit => (m.1, ProcessExit)
  | Fault => (m.1, Fault)
  end.

Definition of_outcome {A} (o : outcome A) : taps A := ([], o).
Definition or_exit {A} (o : option A) : taps A := ([], match o with Some x => Go x | None => ProcessExit end).

Definition ifr_zero : list Z := replicate ifreq_len 0.

(** [ifr.ifr_flags &= ~mask; ifr.ifr_flags |= mask & flags], on a [short]. *)
Definition raise_flags (f : Z) : Z := Z.lor (Z.land f (Z.lnot IFF_UP)) (Z.land IFF_UP IFF_UP).

Definition init_tap (dev : list Z) (nid32 : NID32) (k : tap_answers) : taps Z :=
  s ← of_outcome (new_socket (ta_socket k));
  tapfd ← or_exit (ta_open k);
  ifr ← of_outcome (copy_name dev (splice ifr_data (le_bytes 2 (Z.lor IFF_NO_PI IFF_TAP)) ifr_zero));
  _ ← taps_call (Ioctl TUNSETIFF ifr) (ta_tunset k);
  ifr ← of_outcome (copy_name dev (splice ifr_data (le_bytes 2 AF_INET) ifr_zero));
  let ifr := splice (ifr_data + 4) (le_bytes 4 nid32) ifr in
  _ ← taps_call (Ioctl SIOCSIFADDR ifr) (ta_setaddr k);
  ifr ← of_outcome (copy_name dev ifr_zero);
  let ifr := splice ifr_data (le_bytes 4 DEVICE_MTU) ifr in
  _ ← taps_call (Ioctl SIOCSIFMTU ifr) (ta_setmtu k);
  ifr ← of_outcome (copy_name dev ifr_zero);
  _ ← taps_call (Ioctl SIOCGIFFLAGS ifr) (bool_decide (is_Some (ta_getflags k)));
  flags ← or_exit (ta_getflags k);
  _ ← (if negb (Z.land (Z.lxor flags IFF_UP) IFF_UP =? 0) then
         taps_call (Ioctl SIOCSIFFLAGS (splice ifr_data (le_bytes 2 (raise_flags flags)) ifr)) (ta_setflags k)
       else mret tt);
  mret tapfd.

(** ** The netlink socket *)

(** [open_netlink] of mobility.c: the descriptor or -1; a socket that cannot be
    made ends the process. *)
Definition open_netlink (s : option Z) (bound : bool) : outcome Z :=
  match s with
  | None => ProcessExit
  | Some s => Go (if bound then s else -1)
  end.
