(* ===== verification/Conecta.v ===== *)
(** The test programs: src/src/conecta.c, which changes the access point and starts
    the DHCP client when the link is up, and the server of
    src/src/dhcpcd-1.3.22-pl4/unix_server.c, which prints what the client writes.
    The times conecta prints are left out. *)

From S2P Require Import Prelude NidTypes Inet.

Local Open Scope Z_scope.

(** ** conecta.c *)

Definition COMMAND_LEN : nat := 32.
Definition RTM_NEWLINK : Z := 16.
Definition LINK_EVENTS : nat := 5.

(** [sprintf (command, ...)] of the text [t]. *)
Definition command (t : list Z) : outcome (list Z) :=
  if (COMMAND_LEN <? length t + 1)%nat then Fault else Go t.

(** [open_netlink]: [socket] and [bind]. *)
Definition conecta_netlink (socket bound : bool) : outcome unit :=
  if socket && bound then Go tt else ProcessExit.

(** [read_event]: the type of the message received, or a failure. *)
Definition conecta_event (nlmsg_type : option Z) : outcome bool :=
  match nlmsg_type with Some t => Go (t =? RTM_NEWLINK) | None => ProcessExit end.

(** How the program stands: the commands it ran, and whether it returned, ended,
    crashed or waits for a message. *)
Inductive conecta_end := Returned | Ended | Crashed | Waits.

Definition ended {A} (o : outcome A) : conecta_end :=
  match o with Go _ => Returned | Fault => Crashed | _ => Ended end.

(** The loop: [count] links seen so far. *)
Fixpoint conecta_loop (count : nat) (ifname : list Z) (events : list (option Z))
    : list (list Z) * conecta_end :=
  match events with
  | [] => ([], Waits)
  | ev :: events =>
      match conecta_event ev with
      | Go true =>
          let count := S count in
          if (LINK_EVENTS <=? count)%nat then
            match command (chars "./dhcpcd -YR " ++ ifname) with
            | Go c => ([chars "rm -fr /etc/dhcpc/*"; c], Returned)
            | o => ([chars "rm -fr /etc/dhcpc/*"], ended o)
            end
          else conecta_loop count ifname events
      | Go false => conecta_loop count ifname events
      | o => ([], ended o)
      end
  end.

(** A command that is printed and run, then the rest. *)
Definition run_command (t : list Z) (rest : list (list Z) * conecta_end) : list (list Z) * conecta_end :=
  match command t with
  | Go c => (c :: rest.1, rest.2)
  | o => ([], ended o)
  end.

(** [args] are those behind the name of the program. *)
Definition conecta (args : list (list Z)) (socket bound : bool) (events : list (option Z))
    : list (list Z) * conecta_end :=
  match conecta_netlink socket bound with
  | Go _ =>
      match args with
      | ifname :: essid :: _ =>
          run_command (chars "iwconfig " ++ ifname ++ chars " essid off")
            (run_command (chars "iwconfig " ++ ifname ++ chars " key off")
               (run_command (chars "iwconfig " ++ ifname ++ chars " essid " ++ essid)
                  (conecta_loop 0 ifname events)))
      | _ => ([], Ended)
      end
  | o => ([], ended o)
  end.

(** ** unix_server.c *)

Definition UNIX_BUF : nat := 80.
Definition SUN_PATH : nat := 108.

(** [strcpy (serv_addr.sun_path, argv[1])]. *)
Definition unix_path (path : list Z) : outcome (list Z) :=
  if (SUN_PATH <? length path + 1)%nat then Fault else Go path.

(** [error] prints and ends the process. *)
Definition unix_setup (path : list Z) (socket bound accepted : bool) : outcome unit :=
  if negb socket then ProcessExit else
  _ ← unix_path path;
  if bound && accepted then Go tt else ProcessExit.

(** A turn: what is printed of the bytes read, none at the end of the stream. *)
Definition unix_turn (d : list Z) : outcome (list Z) :=
  let buf := overlay (take UNIX_BUF d) (replicate UNIX_BUF 0) in
  if bool_decide (0 ∈ buf) then Go (cstr buf ++ [10]) else Fault.

Fixpoint unix_run (ds : list (list Z)) : outcome (list Z) :=
  match ds with
  | [] => Go []
  | d :: ds => t ← unix_turn d; r ← unix_run ds; Go (t ++ r)
  end.
