(* ===== verification/DhExchange.v ===== *)
(** The two programs of the Diffie-Hellman exchange, src/src/dh_client2.c and
    src/src/dh_server2.c, with the message of src/src/dh.h.  Numbers and keys are
    OpenSSL's: its functions are parameters.  The connection gives what [recv]
    reads; printing is left out but for the shared key. *)

From S2P Require Import Prelude NidTypes Inet.

Local Open Scope Z_scope.

(** ** [dh_struct] *)

Definition PRIME_LEN : nat := 32.
Definition dh_len : nat := 3 * PRIME_LEN.
Definition dh_off_g : nat := PRIME_LEN.
Definition dh_off_pub : nat := 2 * PRIME_LEN.
Definition DH_MAXBUFLEN : nat := 1500.

Definition DH_GENERATOR_5 : Z := 5.

(** [strcpy (dh_msg + off, t)]: the NUL behind the text must be in the structure. *)
Definition put_text (off : nat) (t msg : list Z) : outcome (list Z) :=
  if (length msg <? off + length t + 1)%nat then Fault else Go (splice off (t ++ [0]) msg).

(** [strncpy (tmp, buf + off, PRIME_LEN)], [tmp[PRIME_LEN]] being 0. *)
Definition text_at (off : nat) (buf : list Z) : list Z := cstr (slice off PRIME_LEN buf).

(** The string at [off], which must end in the buffer. *)
Definition string_at (off : nat) (buf : list Z) : outcome (list Z) :=
  if bool_decide (0 ∈ drop off buf) then Go (cstr (drop off buf)) else Fault.

(** The characters printed of a shared key. *)
Definition key_text (key : list Z) : list Z := concat (hex2 <$> key).

Section OpenSSL.
(** [BN_bn2hex]; [BN_hex2bn], [None] for a text without digits; the public key of
    a private one, and [DH_compute_key] with a peer's public key, both for the prime
    and the generator given; [None] is an error. *)
Context (BN_bn2hex : Z → list Z) (BN_hex2bn : list Z → option Z).
Context (public_key : Z → Z → Z → Z) (DH_compute_key : Z → Z → Z → option (list Z)).

Record DH := mkDH { dh_p : Z; dh_g : Z; dh_pub_key : Z; dh_priv_key : Z }.

(** [bzero], and the three [strcpy]. *)
Definition dh_message (d : DH) : outcome (list Z) :=
  m ← put_text 0 (BN_bn2hex (dh_p d)) (replicate dh_len 0);
  m ← put_text dh_off_g (BN_bn2hex (dh_g d)) m;
  put_text dh_off_pub (BN_bn2hex (dh_pub_key d)) m.

(** The prime, the generator and the public key of the peer; a number that was
    not read is a null pointer, which is printed. *)
Definition read_peer (buf : list Z) : outcome (Z * Z * Z) :=
  g ← string_at dh_off_g buf;
  p ← accessed (BN_hex2bn (text_at 0 buf));
  g ← accessed (BN_hex2bn g);
  pub ← accessed (BN_hex2bn (text_at dh_off_pub buf));
  Go (p, g, pub).

(** [DH_generate_key]: a private key, or [None] when it fails, which leaves the
    keys null; they are printed. *)
Definition with_key (p g : Z) (priv : option Z) : outcome DH :=
  x ← accessed priv; Go (mkDH p g (public_key p g x) x).

(** [DH_compute_key] with an error ends the program. *)
Definition shared_key (d : DH) (peer : Z) : outcome (list Z) :=
  match DH_compute_key (dh_p d) peer (dh_priv_key d) with Some k => Go (key_text k) | None => ProcessExit end.

(** ** The client *)

(** What [DH_check] found is printed only: its result, negated, is never
    negative. *)
Definition check_text (i : Z) : list Z :=
  if i =? 1 then chars "p value is not prime"
  else if i =? 2 then chars "p value is not a safe prime"
  else if i =? 4 then chars "unable to check the generator value"
  else if i =? 8 then chars "the g value is not a generator"
  else [].

(** Up to [send]: [params] is what [DH_generate_parameters] gives, [connected]
    whether [socket] and [connect] succeed. *)
Definition dh_client_send (params : option (Z * Z)) (priv : option Z) (connected : bool)
    : outcome (DH * list Z) :=
  match params with
  | None => ProcessExit
  | Some (p, g) =>
      d ← with_key p g priv;
      m ← dh_message d;
      if connected then Go (d, m) else ProcessExit
  end.

(** From [recv] into the cleared buffer: the shared key printed. *)
Definition dh_client_recv (d : DH) (r : option (list Z)) : outcome (list Z) :=
  match r with
  | None => ProcessExit
  | Some r =>
      '(_, _, pub) ← read_peer (overlay (take (DH_MAXBUFLEN - 1) r) (replicate DH_MAXBUFLEN 0));
      shared_key d pub
  end.

(** ** The server *)

(** A child of the server: [ubuf] is not cleared; the shared key printed and the
    message sent. *)
Definition dh_server_child (ubuf : list Z) (r : option (list Z)) (priv : option Z)
    : outcome (list Z * list Z) :=
  match r with
  | None => ProcessExit
  | Some r =>
      '(p, g, pub) ← read_peer (overlay (take DH_MAXBUFLEN r) ubuf);
      d ← with_key p g priv;
      k ← shared_key d pub;
      m ← dh_message d;
      Go (k, m)
  end.

(** A connection: the memory of the child's buffer, what it receives, its private
    key. *)
Record dh_peer := mkPeer { peer_ubuf : list Z; peer_recv : option (list Z); peer_priv : option Z }.

(** The loop of the server: a child per connection, until [accept] fails. *)
Fixpoint dh_server (accepted : list (option dh_peer)) : list (outcome (list Z * list Z)) :=
  match accepted with
  | [] => []
  | None :: _ => []
  | Some c :: accepted =>
      dh_server_child (peer_ubuf c) (peer_recv c) (peer_priv c) :: dh_server accepted
  end.
End OpenSSL.
