(* ===== verification/TableProps.v ===== *)
(** Properties of the hash tables: a run of operations is a run on a finite
    map, where hash values fall, what [free_hash_table] visits, and what
    [hash_enumerate] lists. *)

From S2P Require Import Prelude NidTypes Inet HashTable Hash LList EntryTable QueueTable.

Local Open Scope Z_scope.

(** ** Runs of operations *)

(** A call on a table; the flag is the outcome of the [malloc] of a bucket. *)
Inductive table_op (K D : Type) :=
  | OpInsert (malloc_ok : bool) (k : K) (d : D)
  | OpLookup (k : K)
  | OpDel (k : K).
Arguments OpInsert {K D} _ _ _.
Arguments OpLookup {K D} _.
Arguments OpDel {K D} _.

(** The table after a run, and the pointers the calls return. *)
Fixpoint table_run {K D} `{EqDecision K} (h : K → Z) (ops : list (table_op K D))
    (t : chained_table h D) : chained_table h D * list (option D) :=
  match ops with
  | [] => (t, [])
  | op :: ops =>
      let '(t, r) := match op with
                     | OpInsert b k d => insert_at h b k d t
                     | OpLookup k => (t, lookup_at h k t)
                     | OpDel k => del_at h k t
                     end in
      let '(t, rs) := table_run h ops t in (t, r :: rs)
  end.

(** The same run on a finite map. *)
Fixpoint map_run {K D} `{Countable K} (ops : list (table_op K D)) (m : gmap K D)
    : gmap K D * list (option D) :=
  match ops with
  | [] => (m, [])
  | op :: ops =>
      let '(m, r) := match op with
                     | OpInsert b k d =>
                         match m !! k with
                         | Some old => (<[k := d]> m, Some old)
                         | None => if b then (<[k := d]> m, Some d) else (m, None)
                         end
                     | OpLookup k => (m, m !! k)
                     | OpDel k => (delete k m, m !! k)
                     end in
      let '(m, rs) := map_run ops m in (m, r :: rs)
  end.

Section Refinement.
  Context {K D : Type} `{Countable K} (h : K → Z).
  Implicit Types (t : chained_table h D) (k : K) (d : D).

Lemma table_map_insert b k d t :
  table_ok h t →
  table_map h (insert_at h b k d t).1
  = (if b || bool_decide (is_Some (lookup_at h k t)) then <[k := d]> (table_map h t)
     else table_map h t)
  ∧ (insert_at h b k d t).2
    = match lookup_at h k t with Some old => Some old | None => if b then Some d else None end.
Proof.
  intros Ht. destruct (insert_at_cases h b k d t Ht)
    as [[(c & E & Hn & Hs & Hf) Hb]|(E & -> & Hl)].
  - split.
    + rewrite (proj2 (orb_true_iff _ _))
        by (destruct Hb as [->|Hb]; [by left|right; by apply bool_decide_eq_true_2]).
      apply map_eq. intros k'. rewrite table_map_lookup by by apply insert_at_ok.
      rewrite E. cbn [fst]. rewrite lookup_set_bucket by done.
      rewrite lookup_insert, table_map_lookup by done. case_decide as Hs'.
      * rewrite Hf. unfold lookup_at. by rewrite Hs'.
      * by rewrite decide_False by congruence.
    + rewrite E. simpl. destruct (lookup_at h k t); [done|].
      by destruct Hb as [->|[? ?]].
  - by rewrite E, Hl.
Qed.

Lemma table_map_del k t :
  table_ok h t → table_map h (del_at h k t).1 = delete k (table_map h t).
Proof.
  intros Ht. apply map_eq. intros k'.
  rewrite table_map_lookup, lookup_del_at by (done || by apply del_at_ok).
  destruct (decide (k = k')) as [->|].
  - by rewrite lookup_delete_eq.
  - by rewrite lookup_delete_ne, table_map_lookup by done.
Qed.

(** One step of the simulation. *)
Lemma table_run_map ops t :
  table_ok h t →
  table_ok h (table_run h ops t).1
  ∧ table_map h (table_run h ops t).1 = (map_run ops (table_map h t)).1
  ∧ (table_run h ops t).2 = (map_run ops (table_map h t)).2.
Proof.
  revert t. induction ops as [|op ops IH]; intros t Ht; [done|]. cbn [table_run map_run].
  destruct op as [b k d|k|k].
  - destruct (table_map_insert b k d t Ht) as [Hm Hr].
    pose proof (insert_at_ok h b k d t Ht) as Hok. rewrite table_map_lookup by done.
    destruct (insert_at h b k d t) as [t' r]. cbn [fst snd] in *. subst r.
    destruct (IH t' Hok) as (H1 & H2 & H3). destruct (table_run h ops t') as [t'' rs].
    cbn [fst snd] in *. rewrite H2, H3. clear H2 H3. rewrite Hm.
    destruct (lookup_at h k t) as [old|] eqn:El; [|destruct b].
    + rewrite orb_comm. cbn. by destruct (map_run ops _).
    + cbn. by destruct (map_run ops _).
    + rewrite bool_decide_eq_false_2 by by intros []. cbn. by destruct (map_run ops _).
  - destruct (IH t Ht) as (H1 & H2 & H3). destruct (table_run h ops t) as [t' rs].
    rewrite table_map_lookup by done. destruct (map_run ops _). cbn [fst snd] in *.
    split_and!; [done..|]. by f_equal.
  - pose proof (table_map_del k t Ht) as Hm. pose proof (del_at_ok h k t Ht) as Hok.
    pose proof (del_at_result h k t Ht) as Hr. rewrite table_map_lookup by done.
    destruct (del_at h k t) as [t' r]. cbn [fst snd] in *. subst r.
    destruct (IH t' Hok) as (H1 & H2 & H3). destruct (table_run h ops t') as [t'' rs].
    rewrite Hm in H2, H3. destruct (map_run ops _). cbn [fst snd] in *.
    split_and!; [done..|]. by f_equal.
Qed.

Lemma table_map_construct size : (0 < size)%nat → table_map (D := D) h (construct h true size) = ∅.
Proof.
  intros Hs. apply map_eq. intros k.
  rewrite table_map_lookup by by apply construct_ok.
  by rewrite lookup_construct, lookup_empty.
Qed.

End Refinement.

(** C5. A hash table behaves as a finite map: over any run of insertions
    (with any outcome of [malloc]), lookups and deletions on a table
    constructed with at least one slot, every call returns the pointer the
    map gives (the displaced datum, or the new one for a new key, for an
    insertion; NULL for a failed one and for absent keys), and the bindings
    left are the map's.  The theorem holds for the tables of hash.c, hash32.c
    and fqdn_hash.c alike. *)
Theorem table_refines_map {K D} `{Countable K} (h : K → Z) (size : nat)
    (ops : list (table_op K D)) :
  (0 < size)%nat →
  table_map h (table_run h ops (construct h true size)).1 = (map_run ops ∅).1
  ∧ (table_run h ops (construct h true size)).2 = (map_run ops ∅).2.
Proof.
  intros Hs. destruct (table_run_map h ops (construct h true size)) as (_ & Hm & Hr).
  { by apply construct_ok. }
  by rewrite table_map_construct in Hm, Hr.
Qed.

Definition small_nid (b : Z) : NID := replicate 15 0 ++ [b].

(** Keys 1 and 11 share a slot of a ten-slot table. *)
Lemma table_refines_map_witness :
  (0 < 10)%nat
  ∧ (table_run (D := Z) hash
      [OpInsert true (small_nid 1) 7; OpInsert true (small_nid 6) 8;
       OpInsert false (small_nid 3) 9; OpInsert true (small_nid 1) 10;
       OpDel (small_nid 6); OpLookup (small_nid 6); OpLookup (small_nid 1)]
      (construct hash true 10)).2
    = [Some 7; Some 8; None; Some 7; Some 8; None; Some 10].
Proof.
  split; [lia|].
  rewrite (proj2 (table_refines_map (D := Z) hash 10 _ ltac:(lia))). vm_compute. reflexivity.
Defined.

(** ** Where keys fall *)

(** The hash of a NID is an even number below [2 ^ 24]: no bit is lost in the
    sixteen shifts, and the last one clears bit 0. *)
Lemma hash_bounded_even nid :
  nid_ok nid → 0 ≤ hash nid < 2 ^ 24 ∧ hash nid `mod` 2 = 0.
Proof.
  intros [Hl Hb]. unfold hash. rewrite take_ge by lia. split.
  - pose proof (foldl_hash_bound nid 0 0) as H. rewrite Hl in H.
    apply H; [lia..|done].
  - by apply foldl_hash_even.
Qed.

Lemma hash_nonneg nid : 0 ≤ hash nid.
Proof.
  unfold hash. assert (Hz : ∀ l r, 0 ≤ r → 0 ≤ foldl hash_step r l); [|by apply Hz].
  induction l as [|b l IH]; intros r Hr; simpl; [done|]. apply IH.
  unfold hash_step, u32_wrap. apply Z.mod_pos_bound. lia.
Qed.

(** No operation resizes a table. *)
Lemma table_run_size {K D} `{EqDecision K} (h : K → Z) (ops : list (table_op K D)) t :
  ht_size (table_run h ops t).1 = ht_size t.
Proof.
  revert t. induction ops as [|op ops IH]; intros t; [done|]. cbn [table_run].
  assert (Hop : ht_size (match op with
                 | OpInsert b k d => insert_at h b k d t
                 | OpLookup k => (t, lookup_at h k t)
                 | OpDel k => del_at h k t
                 end).1 = ht_size t).
  { destruct op; [unfold insert_at|done|unfold del_at]; by repeat case_match. }
  destruct (match op with OpInsert b k d => _ | OpLookup k => _ | OpDel k => _ end) as [t' r].
  cbn [fst] in Hop. specialize (IH t'). destruct (table_run h ops t').
  cbn [fst] in *. congruence.
Qed.

(** The key of a non-empty bucket hashes there. *)
Lemma bucket_slot {K D} `{Countable K} (h : K → Z) (t : chained_table h D) i k d c :
  table_ok h t → bucket_at h t i = (k, d) :: c → slot h t k = i.
Proof.
  intros Hok E. apply (ok_slot h t Hok i ((k, d) :: c)); [|left].
  unfold bucket_at in E. destruct (ht_table t !! i); simpl in *; congruence.
Qed.

(** Because the last step of the hash is a shift, hash values are even:
    every slot of odd index stays empty in the tables of the daemon, all of
    which are constructed with an even size, and half of each array is never
    used. *)
Theorem odd_slots_empty {D} (size : nat) (ops : list (table_op NID D)) (i : nat) :
  (0 < size)%nat → Nat.Even size → Nat.Odd i →
  bucket_at hash (table_run hash ops (construct hash true size)).1 i = [].
Proof.
  intros Hs He Hi.
  assert (Ht : table_ok hash (construct (D := D) hash true size)) by by apply construct_ok.
  destruct (table_run_map hash ops _ Ht) as (Hok & _ & _).
  pose proof (table_run_size hash ops (construct hash true size)) as Hsz.
  set (t := (table_run hash ops (construct hash true size)).1) in *.
  destruct (bucket_at hash t i) as [|[k d] c] eqn:E; [done|]. exfalso.
  assert (Hev : Nat.Even (slot hash t k))
    by (apply slot_even; [by apply foldl_hash_even|apply hash_nonneg|by rewrite Hsz]).
  rewrite (bucket_slot _ _ _ _ _ _ Hok E) in Hev. by apply (Nat.Even_Odd_False i).
Qed.

Lemma odd_slots_empty_witness :
  Nat.Even 20 ∧
  bucket_at hash (table_run (D := Z) hash [OpInsert true (small_nid 1) 7; OpInsert true (small_nid 3) 8]
    (construct hash true 20)).1 7 = [].
Proof.
  split; [by exists 10%nat|].
  apply odd_slots_empty; [lia|by exists 10%nat|by exists 3%nat].
Defined.

(** Buckets without duplicates, each key in its slot, have no key twice. *)
Lemma buckets_no_dup {K D} (f : K → nat) (tbl : list (list (K * D))) j :
  (∀ i c, tbl !! i = Some c → NoDup c.*1) →
  (∀ i c k, tbl !! i = Some c → k ∈ c.*1 → f k = (j + i)%nat) →
  NoDup (concat tbl).*1.
Proof.
  revert j. induction tbl as [|c tbl IH]; intros j Hd Hs; cbn [concat]; [constructor|].
  rewrite fmap_app. apply NoDup_app. split; [by apply (Hd 0%nat)|]. split.
  - intros k Hk Hk'. pose proof (Hs 0%nat c k eq_refl Hk) as H0.
    apply list_elem_of_fmap in Hk' as ([k' d'] & -> & Hin).
    apply list_elem_of_In, in_concat in Hin as (c' & Hc' & Hin).
    apply list_elem_of_In, list_elem_of_lookup in Hc' as [i Hi].
    pose proof (Hs (S i) c' k' Hi) as H1. simpl in H0.
    rewrite H1 in H0; [lia|]. apply list_elem_of_fmap. exists (k', d').
    by rewrite list_elem_of_In.
  - apply (IH (S j)).
    + intros i c' Hi. by apply (Hd (S i)).
    + intros i c' k Hi Hk. rewrite (Hs (S i) c' k Hi Hk). lia.
Qed.

(** [free_hash_table] hands every datum of the table to [func] exactly
    once, key by key, and leaves a table of size 0 in which nothing is
    found. *)
Theorem free_visits_once {K D} `{Countable K} (h : K → Z) (t : chained_table h D) :
  table_ok h t →
  (free_all h t).2 = (entries h t).*2
  ∧ NoDup (entries h t).*1
  ∧ (∀ k d, (k, d) ∈ entries h t ↔ lookup_at h k t = Some d)
  ∧ ∀ k, lookup_at h k (free_all h t).1 = None.
Proof.
  intros Ht. split; [done|]. split; [|split; [intros; by apply entries_elem|done]].
  destruct Ht as [_ _ Hn Hsl]. by apply (buckets_no_dup (slot h t) _ 0%nat).
Qed.

Lemma free_visits_once_witness :
  table_ok hash (insert_at hash true (small_nid 1) 7 (construct hash true 10)).1
  ∧ (free_all hash (insert_at hash true (small_nid 1) 7 (construct hash true 10)).1).2 = [7].
Proof.
  assert (Ht : table_ok hash (insert_at hash true (small_nid 1) 7 (construct hash true 10)).1)
    by (apply insert_at_ok, construct_ok; lia).
  split; [exact Ht|]. rewrite (proj1 (free_visits_once hash _ Ht)). vm_compute. reflexivity.
Defined.

(** [hash_enumerate] lists exactly the entries that are static or have
    been refreshed within [RVS_UPDATE_TIMEOUT] seconds, each with its address
    in text, after what the list already held. *)
Theorem enumerate_lists_fresh now (t : conn_table) nid ip :
  et_ok t →
  mkNode nid ip ∈ ll_nodes (hash_enumerate (λ _, now) t init_ll) ↔
  ∃ ce, et_get t nid = Some ce
        ∧ (now < ce_tstamp ce + 5 ∨ ce_tstamp ce = 0)
        ∧ ip = inet_ntop4 (ce_ip ce).
Proof.
  intros Ht. rewrite hash_enumerate_spec by done. split.
  - intros [Hn|(ce & Hg & Hl & ->)]; [by apply not_elem_of_nil in Hn|].
    exists ce. split; [done|]. split; [|done]. unfold is_listed, RVS_UPDATE_TIMEOUT in Hl.
    apply orb_true_iff in Hl as [Hl|Hl]; zbool; [by left|by right].
  - intros (ce & Hg & Hl & ->). right. exists ce. split; [done|]. split; [|done].
    unfold is_listed, RVS_UPDATE_TIMEOUT. apply orb_true_iff. rewrite Z.ltb_lt, Z.eqb_eq. done.
Qed.

Lemma enumerate_lists_fresh_witness :
  mkNode (small_nid 1) (chars "1.2.3.4")
  ∈ ll_nodes (hash_enumerate (λ _, 104)
      (et_add (small_nid 1) (mkConn 0x04030201 100) (et_empty (construct hash true 20))) init_ll).
Proof.
  apply enumerate_lists_fresh.
  - apply et_add_ok, construct_table_ok. lia.
  - exists (mkConn 0x04030201 100). split; [|split; [left; simpl; lia|reflexivity]].
    vm_compute. reflexivity.
Defined.
