(* ===== verification/MapperProps.v ===== *)
(** Properties of the mappers: the connection mapper and its time-outs, the
    tables of pending resolutions, the NID mapper and its 32-bit identifiers,
    the routing table. *)

From S2P Require Import Prelude NidTypes Inet HashTable Hash LList EntryTable Configuration.
From S2P Require Import QueueTable ConnectionMapper NidMapper RoutingTable Gwc Dhtc NidRouting.
From S2P Require Import Control.

Local Open Scope Z_scope.

(** ** Connection mapper *)

Lemma cm_unknown_effect nid ck e :
  env_ok e →
  let gw := cm_gatewayIP (env_cm e) in
  let r := cm_unknown nid ck e in
  r.1.2 = 0 ∧ r.2 = gw
  ∧ sp_cm2rvs r.1.1 = sp_cm2rvs e ++ [take 16 nid]
  ∧ env_queue r.1.1 = env_queue e
  ∧ ∀ n, cm_get (env_cm r.1.1) n
         = if decide (nid = n) then Some (refreshed gw (ck_new ck) (cm_get (env_cm e) nid))
           else cm_get (env_cm e) n.
Proof.
  intros [Hc Hq] gw r. split_and!; [done..|]. intros n. by apply cm_get_newCMEntry.
Qed.

(** The branches of [getCMEntry]. *)
Lemma getCMEntry_known nid ck e ce :
  cm_get (env_cm e) nid = Some ce →
  ce_tstamp ce = 0 ∨ ck_proactive ck < ce_tstamp ce + 4 →
  getCMEntry nid ck e = (e, 1, ce_ip ce).
Proof.
  intros (p & E)%et_get_find H. unfold getCMEntry. rewrite E.
  unfold RVS_PROACTIVE, RVS_UPDATE_TIMEOUT. rewrite (proj2 (orb_true_iff _ _)); [done|].
  by rewrite Z.eqb_eq, Z.ltb_lt; replace (ce_tstamp ce + (5 - 1)) with (ce_tstamp ce + 4) by lia.
Qed.

Lemma getCMEntry_refresh nid ck e ce :
  cm_get (env_cm e) nid = Some ce →
  ce_tstamp ce ≠ 0 → ce_tstamp ce + 4 ≤ ck_proactive ck → ck_timeout ck < ce_tstamp ce + 5 →
  let r := getCMEntry nid ck e in
  r.1.2 = 1 ∧ r.2 = ce_ip ce ∧ env_cm r.1.1 = env_cm e
  ∧ sp_cm2rvs r.1.1
    = sp_cm2rvs e ++ (if (isQueued nid (ck_isQueued ck) (env_queue e)).2 =? 0
                      then [take 16 nid] else []).
Proof.
  intros (p & E)%et_get_find H0 Hp Ht. unfold getCMEntry. rewrite E.
  unfold RVS_PROACTIVE, RVS_UPDATE_TIMEOUT.
  rewrite (proj2 (orb_false_iff _ _)) by (rewrite Z.eqb_neq, Z.ltb_ge; lia).
  rewrite (proj2 (Z.ltb_lt _ _)) by done.
  destruct (isQueued nid (ck_isQueued ck) (env_queue e)) as [q b]. cbn [fst snd].
  destruct (b =? 0); cbn; [done|]. by rewrite app_nil_r.
Qed.

Definition cm_expired (ck : cm_clock) (old : option conn_entry) : Prop :=
  ∀ ce, old = Some ce →
    ce_tstamp ce ≠ 0 ∧ ce_tstamp ce + 4 ≤ ck_proactive ck ∧ ce_tstamp ce + 5 ≤ ck_timeout ck.

Lemma getCMEntry_missing nid ck e :
  env_ok e → cm_expired ck (cm_get (env_cm e) nid) →
  let r := getCMEntry nid ck e in
  r.1.2 = 0 ∧ r.2 = cm_gatewayIP (env_cm e)
  ∧ sp_cm2rvs r.1.1 = sp_cm2rvs e ++ [take 16 nid]
  ∧ ∀ n, cm_get (env_cm r.1.1) n
         = if decide (nid = n) then Some (mkConn (cm_gatewayIP (env_cm e)) (ck_new ck))
           else cm_get (env_cm e) n.
Proof.
  intros He Hx. pose proof He as [Hc Hq]. unfold getCMEntry.
  destruct (et_find nid (connmap (env_cm e))) as [[p ce]|] eqn:E.
  - destruct (Hx ce (et_find_get _ _ _ _ E)) as (H0 & Hp & Ht).
    unfold RVS_PROACTIVE, RVS_UPDATE_TIMEOUT.
    rewrite (proj2 (orb_false_iff _ _)) by (rewrite Z.eqb_neq, Z.ltb_ge; lia).
    rewrite (proj2 (Z.ltb_ge _ _)) by done.
    destruct (cm_unknown_effect nid ck (e <| env_cm ::= delCMEntry nid |>))
      as (H1 & H2 & H3 & _ & H4); [by split; simpl; auto with nid|].
    split_and!; [done..|]. intros n. rewrite H4. cbn.
    rewrite !cm_get_delCMEntry by done. by repeat case_decide.
  - pose proof (proj1 (et_find_None _ _) E) as Hg.
    destruct (cm_unknown_effect nid ck e He) as (H1 & H2 & H3 & _ & H4).
    split_and!; [done..|]. intros n. rewrite H4. unfold cm_get at 1. by rewrite Hg.
Qed.

(** C7. The three outcomes of [getCMEntry].  A static entry, or one refreshed
    less than 4 seconds ago, is answered and nothing changes.  Between 4 and 5
    seconds it is still answered, and a resolution is requested unless one is
    pending.  Otherwise the answer is 0 with the address of the gateway, which
    becomes the binding of the destination, all other bindings are kept, and a
    resolution is requested. *)
Theorem getCMEntry_spec nid ck e :
  env_ok e →
  let r := getCMEntry nid ck e in
  (∀ ce, cm_get (env_cm e) nid = Some ce →
     (ce_tstamp ce = 0 ∨ ck_proactive ck < ce_tstamp ce + 4 → r = (e, 1, ce_ip ce))
     ∧ (ce_tstamp ce ≠ 0 → ce_tstamp ce + 4 ≤ ck_proactive ck →
        ck_timeout ck < ce_tstamp ce + 5 →
        r.1.2 = 1 ∧ r.2 = ce_ip ce ∧ env_cm r.1.1 = env_cm e
        ∧ sp_cm2rvs r.1.1
          = sp_cm2rvs e ++ (if (isQueued nid (ck_isQueued ck) (env_queue e)).2 =? 0
                            then [take 16 nid] else [])))
  ∧ (cm_expired ck (cm_get (env_cm e) nid) →
     r.1.2 = 0 ∧ r.2 = cm_gatewayIP (env_cm e)
     ∧ sp_cm2rvs r.1.1 = sp_cm2rvs e ++ [take 16 nid]
     ∧ ∀ n, cm_get (env_cm r.1.1) n
            = if decide (nid = n) then Some (mkConn (cm_gatewayIP (env_cm e)) (ck_new ck))
              else cm_get (env_cm e) n).
Proof.
  intros He r. split; [|by apply getCMEntry_missing].
  intros ce Hg. split; [by apply getCMEntry_known|by apply getCMEntry_refresh].
Qed.

(** A configuration for the witnesses. *)
Definition sample_nid (b : Z) : NID := [0x3f; 0xfe] ++ replicate 13 0 ++ [b].

Definition sample_config : config :=
  config_init <| conf_nid := sample_nid 1 |> <| conf_nidgw := sample_nid 4 |>
    <| conf_nidrvs := sample_nid 8 |> <| conf_nidcore := sample_nid 7 |>
    <| conf_nidcorehome := sample_nid 7 |> <| conf_niddns := sample_nid 9 |>
    <| conf_gatewayIP := 0x0100000a |> <| conf_rvsIP := 0x0200000a |>.

Definition sample_env : cm_env :=
  mkEnv (staticCMEntry (sample_nid 8) 0x0200000a (init_conn_mapper sample_config))
    init_rvs_queue_table [].

Lemma sample_env_ok : env_ok sample_env.
Proof. split; simpl; [auto with nid|apply init_queue_ok]. Qed.

Definition sample_clock (t : Z) : cm_clock := mkClock t t t (mkTv t 0) (mkTv t 0).

Lemma getCMEntry_spec_witness :
  env_ok sample_env ∧
  getCMEntry (sample_nid 8) (sample_clock 1000) sample_env = (sample_env, 1, 0x0200000a).
Proof.
  split; [apply sample_env_ok|].
  apply (proj1 (getCMEntry_spec (sample_nid 8) (sample_clock 1000) sample_env sample_env_ok)
    (mkConn 0x0200000a 0)); [vm_compute; reflexivity|by left].
Defined.

(** The calls other threads make on the mapper while packets flow. *)
Inductive cm_op :=
  | CmNew (nid : NID) (ip : NID32) (now : Z)     (* a packet or message of a peer *)
  | CmGet (nid : NID) (ck : cm_clock).           (* a packet to send *)

Definition cm_apply (e : cm_env) (op : cm_op) : cm_env :=
  match op with
  | CmNew nid ip now => e <| env_cm ::= newCMEntry nid ip now |>
  | CmGet nid ck => (getCMEntry nid ck e).1.1
  end.

Lemma cm_apply_ok e op : env_ok e → env_ok (cm_apply e op).
Proof.
  intros He. destruct op; simpl; [|by apply getCMEntry_env_ok].
  destruct He. split; simpl; auto with nid.
Qed.

Lemma cm_apply_static e op nid ip :
  env_ok e → cm_get (env_cm e) nid = Some (mkConn ip 0) →
  cm_get (env_cm (cm_apply e op)) nid = Some (mkConn ip 0).
Proof.
  intros He Hg. destruct op as [n i now|n ck]; simpl.
  - rewrite cm_get_newCMEntry by apply He. case_decide as Hd; [subst|done]. by rewrite Hg.
  - destruct (decide (n = nid)) as [->|Hne].
    { rewrite (getCMEntry_known nid ck e (mkConn ip 0)); [done|done|by left]. }
    destruct (cm_get (env_cm e) n) as [ce|] eqn:En.
    + destruct (decide (ce_tstamp ce = 0 ∨ ck_proactive ck < ce_tstamp ce + 4)) as [Hd|Hd].
      { by rewrite (getCMEntry_known n ck e ce). }
      destruct (decide (ck_timeout ck < ce_tstamp ce + 5)).
      * destruct (getCMEntry_refresh n ck e ce) as (_ & _ & -> & _); [done|lia..|done].
      * destruct (getCMEntry_missing n ck e He) as (_ & _ & _ & ->).
        { rewrite En. intros ce' ?. simplify_eq. lia. }
        by rewrite decide_False.
    + destruct (getCMEntry_missing n ck e He) as (_ & _ & _ & ->); [by rewrite En|].
      by rewrite decide_False.
Qed.

(** A static binding is immune to traffic: after any run of insertions
    and lookups, for any identifiers and at any time, it still has its
    address and [getCMEntry] answers with it. *)
Theorem static_binding_kept nid ip e (ops : list cm_op) ck :
  env_ok e → cm_get (env_cm e) nid = Some (mkConn ip 0) →
  let e' := foldl cm_apply e ops in
  cm_get (env_cm e') nid = Some (mkConn ip 0) ∧ getCMEntry nid ck e' = (e', 1, ip).
Proof.
  intros He Hg e'.
  assert (env_ok e' ∧ cm_get (env_cm e') nid = Some (mkConn ip 0)) as [He' Hg'].
  { subst e'. revert e He Hg. induction ops as [|op ops IH]; intros e He Hg; [done|].
    apply IH; [by apply cm_apply_ok|by apply cm_apply_static]. }
  split; [done|]. apply (getCMEntry_known nid ck e' _ Hg'). by left.
Qed.

Lemma static_binding_kept_witness :
  cm_get (env_cm sample_env) (sample_nid 8) = Some (mkConn 0x0200000a 0)
  ∧ cm_get (env_cm (foldl cm_apply sample_env
       [CmNew (sample_nid 8) 7 10; CmGet (sample_nid 8) (sample_clock 500)])) (sample_nid 8)
    = Some (mkConn 0x0200000a 0).
Proof.
  assert (Hg : cm_get (env_cm sample_env) (sample_nid 8) = Some (mkConn 0x0200000a 0))
    by (vm_compute; reflexivity).
  split; [exact Hg|].
  apply (static_binding_kept (sample_nid 8) 0x0200000a sample_env _ (sample_clock 0)
    sample_env_ok Hg).
Defined.

(** What survives the first half of [updateCMconf]. *)
Definition survivor (now : Z) (s : cm_state) (n : NID) : option conn_entry :=
  if decide (n = cm_nidgw s ∨ n = cm_nidrvs s) then None
  else match cm_get s n with
       | Some ce => if is_listed now ce then None else Some ce
       | None => None
       end.

(** [updateCMconf] after a change of network, the clock standing still
    during the call: the old gateway, the old rendezvous server and every
    static or fresh binding are gone; what had timed out stays; the new
    gateway and server are bound to their configured addresses, as static
    entries unless a timed-out entry for them was left, whose time stamp they
    keep. *)
Theorem updateCMconf_spec c now s n :
  cm_ok s →
  cm_get (updateCMconf c (λ _, now) (λ _, now) s) n
  = if decide (n = getNIDrvs c) then
      Some (pinned (getRvsIP c)
              (if decide (getNIDgw c = getNIDrvs c)
               then Some (pinned (getGatewayIP c) (survivor now s (getNIDgw c)))
               else survivor now s n))
    else if decide (n = getNIDgw c) then Some (pinned (getGatewayIP c) (survivor now s n))
    else survivor now s n.
Proof.
  intros Hs. unfold updateCMconf.
  set (s1 := delCMEntry (cm_nidgw s) s). set (s2 := delCMEntry (cm_nidrvs s1) s1).
  assert (H1 : cm_ok s1) by (subst s1; auto with nid).
  assert (H2 : cm_ok s2) by (subst s2; auto with nid).
  set (s3 := cleanCM (λ _, now) (λ _, now) s2).
  assert (H3 : cm_ok s3) by by apply cleanCM_ok.
  assert (Hg : ∀ n, cm_get s3 n = survivor now s n).
  { intros m. subst s3. rewrite cm_get_cleanCM by done. subst s2.
    rewrite cm_get_delCMEntry by done. subst s1. rewrite cm_get_delCMEntry by done.
    unfold survivor. cbn. repeat case_decide; naive_solver. }
  cbn [set_field eta_of eta_cm].
  set (s4 := mkCM (connmap s3) (getNIDgw c) (getNIDrvs c) (getGatewayIP c) (getRvsIP c)).
  assert (H4 : cm_ok s4) by exact H3.
  assert (Hg4 : ∀ n, cm_get s4 n = survivor now s n) by exact Hg.
  cbn [cm_nidgw cm_nidrvs cm_gatewayIP cm_rvsIP s4 staticCMEntry set_field eta_of eta_cm].
  rewrite (cm_get_staticCMEntry (getNIDrvs c)) by by apply staticCMEntry_ok.
  rewrite !(cm_get_staticCMEntry (getNIDgw c)) by done. rewrite !Hg4.
  repeat case_decide; naive_solver.
Qed.

Lemma updateCMconf_spec_witness :
  cm_ok (env_cm sample_env)
  ∧ cm_get (updateCMconf sample_config (λ _, 7) (λ _, 7) (env_cm sample_env)) (sample_nid 4)
    = Some (mkConn 0x0100000a 0).
Proof.
  split; [apply sample_env_ok|].
  rewrite (updateCMconf_spec sample_config 7 (env_cm sample_env) (sample_nid 4)
    (env_cm_ok _ sample_env_ok)).
  vm_compute. reflexivity.
Defined.

(** ** Pending resolutions *)

(** The expiry test of the pending table compares the microsecond fields
    alone.  An entry queued in the last 150 milliseconds of a second is
    reported as pending at every later time and never leaves the table by
    expiry, however many seconds pass, although entries are meant to last 150
    milliseconds. *)
Lemma isQueued_never_expires nid now t (later : timeval) :
  queue_ok t → 850000 ≤ tv_usec now → tv_ok later →
  isQueued nid later (queue nid now t) = (queue nid now t, 1).
Proof.
  intros Ht Hn Hl. by rewrite isQueued_queue, queue_pending_stuck.
Qed.

(** ** DHT cache *)

(** The lookups of a core gateway for the same identifier. *)
Definition dht_lookups (nid : NID) (clocks : list (timeval * timeval)) (e : dht_env) : dht_env :=
  foldl (λ e c, (getDHTEntry nid c.1 c.2 e).1.1) e clocks.

(** C38. A lookup that misses asks the resolver once; if the request falls in
    the last 150 milliseconds of a second and the service has no value, the
    resolver leaves the identifier pending, and no later lookup ever asks
    again: the node stays unreachable. *)
Theorem dht_blackhole nid now1 now2 l now e (later : list (timeval * timeval)) :
  dht_ok e → dht_hit e nid = None → et_get (dht_pending e) nid = None →
  850000 ≤ tv_usec now2 → Forall (λ c, tv_ok c.1) later →
  let e1 := (getDHTEntry nid now1 now2 e).1.1 in
  sp_dht e1 = sp_dht e ++ [take 16 nid]
  ∧ (∃ l', dht_get_step (take 16 nid) Connected (λ _, Some []) now l (e1 <| sp_dht := sp_dht e |>)
           = Go (l', e1 <| sp_dht := sp_dht e |>))
  ∧ dht_lookups nid later (e1 <| sp_dht := sp_dht e |>) = e1 <| sp_dht := sp_dht e |>.
Proof.
  intros He Hh Hp Hu Hl e1. pose proof He as [Ht Hq].
  assert (E1 : e1 = mkDht (dhtable e) (queue nid now2 (dht_pending e))
                (chan_write (take 16 nid) (sp_dht e))).
  { subst e1. rewrite getDHTEntry_miss by done. cbn [fst]. rewrite dht_request_result by done.
    by rewrite Hp. }
  split; [by rewrite E1|]. split; [eexists; by unfold dht_get_step|].
  set (e2 := e1 <| sp_dht := sp_dht e |>).
  assert (E2 : e2 = mkDht (dhtable e) (queue nid now2 (dht_pending e)) (sp_dht e))
    by (subst e2; by rewrite E1).
  clearbody e2. clear E1 e1.
  induction Hl as [|[n1 n2] later Hn1 Hl IH]; [done|]. cbn [dht_lookups foldl fst snd].
  assert (Hstep : (getDHTEntry nid n1 n2 e2).1.1 = e2).
  { rewrite getDHTEntry_miss by by rewrite E2. cbn [fst].
    unfold dht_request. rewrite is_dht_queued_same. rewrite E2. cbn [dht_pending].
    rewrite isQueued_queue, queue_pending_stuck by done. done. }
  rewrite Hstep. exact IH.
Qed.

Definition sample_dht : dht_env := mkDht init_dhtable init_dht_queue_table [].

Lemma sample_dht_ok : dht_ok sample_dht.
Proof. split; [apply init_dhtable_ok|apply init_queue_ok]. Qed.

Lemma dht_blackhole_witness :
  dht_lookups (sample_nid 7) [(mkTv 5 0, mkTv 5 1); (mkTv 60 999999, mkTv 61 0)]
    ((getDHTEntry (sample_nid 7) (mkTv 0 850000) (mkTv 0 850001) sample_dht).1.1
       <| sp_dht := [] |>)
  = (getDHTEntry (sample_nid 7) (mkTv 0 850000) (mkTv 0 850001) sample_dht).1.1
       <| sp_dht := [] |>.
Proof.
  refine (proj2 (proj2 (dht_blackhole (sample_nid 7) (mkTv 0 850000) (mkTv 0 850001)
    (mkDhtGet (replicate INET6_ADDRSTRLEN 0) 0 nid_zero) 0 sample_dht _
    sample_dht_ok _ _ _ _))); [vm_compute; reflexivity..|simpl; lia|].
  repeat constructor; simpl; lia.
Defined.

(** ** 32-bit identifiers *)

(** The two derivations of the address applications use for a node, the
    byte copy of the daemon and the arithmetic of the DNS proxy, agree on
    every NID: the address is 1.x.y.z for a NID that ends in x, y, z. *)
Theorem nid32_derivations_agree nid :
  nid_ok nid →
  nid2nid32 nid = dns_nid32 nid
  ∧ ∃ x y z, drop 13 nid = [x; y; z] ∧ le_bytes 4 (nid2nid32 nid) = [1; x; y; z].
Proof.
  intros Hn. destruct (nid_tail_bytes nid Hn) as (b12 & x & y & z & Hd & ? & Hx & Hy & Hz).
  rewrite (nid2nid32_bytes _ _ _ _ _ Hd), (dns_nid32_bytes _ _ _ _ _ Hd Hx Hy Hz).
  split; [done|]. exists x, y, z.
  assert (Hd13 : drop 13 nid = [x; y; z])
    by (replace (drop 13 nid) with (drop 1 (drop 12 nid)) by (by rewrite drop_drop); by rewrite Hd).
  split; [done|]. by rewrite <-(nid2nid32_bytes _ _ _ _ _ Hd), nid2nid32_tail, Hd13.
Qed.

Lemma nid32_derivations_agree_witness :
  nid_ok (sample_nid 9) ∧ nid2nid32 (sample_nid 9) = dns_nid32 (sample_nid 9)
  ∧ nid322char (dns_nid32 (sample_nid 9)) = chars "1.0.0.9".
Proof.
  assert (Hn : nid_ok (sample_nid 9)) by (by vm_compute; repeat constructor).
  split; [exact Hn|]. split; [apply (nid32_derivations_agree _ Hn)|vm_compute; reflexivity].
Defined.

(** ** NID mapper *)

(** The effect of [updateNM] after a DHCP answer, with the globals
    [niddns] and [nid32dns] at the zero they are never moved from: the name
    server's two bindings are entered, the all-zero keys are removed, and the
    bindings of the previous name server stay. *)
Lemma updateNM_keeps_old_dns c s n :
  nm_ok s → nm_niddns s = nid_zero → nm_nid32dns s = 0 → nid_ok n →
  n ≠ nid_zero → n ≠ getNIDdns c → drop 13 n ≠ drop 13 (getNIDdns c) → nid_ok (getNIDdns c) →
  let s' := updateNM c s in
  nm_niddns s' = nid_zero ∧ nm_nid32dns s' = 0
  ∧ getNMEntry n s' = getNMEntry n s
  ∧ getNMEntry32 (nid2nid32 n) s' = getNMEntry32 (nid2nid32 n) s
  ∧ getNMEntry (getNIDdns c) s' = Some (mkNME [] (getNIDcore c))
  ∧ getNMEntry32 (nid2nid32 (getNIDdns c)) s' = Some (mkNME32 [] (getNIDdns c) (getNIDcore c)).
Proof.
  intros Hs H1 H2 Hn Hz Hne Hd Hc s'. destruct (updateNM_get c s Hs) as (_ & Hg & Ha).
  subst s'. pose proof (updateNM_globals c s) as [-> ->].
  pose proof (nid2nid32_nonzero n Hn) as Hk.
  assert (Hk2 : nid2nid32 (getNIDdns c) ≠ nid2nid32 n)
    by (intros E; apply Hd; symmetry; by apply nid2nid32_eq).
  split; [done|]. split; [done|]. rewrite !Hg, !Ha, H1, H2.
  rewrite !(decide_False (P := getNIDdns c = n)), !(decide_False (P := nid_zero = n)) by congruence.
  rewrite !(decide_False (P := nid2nid32 (getNIDdns c) = nid2nid32 n)),
    !(decide_False (P := 0 = nid2nid32 n)) by congruence.
  by rewrite !decide_True.
Qed.

(** Of the bindings [init_nid_mapper] enters by hand when the DNS proxy
    is off, each leads from the address derived from the NID to that NID,
    except 1.0.0.11: 3ffe:3::11 derives 1.0.0.17. *)
Lemma init_bindings_consistent c :
  get_dns c = 0 →
  (∀ ip nid gw, (ip, nid, gw) ∈ init_bindings →
     getNMEntry32 (lit4 ip) (init_nid_mapper c) = Some (mkNME32 [] (lit6 nid) (lit6 gw)))
  ∧ filter (λ b, nid2nid32 (lit6 b.1.2) ≠ lit4 b.1.1) init_bindings
    = [("1.0.0.11", "3ffe:3::11", "ffff:ffff::f")]%string
  ∧ nid322char (nid2nid32 (lit6 "3ffe:3::11")) = chars "1.0.0.17".
Proof.
  intros Hc. split; [|split; vm_compute; reflexivity].
  assert (E : init_nid_mapper c = init_nid_mapper sample_config)
    by (unfold init_nid_mapper; rewrite Hc; reflexivity).
  rewrite E. clear.
  assert (Hf : Forall (λ b, getNMEntry32 (lit4 b.1.1) (init_nid_mapper sample_config)
                 = Some (mkNME32 [] (lit6 b.1.2) (lit6 b.2))) init_bindings).
  { refine (bool_decide_eq_true_1 _ _). vm_compute. reflexivity. }
  intros ip nid gw Hin. rewrite Forall_forall in Hf. exact (Hf _ Hin).
Qed.
