(* ===== verification/RouteProps.v ===== *)
(** Properties of routing: how long a route answers, the order of a core
    gateway's lookups, forwarding, what a received packet binds, and what the
    control messages do to the bindings. *)

From S2P Require Import Prelude NidTypes Inet HashTable Hash LList EntryTable Configuration.
From S2P Require Import QueueTable ConnectionMapper NidMapper RoutingTable Gwc Dhtc PacketHandler.
From S2P Require Import NidRouting Control MapperProps.

Local Open Scope Z_scope.

(** ** Routing table *)

(** C19. A route learned at time [t] answers for [GATEWAY_TIMEOUT] seconds.
    Afterwards the lookup answers 0 with the address of the next gateway and
    forgets the route; no other route is touched at any time. *)
Theorem route_lifetime nid ip t now s :
  rt_ok s → rt_get s nid = None → ip ≠ 0 → t ≠ 0 →
  let s1 := newRTEntry nid ip t s in
  let r := getRTEntry nid now s1 in
  (now < t + 10 → r = (s1, 1, ip))
  ∧ (t + 10 ≤ now → r.1.2 = 0 ∧ r.2 = rt_gatewayIP s ∧ rt_get r.1.1 nid = None)
  ∧ ∀ n, n ≠ nid → rt_get r.1.1 n = rt_get s n.
Proof.
  intros Hs Hg Hi Ht s1 r. subst r.
  assert (H1 : rt_ok s1) by by apply newRTEntry_ok.
  assert (Hg1 : ∀ n, rt_get s1 n = if decide (nid = n) then Some (mkConn ip t) else rt_get s n).
  { intros n. subst s1. rewrite rt_get_newRTEntry by done. by rewrite Hg. }
  rewrite getRTEntry_result, Hg1, decide_True by done.
  unfold rt_valid, GATEWAY_TIMEOUT. cbn [ce_ip ce_tstamp].
  rewrite (proj2 (Z.eqb_neq t 0)), (proj2 (Z.eqb_neq ip 0)) by done.
  rewrite orb_false_r, andb_true_r.
  destruct (now <? t + 10) eqn:E; zbool.
  - split_and!; [done|lia|]. intros n Hn. cbn [fst]. rewrite Hg1. by rewrite decide_False.
  - assert (Hd : ∀ n, rt_get (s1 <| rtable ::= et_del nid |>) n
                  = if decide (nid = n) then None else rt_get s1 n).
    { intros n. by apply et_get_del. }
    split_and!; [lia| |].
    + intros _. cbn [fst snd]. rewrite Hd. by rewrite decide_True.
    + intros n Hn. cbn [fst]. rewrite Hd, Hg1. by rewrite !decide_False by congruence.
Qed.

Lemma route_lifetime_witness :
  rt_get (init_rtable sample_config) (sample_nid 3) = None
  ∧ (getRTEntry (sample_nid 3) 110
       (newRTEntry (sample_nid 3) 7 100 (init_rtable sample_config))).1.2 = 0.
Proof.
  split; [apply rt_get_init|].
  apply (route_lifetime (sample_nid 3) 7 100 110 (init_rtable sample_config)
    (init_rtable_ok _) (rt_get_init _ _)); lia.
Defined.

(** C17. The lookups of a core gateway, in order: a valid route; the non-zero
    address of a node registered with this core; the cached locator of the
    destination's core.  Each is used only when the earlier ones fail.  When
    all fail the packet is not sent, and the resolver is asked unless a
    request for that core is pending. *)
Theorem core_route_priority dst dstgw now now1 now2 rt reg dht :
  dht_ok dht →
  let r := core_route dst dstgw now now1 now2 rt reg dht in
  match rt_get rt dst with
  | Some ce => if rt_valid now ce then r = (rt, dht, Some (ce_ip ce)) else True
  | None => True
  end
  ∧ ((∀ ce, rt_get rt dst = Some ce → rt_valid now ce = false) →
     match et_get reg dst, dht_hit dht dstgw with
     | Some (mkConn ip _), h =>
         if decide (ip ≠ 0) then r.2 = Some ip ∧ r.1.2 = dht
         else r.2 = h ∧ r.1.2 = match h with
                                | Some _ => dht
                                | None => dht_request dstgw now1 now2 dht
                                end
     | None, h => r.2 = h ∧ r.1.2 = match h with
                                     | Some _ => dht
                                     | None => dht_request dstgw now1 now2 dht
                                     end
     end)
  ∧ sp_dht (dht_request dstgw now1 now2 dht)
    = sp_dht dht ++ (if (is_dht_queued dstgw now1 (dht_pending dht)).2 =? 0
                     then [take 16 dstgw] else []).
Proof.
  intros Hd r. subst r. rewrite core_route_spec. cbv zeta. split_and!.
  - destruct (rt_get rt dst) as [ce|]; [|done]. by case_match.
  - intros Hv. destruct (rt_get rt dst) as [ce|]; [rewrite (Hv ce eq_refl)|];
      (destruct (et_get reg dst) as [[ip ts]|]; cbn [ce_ip];
       [destruct (Z.eqb_spec ip 0); [rewrite decide_False by tauto|rewrite decide_True by done]|];
       by destruct (dht_hit dht dstgw)).
  - unfold dht_request. destruct (is_dht_queued _ _ _) as [q b]. cbn [snd].
    destruct (b =? 0); [done|]. by rewrite app_nil_r.
Qed.

Lemma core_route_priority_witness :
  dht_ok sample_dht
  ∧ (core_route (sample_nid 3) (sample_nid 7) 50 (mkTv 50 0) (mkTv 50 0)
       (init_rtable sample_config) (addRegistry (sample_nid 3) 9 init_registry_table)
       sample_dht).2 = Some 9.
Proof.
  split; [apply sample_dht_ok|].
  destruct (core_route_priority (sample_nid 3) (sample_nid 7) 50 (mkTv 50 0) (mkTv 50 0)
    (init_rtable sample_config) (addRegistry (sample_nid 3) 9 init_registry_table)
    sample_dht sample_dht_ok) as (_ & H & _).
  assert (Hv : ∀ ce, rt_get (init_rtable sample_config) (sample_nid 3) = Some ce →
                 rt_valid 50 ce = false) by (intros ce; by rewrite rt_get_init).
  specialize (H Hv).
  replace (et_get (addRegistry (sample_nid 3) 9 init_registry_table) (sample_nid 3))
    with (Some (mkConn 9 0)) in H by (vm_compute; reflexivity).
  exact (proj1 H).
Defined.

(** ** Output of a gateway *)

(** A gateway that has a valid route but no binding for a destination
    sends its first packet along the route; the failed lookup of the
    connection mapper has then bound the destination to the upper gateway, so
    a second packet within four seconds leaves the route unused and goes
    there. *)
Theorem gateway_second_packet d1 d2 ck1 ck2 now1 now2 buf e rt ce dst :
  env_ok e → (nh_len ≤ length d1 ≤ MAXBUFLEN)%nat → (nh_len ≤ length d2 ≤ MAXBUFLEN)%nat →
  hdr_destNID d1 = dst → hdr_destNID d2 = dst →
  cm_get (env_cm e) dst = None →
  rt_get rt dst = Some ce → rt_valid now1 ce = true →
  ck_new ck1 ≠ 0 → ck_proactive ck2 < ck_new ck1 + 4 →
  let '(buf1, e1, rt1, out1) := nr_output_gw_step FromPh d1 ck1 now1 buf e rt in
  out1 = (ce_ip ce, d1)
  ∧ (nr_output_gw_step FromPh d2 ck2 now2 buf1 e1 rt1).2 = (cm_gatewayIP (env_cm e), d2).
Proof.
  intros He [L1 M1] [L2 M2] H1 H2 Hc Hr Hv Hn Hp. unfold nr_output_gw_step.
  assert (Hh1 : hdr_destNID (overlay (take MAXBUFLEN d1) buf) = dst)
    by (unfold hdr_destNID; by rewrite header_overlay).
  rewrite Hh1. pose proof (getCMEntry_missing dst ck1 e He) as Hs.
  specialize (Hs ltac:(rewrite Hc; by intros ?)). cbv zeta in Hs.
  pose proof (getCMEntry_env_ok dst ck1 e He) as He1.
  destruct (getCMEntry dst ck1 e) as [[e1 f] ip]. cbn [fst snd] in Hs, He1.
  destruct Hs as (-> & -> & _ & Hg). rewrite Z.eqb_refl.
  rewrite getRTEntry_result, Hr, Hv. split; [by rewrite routed_datagram|].
  assert (Hh2 : hdr_destNID (overlay (take MAXBUFLEN d2) (overlay (take MAXBUFLEN d1) buf)) = dst)
    by (unfold hdr_destNID; by rewrite header_overlay).
  rewrite Hh2. specialize (Hg dst). rewrite decide_True in Hg by done.
  rewrite (getCMEntry_known dst ck2 e1 _ Hg) by by right. simpl. by rewrite routed_datagram.
Qed.

Definition sample_packet (dst src : NID) (body : list Z) : list Z :=
  header_bytes (mkHeader (nid_ctrl_type_val DATA) src dst (sample_nid 7) (sample_nid 7)) ++ body.

Lemma gateway_second_packet_witness :
  (nr_output_gw_step FromPh (sample_packet (sample_nid 3) (sample_nid 1) [9]) (sample_clock 102)
     102
     (nr_output_gw_step FromPh (sample_packet (sample_nid 3) (sample_nid 1) [8])
        (sample_clock 100) 100 [] sample_env
        (newRTEntry (sample_nid 3) 7 95 (init_rtable sample_config))).1.1.1
     (nr_output_gw_step FromPh (sample_packet (sample_nid 3) (sample_nid 1) [8])
        (sample_clock 100) 100 [] sample_env
        (newRTEntry (sample_nid 3) 7 95 (init_rtable sample_config))).1.1.2
     (nr_output_gw_step FromPh (sample_packet (sample_nid 3) (sample_nid 1) [8])
        (sample_clock 100) 100 [] sample_env
        (newRTEntry (sample_nid 3) 7 95 (init_rtable sample_config))).1.2).2.1 = 0x0100000a.
Proof.
  pose proof (gateway_second_packet (sample_packet (sample_nid 3) (sample_nid 1) [8])
    (sample_packet (sample_nid 3) (sample_nid 1) [9]) (sample_clock 100) (sample_clock 102) 100 102
    [] sample_env (newRTEntry (sample_nid 3) 7 95 (init_rtable sample_config))
    (mkConn 7 95) (sample_nid 3) sample_env_ok) as H.
  destruct (nr_output_gw_step FromPh (sample_packet (sample_nid 3) (sample_nid 1) [8])
    (sample_clock 100) 100 [] sample_env
    (newRTEntry (sample_nid 3) 7 95 (init_rtable sample_config))) as [[[b1 e1] r1] o1].
  cbn [fst snd]. rewrite (proj2 (H ltac:(vm_compute; lia) ltac:(vm_compute; lia)
    eq_refl eq_refl ltac:(vm_compute; reflexivity) ltac:(vm_compute; reflexivity) eq_refl
    ltac:(simpl; lia) ltac:(simpl; lia))).
  reflexivity.
Defined.

(** C20. Forwarding: a datagram for another node passes a gateway unchanged,
    from the socket through [sp_nr] to the socket, to the address of a valid
    route or else to the upper gateway; the connection mapper is neither
    consulted nor changed. *)
Theorem gateway_forwards nid from d now l cm c1 ck now' buf e rt :
  (nh_len ≤ length d ≤ MAXBUFLEN)%nat → hdr_destNID d ≠ nid →
  let '(_, cm', ph, nr) := nr_input_gw_step nid (Received from d) now l cm c1 [] in
  cm' = cm ∧ ph = c1 ∧ nr = [d]
  ∧ nr_output_gw_step FromNr d ck now' buf e rt
    = (overlay d buf, e, (getRTEntry (hdr_destNID d) now' rt).1.1,
       (match rt_get rt (hdr_destNID d) with
        | Some ce => if rt_valid now' ce then ce_ip ce else rt_gatewayIP rt
        | None => rt_gatewayIP rt
        end, d)).
Proof.
  intros [L M] Hn. unfold nr_input_gw_step, recvfrom. cbn [nri_buf nri_addr].
  rewrite header_overlay by done. change (nh_destNID (header_of d)) with (hdr_destNID d).
  rewrite decide_False by done. split_and!; [done..| |].
  - unfold chan_write_len. rewrite (proj2 (Z.ltb_ge _ _)) by lia.
    by rewrite Nat2Z.id, routed_datagram.
  - unfold nr_output_gw_step.
    assert (Hh : hdr_destNID (overlay (take MAXBUFLEN d) buf) = hdr_destNID d)
      by (unfold hdr_destNID; by rewrite header_overlay).
    rewrite Hh, (take_ge d) by lia. rewrite getRTEntry_result.
    assert (Ht : take (length d) (overlay d buf) = d) by apply take_overlay.
    destruct (rt_get rt (hdr_destNID d)) as [ce|]; repeat case_match; simplify_eq/=; by rewrite Ht.
Qed.

Lemma gateway_forwards_witness :
  hdr_destNID (sample_packet (sample_nid 3) (sample_nid 1) [8]) ≠ sample_nid 4
  ∧ (nr_output_gw_step FromNr (sample_packet (sample_nid 3) (sample_nid 1) [8])
       (sample_clock 100) 100 [] sample_env (init_rtable sample_config)).2
    = (0x0100000a, sample_packet (sample_nid 3) (sample_nid 1) [8]).
Proof.
  assert (Hne : hdr_destNID (sample_packet (sample_nid 3) (sample_nid 1) [8]) ≠ sample_nid 4)
    by (vm_compute; discriminate).
  split; [exact Hne|].
  pose proof (gateway_forwards (sample_nid 4) 1 (sample_packet (sample_nid 3) (sample_nid 1) [8])
    0 (mkNri [] 0) (env_cm sample_env) [] (sample_clock 100) 100 [] sample_env
    (init_rtable sample_config) ltac:(vm_compute; lia) Hne) as H.
  destruct (nr_input_gw_step _ _ _ _ _ _ _) as [[[l' cm'] ph] nr].
  destruct H as (_ & _ & _ & ->). reflexivity.
Defined.

(** ** Input of a node *)

(** C21. A complete packet for this node binds its source NID to the address
    it came from, unless that binding is static, and goes to the packet
    handler unchanged. *)
Theorem packet_binds_sender nid from d now l cm c :
  cm_ok cm → (nh_len ≤ length d ≤ MAXBUFLEN)%nat → hdr_destNID d = nid →
  let src := nh_srcNID (header_of d) in
  let '(_, cm', ph) := nr_input_step nid (Received from d) now l cm c in
  ph = c ++ [d]
  ∧ ∀ n, cm_get cm' n = if decide (src = n) then Some (refreshed from now (cm_get cm src))
                        else cm_get cm n.
Proof.
  intros Hc [L M] Hd src. unfold nr_input_step, recvfrom. cbn [nri_buf nri_addr].
  rewrite header_overlay by done. change (nh_destNID (header_of d)) with (hdr_destNID d).
  rewrite decide_True by done. split.
  - unfold chan_write_len. rewrite (proj2 (Z.ltb_ge _ _)) by lia.
    rewrite Nat2Z.id, routed_datagram by done. done.
  - intros n. by apply cm_get_newCMEntry.
Qed.

Lemma packet_binds_sender_witness :
  cm_get (nr_input_step (sample_nid 1) (Received 77
            (sample_packet (sample_nid 1) (sample_nid 5) [8])) 100 (mkNri [] 0)
            (env_cm sample_env) []).1.2 (sample_nid 5) = Some (mkConn 77 100).
Proof.
  pose proof (packet_binds_sender (sample_nid 1) 77
    (sample_packet (sample_nid 1) (sample_nid 5) [8]) 100 (mkNri [] 0) (env_cm sample_env) []
    (env_cm_ok _ sample_env_ok) ltac:(vm_compute; lia) eq_refl) as H.
  destruct (nr_input_step _ _ _ _ _ _) as [[l' cm'] ph]. destruct H as [_ H].
  cbn [fst snd]. rewrite H. vm_compute. reflexivity.
Defined.
