(* ===== verification/PacketProps.v ===== *)
(** Properties of packets and messages: encapsulation and
    decapsulation, what the persistent buffer leaves in headers, and the
    control messages. *)

From S2P Require Import Prelude NidTypes Inet HashTable Hash LList EntryTable Configuration.
From S2P Require Import QueueTable ConnectionMapper NidMapper RoutingTable Gwc PacketHandler.
From S2P Require Import NidRouting Control MapperProps.

Local Open Scope Z_scope.

(** ** Encapsulation *)

Lemma ip_daddr_payload d buf :
  buf_ok buf → (20 ≤ length d ≤ ph_size)%nat →
  ip_daddr (payload (splice nh_len d buf)) = ip_daddr d.
Proof.
  intros Hb [L M]. unfold ip_daddr. f_equal.
  assert (Ht : take (length d) (payload (splice nh_len d buf)) = d) by by apply splice_payload.
  rewrite <-Ht at 2. unfold slice.
  rewrite skipn_firstn_comm, take_take. f_equal. lia.
Qed.

(** What a turn sends when the header assigned is [h]. *)
Lemma ph_sent h d buf :
  header_ok h → buf_ok buf → (length d ≤ ph_size)%nat →
  take (length d + nh_len) (put_header h (splice nh_len d buf)) = header_bytes h ++ d.
Proof. intros Hh Hb Hd. by rewrite take_put_header, splice_payload. Qed.

Lemma data_sent d core nm buf e :
  buf_ok buf → (20 ≤ length d ≤ ph_size)%nat → nid_ok core → nm_nids_ok nm →
  getNMEntry32 (ip_daddr d) nm = Some e →
  (ph_output_step FromNf d core nm buf).2
  = Some (header_bytes (mkHeader 0 (nh_srcNID (header_of buf)) (nme32_nid e) core
                          (nme32_nidgw e)) ++ d).
Proof.
  intros Hb [L M] Hc [Hn] E. unfold ph_output_step. rewrite (take_ge d) by lia.
  rewrite ip_daddr_payload by done. rewrite header_splice by done. rewrite E. cbn [snd].
  destruct (Hn _ _ E). destruct (buf_header_ok buf Hb) as (_ & ? & _).
  rewrite ph_sent; [done| |done|lia]. by split_and!.
Qed.

(** The header a message of a gateway thread leaves in the buffer. *)
Lemma gwt_message_header m core nm buf :
  buf_ok buf → msg_ok m →
  header_of (ph_output_step FromGwt (msg_bytes m) core nm buf).1
  = mkHeader (nm_type m) (nm_srcNID m) (nm_destNID m) (nm_srcNIDgw m) (nm_destNIDgw m).
Proof.
  intros Hb Hm. pose proof (length_msg_bytes m Hm) as Hl.
  unfold ph_output_step. rewrite (take_ge (msg_bytes m))
    by (rewrite Hl; unfold nmsg_len, ph_size, MAXBUFLEN, nh_len; lia).
  rewrite (msg_of_splice m) by done. rewrite header_splice by done. cbn [fst].
  destruct (buf_header_ok buf Hb) as (?&?&?&?&?). destruct Hm as (?&?&?&?&?&?&?).
  rewrite header_put_header by by split_and!. done.
Qed.

(** C15. An IP packet of at most 1432 bytes whose destination address is known
    to the NID mapper leaves the packet handler whole behind a DATA header:
    destination and destination gateway as the mapper has them, this node's
    core as source gateway, and as source whatever the buffer holds.  A packet
    to an unknown address is dropped. *)
Theorem encapsulate_data d core nm buf :
  buf_ok buf → bytes_ok d → (20 ≤ length d ≤ ph_size)%nat → nid_ok core → nm_nids_ok nm →
  (ph_output_step FromNf d core nm buf).2
  = match getNMEntry32 (ip_daddr d) nm with
    | Some e => Some (header_bytes (mkHeader 0 (nh_srcNID (header_of buf)) (nme32_nid e) core
                                      (nme32_nidgw e)) ++ d)
    | None => None
    end.
Proof.
  intros Hb Hd [L M] Hc Hn. destruct (getNMEntry32 (ip_daddr d) nm) as [e|] eqn:E.
  { by apply data_sent. }
  unfold ph_output_step. rewrite (take_ge d) by lia. rewrite ip_daddr_payload by done.
  by rewrite E.
Qed.

(** A TCP packet of 20 bytes to 1.0.0.3. *)
Definition sample_ip (proto : Z) : list Z :=
  [69; 0; 0; 20; 0; 0; 0; 0; 64; proto; 0; 0; 10; 0; 0; 1; 1; 0; 0; 3].

Lemma sample_ip_ok : bytes_ok (sample_ip 6).
Proof. apply (bool_decide_unpack _). vm_compute. exact I. Qed.

Lemma sample_nid_ok b : 0 ≤ b < 256 → nid_ok (sample_nid b).
Proof. intros H. split; [done|]. unfold sample_nid. repeat apply Forall_cons_2; try done. Qed.

(** A mapper with one binding. *)
Definition sample_nm : nm_state :=
  newNMEntry (sample_nid 3) (sample_nid 4)
    (init_nid_mapper (sample_config <| conf_dns := 1 |>)).

Lemma sample_nm_ok : nm_ok sample_nm ∧ nm_nids_ok sample_nm.
Proof.
  assert (H : nm_ok (init_nid_mapper (sample_config <| conf_dns := 1 |>)))
    by apply init_nid_mapper_ok.
  split; [by apply newNMEntry_ok|].
  apply newNMEntry_nids; [done|apply sample_nid_ok; lia..|].
  split. intros a e E. exfalso.
  change (et_get (V := NMEntry32) (et_empty (construct_hash_table32 true 10)) a = Some e) in E.
  rewrite et_get_empty in E; [done|]. intros k. apply lookup_construct.
Qed.

Lemma encapsulate_data_witness :
  (ph_output_step FromNf (sample_ip 6) (sample_nid 7) sample_nm (ph_output_init (sample_nid 1))).2
  = Some (header_bytes (mkHeader 0 (sample_nid 1) (sample_nid 3) (sample_nid 7) (sample_nid 4))
            ++ sample_ip 6).
Proof.
  rewrite encapsulate_data.
  - vm_compute. reflexivity.
  - apply ph_output_init_ok, sample_nid_ok. lia.
  - apply sample_ip_ok.
  - vm_compute. lia.
  - apply sample_nid_ok. lia.
  - apply sample_nm_ok.
Defined.

(** A message of the resolvers or of the mobility thread gets a header
    with its type, source and destination, and the gateway members of the
    packet sent before; one of the gateway threads gets all five of its own
    members. *)
Theorem encapsulate_message src m core nm buf :
  buf_ok buf → msg_ok m → src ≠ FromNf →
  (ph_output_step src (msg_bytes m) core nm buf).2
  = Some (header_bytes
      (mkHeader (nm_type m) (nm_srcNID m) (nm_destNID m)
         (match src with FromGwt => nm_srcNIDgw m | _ => nh_srcNIDgw (header_of buf) end)
         (match src with FromGwt => nm_destNIDgw m | _ => nh_destNIDgw (header_of buf) end))
      ++ msg_bytes m).
Proof.
  intros Hb Hm Hs. pose proof (length_msg_bytes m Hm) as Hl. unfold ph_output_step.
  assert (Hl' : (length (msg_bytes m) ≤ ph_size)%nat)
    by (rewrite Hl; unfold nmsg_len, ph_size, MAXBUFLEN, nh_len; lia).
  rewrite (take_ge (msg_bytes m)) by done.
  rewrite (msg_of_splice m) by done. rewrite header_splice by done.
  destruct (buf_header_ok buf Hb) as (?&?&?&?&?). destruct Hm as (?&?&?&?&?&?&?).
  destruct src; [done|..]; cbn [snd]; rewrite ph_sent by (try done; by split_and!); done.
Qed.

Lemma encapsulate_message_witness :
  (ph_output_step FromRvs
     (msg_bytes (msg_zero <| nm_type := 5 |> <| nm_destNID := sample_nid 8 |>))
     (sample_nid 7) sample_nm (ph_output_init (sample_nid 1))).2
  = Some (header_bytes (mkHeader 5 nid_zero (sample_nid 8) nid_zero nid_zero)
            ++ msg_bytes (msg_zero <| nm_type := 5 |> <| nm_destNID := sample_nid 8 |>)).
Proof.
  rewrite encapsulate_message.
  - vm_compute. reflexivity.
  - apply ph_output_init_ok, sample_nid_ok. lia.
  - apply (bool_decide_unpack _). vm_compute. exact I.
  - done.
Defined.

(** The source of DATA packets is assigned once, before the loop, and a
    message overwrites it in the buffer: after any message of a gateway thread,
    data leaves with the message's source NID, not this node's. *)
Theorem data_source_stale m d core nm buf e :
  buf_ok buf → msg_ok m → bytes_ok d → (20 ≤ length d ≤ ph_size)%nat → nid_ok core →
  nm_nids_ok nm → getNMEntry32 (ip_daddr d) nm = Some e →
  let buf1 := (ph_output_step FromGwt (msg_bytes m) core nm buf).1 in
  (ph_output_step FromNf d core nm buf1).2
  = Some (header_bytes (mkHeader 0 (nm_srcNID m) (nme32_nid e) core (nme32_nidgw e)) ++ d).
Proof.
  intros Hb Hm Hd Hl Hc Hn E buf1.
  assert (Hb1 : buf_ok buf1) by (apply ph_output_step_ok; auto with nid).
  pose proof (gwt_message_header m core nm buf Hb Hm) as Hh.
  change (ph_output_step FromGwt (msg_bytes m) core nm buf).1 with buf1 in Hh.
  clearbody buf1. by rewrite (data_sent d core nm buf1 e), Hh.
Qed.

Definition sample_registry_msg : NID_msg :=
  msg_zero <| nm_type := nid_ctrl_type_val REGISTRY |> <| nm_srcNID := sample_nid 5 |>
    <| nm_destNID := sample_nid 4 |>.

Lemma data_source_stale_witness :
  (ph_output_step FromNf (sample_ip 6) (sample_nid 7) sample_nm
     (ph_output_step FromGwt (msg_bytes sample_registry_msg) (sample_nid 7) sample_nm
        (ph_output_init (sample_nid 1))).1).2
  = Some (header_bytes (mkHeader 0 (sample_nid 5) (sample_nid 3) (sample_nid 7) (sample_nid 4))
            ++ sample_ip 6).
Proof.
  apply (data_source_stale sample_registry_msg (sample_ip 6) (sample_nid 7) sample_nm
    (ph_output_init (sample_nid 1)) (mkNME32 [] (sample_nid 3) (sample_nid 4))).
  - apply ph_output_init_ok, sample_nid_ok. lia.
  - apply (bool_decide_unpack _). vm_compute. exact I.
  - apply sample_ip_ok.
  - vm_compute. lia.
  - apply sample_nid_ok. lia.
  - apply sample_nm_ok.
  - vm_compute. reflexivity.
Defined.

(** ** Decapsulation *)

Lemma ph_input_reads h d buf :
  header_ok h → (length d ≤ ph_size)%nat →
  let b := overlay (take MAXBUFLEN (header_bytes h ++ d)) buf in
  header_of b = h ∧ take (length d) (payload b) = d
  ∧ Z.of_nat (length (take MAXBUFLEN (header_bytes h ++ d))) - Z.of_nat nh_len
    = Z.of_nat (length d).
Proof.
  intros Hh Hd b. pose proof (length_header_bytes h Hh) as Hl.
  assert (Ht : take MAXBUFLEN (header_bytes h ++ d) = header_bytes h ++ d).
  { apply take_ge. rewrite length_app, Hl. unfold ph_size in Hd. unfold MAXBUFLEN, nh_len in *. lia. }
  subst b. rewrite Ht. split_and!.
  - unfold overlay. rewrite <-app_assoc. by apply header_of_bytes.
  - unfold payload, overlay. rewrite <-app_assoc, drop_app_length' by done.
    by rewrite take_app_length.
  - rewrite length_app, Hl. lia.
Qed.

(** What the switch does with a packet that came whole. *)
Lemma ph_deliver_data accepts d pt :
  (10 ≤ length d)%nat → take (length d) pt = d →
  (ip_protocol d ∈ [6; 17; 1] → accepts d = true →
   ph_deliver accepts 0 pt (Z.of_nat (length d)) = Go (ToRaw (ip_protocol d) d))
  ∧ (ip_protocol d ∉ [6; 17; 1] → ph_deliver accepts 0 pt (Z.of_nat (length d)) = Go Dropped).
Proof.
  intros L E.
  assert (Hp : ip_protocol pt = ip_protocol d).
  { unfold ip_protocol. rewrite <-E. by rewrite lookup_take_lt by lia. }
  unfold ph_deliver, raw_sendto. cbn [msg_type_of]. rewrite Hp.
  rewrite (proj2 (Z.ltb_ge _ _)) by lia. rewrite Nat2Z.id, E.
  unfold IPPROTO_TCP, IPPROTO_UDP, IPPROTO_ICMP. split.
  - intros Hin ->. rewrite !elem_of_cons, elem_of_nil in Hin. by destruct Hin as [->|[->|[->|[]]]].
  - rewrite !not_elem_of_cons. intros (H1 & H2 & H3 & _). by rewrite !(proj2 (Z.eqb_neq _ _)).
Qed.

(** C16. A DATA packet of the network is handed to the raw socket of its
    protocol exactly as it was encapsulated, provided the kernel accepts it;
    other protocols are dropped; control messages go to the control thread
    whole.  In every case the mapper learns the sender's gateway and, under
    the sender's 32-bit identifier, the sender. *)
Theorem decapsulate accepts h d nm buf :
  header_ok h → (10 ≤ length d ≤ ph_size)%nat → nm_ok nm →
  let '(_, nm', r) := ph_input_step accepts (header_bytes h ++ d) nm buf in
  getNMEntry (nh_srcNID h) nm' = Some (mkNME [] (nh_srcNIDgw h))
  ∧ getNMEntry32 (nid2nid32 (nh_srcNID h)) nm'
    = Some (mkNME32 [] (nh_srcNID h) (nh_srcNIDgw h))
  ∧ (nh_type h = 0 → ip_protocol d ∈ [6; 17; 1] → accepts d = true →
     r = Go (ToRaw (ip_protocol d) d))
  ∧ (nh_type h = 0 → ip_protocol d ∉ [6; 17; 1] → r = Go Dropped)
  ∧ (nh_type h ∈ [1; 3; 4; 5; 6; 7; 8] → r = Go (ToControl d)).
Proof.
  intros Hh [L M] Hn. unfold ph_input_step.
  destruct (ph_input_reads h d buf Hh M) as (E1 & E2 & ->). rewrite E1.
  set (pt := payload _) in *. clearbody pt. clear E1.
  destruct (newNMEntry_get (nh_srcNID h) (nh_srcNIDgw h) nm Hn) as (_ & Hg & Ha).
  rewrite Hg, Ha, !decide_True by done. split; [done|]. split; [done|].
  destruct (ph_deliver_data accepts d pt L E2) as [Hd1 Hd2].
  split_and!; [by intros ->|by intros ->|].
  intros Hin. unfold ph_deliver, control_write.
  rewrite (proj2 (Z.ltb_ge _ _)) by lia. rewrite Nat2Z.id, E2.
  rewrite !elem_of_cons, elem_of_nil in Hin.
  by repeat (destruct Hin as [->|Hin]; [done|]).
Qed.

Lemma decapsulate_witness :
  (ph_input_step (λ _, true)
     (header_bytes (mkHeader 0 (sample_nid 1) (sample_nid 3) (sample_nid 7) (sample_nid 4))
        ++ sample_ip 6) sample_nm (replicate MAXBUFLEN 0)).2
  = Go (ToRaw 6 (sample_ip 6)).
Proof.
  pose proof (decapsulate (λ _, true)
    (mkHeader 0 (sample_nid 1) (sample_nid 3) (sample_nid 7) (sample_nid 4)) (sample_ip 6)
    sample_nm (replicate MAXBUFLEN 0)) as H.
  destruct (ph_input_step _ _ _ _) as [[b nm'] r]. cbn [snd].
  apply H; [..|reflexivity|left|reflexivity].
  - apply (bool_decide_unpack _). vm_compute. exact I.
  - vm_compute. lia.
  - apply sample_nm_ok.
Defined.

(** ** Control messages *)

(** C22. What a node does with a message that fills the datagram.  REDIRECT
    and a non-zero RVS_RESPONSE refresh the binding of the message's NID
    (static ones excepted), the latter also ending the pending request;
    RELOCATE deletes it; every other message, and an RVS_RESPONSE for an
    unknown node, changes nothing. *)
Theorem control_effect m nmsg now e n :
  env_ok e → msg_ok m →
  let e' := (control_step (msg_bytes m) nmsg now e).2 in
  let new := if decide (nm_nid m = n) then Some (refreshed (nm_ip m) now (cm_get (env_cm e) n))
             else cm_get (env_cm e) n in
  sp_cm2rvs e' = sp_cm2rvs e
  ∧ (nm_type m = 1 → cm_get (env_cm e') n = new ∧ env_queue e' = env_queue e)
  ∧ (nm_type m = 2 →
     cm_get (env_cm e') n = (if decide (nm_nid m = n) then None else cm_get (env_cm e) n)
     ∧ env_queue e' = env_queue e)
  ∧ (nm_type m = 8 → nm_ip m ≠ 0 →
     cm_get (env_cm e') n = new ∧ env_queue e' = unqueue (nm_nid m) (env_queue e))
  ∧ (nm_type m ∉ [1; 2; 8] ∨ nm_type m = 8 ∧ nm_ip m = 0 → e' = e).
Proof.
  intros [Hc Hq] Hm e' new. subst e' new. unfold control_step. cbn [snd].
  rewrite read_msg_bytes by done. split_and!.
  - by repeat case_match.
  - intros ->. cbn [msg_type_of]. cbn. split; [|done].
    rewrite cm_get_newCMEntry by done. by case_decide; subst.
  - intros ->. cbn [msg_type_of]. cbn. split; [|done]. by rewrite cm_get_delCMEntry.
  - intros -> Hi. cbn [msg_type_of]. rewrite (proj2 (Z.eqb_neq _ _)) by done. cbn.
    split; [|done]. rewrite cm_get_newCMEntry by done. by case_decide; subst.
  - intros [Hn|[-> ->]]; [|done]. rewrite !not_elem_of_cons in Hn. destruct Hn as (H1 & H2 & H8 & _).
    destruct (msg_type_of (nm_type m)) as [t|] eqn:Et; [|done].
    apply msg_type_of_Some in Et. rewrite Et in H1, H2, H8. by destruct t as [[]|[]].
Qed.

Lemma control_effect_witness :
  cm_get (env_cm (control_step
    (msg_bytes (msg_zero <| nm_type := 8 |> <| nm_nid := sample_nid 3 |> <| nm_ip := 9 |>))
    msg_zero 50 sample_env).2) (sample_nid 3) = Some (mkConn 9 50).
Proof.
  rewrite (proj1 (proj1 (proj2 (proj2 (proj2 (control_effect
    (msg_zero <| nm_type := 8 |> <| nm_nid := sample_nid 3 |> <| nm_ip := 9 |>) msg_zero 50
    sample_env (sample_nid 3) sample_env_ok
    ltac:(apply (bool_decide_unpack _); vm_compute; exact I))))) eq_refl ltac:(done))).
  vm_compute. reflexivity.
Defined.

(** The packet handler filters on the type in the header, the control
    thread acts on the type in the message: a packet whose header says
    REDIRECT and whose message says RELOCATE passes, and deletes the binding
    of any NID its sender names, static ones included; a header that says
    RELOCATE itself is dropped. *)
Theorem relocate_smuggled accepts h m nm buf nmsg now e :
  header_ok h → msg_ok m → env_ok e → nm_ok nm →
  nh_type h = nid_ctrl_type_val REDIRECT → nm_type m = nid_ctrl_type_val RELOCATE →
  (∃ d, (ph_input_step accepts (header_bytes h ++ msg_bytes m) nm buf).2 = Go (ToControl d)
        ∧ cm_get (env_cm (control_step d nmsg now e).2) (nm_nid m) = None)
  ∧ (ph_input_step accepts
       (header_bytes (h <| nh_type := nid_ctrl_type_val RELOCATE |>) ++ msg_bytes m) nm buf).2
    = Go Dropped.
Proof.
  intros Hh Hm [Hc Hq] Hn Ht Hr. pose proof (length_msg_bytes m Hm) as Hl.
  assert (Hd : (length (msg_bytes m) ≤ ph_size)%nat)
    by (rewrite Hl; unfold nmsg_len, ph_size, MAXBUFLEN, nh_len; lia).
  split.
  - exists (msg_bytes m). unfold ph_input_step.
    destruct (ph_input_reads h (msg_bytes m) buf Hh Hd) as (-> & E2 & ->). cbn [snd].
    unfold ph_deliver. rewrite Ht. cbn [msg_type_of nid_ctrl_type_val]. unfold control_write.
    rewrite (proj2 (Z.ltb_ge _ _)) by lia. rewrite Nat2Z.id, E2. split; [done|].
    unfold control_step. rewrite read_msg_bytes by done. rewrite Hr. cbn.
    by rewrite cm_get_delCMEntry, decide_True.
  - assert (Hh' : header_ok (h <| nh_type := nid_ctrl_type_val RELOCATE |>)).
    { destruct Hh as (?&?&?&?&?). by split_and!. }
    unfold ph_input_step.
    by destruct (ph_input_reads _ (msg_bytes m) buf Hh' Hd) as (-> & _ & _).
Qed.

Definition smuggling_header : NID_header :=
  mkHeader 1 (sample_nid 5) (sample_nid 1) (sample_nid 7) (sample_nid 7).
Definition smuggled_msg : NID_msg := msg_zero <| nm_type := 2 |> <| nm_nid := sample_nid 8 |>.

Lemma relocate_smuggled_witness :
  cm_get (env_cm sample_env) (sample_nid 8) = Some (mkConn 0x0200000a 0)
  ∧ ∃ d, (ph_input_step (λ _, true) (header_bytes smuggling_header ++ msg_bytes smuggled_msg)
            sample_nm (replicate MAXBUFLEN 0)).2 = Go (ToControl d)
         ∧ cm_get (env_cm (control_step d msg_zero 50 sample_env).2) (sample_nid 8) = None.
Proof.
  split; [vm_compute; reflexivity|].
  apply (relocate_smuggled (λ _, true) smuggling_header smuggled_msg sample_nm
    (replicate MAXBUFLEN 0) msg_zero 50 sample_env).
  - apply (bool_decide_unpack _). vm_compute. exact I.
  - apply (bool_decide_unpack _). vm_compute. exact I.
  - apply sample_env_ok.
  - apply sample_nm_ok.
  - reflexivity.
  - reflexivity.
Defined.
