(* ===== verification/RvsProps.v ===== *)
(** Properties of the rendezvous service: what the server answers, the path of
    a resolution and of an announcement through the threads of the nodes
    involved, and the messages of a node that moves. *)

From S2P Require Import Prelude NidTypes Inet HashTable Hash LList EntryTable Configuration.
From S2P Require Import QueueTable ConnectionMapper NidMapper RoutingTable Gwc Dhtc PacketHandler.
From S2P Require Import NidRouting Control Rvs Rvsc Mobility SystemInv MapperProps.

Local Open Scope Z_scope.

(** ** The server *)

(** One request that fills the message. *)
Lemma serve_update m now s :
  server_ok s → msg_ok m → nm_type m = rvs_msg_type_val RVS_UPDATE →
  ∃ s', (∀ peer, rvs_step (Some (peer, msg_bytes m)) now true s
                 = Go (s', (peer, msg_bytes (m <| nm_type := rvs_msg_type_val RVS_ACK |>))))
        ∧ server_ok s' ∧ rvs_table s' = addEntry (nm_nid m) (nm_ip m) now (rvs_table s).
Proof.
  intros Hs Hm Ht. set (s0 := mkServer (put_msg m (rvs_buf s)) (rvs_table s)).
  assert (H0 : server_ok s0).
  { destruct Hs. split; [by apply put_msg_ok|done..]. }
  assert (E : rvs_serve now s0 = mkServer (put_msg (m <| nm_type := rvs_msg_type_val RVS_ACK |>)
                (rvs_buf s0)) (addEntry (nm_nid m) (nm_ip m) now (rvs_table s))).
  { unfold rvs_serve. subst s0. cbn [rvs_buf rvs_table]. rewrite msg_of_put_msg by done.
    by rewrite Ht. }
  exists (rvs_serve now s0). split_and!.
  - intros peer. rewrite rvs_step_message by done. cbv zeta.
    change (mkServer (put_msg m (rvs_buf s)) (rvs_table s)) with s0. rewrite E at 2.
    cbn [rvs_buf]. rewrite take_put_msg; [done|]. destruct m. solve_msg.
  - by apply rvs_serve_ok.
  - by rewrite E.
Qed.

Lemma serve_get m now s :
  server_ok s → msg_ok m → nm_type m = rvs_msg_type_val RVS_GET →
  ∃ s', (∀ peer, rvs_step (Some (peer, msg_bytes m)) now true s
                 = Go (s', (peer, msg_bytes (m <| nm_ip := (getEntry (nm_nid m) now (rvs_table s)).2 |>
                                               <| nm_type := rvs_msg_type_val RVS_RESPONSE |>))))
        ∧ server_ok s' ∧ rvs_table s' = (getEntry (nm_nid m) now (rvs_table s)).1.
Proof.
  intros Hs Hm Ht. set (s0 := mkServer (put_msg m (rvs_buf s)) (rvs_table s)).
  assert (H0 : server_ok s0).
  { destruct Hs. split; [by apply put_msg_ok|done..]. }
  set (ans := m <| nm_ip := (getEntry (nm_nid m) now (rvs_table s)).2 |>
                <| nm_type := rvs_msg_type_val RVS_RESPONSE |>).
  assert (E : rvs_serve now s0
    = mkServer (put_msg ans (rvs_buf s0)) (getEntry (nm_nid m) now (rvs_table s)).1).
  { unfold rvs_serve. subst s0 ans. cbn [rvs_buf rvs_table]. rewrite msg_of_put_msg by done.
    rewrite Ht. cbn [msg_type_of rvs_msg_type_val]. by destruct (getEntry _ _ _). }
  exists (rvs_serve now s0). split_and!.
  - intros peer. rewrite rvs_step_message by done. cbv zeta.
    change (mkServer (put_msg m (rvs_buf s)) (rvs_table s)) with s0. rewrite E at 2.
    cbn [rvs_buf]. rewrite take_put_msg; [done|].
    pose proof (getEntry_ip (nm_nid m) now (rvs_table s) (server_bindings_ok s Hs)).
    subst ans. destruct m. solve_msg.
  - by apply rvs_serve_ok.
  - by rewrite E.
Qed.

(** C8. The server acknowledges an announcement, and for [RVS_TIMEOUT]
    seconds answers a request for the announced NID with the announced
    locator; later the answer is 0 and the entry is forgotten.  Announcements
    of other nodes in between do not matter. *)
Theorem announce_then_resolve u g others t now s :
  server_ok s → msg_ok u → msg_ok g → Forall msg_ok others →
  nm_type u = rvs_msg_type_val RVS_UPDATE → nm_type g = rvs_msg_type_val RVS_GET →
  nm_nid g = nm_nid u →
  Forall (λ o, nm_type o = rvs_msg_type_val RVS_UPDATE ∧ nm_nid o ≠ nm_nid u) others →
  ∃ s1, (∀ peer, rvs_step (Some (peer, msg_bytes u)) t true s
                 = Go (s1, (peer, msg_bytes (u <| nm_type := rvs_msg_type_val RVS_ACK |>))))
  ∧ ∀ s2, foldl (λ r o, match r with
                        | Go s => match rvs_step (Some (0, msg_bytes o)) now true s with
                                  | Go (s, _) => Go s
                                  | _ => Fault
                                  end
                        | _ => Fault
                        end) (Go s1) others = Go s2 →
    ∃ s3, (∀ peer, rvs_step (Some (peer, msg_bytes g)) now true s2
                   = Go (s3, (peer, msg_bytes (g <| nm_ip := if now <? t + 10 then nm_ip u else 0 |>
                                                 <| nm_type := rvs_msg_type_val RVS_RESPONSE |>))))
          ∧ (t + 10 ≤ now → rvs_get (rvs_table s3) (nm_nid u) = None).
Proof.
  intros Hs Hu Hg Ho Tu Tg En Hot.
  destruct (serve_update u t s Hs Hu Tu) as (s1 & E1 & H1 & T1). exists s1. split; [done|].
  assert (G1 : rvs_get (rvs_table s1) (nm_nid u) = Some (mkConn (nm_ip u) t)).
  { rewrite T1, rvs_get_addEntry by apply Hs. by rewrite decide_True. }
  clear E1 T1 Hs. revert s1 H1 G1.
  induction Ho as [|o others Hm Ho IH]; intros s1 H1 G1 s2 E2.
  - apply Go_inj in E2 as <-. destruct (serve_get g now s1 H1 Hg Tg) as (s3 & E3 & _ & T3).
    exists s3. rewrite En, getEntry_result, G1 in E3, T3. cbn [ce_tstamp ce_ip] in E3, T3.
    unfold RVS_TIMEOUT in E3, T3. destruct (now <? t + 10) eqn:El; zbool; cbn [fst snd] in E3, T3.
    + split; [done|lia].
    + split; [done|]. intros _. rewrite T3. unfold rvs_get.
      rewrite et_get_del by apply H1. by rewrite decide_True.
  - apply Forall_cons in Hot as [[To No] Hot]. cbn [foldl] in E2.
    destruct (serve_update o now s1 H1 Hm To) as (s1' & E1' & H1' & T1'). rewrite E1' in E2.
    apply (IH Hot s1' H1'); [|done].
    rewrite T1', rvs_get_addEntry by apply H1. by rewrite decide_False.
Qed.

Definition sample_update : NID_msg :=
  msg_zero <| nm_type := 5 |> <| nm_nid := sample_nid 1 |> <| nm_ip := 77 |>.
Definition sample_get : NID_msg := msg_zero <| nm_type := 7 |> <| nm_nid := sample_nid 1 |>.
Definition sample_server : rvs_server := mkServer (replicate rvs_MAXBUFLEN 0) init_rvs_table.

Lemma sample_server_ok : server_ok sample_server.
Proof.
  split; [|apply init_rvs_table_ok|].
  - split; [done|apply bytes_ok_replicate].
  - intros k v. unfold sample_server. cbn [rvs_table]. unfold init_rvs_table.
    by rewrite et_get_construct.
Qed.

Lemma announce_then_resolve_witness :
  server_ok sample_server ∧
  ∃ s1 s3, rvs_step (Some (9, msg_bytes sample_update)) 100 true sample_server
           = Go (s1, (9, msg_bytes (sample_update <| nm_type := 6 |>)))
    ∧ rvs_step (Some (9, msg_bytes sample_get)) 105 true s1
      = Go (s3, (9, msg_bytes (sample_get <| nm_ip := 77 |> <| nm_type := 8 |>))).
Proof.
  split; [apply sample_server_ok|].
  destruct (announce_then_resolve sample_update sample_get [] 100 105 sample_server
    sample_server_ok) as (s1 & E1 & H).
  1,2: apply (bool_decide_unpack _); vm_compute; exact I.
  1,5: constructor. 1-3: reflexivity.
  destruct (H s1 eq_refl) as (s3 & E3 & _). exists s1, s3. split; [apply E1|apply E3].
Defined.

(** ** Resolution *)

(** C9. The path of a resolution.  The request a failed lookup writes to
    [sp_cm2rvs] becomes an RVS_GET for that NID addressed to the rendezvous
    server; the server's daemon passes it to the server process and turns the
    answer back to the node; the node's control thread then binds the NID to
    the announced locator and ends the pending request. *)
Theorem resolution_path c nid nmsg pm rm cmsg s ce now now' e :
  nid_ok nid → nid_ok (getNIDrvs c) → msg_ok nmsg → server_ok s → env_ok e →
  nm_type nmsg = rvs_msg_type_val RVS_GET →
  rvs_get (rvs_table s) nid = Some ce → now < ce_tstamp ce + RVS_TIMEOUT → ce_ip ce ≠ 0 →
  ∃ m s' answer,
    rvs_get_step c (take 16 nid) nmsg = Go (m, msg_bytes m)
    ∧ nm_nid m = nid ∧ nm_destNID m = getNIDrvs c ∧ nm_srcNID m = nm_srcNID nmsg
    ∧ rvs_proxy_send_step (msg_bytes m) pm true = Go (m, msg_bytes m)
    ∧ rvs_step (Some (0, msg_bytes m)) now true s = Go (s', (0, answer))
    ∧ let reply := (rvs_proxy_recv_step (Some answer) rm).1.2 in
      nm_destNID (msg_of reply) = nm_srcNID nmsg
      ∧ let e' := (control_step reply cmsg now' e).2 in
        cm_get (env_cm e') nid = Some (refreshed (ce_ip ce) now' (cm_get (env_cm e) nid))
        ∧ env_queue e' = unqueue nid (env_queue e).
Proof.
  intros Hn Hr Hm Hs He Tm Hg Hx Hi.
  set (m := nmsg <| nm_nid := nid |> <| nm_destNID := getNIDrvs c |>).
  assert (Hmo : msg_ok m) by (subst m; destruct nmsg; solve_msg).
  destruct (serve_get m now s Hs Hmo Tm) as (s' & Es & _ & _).
  change (nm_nid m) with nid in Es. rewrite getEntry_result, Hg in Es.
  rewrite (proj2 (Z.ltb_lt _ _)) in Es by done. cbn [fst snd] in Es.
  set (a := m <| nm_ip := ce_ip ce |> <| nm_type := rvs_msg_type_val RVS_RESPONSE |>) in Es.
  assert (Hip : nid32_ok (ce_ip ce)) by (apply (server_bindings_ok s Hs nid ce Hg)).
  assert (Ha : msg_ok a) by (subst a; destruct m; solve_msg).
  exists m, s', (msg_bytes a).
  split; [by apply rvs_get_step_nid|]. split_and!; [done..| |by apply Es|].
  { by apply rvs_proxy_send_message. }
  cbv zeta. rewrite rvs_proxy_recv_message by done. cbn [fst snd].
  set (r := a <| nm_srcNID := nm_destNID a |> <| nm_destNID := nm_srcNID a |>).
  assert (Hrok : msg_ok r) by (subst r; destruct a; solve_msg).
  rewrite msg_of_self by done. split; [done|].
  unfold control_step. rewrite read_msg_bytes by done. cbn [snd].
  change (nm_type r) with (rvs_msg_type_val RVS_RESPONSE).
  cbn [msg_type_of rvs_msg_type_val]. change (nm_ip r) with (ce_ip ce).
  change (nm_nid r) with nid. rewrite (proj2 (Z.eqb_neq _ _)) by done. cbn.
  split; [|done]. rewrite cm_get_newCMEntry by apply He. by rewrite decide_True.
Qed.

Definition sample_table : conn_table := addEntry (sample_nid 3) 0x0300000a 100 init_rvs_table.

Lemma sample_table_ok : server_ok (mkServer (replicate rvs_MAXBUFLEN 0) sample_table).
Proof.
  split; [|apply addEntry_ok, init_rvs_table_ok|].
  - split; [done|apply bytes_ok_replicate].
  - apply conn_add_bindings; [apply init_rvs_table_ok| |apply sample_server_ok].
    apply (bool_decide_unpack (nid_ok (sample_nid 3) ∧ nid32_ok 0x0300000a)).
    vm_compute. exact I.
Qed.

Lemma resolution_path_witness :
  ∃ m, rvs_get_step sample_config (take 16 (sample_nid 3)) (rvs_get_init sample_config)
       = Go (m, msg_bytes m) ∧ nm_nid m = sample_nid 3.
Proof.
  destruct (resolution_path sample_config (sample_nid 3) (rvs_get_init sample_config) msg_zero
    msg_zero msg_zero (mkServer (replicate rvs_MAXBUFLEN 0) sample_table)
    (mkConn 0x0300000a 100) 105 105 sample_env) as (m & s' & a & H1 & H2 & _).
  - apply (bool_decide_unpack _); vm_compute; exact I.
  - apply (bool_decide_unpack _); vm_compute; exact I.
  - apply (bool_decide_unpack _); vm_compute; exact I.
  - apply sample_table_ok.
  - apply sample_env_ok.
  - reflexivity.
  - vm_compute. reflexivity.
  - simpl. unfold RVS_TIMEOUT. lia.
  - done.
  - exists m. split; [exact H1|exact H2].
Defined.

(** ** Registration in the gateway tree *)

(** The message that reaches the core when the server has acknowledged the
    announcement [m]: through the proxy and [thread_rvs2gw] of the rendezvous
    node, whose configuration is [cr]. *)
Definition registration (cr : config) (rm gm m : NID_msg) : list Z :=
  match (rvs_proxy_recv_step (Some (msg_bytes (m <| nm_type := rvs_msg_type_val RVS_ACK |>))) rm).2
  with
  | Some ack => (rvs2gw_step cr ack gm).2
  | None => []
  end.

Lemma registration_message cr rm gm m :
  msg_ok m →
  registration cr rm gm m
  = msg_bytes (mkMsg (nid_ctrl_type_val REGISTRY) (nm_destNID m) (getNIDgw cr) (nm_srcNIDgw m)
                 (nm_destNIDgw m) (nm_nid m) (nm_ip m)).
Proof.
  intros Hm. unfold registration. rewrite rvs_proxy_recv_message by (destruct m; solve_msg).
  cbn [snd nm_type set_field eta_of eta_msg rvs_msg_type_val]. rewrite Z.eqb_refl.
  unfold rvs2gw_step. rewrite read_msg_bytes; [done|]. destruct m. solve_msg.
Qed.

(** The core's listener on a registration. *)
Lemma core_listener_on nid locator m lm now rt reg :
  msg_ok m → nid32_ok locator → nid_ok nid →
  let r := gw_core_listener_step nid locator (msg_bytes m) lm now rt reg in
  r.1.1.2 = newRTEntry (nm_nid m) (nm_ip m) now rt
  ∧ r.1.2 = (if decide (nm_srcNIDgw m = nid) then addRegistry (nm_nid m) 0 reg else reg)
  ∧ r.2 = (if decide (nm_srcNIDgw m = nid) then None
           else Some (msg_bytes (mkMsg (nid_ctrl_type_val REDIRECT_CORE) nid (nm_srcNIDgw m) nid
                                   (nm_srcNIDgw m) (nm_nid m) locator))).
Proof.
  intros Hm Hl Hn r. subst r. unfold gw_core_listener_step. rewrite read_msg_bytes by done.
  destruct (decide (nm_srcNIDgw m = nid)); [done|]. cbn [fst snd].
  rewrite set_locator_ip by done. by destruct m.
Qed.

(** C23. The periodic announcement of a node, acknowledged by the server and
    passed up the tree, makes the node's home core route to the announced
    locator and record it as at home, and nothing is sent further. *)
Theorem announcement_registers_home c cr locator corenid corelocator rm gm lm now rt reg :
  conf_ok c → nid32_ok locator → nid32_ok corelocator → rt_ok rt → et_ok reg →
  getNIDcorehome c = corenid → rt_get rt (getNID c) = None → nid_ok (getNIDgw cr) →
  let m := (rvs_update_step c locator (rvs_update_init c)).1 in
  let '(_, rt', reg', out) :=
    gw_core_listener_step corenid corelocator (registration cr rm gm m) lm now rt reg in
  out = None
  ∧ rt_get rt' (getNID c) = Some (mkConn locator now)
  ∧ (∃ ts, et_get reg' (getNID c) = Some (mkConn 0 ts)).
Proof.
  intros Hc Hl Hcl Hrt Hreg Hhome Hnone Hgw m.
  assert (Hz : msg_ok (rvs_update_init c))
    by (unfold rvs_update_init, msg_zero; pose proof nid_zero_ok; solve_msg; apply Hc).
  assert (Hm : m = mkMsg 5 (getNID c) (getNIDrvs c) corenid nid_zero (getNID c) locator).
  { subst m. rewrite rvs_update_step_spec by done. by rewrite <-Hhome. }
  assert (Hmo : msg_ok m) by by apply rvs_update_msg.
  rewrite registration_message by done. rewrite Hm in *. clear Hm.
  pose proof (conf_ok_corehome c Hc) as Hcore. change (conf_nidcorehome c) with (getNIDcorehome c) in Hcore.
  rewrite Hhome in Hcore.
  pose proof (core_listener_on corenid corelocator
    (mkMsg (nid_ctrl_type_val REGISTRY) (getNIDrvs c) (getNIDgw cr) corenid nid_zero (getNID c)
       locator) lm now rt reg) as H.
  cbn [nm_srcNID nm_destNID nm_srcNIDgw nm_destNIDgw nm_nid nm_ip] in *.
  destruct (gw_core_listener_step _ _ _ _ _ _ _) as [[[lm' rt'] reg'] out].
  cbn [fst snd] in H. rewrite !decide_True in H by done.
  destruct H as (-> & -> & ->); [destruct Hmo as (?&?&?&?&?&?&?); by split_and!|done..|].
  split; [done|]. split.
  - rewrite rt_get_newRTEntry, decide_True by done. by rewrite Hnone.
  - rewrite et_get_addRegistry, decide_True by done. by eexists.
Qed.

Lemma sample_conf_ok : conf_ok sample_config.
Proof. split; apply (bool_decide_unpack _); vm_compute; exact I. Qed.

Lemma announcement_registers_home_witness :
  let r := gw_core_listener_step (sample_nid 7) 5
    (registration sample_config msg_zero msg_zero
       (rvs_update_step sample_config 77 (rvs_update_init sample_config)).1)
    msg_zero 100 (init_rtable sample_config) init_registry_table in
  r.2 = None ∧ rt_get r.1.1.2 (sample_nid 1) = Some (mkConn 77 100).
Proof.
  intros r.
  pose proof (announcement_registers_home sample_config sample_config 77 (sample_nid 7) 5
    msg_zero msg_zero msg_zero 100 (init_rtable sample_config) init_registry_table
    sample_conf_ok) as H.
  cbv zeta in H. subst r.
  destruct (gw_core_listener_step _ _ _ _ _ _ _) as [[[lm' rt'] reg'] out]. cbn [fst snd].
  destruct H as (H1 & H2 & _); try (unfold nid32_ok; lia).
  - apply init_rtable_ok.
  - apply init_registry_ok.
  - reflexivity.
  - apply rt_get_init.
  - apply (bool_decide_unpack _); vm_compute; exact I.
  - split; [exact H1|exact H2].
Defined.

(** The announcement of a node that has just moved does not carry its
    home core: when it reaches that core, the core takes the node for one of
    another tree, does not record it as at home, and sends a REDIRECT_CORE
    addressed to the all-zero NID. *)
Theorem mobility_announcement_misdirected c cr locator corenid corelocator rm gm lm now rt reg :
  conf_ok c → nid32_ok locator → nid32_ok corelocator → nid_ok corenid → corenid ≠ nid_zero →
  nid_ok (getNIDgw cr) →
  let m := msg_of (rvs_update c locator) in
  let '(_, _, reg', out) :=
    gw_core_listener_step corenid corelocator (registration cr rm gm m) lm now rt reg in
  reg' = reg
  ∧ out = Some (msg_bytes (mkMsg (nid_ctrl_type_val REDIRECT_CORE) corenid nid_zero corenid
                             nid_zero (getNID c) corelocator)).
Proof.
  intros Hc Hl Hcl Hcore Hne Hgw m.
  assert (Hm : msg_ok (mkMsg 5 (getNID c) (getNIDrvs c) nid_zero nid_zero (getNID c) locator))
    by (pose proof nid_zero_ok; solve_msg; apply Hc).
  assert (E : m = mkMsg 5 (getNID c) (getNIDrvs c) nid_zero nid_zero (getNID c) locator).
  { subst m. unfold rvs_update. rewrite set_locator_ip by done. by rewrite msg_of_self. }
  rewrite E. rewrite registration_message by done.
  pose proof (core_listener_on corenid corelocator
    (mkMsg (nid_ctrl_type_val REGISTRY) (getNIDrvs c) (getNIDgw cr) nid_zero nid_zero (getNID c)
       locator) lm now rt reg) as H.
  cbn [nm_srcNID nm_destNID nm_srcNIDgw nm_destNIDgw nm_nid nm_ip] in *.
  destruct (gw_core_listener_step _ _ _ _ _ _ _) as [[[lm' rt'] reg'] out].
  cbn [fst snd] in H. rewrite !decide_False in H by congruence.
  destruct H as (_ & -> & ->); [destruct Hm as (?&?&?&?&?&?&?); by split_and!|done..].
Qed.

Lemma mobility_announcement_misdirected_witness :
  (gw_core_listener_step (sample_nid 7) 5
    (registration sample_config msg_zero msg_zero (msg_of (rvs_update sample_config 77)))
    msg_zero 100 (init_rtable sample_config) init_registry_table).1.2 = init_registry_table.
Proof.
  pose proof (mobility_announcement_misdirected sample_config sample_config 77 (sample_nid 7) 5
    msg_zero msg_zero msg_zero 100 (init_rtable sample_config) init_registry_table
    sample_conf_ok) as H.
  cbv zeta in H.
  destruct (gw_core_listener_step _ _ _ _ _ _ _) as [[[lm' rt'] reg'] out]. cbn [fst snd].
  apply H; try (unfold nid32_ok; lia); try (vm_compute; discriminate);
    apply (bool_decide_unpack _); vm_compute; exact I.
Defined.

(** C24. A foreign core that hears of a visiting node tells the node's home
    core, and the home core from then on routes to the foreign core's locator,
    unless it has a valid route of its own, without asking the DHT. *)
Theorem home_core_redirects m lm cm_msg nid home locator now now' rt reg cm hreg hrt hdht ch dstgw
    now1 now2 :
  msg_ok m → nid_ok nid → nid32_ok locator → locator ≠ 0 → et_ok hreg →
  nm_srcNIDgw m = home → home ≠ nid → rt_get hrt (nm_nid m) = None →
  ∃ d, (gw_core_listener_step nid locator (msg_bytes m) lm now rt reg).2 = Some d
  ∧ nm_destNID (msg_of d) = home
  ∧ let '(_, _, hreg', _) := control_gw_core_step d cm_msg now' cm hreg ch in
    core_route (nm_nid m) dstgw now' now1 now2 hrt hreg' hdht = (hrt, hdht, Some locator).
Proof.
  intros Hm Hn Hl Hz Hreg Hh Hne Hrt.
  destruct (core_listener_on nid locator m lm now rt reg Hm Hl Hn) as (_ & _ & E).
  rewrite decide_False in E by congruence. rewrite E. eexists. split; [done|].
  set (d := mkMsg _ _ _ _ _ _ _).
  assert (Hd : msg_ok d).
  { subst d. destruct Hm as (?&?&?&?&?&?&?). by split_and!. }
  rewrite msg_of_self by done. split; [done|].
  unfold control_gw_core_step. rewrite read_msg_bytes by done.
  change (nm_type d) with 4. cbn [msg_type_of].
  change (nm_nid d) with (nm_nid m). change (nm_ip d) with locator.
  rewrite core_route_spec. cbv zeta. rewrite Hrt. rewrite et_get_addRegistry by done.
  rewrite decide_True by done. unfold pinned. cbn [ce_ip].
  rewrite (proj2 (Z.eqb_neq _ _)) by done.
  by rewrite getRTEntry_result, Hrt.
Qed.

Definition sample_visitor : NID_msg :=
  msg_zero <| nm_type := 3 |> <| nm_nid := sample_nid 3 |> <| nm_srcNIDgw := sample_nid 7 |>
    <| nm_ip := 9 |>.

Lemma home_core_redirects_witness :
  ∃ d, (gw_core_listener_step (sample_nid 6) 55 (msg_bytes sample_visitor) msg_zero 100
          (init_rtable sample_config) init_registry_table).2 = Some d
       ∧ nm_destNID (msg_of d) = sample_nid 7.
Proof.
  destruct (home_core_redirects sample_visitor msg_zero msg_zero (sample_nid 6) (sample_nid 7) 55
    100 101 (init_rtable sample_config) init_registry_table (env_cm sample_env)
    init_registry_table (init_rtable sample_config) sample_dht [] (sample_nid 7) (mkTv 0 0)
    (mkTv 0 0)) as (d & H1 & H2 & _).
  - apply (bool_decide_unpack _); vm_compute; exact I.
  - apply (bool_decide_unpack _); vm_compute; exact I.
  - unfold nid32_ok; lia.
  - done.
  - apply init_registry_ok.
  - reflexivity.
  - vm_compute. discriminate.
  - apply rt_get_init.
  - exists d. split; [exact H1|exact H2].
Defined.

(** ** Mobility *)

(** A move inside the domain: the first address event only counts; on the
    second every peer with a static or fresh binding gets one REDIRECT with
    this node's NID and its address, the rendezvous server gets an update,
    the connection mapper is reloaded, and the count starts again.  Events of
    other kinds do nothing. *)
Theorem mobility_redirects_peers c locators locator clk clk1 clk2 s :
  get_mobility c = mobility_types_val INTRADOMAIN → (∀ i, nid32_ok (locators i)) →
  0 ≤ mo_count s < 2 →
  mobility_step c (Some RTM_NEWADDR) locators locator clk clk1 clk2 s
  = Go (if decide (mo_count s = 0) then mkMo 1 (mo_cm s) (sp_mo2ph s) (mo_rvs2ph s)
        else mkMo 0 (updateCMconf c clk1 clk2 (mo_cm s))
               (sp_mo2ph s ++ imap (λ i n, msg_bytes (redirect_msg (getNID c) (ll_nid n) (locators i)))
                                (ll_nodes (getAllConnections clk (mo_cm s))))
               (mo_rvs2ph s ++ [rvs_update c locator]))
  ∧ ∀ t, t ≠ RTM_NEWADDR →
      mobility_step c (Some t) locators locator clk clk1 clk2 s = Go s.
Proof.
  intros Hi Hl Hc. split.
  - unfold mobility_step, read_event. rewrite Z.eqb_refl. case_decide as Hd.
    + rewrite (proj2 (Z.leb_gt _ _)) by lia. by rewrite Hd.
    + rewrite (proj2 (Z.leb_le _ _)) by lia. rewrite Hi, Z.eqb_refl. do 2 f_equal.
      change (redirect_all locators 0 (ll_nodes (getAllConnections clk (mo_cm s)))
        (redirect_msg (getNID c) nid_zero 0) (sp_mo2ph s) = sp_mo2ph s
          ++ imap (λ i n, msg_bytes (redirect_msg (getNID c) (ll_nid n) (locators i)))
               (ll_nodes (getAllConnections clk (mo_cm s)))).
      by rewrite redirect_all_spec.
  - intros t Ht. unfold mobility_step, read_event. by rewrite (proj2 (Z.eqb_neq _ _)).
Qed.

Lemma mobility_redirects_peers_witness :
  mobility_step sample_config (Some RTM_NEWADDR) (λ _, 88) 88 (λ _, 7) (λ _, 7) (λ _, 7)
    (mkMo 1 (env_cm sample_env) [] [])
  = Go (mkMo 0 (updateCMconf sample_config (λ _, 7) (λ _, 7) (env_cm sample_env))
          [msg_bytes (redirect_msg (sample_nid 1) (sample_nid 8) 88)]
          [rvs_update sample_config 88]).
Proof.
  rewrite (proj1 (mobility_redirects_peers sample_config (λ _, 88) 88 (λ _, 7) (λ _, 7) (λ _, 7)
    (mkMo 1 (env_cm sample_env) [] []) eq_refl ltac:(intros; unfold nid32_ok; lia)
    ltac:(simpl; lia))).
  rewrite decide_False by (simpl; lia). cbn [mo_cm sp_mo2ph mo_rvs2ph].
  replace (ll_nodes (getAllConnections (λ _, 7) (env_cm sample_env)))
    with [mkNode (sample_nid 8) (chars "10.0.0.2")] by (vm_compute; reflexivity).
  reflexivity.
Defined.
