(* ===== verification/DnsProps.v ===== *)
(** Properties of the DNS proxy: the rewriting of queries, the answers built
    from the cache, the aliasing of the cached texts, and the resources the
    thread consumes. *)

From S2P Require Import Prelude NidTypes Inet HashTable Hash EntryTable Configuration QueueTable.
From S2P Require Import NidMapper DnsHandler.

Local Open Scope Z_scope.

(** ** Bounded access *)

Lemma mem_get_in off len buf :
  (off + len ≤ length buf)%nat → mem_get off len buf = Some (slice off len buf).
Proof. intros H. unfold mem_get. by rewrite (proj2 (Nat.leb_le _ _)). Qed.

Lemma mem_put_in off d buf :
  (off + length d ≤ length buf)%nat → mem_put off d buf = Some (splice off d buf).
Proof. intros H. unfold mem_put. by rewrite (proj2 (Nat.leb_le _ _)). Qed.

Lemma swap16_involutive v : 0 ≤ v < 65536 → swap16 (swap16 v) = v.
Proof.
  intros Hv. unfold swap16 at 1. rewrite le_bytes_swap16, be_val_bytes.
  apply Z.mod_small. simpl. lia.
Qed.

Lemma swap16_val v : 0 ≤ v < 65536 → swap16 (le_val (le_bytes 2 (swap16 v))) = v.
Proof.
  intros Hv. rewrite le_val_bytes, Z.mod_small; [by apply swap16_involutive|].
  unfold swap16, be_val.
  pose proof (le_val_bounds _ (bytes_ok_reverse _ (le_bytes_ok 2 v))) as H.
  rewrite length_reverse, length_le_bytes in H. exact H.
Qed.

(** ** Queries *)

(** A query for an address record (A or AAAA) becomes a TXT query for the
    same name: the two bytes of the query type change, no other byte does,
    and the name and the type asked for are remembered.  Other queries pass
    unchanged. *)
Theorem query_rewritten buf name t :
  get_name buf = Some name → (15 + length name ≤ length buf)%nat →
  get16 (13 + length name) buf = Some t →
  ∃ buf', modify_dns_query buf = Some (buf', name, t)
  ∧ get16 (13 + length name) buf' = Some (if (t =? 1) || (t =? 28) then 16 else t)
  ∧ length buf' = length buf
  ∧ (∀ i, (i < 13 + length name ∨ 15 + length name ≤ i)%nat → buf' !! i = buf !! i).
Proof.
  intros Hn Hl Ht. unfold modify_dns_query. rewrite Hn. cbn [mbind option_bind].
  change (1 + dnshdr_len + length name)%nat with (13 + length name)%nat. rewrite Ht.
  cbn [mbind option_bind]. destruct ((t =? 1) || (t =? 28)); [|by exists buf].
  assert (Hp : put16 (13 + length name) 16 buf
               = Some (splice (13 + length name) (le_bytes 2 (swap16 16)) buf))
    by (unfold put16; apply mem_put_in; rewrite length_le_bytes; lia).
  rewrite Hp. cbn [mbind option_bind]. eexists. split; [done|].
  set (d := le_bytes 2 (swap16 16)). assert (Hd : length d = 2%nat) by done.
  assert (Hs : length (splice (13 + length name) d buf) = length buf)
    by (apply length_splice; lia).
  split_and!; [|done|].
  - unfold get16. rewrite mem_get_in by (rewrite Hs; lia).
    pose proof (slice_splice_eq (13 + length name) d buf) as He. rewrite Hd in He.
    rewrite He by lia. done.
  - intros i Hi. unfold splice. rewrite Hd.
    destruct (decide (i < 13 + length name)%nat) as [Hlt|Hge].
    + rewrite lookup_app_l by (rewrite length_take; lia). by apply lookup_take_lt.
    + rewrite lookup_app_r by (rewrite length_take; lia). rewrite length_take, Nat.min_l by lia.
      rewrite lookup_app_r by (rewrite Hd; lia). rewrite Hd, lookup_drop. f_equal. lia.
Qed.

(** A query for the name "a." *)
Definition sample_query (t : Z) : list Z :=
  [7; 7; 1; 0; 0; 1; 0; 0; 0; 0; 0; 0; 1; 97; 0; 0; t; 0; 1].

Lemma query_rewritten_witness :
  modify_dns_query (sample_query 1) = Some (sample_query 16, [1; 97], 1)
  ∧ ∃ buf', modify_dns_query (sample_query 28) = Some (buf', [1; 97], 28)
            ∧ get16 15 buf' = Some 16.
Proof.
  split; [vm_compute; reflexivity|].
  destruct (query_rewritten (sample_query 28) [1; 97] 28) as (buf' & H1 & H2 & _);
    [vm_compute; reflexivity|vm_compute; lia|vm_compute; reflexivity|].
  exists buf'. split; [exact H1|exact H2].
Defined.

(** ** The cache *)

(** A failed response empties the text. *)
Lemma analyse_failed buf qn aa nn :
  analyse_dns_response buf = Some (-1, qn, aa, nn) → aa = replicate (S DNS_MAXNAMELENGTH) 0.
Proof.
  unfold analyse_dns_response. intros H.
  apply bind_Some in H as (n & _ & H). apply bind_Some in H as (fl & _ & H). case_match.
  - apply bind_Some in H as (al & _ & H). apply bind_Some in H as (ab & _ & H).
    apply bind_Some in H as (nl & _ & H). apply bind_Some in H as (nm & _ & H). done.
  - apply (inj Some), (f_equal (λ r, r.1.2)) in H. by symmetry.
Qed.

(** A turn for a name that is not in the cache ends as [dns_uncached] does. *)
Lemma dns_step_miss nofile ev s s1 out q buf name t :
  dns_step nofile ev s = (s1, Go out) → ev_query ev = Some q →
  modify_dns_query (overlay (take BUFFER_LENGTH q.2) (dns_buffer s)) = Some (buf, name, t) →
  getNIDsbyName name (fqdnTable s) = None →
  ∃ rc, dns_uncached nofile name t ev
          (s <| dns_fds ::= S |> <| dns_buffer ::= overlay (take BUFFER_LENGTH q.2) |>
             <| dns_buffer := buf |>) = (s1, Go rc).
Proof.
  unfold dns_step. intros H Hq Hm Hmiss. destruct (nofile <=? dns_fds s)%nat; [done|].
  rewrite Hq in H. destruct q as [client d0]. cbn [dns_buffer set_field eta_of eta_dns snd] in *.
  rewrite Hm in H. cbn [guard_mem fqdnTable set_field eta_of eta_dns] in H. rewrite Hmiss in H.
  destruct (dns_uncached _ _ _ _ _) as [s2 [rc| | |]] eqn:E; cbn [dns_bind] in H; try done.
  destruct (ev_reply_ok ev); [|done]. injection H as -> _. by exists rc.
Qed.

(** A failed lookup leaves the cache and empties the text. *)
Lemma dns_uncached_failed nofile name t ev s s1 rc d qn aa nn :
  dns_uncached nofile name t ev s = (s1, Go rc) → ev_response ev = Some d →
  analyse_dns_response (overlay (take BUFFER_LENGTH d) (dns_buffer s)) = Some (-1, qn, aa, nn) →
  fqdnTable s1 = fqdnTable s ∧ dns_ansAns s1 = replicate (S DNS_MAXNAMELENGTH) 0.
Proof.
  unfold dns_uncached. intros H Hr Ha. destruct (nofile <=? dns_fds s)%nat; [done|].
  destruct (negb (ev_request_ok ev)); [done|]. rewrite Hr in H.
  cbn [dns_buffer set_field eta_of eta_dns] in *. rewrite Ha in H.
  apply analyse_failed in Ha as ->. cbn [guard_mem] in H.
  change (-1 =? 0) with false in H. cbn iota in H. by injection H as <- _.
Qed.

(** A cached name while the text is empty. *)
Lemma dns_cached_empty p t s :
  dns_ansAns s = replicate (S DNS_MAXNAMELENGTH) 0 → (dns_cached p t s).2 = ThreadExit.
Proof.
  intros H. unfold dns_cached. rewrite deref_ansAns, H.
  assert (Hr : register_nids (replicate (S DNS_MAXNAMELENGTH) 0) s = (s, ThreadExit))
    by reflexivity.
  by rewrite Hr.
Qed.

Lemma dns_step_hit nofile ev s q buf name t p :
  ev_query ev = Some q →
  modify_dns_query (overlay (take BUFFER_LENGTH q.2) (dns_buffer s)) = Some (buf, name, t) →
  getNIDsbyName name (fqdnTable s) = Some p →
  dns_ansAns s = replicate (S DNS_MAXNAMELENGTH) 0 →
  (dns_step nofile ev s).2 = ThreadExit.
Proof.
  unfold dns_step. intros Hq Hm Hp Ht. destruct (nofile <=? dns_fds s)%nat; [done|].
  rewrite Hq. destruct q as [client d]. cbn [dns_buffer set_field eta_of eta_dns snd] in *.
  rewrite Hm. cbn [guard_mem fqdnTable set_field eta_of eta_dns]. rewrite Hp.
  match goal with |- context [dns_cached ?p ?t ?s0] => pose proof (dns_cached_empty p t s0 Ht) as Hc;
    destruct (dns_cached p t s0) as [s2 o] end.
  cbn [snd] in Hc. by subst o.
Qed.

(** The cache stores, for every name, a pointer to the one array into
    which responses are parsed.  After the server has answered a query for an
    unknown name with an error (a response code other than 0) the array is
    empty, and the next query for any name of the cache ends the thread: one
    mistyped name stops the proxy. *)
Theorem failed_lookup_poisons_cache nofile ev s s1 out q buf name t d qn aa nn
    ev' q' buf' name' t' p :
  dns_step nofile ev s = (s1, Go out) → ev_query ev = Some q →
  modify_dns_query (overlay (take BUFFER_LENGTH q.2) (dns_buffer s)) = Some (buf, name, t) →
  getNIDsbyName name (fqdnTable s) = None →
  ev_response ev = Some d →
  analyse_dns_response (overlay (take BUFFER_LENGTH d) buf) = Some (-1, qn, aa, nn) →
  ev_query ev' = Some q' →
  modify_dns_query (overlay (take BUFFER_LENGTH q'.2) (dns_buffer s1)) = Some (buf', name', t') →
  getNIDsbyName name' (fqdnTable s) = Some p →
  (dns_step nofile ev' s1).2 = ThreadExit.
Proof.
  intros H Hq Hm Hmiss Hr Ha Hq' Hm' Hp.
  destruct (dns_step_miss _ _ _ _ _ _ _ _ _ H Hq Hm Hmiss) as (rc & E).
  destruct (dns_uncached_failed _ _ _ _ _ _ _ _ _ _ _ E Hr Ha) as [Ht Hz].
  by apply (dns_step_hit _ _ _ _ _ _ _ p Hq' Hm'); [rewrite Ht|].
Qed.

(** A cache with the name "a." and the answer of the name server for it. *)
Definition poisoned_start : dns_state :=
  mkDns (replicate BUFFER_LENGTH 0)
    (chars "3ffe:0000:0000:0000:0000:0000:0000:0003" ++ [44]
       ++ chars "3ffe:0000:0000:0000:0000:0000:0000:0004" ++ replicate 177 0)
    (newFQDNTEntry [1; 97] AnsAns init_fqdn_table).1
    (init_nid_mapper (config_init <| conf_dns := 1 |>)) 20.

Definition other_query : list Z :=
  [8; 8; 1; 0; 0; 1; 0; 0; 0; 0; 0; 0; 1; 98; 0; 0; 1; 0; 1].
Definition nxdomain : list Z :=
  [8; 8; 129; 131; 0; 1; 0; 0; 0; 0; 0; 0; 1; 98; 0; 0; 16; 0; 1].

Definition failing_lookup : dns_events :=
  mkDnsEv (Some (1, other_query)) true (Some nxdomain) true.
Definition known_lookup : dns_events :=
  mkDnsEv (Some (1, sample_query 1)) true None true.

(** The response as it lies in the buffer. *)
Definition failed_buffer : list Z := nxdomain ++ replicate (BUFFER_LENGTH - 19) 0.

Lemma failed_lookup_poisons_cache_witness :
  match (dns_step 1024 known_lookup poisoned_start).2 with Go _ => true | _ => false end = true
  ∧ (dns_step 1024 known_lookup (dns_step 1024 failing_lookup poisoned_start).1).2 = ThreadExit.
Proof.
  split; [vm_compute; reflexivity|].
  destruct (dns_step 1024 failing_lookup poisoned_start) as [s1 o] eqn:E.
  assert (Ho : ∃ out, o = Go out)
    by (vm_compute in E; injection E as _ <-; by eexists).
  assert (Hb : dns_buffer s1 = failed_buffer)
    by (apply (f_equal (λ r, dns_buffer r.1)) in E; cbn [fst] in E; rewrite <-E;
        vm_compute; reflexivity).
  destruct Ho as [out ->].
  eapply (failed_lookup_poisons_cache 1024 failing_lookup poisoned_start s1 out (1, other_query)
    _ _ _ nxdomain _ _ _ known_lookup (1, sample_query 1) _ _ _ AnsAns E).
  - reflexivity.
  - vm_compute. reflexivity.
  - vm_compute. reflexivity.
  - reflexivity.
  - vm_compute. reflexivity.
  - reflexivity.
  - rewrite Hb. vm_compute. reflexivity.
  - vm_compute. reflexivity.
Defined.

(** ** Descriptors *)

(** The thread never lowers the number of open descriptors: the statement
    [keeps k m] says that [m] ends with at least [k]. *)
Definition keeps {A} (k : nat) (m : dns_state * outcome A) : Prop := (k ≤ dns_fds m.1)%nat.

Lemma keeps_bind {A B} k (m : dns_state * outcome A) (f : A → dns_state → dns_state * outcome B) :
  keeps k m → (∀ a s, (k ≤ dns_fds s)%nat → keeps k (f a s)) → keeps k (dns_bind m f).
Proof. destruct m as [s [a| | |]]; unfold keeps; simpl; auto. Qed.

Lemma keeps_guard {A B} k (m : option A) s (f : A → dns_state * outcome B) :
  (k ≤ dns_fds s)%nat → (∀ a, keeps k (f a)) → keeps k (guard_mem m s f).
Proof. destruct m; unfold keeps; simpl; auto. Qed.

Lemma register_nids_fds text s : dns_fds (register_nids text s).1 = dns_fds s.
Proof. unfold register_nids, guard_mem. by repeat case_match. Qed.

Lemma dns_cached_fds k p t s : (k ≤ dns_fds s)%nat → keeps k (dns_cached p t s).
Proof.
  intros H. unfold dns_cached. apply keeps_bind; [unfold keeps; by rewrite register_nids_fds|].
  intros [a b] s2 Hs2. apply keeps_guard; [done|]. by intros [buf ?].
Qed.

Lemma dns_uncached_fds nofile k n t ev s :
  (k ≤ dns_fds s)%nat → keeps k (dns_uncached nofile n t ev s).
Proof.
  intros H. unfold dns_uncached, keeps. case_match; [done|]. case_match; [simpl; lia|].
  destruct (ev_response ev); [|simpl; lia]. apply keeps_guard; [simpl; lia|].
  intros [[[ret ?] ans] ?]. case_match; [|unfold keeps; simpl; lia].
  apply keeps_bind; [unfold keeps; rewrite register_nids_fds; simpl; lia|].
  intros [a b] s2 Hs2. apply keeps_guard; [done|]. by intros [buf ?].
Qed.

Lemma dns_step_fds nofile ev s s' out :
  dns_step nofile ev s = (s', Go out) → (S (dns_fds s) ≤ dns_fds s' ∧ dns_fds s < nofile)%nat.
Proof.
  intros H. unfold dns_step in H.
  destruct (nofile <=? dns_fds s)%nat eqn:E; [done|]. apply Nat.leb_gt in E.
  split; [|done]. destruct (ev_query ev) as [[client d]|]; [|done].
  apply (f_equal (λ r, dns_fds r.1)) in H. cbn [fst] in H. rewrite <-H.
  apply keeps_guard; [simpl; lia|]. intros [[buf n] q].
  destruct (getNIDsbyName _ _) as [p|];
    (apply keeps_bind; [first [apply dns_cached_fds|apply dns_uncached_fds]; simpl; lia|
     intros rc s2 H2; by case_match]).
Qed.

(** Each turn of the thread opens one or two sockets and closes none, so
    with [nofile] descriptors allowed and some already open the thread serves
    at most the difference of queries before [socket] fails and it ends. *)
Theorem dns_thread_ends nofile evs s s' :
  dns_run nofile evs s = (s', Go tt) →
  (dns_fds s + length evs ≤ dns_fds s')%nat
  ∧ (evs ≠ [] → dns_fds s + length evs ≤ nofile)%nat.
Proof.
  revert s. induction evs as [|ev evs IH]; intros s H; cbn [dns_run] in H.
  { injection H as <-. simpl. split; [lia|done]. }
  destruct (dns_step nofile ev s) as [s1 [out| | |]] eqn:E; cbn [dns_bind] in H; try done.
  destruct (dns_step_fds _ _ _ _ _ E). destruct (IH s1 H) as [Hd1 Hd2]. cbn [length].
  split; [lia|]. intros _. destruct evs as [|ev' evs]; [simpl; lia|].
  specialize (Hd2 ltac:(done)). cbn [length] in *. lia.
Qed.

Lemma dns_thread_ends_witness :
  dns_run 22 [failing_lookup] poisoned_start
  = ((dns_step 22 failing_lookup poisoned_start).1, Go tt)
  ∧ (20 + 1 ≤ 22)%nat.
Proof.
  assert (H : dns_run 22 [failing_lookup] poisoned_start
    = ((dns_step 22 failing_lookup poisoned_start).1, Go tt)) by (vm_compute; reflexivity).
  split; [exact H|].
  apply (proj2 (dns_thread_ends 22 [failing_lookup] poisoned_start _ H)). discriminate.
Defined.

(** ** Answers *)

(** The rewriting lemmas that read a buffer back through the writes. *)
Lemma get16_splice_eq off v buf :
  0 ≤ v < 65536 → (off + 2 ≤ length buf)%nat →
  get16 off (splice off (le_bytes 2 (swap16 v)) buf) = Some v.
Proof.
  intros Hv Hl. unfold get16. rewrite mem_get_in by (rewrite length_splice; rewrite ?length_le_bytes; lia).
  pose proof (slice_splice_eq off (le_bytes 2 (swap16 v)) buf) as H.
  rewrite length_le_bytes in H. rewrite H by done. cbn [fmap option_fmap option_map].
  by rewrite swap16_val.
Qed.

Lemma get16_splice_ne off off' d buf :
  (off + 2 ≤ off' ∨ off' + length d ≤ off)%nat → (off' + length d ≤ length buf)%nat →
  get16 off (splice off' d buf) = get16 off buf.
Proof.
  intros Hd Hl. unfold get16, mem_get. rewrite length_splice by done.
  destruct Hd; [rewrite slice_splice_before by lia|rewrite slice_splice_after by lia]; done.
Qed.

(** *** The reply from the cache as a message *)

(** A buffer that holds [m] and zeros. *)
Definition zero_filled (m : list Z) : list Z := m ++ replicate (BUFFER_LENGTH - length m) 0.

(** The bytes of the reply to the query [id] for [name]: the header, the
    question, one answer record whose name is a pointer to the question, and
    name, type, class and time to live of an authority record of the root, whose
    length and data are not written. *)
Definition encode_reply (id name : list Z) (type : Z) (data : list Z) : list Z :=
  id ++ be_bytes 2 34176 ++ be_bytes 2 1 ++ be_bytes 2 1 ++ be_bytes 2 1 ++ be_bytes 2 0
  ++ name ++ [0] ++ be_bytes 2 type ++ be_bytes 2 1
  ++ be_bytes 2 49164 ++ be_bytes 2 type ++ be_bytes 2 1 ++ be_bytes 4 60
  ++ be_bytes 2 (Z.of_nat (length data)) ++ data
  ++ [0] ++ be_bytes 2 2 ++ be_bytes 2 1 ++ be_bytes 4 60.

Lemma le_bytes_swap32 z : le_bytes 4 (swap32 z) = be_bytes 4 z.
Proof.
  unfold swap32, be_val, be_bytes.
  rewrite <-(le_bytes_val (reverse (le_bytes 4 z))) at 2.
  - by rewrite length_reverse, length_le_bytes.
  - apply bytes_ok_reverse, le_bytes_ok.
Qed.

Lemma zero_filled_nil : replicate BUFFER_LENGTH 0 = zero_filled [].
Proof. done. Qed.

(** Writes in increasing order extend the message. *)
Lemma mem_put_extend k off d m :
  off = (length m + k)%nat → (off + length d ≤ BUFFER_LENGTH)%nat →
  mem_put off d (zero_filled m) = Some (zero_filled (m ++ replicate k 0 ++ d)).
Proof.
  intros -> Hl.
  assert (length m ≤ BUFFER_LENGTH)%nat by lia.
  assert (Hlen : length (zero_filled m) = BUFFER_LENGTH)
    by (unfold zero_filled; rewrite length_app, length_replicate; lia).
  rewrite mem_put_in by (rewrite Hlen; done). f_equal. unfold splice, zero_filled.
  rewrite take_app, take_ge by lia. replace (length m + k - length m)%nat with k by lia.
  rewrite take_replicate, Nat.min_l by lia.
  rewrite drop_app_ge by lia. rewrite drop_replicate.
  rewrite <-!app_assoc. do 4 f_equal.
  rewrite !length_app, length_replicate. lia.
Qed.

Lemma put16_extend k off v m :
  off = (length m + k)%nat → (off + 2 ≤ BUFFER_LENGTH)%nat →
  put16 off v (zero_filled m) = Some (zero_filled (m ++ replicate k 0 ++ be_bytes 2 v)).
Proof.
  intros H1 H2. unfold put16. rewrite le_bytes_swap16.
  apply mem_put_extend; [done|by rewrite length_be_bytes].
Qed.

(** One write of the chain: the gap [k] before it is given. *)
Ltac message_length :=
  unfold BUFFER_LENGTH;
  repeat rewrite ?length_app, ?length_replicate, ?length_be_bytes; simpl length; lia.
Ltac extend k :=
  first [rewrite (put16_extend k) by message_length
        |rewrite (mem_put_extend k) by message_length];
  cbn [mbind option_bind].

Lemma get_name_length buf name : get_name buf = Some name → (length name ≤ 255)%nat.
Proof.
  unfold get_name, strcpy. intros H. case_match eqn:E; [|done].
  apply (inj Some) in H as <-. apply andb_true_iff in E as [_ E]. apply Nat.ltb_lt in E.
  unfold DNS_MAXNAMELENGTH in E. lia.
Qed.

Lemma rr_data_length t n nid :
  length nid = 16%nat → length (rr_data t n nid) = if (t =? 1) then 4%nat else 16%nat.
Proof. intros H. unfold rr_data. by case_match; [apply length_le_bytes|]. Qed.

Lemma reply_from_cache buf name t n nid :
  get_name buf = Some name → (2 ≤ length buf)%nat → length nid = 16%nat →
  (t =? 1) || (t =? 28) = true →
  build_dns_response_with_fqdn_table buf n nid t
  = Some (zero_filled (encode_reply (take 2 buf) name t (rr_data t n nid)), 0).
Proof.
  intros Hn Hb Hnid Ht. unfold build_dns_response_with_fqdn_table.
  pose proof (get_name_length _ _ Hn) as Hl. rewrite mem_get_in by done.
  cbn [mbind option_bind]. rewrite Hn. cbn [mbind option_bind].
  assert (Hid : length (slice 0 2 buf) = 2%nat) by (apply length_slice; lia).
  assert (Hs : slice 0 2 buf = take 2 buf) by (unfold slice; by rewrite drop_0).
  rewrite Hs in *. pose proof (rr_data_length t n nid Hnid) as Hd.
  rewrite Ht, zero_filled_nil. set (d := rr_data t n nid) in *.
  assert (Hd16 : (length d ≤ 16)%nat) by (rewrite Hd; destruct (t =? 1); lia).
  rewrite le_bytes_swap32. unfold dnshdr_len.
  do 7 extend 0%nat. extend 1%nat. do 7 extend 0%nat.
  replace (if t =? 1 then 4%nat else 16%nat) with (length d) by done.
  extend 1%nat. do 2 extend 0%nat. unfold encode_reply.
  by rewrite <-!app_assoc.
Qed.

Lemma zero_filled_length m : (length m ≤ BUFFER_LENGTH)%nat → length (zero_filled m) = BUFFER_LENGTH.
Proof. intros. unfold zero_filled. rewrite length_app, length_replicate. lia. Qed.

Lemma encode_reply_length buf name t d :
  (length name ≤ 255)%nat → (length d ≤ 16)%nat →
  (length (encode_reply (take 2 buf) name t d) ≤ BUFFER_LENGTH)%nat.
Proof.
  intros Hn Hd. unfold encode_reply, BUFFER_LENGTH. rewrite !length_app, !length_be_bytes, length_take.
  cbn [length]. lia.
Qed.

(** The name is followed by its NUL, and what is written behind does not
    change it. *)
Lemma get_name_shape buf name :
  get_name buf = Some name →
  (length name ≤ 255)%nat ∧ 0 ∉ name ∧ ∃ r, drop dnshdr_len buf = name ++ 0 :: r.
Proof.
  intros H. split; [by apply get_name_length in H|].
  unfold get_name, strcpy in H. case_match eqn:E; [|done].
  apply (inj Some) in H as <-. apply andb_true_iff in E as [E _]. apply Nat.ltb_lt in E.
  revert E. generalize (drop dnshdr_len buf). intros l. induction l as [|x l IH]; simpl; [lia|].
  destruct (x =? 0) eqn:Hx; simpl; intros Hl.
  - apply Z.eqb_eq in Hx as ->. split; [apply not_elem_of_nil|by exists l].
  - destruct IH as (Hn & r & Hr); [lia|]. apply Z.eqb_neq in Hx.
    split; [rewrite not_elem_of_cons; by split|]. exists r. by f_equal.
Qed.

Lemma get_name_intro buf name r :
  (length name ≤ 255)%nat → 0 ∉ name → drop dnshdr_len buf = name ++ 0 :: r →
  get_name buf = Some name.
Proof.
  intros Hl Hn Hr. unfold get_name, strcpy. rewrite Hr, cstr_app_nul by done.
  rewrite (proj2 (Nat.ltb_lt _ _)) by (rewrite length_app; simpl; lia).
  by rewrite (proj2 (Nat.ltb_lt _ _)) by (unfold DNS_MAXNAMELENGTH; lia).
Qed.

Lemma get_name_put16 buf buf' name off v :
  get_name buf = Some name → put16 off v buf = Some buf' →
  (13 + length name ≤ off)%nat → get_name buf' = Some name.
Proof.
  intros Hn [Hl ->]%mem_put_Some Ho.
  destruct (get_name_shape _ _ Hn) as (H255 & H0 & r & Hr).
  set (tl := le_bytes 2 (swap16 v) ++ drop (off + length (le_bytes 2 (swap16 v))) buf).
  assert (Hd : drop dnshdr_len (take off buf) = name ++ 0 :: take (off - 13 - length name) r).
  { rewrite skipn_firstn_comm, Hr. unfold dnshdr_len.
    replace (off - 12)%nat with (length name + S (off - 13 - length name))%nat by lia.
    by rewrite firstn_app_2. }
  apply (get_name_intro _ _ (take (off - 13 - length name) r ++ tl)); [done..|].
  unfold splice. fold tl.
  rewrite drop_app_le by (rewrite length_take; unfold dnshdr_len; lia).
  by rewrite Hd, <-app_assoc.
Qed.

Lemma modify_dns_query_name buf buf' name t :
  modify_dns_query buf = Some (buf', name, t) →
  get_name buf' = Some name ∧ length buf' = length buf ∧ take 2 buf' = take 2 buf.
Proof.
  unfold modify_dns_query. intros H. apply bind_Some in H as (n & Hn & H).
  apply bind_Some in H as (q & _ & H). case_match; [|by injection H as <- <- _].
  apply bind_Some in H as (b1 & Hb & H). injection H as <- <- _.
  split_and!; [|by eapply put16_length|].
  - by eapply get_name_put16; [done..|unfold dnshdr_len; lia].
  - apply mem_put_Some in Hb as [Hl ->]. unfold splice.
    rewrite take_app_le by (rewrite length_take; unfold dnshdr_len in *; lia).
    by rewrite take_take.
Qed.

(** *** Records as RFC 1035 reads them *)

(** A name: labels up to the empty one, or a pointer, as its bytes. *)
Fixpoint parse_name (n : nat) (bs : list Z) : option (list Z * list Z) :=
  match n, bs with
  | S n, b :: bs =>
      if b =? 0 then Some ([], bs)
      else if 192 <=? b then match bs with c :: bs => Some ([b; c], bs) | [] => None end
      else if (64 <=? b) || (Z.of_nat (length bs) <? b) then None
      else '(l, r) ← parse_name n (drop (Z.to_nat b) bs); Some (b :: take (Z.to_nat b) bs ++ l, r)
  | _, _ => None
  end.

Record dns_rr := mkRR {
  rr_name : list Z; rr_type : Z; rr_class : Z; rr_ttl : Z; rr_rdata : list Z;
}.

Definition parse_question (bs : list Z) : option (list Z * Z * Z * list Z) :=
  '(name, r) ← parse_name (length bs) bs;
  if (length r <? 4)%nat then None
  else Some (name, be_val (slice 0 2 r), be_val (slice 2 2 r), drop 4 r).

Definition parse_rr (bs : list Z) : option (dns_rr * list Z) :=
  '(name, r) ← parse_name (length bs) bs;
  let len := Z.to_nat (be_val (slice 8 2 r)) in
  if (length r <? 10 + len)%nat then None
  else Some (mkRR name (be_val (slice 0 2 r)) (be_val (slice 2 2 r)) (be_val (slice 4 4 r))
               (slice 10 len r), drop (10 + len) r).

(** The bytes of labels, without the empty one that ends a name. *)
Definition labels (ls : list (list Z)) : list Z := concat ((λ l, Z.of_nat (length l) :: l) <$> ls).
Definition label_ok (l : list Z) : Prop := (0 < length l < 64)%nat.

#[export] Instance label_ok_dec l : Decision (label_ok l).
Proof. unfold label_ok. apply _. Defined.

Lemma parse_name_labels ls r n :
  Forall label_ok ls → (length (labels ls ++ 0%Z :: r) ≤ n)%nat →
  parse_name n (labels ls ++ 0 :: r) = Some (labels ls, r).
Proof.
  intros Hl. revert n. induction Hl as [|l ls [H0 H63] _ IH]; intros n Hn.
  - destruct n; [simpl in Hn; lia|done].
  - change (labels (l :: ls)) with (Z.of_nat (length l) :: l ++ labels ls) in *.
    rewrite <-app_comm_cons, <-app_assoc in *. destruct n as [|n]; [simpl in Hn; lia|].
    cbn [parse_name length] in *. set (s := labels ls ++ 0 :: r) in *.
    rewrite (length_app l s) in *.
    rewrite (proj2 (Z.eqb_neq _ 0)), (proj2 (Z.leb_gt 192 _)), (proj2 (Z.leb_gt 64 _)) by lia.
    rewrite (proj2 (Z.ltb_ge _ _)) by lia. cbn [orb].
    rewrite Nat2Z.id, drop_app_length, take_app_length, IH by lia. done.
Qed.

Lemma be_val_small n z : 0 ≤ z < 256 ^ Z.of_nat n → be_val (be_bytes n z) = z.
Proof. intros. rewrite be_val_bytes. by apply Z.mod_small. Qed.

(** A record behind its name. *)
Definition rr_tail (t c ttl : Z) (d r : list Z) : list Z :=
  be_bytes 2 t ++ be_bytes 2 c ++ be_bytes 4 ttl ++ be_bytes 2 (Z.of_nat (length d)) ++ d ++ r.

Lemma parse_rr_at pn name t c ttl d r :
  parse_name (length (pn ++ rr_tail t c ttl d r)) (pn ++ rr_tail t c ttl d r)
  = Some (name, rr_tail t c ttl d r) →
  0 ≤ t < 2 ^ 16 → 0 ≤ c < 2 ^ 16 → 0 ≤ ttl < 2 ^ 32 → Z.of_nat (length d) < 2 ^ 16 →
  parse_rr (pn ++ rr_tail t c ttl d r) = Some (mkRR name t c ttl d, r).
Proof.
  intros E Ht Hc Hl Hd. unfold parse_rr. rewrite E. cbn [mbind option_bind]. clear E.
  assert (S1 : slice 0 2 (rr_tail t c ttl d r) = be_bytes 2 t) by (by apply (slice_app_at 0 2 [])).
  assert (S2 : slice 2 2 (rr_tail t c ttl d r) = be_bytes 2 c) by (by apply slice_app_at).
  assert (S3 : slice 4 4 (rr_tail t c ttl d r) = be_bytes 4 ttl).
  { unfold rr_tail. rewrite app_assoc. by apply slice_app_at. }
  assert (S4 : slice 8 2 (rr_tail t c ttl d r) = be_bytes 2 (Z.of_nat (length d))).
  { unfold rr_tail. rewrite 2!app_assoc. by apply slice_app_at. }
  set (len := Z.of_nat (length d)) in *.
  assert (E10 : rr_tail t c ttl d r
                = (be_bytes 2 t ++ be_bytes 2 c ++ be_bytes 4 ttl ++ be_bytes 2 len) ++ d ++ r)
    by (unfold rr_tail; by rewrite <-!app_assoc).
  assert (L10 : length (be_bytes 2 t ++ be_bytes 2 c ++ be_bytes 4 ttl ++ be_bytes 2 len) = 10%nat) by done.
  rewrite S1, S2, S3, S4, !be_val_small by (lia || done).
  unfold len. rewrite Nat2Z.id. fold len. rewrite E10. revert L10.
  generalize (be_bytes 2 t ++ be_bytes 2 c ++ be_bytes 4 ttl ++ be_bytes 2 len) as p. intros p L10.
  rewrite (proj2 (Nat.ltb_ge _ _)) by (rewrite !length_app, L10; lia).
  rewrite (slice_app_at 10 (length d)) by done.
  rewrite (app_assoc _ d), drop_app_length' by (rewrite length_app, L10; done). done.
Qed.

Lemma parse_pointer b c r n : 192 ≤ b → parse_name (S n) (b :: c :: r) = Some ([b; c], r).
Proof.
  intros H. cbn [parse_name]. rewrite (proj2 (Z.eqb_neq _ _)) by lia.
  by rewrite (proj2 (Z.leb_le _ _)) by lia.
Qed.

(** What a resolver reads in the reply: the counts, the question, the answer,
    and an authority record that its count announces: the zeros behind its
    time to live are taken for its length, and the name of the server that its
    data should be is missing. *)
Lemma reply_records id ls t d m :
  length id = 2%nat → Forall label_ok ls → 0 ≤ t < 2 ^ 16 → (length (labels ls) ≤ 255)%nat →
  (length d ≤ 16)%nat → m = zero_filled (encode_reply id (labels ls) t d) →
  take 2 m = id
  ∧ (λ off, be_val (slice off 2 m)) <$> [2; 4; 6; 8; 10]%nat = [34176; 1; 1; 1; 0]
  ∧ ∃ r1 r2 k,
      parse_question (drop 12 m) = Some (labels ls, t, 1, r1)
      ∧ parse_rr r1 = Some (mkRR [192; 12] t 1 60 d, r2)
      ∧ parse_rr r2 = Some (mkRR [] 2 1 60 [], replicate k 0).
Proof.
  intros Hid Hls Ht Hn Hd ->. unfold zero_filled.
  set (z := replicate (BUFFER_LENGTH - length (encode_reply id (labels ls) t d)) 0).
  assert (Hz : ∃ k, z = 0 :: 0 :: replicate k 0).
  { exists (BUFFER_LENGTH - length (encode_reply id (labels ls) t d) - 2)%nat. unfold z.
    rewrite (replicate_split 2 (BUFFER_LENGTH - length (encode_reply id (labels ls) t d) - 2)); [done|].
    unfold encode_reply. rewrite !length_app, !length_be_bytes, Hid. cbn [length].
    unfold BUFFER_LENGTH. lia. }
  destruct Hz as [k Hz]. clearbody z. subst z.
  destruct id as [|x [|y [|w id]]]; try discriminate Hid.
  set (r2 := [0] ++ rr_tail 2 1 60 [] (replicate k 0)).
  set (r1 := [192; 12] ++ rr_tail t 1 60 d r2).
  set (q := labels ls ++ 0 :: be_bytes 2 t ++ be_bytes 2 1 ++ r1).
  assert (E : encode_reply [x; y] (labels ls) t d ++ 0 :: 0 :: replicate k 0
              = x :: y :: be_bytes 2 34176 ++ be_bytes 2 1 ++ be_bytes 2 1 ++ be_bytes 2 1
                  ++ be_bytes 2 0 ++ q).
  { unfold encode_reply, q, r1, r2, rr_tail. rewrite <-!app_assoc. reflexivity. }
  rewrite E. split; [done|]. split; [reflexivity|]. exists r1, r2, k. split_and!.
  - change (drop 12 _) with q. unfold parse_question, q.
    rewrite (parse_name_labels ls _ _ Hls) by lia. cbn [mbind option_bind].
    rewrite (proj2 (Nat.ltb_ge _ _)) by (rewrite !length_app, !length_be_bytes; lia).
    assert (S1 : slice 0 2 (be_bytes 2 t ++ be_bytes 2 1 ++ r1) = be_bytes 2 t)
      by (by apply (slice_app_at 0 2 [])).
    assert (S2 : slice 2 2 (be_bytes 2 t ++ be_bytes 2 1 ++ r1) = be_bytes 2 1)
      by (by apply slice_app_at).
    rewrite S1, S2, !be_val_small by (done || lia). done.
  - apply parse_rr_at; [by apply parse_pointer|first [lia | done | by split]..].
  - apply (parse_rr_at [0]); [done|first [lia | done | by split]..].
Qed.

(** C34. A query for an address of a name of the cache is answered from it,
    without the server: the text of the cache gives the node's NID, the mapper
    learns it with its 32-bit form and its RVS, and the client gets 512 bytes
    with its transaction number in which a reader of RFC 1035 finds its
    question and one answer, by a pointer to the name asked, that holds the
    32-bit NID (A) or the NID (AAAA) and is valid for 60 seconds.  The message
    is not complete: it announces one authority record, whose length and data
    the code never writes, so that zeros are read as an NS record of the root
    without the name of a server. *)
Theorem cached_name_answered nofile ev s client d buf name ls t p a b nid nidr :
  (dns_fds s < nofile)%nat → ev_query ev = Some (client, d) → ev_reply_ok ev = true →
  length (dns_buffer s) = BUFFER_LENGTH →
  modify_dns_query (overlay (take BUFFER_LENGTH d) (dns_buffer s)) = Some (buf, name, t) →
  name = labels ls → Forall label_ok ls →
  t = 1 ∨ t = 28 →
  getNIDsbyName name (fqdnTable s) = Some p →
  get_nids (dns_ansAns s) = Some (a, b) →
  inet_pton6 (cstr a) = Some nid → inet_pton6 (cstr b) = Some nidr →
  let address := if t =? 1 then le_bytes 4 (dns_nid32 nid) else nid in
  ∃ s' m, dns_step nofile ev s = (s', Go (mkDnsOut None (client, m)))
  ∧ m = zero_filled (encode_reply (take 2 buf) name t address) ∧ length m = BUFFER_LENGTH
  ∧ take 2 m = take 2 buf
  ∧ (λ off, be_val (slice off 2 m)) <$> [2; 4; 6; 8; 10]%nat = [34176; 1; 1; 1; 0]
  ∧ (∃ r1 r2 k,
       parse_question (drop 12 m) = Some (name, t, 1, r1)
       ∧ parse_rr r1 = Some (mkRR [192; 12] t 1 60 address, r2)
       ∧ parse_rr r2 = Some (mkRR [] 2 1 60 [], replicate k 0))
  ∧ dns_nm s' = newNMEntry32 (dns_nid32 nid) nid nidr (newNMEntry nid nidr (dns_nm s))
  ∧ fqdnTable s' = fqdnTable s ∧ dns_ansAns s' = dns_ansAns s.
Proof.
  intros Hfd Hq Hok Hlen Hm Hn Hls Ht Hp Hg Ha Hb address.
  destruct (modify_dns_query_name _ _ _ _ Hm) as (Hname & Hl & _).
  assert (Hbuf : length buf = BUFFER_LENGTH)
    by (rewrite Hl, length_overlay; rewrite ?length_take; lia).
  assert (Had : (length address ≤ 16)%nat).
  { unfold address. destruct (inet_pton6_ok _ _ Ha) as [L _]. case_match; [rewrite length_le_bytes|rewrite L]; lia. }
  pose proof (get_name_length _ _ Hname) as Hnl.
  assert (Ht' : (t =? 1) || (t =? 28) = true) by (destruct Ht as [-> | ->]; done).
  unfold dns_step. rewrite (proj2 (Nat.leb_gt _ _)) by done. rewrite Hq.
  cbn [dns_buffer set_field eta_of eta_dns]. rewrite Hm.
  cbn [guard_mem fqdnTable set_field eta_of eta_dns]. rewrite Hp.
  unfold dns_cached. rewrite deref_ansAns. unfold register_nids.
  cbn [dns_ansAns set_field eta_of eta_dns]. rewrite Hg. cbn [guard_mem]. rewrite Ha, Hb.
  cbn [dns_bind dns_buffer dns_nm set_field eta_of eta_dns].
  erewrite reply_from_cache;
    [|exact Hname| |by destruct (inet_pton6_ok _ _ Ha)|exact Ht'].
  - cbn [guard_mem dns_bind]. rewrite Hok. cbn [dns_buffer set_field eta_of eta_dns].
    assert (Lm : length (zero_filled (encode_reply (take 2 buf) name t address)) = BUFFER_LENGTH)
      by (apply zero_filled_length, encode_reply_length; done).
    change (rr_data t (dns_nid32 nid) nid) with address.
    rewrite (take_ge (zero_filled _)) by (rewrite Lm; done).
    eexists _, _. split; [reflexivity|]. split; [done|]. split; [done|].
    subst name. destruct (reply_records (take 2 buf) ls t address
      (zero_filled (encode_reply (take 2 buf) (labels ls) t address))) as (R1 & R2 & R3);
      [by rewrite length_take, Hbuf|done|destruct Ht as [-> | ->]; done|done..|]. by split_and!.
  - rewrite Hbuf. unfold BUFFER_LENGTH. lia.
Qed.

Lemma cached_name_answered_witness :
  ∃ s' m, dns_step 1024 known_lookup poisoned_start = (s', Go (mkDnsOut None (1, m)))
    ∧ ∃ r1 r2, parse_question (drop 12 m) = Some ([1; 97], 1, 1, r1)
        ∧ parse_rr r1 = Some (mkRR [192; 12] 1 1 60 [1; 0; 0; 3], r2).
Proof.
  destruct (cached_name_answered 1024 known_lookup poisoned_start 1 (sample_query 1)
    (overlay (sample_query 16) (dns_buffer poisoned_start)) [1; 97] [[97]] 1 AnsAns
    (chars "3ffe:0000:0000:0000:0000:0000:0000:0003" ++ [0])
    (chars "3ffe:0000:0000:0000:0000:0000:0000:0004" ++ [0])
    (63 :: 254 :: replicate 13 0 ++ [3]) (63 :: 254 :: replicate 13 0 ++ [4]))
    as (s' & m & H & _ & _ & _ & _ & (r1 & r2 & k & Q & A & _) & _).
  - unfold poisoned_start. cbn [dns_fds]. lia.
  - reflexivity.
  - reflexivity.
  - reflexivity.
  - vm_compute. reflexivity.
  - reflexivity.
  - apply (bool_decide_unpack _). vm_compute. exact I.
  - by left.
  - vm_compute. reflexivity.
  - vm_compute. reflexivity.
  - vm_compute. reflexivity.
  - vm_compute. reflexivity.
  - exists s', m. split; [exact H|]. exists r1, r2. split; [exact Q|exact A].
Defined.

(** A chain of accesses fails when its continuation does. *)
Lemma bind_fails {A B} (m : option A) (f : A → option B) :
  (∀ a, m = Some a → f a = None) → m ≫= f = None.
Proof. destruct m; simpl; auto. Qed.

Lemma put_answer_length q t n nid buf buf' :
  put_answer q t n nid buf = Some buf' → length buf' = length buf.
Proof.
  unfold put_answer. intros H. case_match; [|by injection H as <-].
  apply bind_Some in H as (b1 & H1%put16_length & H).
  apply bind_Some in H as (b2 & H2%mem_put_length & H3%put16_length). congruence.
Qed.

(** The length field of the answer record is the last thing written. *)
Lemma put_answer_dlen q t n nid buf buf' :
  put_answer q t n nid buf = Some buf' → length nid = 16%nat → (t =? 1) || (t =? 28) = true →
  get16 (q + 10 + 4) buf' = Some (if t =? 1 then 4 else 16).
Proof.
  unfold put_answer. intros H Hn Ht. rewrite Ht in H.
  apply bind_Some in H as (b1 & _ & H). apply bind_Some in H as (b2 & _ & H).
  apply mem_put_Some in H as [Hl ->]. rewrite rr_data_length in * by done.
  rewrite length_le_bytes in Hl.
  rewrite get16_splice_eq; [by destruct (t =? 1)|by destruct (t =? 1)|done].
Qed.

(** The answer built from a response of the server clears 256 bytes
    behind the record whatever the room left in the 512-byte buffer: for a
    name of 212 bytes or more (A; 200 for AAAA) the write leaves the
    buffer. *)
Theorem long_name_overflows buf name n nid t flags :
  (length buf ≤ BUFFER_LENGTH)%nat → length nid = 16%nat → get_name buf = Some name →
  get16 (13 + length name) buf = Some 16 → get16 2 buf = Some flags → Z.land flags 15 = 0 →
  (t = 1 ∧ 212 ≤ Z.of_nat (length name) ∨ t = 28 ∧ 200 ≤ Z.of_nat (length name)) →
  build_dns_response buf n nid t = None.
Proof.
  intros Hl Hnid Hn Hq Hf Hz Ht. unfold build_dns_response. rewrite Hn. cbn [mbind option_bind].
  assert (Ht' : (t =? 1) || (t =? 28) = true) by (destruct Ht as [[-> _]|[-> _]]; done).
  change (1 + dnshdr_len + length name)%nat with (13 + length name)%nat. rewrite Hq.
  cbn [mbind option_bind]. rewrite Z.eqb_refl, Ht'. cbn [andb].
  do 7 (apply bind_fails; intros ? _). apply bind_fails; intros b1 Hb1.
  assert (Hf1 : get16 2 b1 = Some flags).
  { apply mem_put_Some in Hb1 as [Hb ->]. rewrite length_le_bytes in Hb.
    rewrite get16_splice_ne; [done|lia|by rewrite length_le_bytes]. }
  rewrite Hf1. cbn [mbind option_bind]. rewrite Hz. rewrite Z.eqb_refl. apply put16_length in Hb1.
  apply bind_fails; intros b2 Hb2. rewrite (put_answer_dlen _ _ _ _ _ _ Hb2 Hnid Ht').
  apply put_answer_length in Hb2. cbn [mbind option_bind].
  apply bind_fails; intros b3 Hb3%put16_length. apply bind_fails; intros b4 Hb4%put16_length.
  apply bind_fails; intros b5 Hb5%put16_length. apply bind_fails; intros b6 Hb6%mem_put_length.
  apply bind_fails; intros b7 Hb7%put16_length. apply bind_fails; intros b8 Hb8.
  apply mem_put_Some in Hb8 as [Hb8 _]. rewrite length_replicate in Hb8.
  unfold BUFFER_LENGTH, DNS_MAXNAMELENGTH in *. exfalso.
  destruct Ht as [[-> ?]|[-> ?]]; simpl in Hb8; lia.
Qed.

(** A response for a name of 250 bytes, as the server returns it. *)
Definition long_name : list Z := replicate 250 97.
Definition long_response : list Z :=
  [7; 7; 129; 128; 0; 1; 0; 1; 0; 0; 0; 0] ++ long_name ++ [0; 0; 16] ++ replicate 247 0.

Lemma long_name_overflows_witness :
  length long_response = 512%nat
  ∧ build_dns_response long_response 3 (replicate 16 0) 1 = None.
Proof.
  split; [reflexivity|].
  apply (long_name_overflows long_response long_name 3 (replicate 16 0) 1 33152).
  - apply Nat.leb_le. vm_compute. reflexivity.
  - reflexivity.
  - vm_compute. reflexivity.
  - vm_compute. reflexivity.
  - vm_compute. reflexivity.
  - reflexivity.
  - left. split; [reflexivity|]. vm_compute. discriminate.
Defined.
