(* ===== verification/StartProps.v ===== *)
(** Properties of start-up and of DHCP: how the configuration file is read,
    which threads a node runs, the use of [lib_db], the command buffer of
    [run_dhcpcd], and what the parameters of the DHCP client change. *)

From S2P Require Import Prelude NidTypes Inet HashTable Hash EntryTable Configuration QueueTable.
From S2P Require Import ConnectionMapper NidMapper RoutingTable Gwc Dhtc PacketHandler Mobility.
From S2P Require Import Dhcp Nidd MapperProps.

Local Open Scope Z_scope.

(** ** The configuration file *)

(** The nodes of a document in document order. *)
Fixpoint preorder (pt : xmlNode) : list xmlNode :=
  pt :: (fix chain (l : list xmlNode) : list xmlNode :=
           match l with [] => [] | pt :: next => preorder pt ++ chain next end) (xml_children pt).

Definition preorder_chain (l : list xmlNode) : list xmlNode := l ≫= preorder.

Lemma preorder_eq pt : preorder pt = pt :: preorder_chain (xml_children pt).
Proof.
  by destruct pt.
Qed.

(** Trees are induced on with their children. *)
Lemma xml_ind (P : xmlNode → Prop) :
  (∀ pt, Forall P (xml_children pt) → P pt) → ∀ pt, P pt.
Proof.
  intros H. fix IH 1. intros [e n t l]. apply H. cbn [xml_children].
  induction l as [|pt l IHl]; constructor; [apply IH|exact IHl].
Qed.

Section Config_file.
  Variable content : list xmlNode → option (list Z).

(** The blocks of [get_data] for a list of nodes, one after the other. *)
Definition get_data_nodes (l : list xmlNode) (m : config + conf_error) : config + conf_error :=
  foldl (λ m pt, conf_bind m (get_data_node content pt)) m l.

Lemma get_data_nodes_error l e : get_data_nodes l (inr e) = inr e.
Proof. induction l; [done|]. exact IHl. Qed.

Lemma get_data_nodes_app l l' m :
  get_data_nodes (l ++ l') m = get_data_nodes l' (get_data_nodes l m).
Proof. apply foldl_app. Qed.

Lemma get_data_tree_eq pt c :
  get_data_tree content pt c
  = conf_bind (get_data_node content pt c) (get_data content (xml_children pt)).
Proof.
  destruct pt as [e n t l]. cbn [get_data_tree xml_children].
  destruct (get_data_node content _ c) as [c'|]; [|done]. cbn [conf_bind].
  revert c'. induction l as [|pt l IH]; intros c'; [done|]. cbn [get_data].
  destruct (get_data_tree content pt c') as [c''|]; [|done]. cbn [conf_bind]. apply IH.
Qed.

Lemma get_data_chain l :
  Forall (λ pt, ∀ c, get_data_tree content pt c = get_data_nodes (preorder pt) (inl c)) l →
  ∀ c, get_data content l c = get_data_nodes (preorder_chain l) (inl c).
Proof.
  induction 1 as [|pt l Hpt Hl IH]; intros c; [done|]. cbn [get_data]. rewrite Hpt.
  unfold preorder_chain. cbn [mbind list_bind]. rewrite get_data_nodes_app.
  destruct (get_data_nodes (preorder pt) (inl c)) as [c'|e]; [apply IH|].
  by rewrite get_data_nodes_error.
Qed.

Lemma get_data_tree_preorder pt c :
  get_data_tree content pt c = get_data_nodes (preorder pt) (inl c).
Proof.
  revert c. induction pt as [pt IH] using xml_ind. intros c.
  rewrite get_data_tree_eq, preorder_eq. cbn [get_data_nodes foldl conf_bind].
  destruct (get_data_node content pt c) as [c'|e]; [by apply get_data_chain|].
  symmetry. apply get_data_nodes_error.
Qed.

End Config_file.

(** The elements only a core reads. *)
Definition core_elements : list (list Z) := chars <$> ["niddht"; "dhtIP"; "dhtPort"; "dht"]%string.

(** C13. The recursive walk of the file applies the blocks of [get_data] to
    the elements in document order, the first error ending it, whatever the
    nesting of the elements.  The order matters: an element of the DHT changes
    nothing unless an earlier [type] element has made the daemon a core. *)
Theorem config_in_document_order content root :
  read_config content (Some root)
  = Some (get_data_nodes content (preorder root) (inl config_init))
  ∧ ∀ pt c, xml_name pt ∈ core_elements → conf_type c ≠ 3 → get_data_node content pt c = inl c.
Proof.
  split.
  - unfold read_config. cbn [get_data]. rewrite get_data_tree_preorder.
    by destruct (get_data_nodes _ _ _).
  - intros pt c Hn Hc. unfold get_data_node. destruct (xml_element pt); [|done]. cbn [negb].
    unfold on_element. cbn [conf_bind].
    unfold core_elements in Hn. cbn [fmap list_fmap] in Hn. rewrite !elem_of_cons, elem_of_nil in Hn.
    assert (Ht : (conf_type c =? node_types_val CORE) = false) by (by apply Z.eqb_neq).
    destruct Hn as [->|[->|[->|[->|[]]]]];
      repeat (rewrite decide_False by (vm_compute; discriminate); cbn [conf_bind]);
      rewrite Ht; cbn [conf_bind];
      by repeat (rewrite decide_False by (vm_compute; discriminate); cbn [conf_bind]).
Qed.

(** A file that asks for the DHT before it says what the node is. *)
Definition first_text (l : list xmlNode) : option (list Z) :=
  match l with pt :: _ => Some (xml_text pt) | [] => None end.
Definition element (name text : string) : xmlNode :=
  mkXml true (chars name) [] [mkXml false (chars "text") (chars text) []].
Definition dht_first : xmlNode :=
  mkXml true (chars "configuration") [] [element "dht" "1"; element "type" "3"].

Lemma config_in_document_order_witness :
  get_data_node first_text (element "dht" "1") config_init = inl config_init
  ∧ read_config first_text (Some dht_first) = Some (inl (config_init <| conf_type := 3 |>)).
Proof.
  split.
  - apply (proj2 (config_in_document_order first_text dht_first)).
    + apply (bool_decide_unpack _). vm_compute. exact I.
    + discriminate.
  - rewrite (proj1 (config_in_document_order first_text dht_first)). vm_compute. reflexivity.
Defined.

(** ** Start-up *)

(** The libraries [main] opens for a type of node. *)
Definition libs_of (c : config) (t : node_types) : list string :=
  lib_of <$> first_threads t ++ node_threads c t.

(** The array [lib_db] is just large enough: no configuration opens more than
    twelve libraries, and a gateway with the DNS proxy opens twelve. *)
Lemma libs_fit c t : (length (first_threads t ++ node_threads c t) ≤ LIB_DB)%nat.
Proof.
  unfold node_threads, threads_NODE, threads_RVS, threads_GATEWAY, threads_CORE,
    dns_threads, dht_threads.
  destruct t, (get_dns c =? 0), (get_dht c =? 0); vm_compute; lia.
Qed.

(** The node types that run the DHCP client. *)
Definition uses_dhcp (c : config) (t : node_types) : bool :=
  negb (get_dhcp c =? 0) && match t with NODE | GATEWAY => true | RVS | CORE => false end.

(** The command alone has 36 bytes, [aux] has 32. *)
Lemma run_dhcpcd_overflows c s : get_dhcp c ≠ 0 → run_dhcpcd c s = Fault.
Proof.
  intros H. unfold run_dhcpcd, dhcp_command. rewrite (proj2 (Z.eqb_neq _ _)) by done.
  rewrite (proj2 (Nat.ltb_lt _ _)); [done|]. rewrite length_app. simpl. lia.
Qed.

(** What [main] starts when every library and thread can be loaded and created. *)
Lemma main_starts c t :
  node_type_of (getType c) = Some t →
  let r := nidd_main (λ _, true) (λ _, true) (λ _, true) c in
  (uses_dhcp c t = true → r = Fault)
  ∧ (uses_dhcp c t = false →
     ∃ sh su, r = Go (sh, su)
     ∧ su_threads su = first_threads t ++ node_threads c t
     ∧ su_libs su = libs_of c t
     ∧ (length (su_libs su) ≤ LIB_DB)%nat
     ∧ (catch_int su sh).1 = libs_of c t).
Proof.
  intros Ht r. subst r. unfold nidd_main. rewrite Ht. pose proof (libs_fit c t) as Hl.
  rewrite length_app in Hl.
  rewrite (start_all_go (first_threads t) (mkStartup [] [])) by (cbn [su_libs length]; lia).
  unfold uses_dhcp. split.
  - rewrite andb_true_iff, negb_true_iff, Z.eqb_neq. intros [Hd Hty].
    by destruct t; try discriminate Hty; rewrite run_dhcpcd_overflows.
  - intros Hd.
    assert (Hr : ∀ s, (match t with NODE | GATEWAY => run_dhcpcd c s | _ => Go s end) = Go s).
    { intros s. unfold run_dhcpcd. destruct (get_dhcp c =? 0), t; done. }
    rewrite Hr, start_all_go by (cbn [su_libs app]; rewrite length_fmap; lia).
    cbn [su_libs su_threads app]. do 2 eexists. split; [done|]. cbn [su_threads su_libs].
    rewrite <-fmap_app. fold (libs_of c t).
    assert (Hlen : (length (libs_of c t) ≤ LIB_DB)%nat)
      by (unfold libs_of; rewrite length_fmap, length_app; lia).
    split_and!; [done..|]. unfold catch_int. cbn [fst su_libs]. apply take_ge. exact Hlen.
Qed.

(** ** The parameters of the DHCP client *)

(** The configuration after the seven fields, in their order. *)
Definition apply_fields (f1 f2 f3 f4 f5 f6 f7 : list Z) (c : config) : config :=
  c <| conf_nidcore ::= pton6_into f1 |> <| conf_nidgw ::= pton6_into f2 |>
    <| conf_gatewayIP ::= pton4_into f3 |> <| conf_nidrvs ::= pton6_into f4 |>
    <| conf_rvsIP ::= pton4_into f5 |> <| conf_niddns ::= pton6_into f6 |>
    <| conf_ip ::= pton4_into f7 |>.

Lemma seven_fields f1 f2 f3 f4 f5 f6 f7 c :
  Forall field_ok [f1; f2; f3; f4; f5; f6; f7] →
  set_conf_dhcp_fields (dhcp_params [f1; f2; f3; f4; f5; f6; f7]) c
  = apply_fields f1 f2 f3 f4 f5 f6 f7 c.
Proof.
  intros H. repeat (apply Forall_cons in H as [? H]). unfold set_conf_dhcp_fields.
  by do 7 (rewrite dhcp_params_cons, strtok_field by done).
Qed.

(** The text survives its buffer. *)
Lemma dhcp_buffer p :
  (length p < dhcp_MAXBUFLEN)%nat → 0 ∉ p →
  let buf := overlay (take dhcp_MAXBUFLEN p) (replicate dhcp_MAXBUFLEN 0) in
  strdup buf = Some p ∧ cstr buf = p.
Proof.
  intros Hl Hn buf. subst buf. rewrite take_ge by lia.
  assert (Hb : overlay p (replicate dhcp_MAXBUFLEN 0)
               = p ++ 0 :: replicate (dhcp_MAXBUFLEN - length p - 1) 0).
  { unfold overlay. rewrite drop_replicate.
    replace (dhcp_MAXBUFLEN - length p)%nat with (S (dhcp_MAXBUFLEN - length p - 1)) by lia.
    simpl. do 3 f_equal. lia. }
  rewrite Hb. unfold strdup. rewrite cstr_app_nul by done. split; [|done].
  rewrite (proj2 (Nat.ltb_lt _ _)); [done|]. rewrite length_app. simpl. lia.
Qed.

(** What [set_conf_dhcp] does with the new values. *)
Lemma set_conf_dhcp_effect str s c' :
  set_conf_dhcp_fields str (dh_conf s) = c' → nm_ok (dh_nm s) →
  let s' := set_conf_dhcp str s in
  dh_conf s' = c' <| conf_server_address := update_dns_server_address (conf_niddns c') |>
  ∧ dh_nidcore s' = conf_nidcore c'
  ∧ getNMEntry (conf_niddns c') (dh_nm s') = Some (mkNME [] (conf_nidcore c'))
  ∧ getNMEntry32 (nid2nid32 (conf_niddns c')) (dh_nm s')
    = Some (mkNME32 [] (conf_niddns c') (conf_nidcore c')).
Proof.
  intros E Hn s'. subst s'. unfold set_conf_dhcp. rewrite E. clear E.
  set (c2 := c' <| conf_server_address := update_dns_server_address (conf_niddns c') |>).
  assert (H1 : getNIDdns c2 = conf_niddns c') by by destruct c'.
  assert (H2 : getNIDcore c2 = conf_nidcore c') by by destruct c'.
  destruct (updateNM_get c2 (dh_nm s) Hn) as (_ & Hg & Hg32). clearbody c2.
  cbn [dh_conf dh_nm dh_nidcore]. rewrite <-H1, <-H2, Hg, Hg32, !decide_True by done.
  split_and!; done.
Qed.

(** The thread applies the text to the configuration with the new mobility
    type. *)
Lemma dhcp_step_text f1 f2 fs s :
  Forall field_ok (f1 :: f2 :: fs) → (length (dhcp_params (f1 :: f2 :: fs)) < dhcp_MAXBUFLEN)%nat →
  dhcp_step (Some (dhcp_params (f1 :: f2 :: fs))) s
  = Go (set_conf_dhcp (dhcp_params (f1 :: f2 :: fs))
          (mkDhcp (dh_conf s <| conf_mobility :=
             if decide (f2 = inet_ntop6 (conf_nidgw (dh_conf s))) then 0 else 1 |>)
             (dh_nm s) (dh_nidcore s))).
Proof.
  intros Hf Hl. destruct (dhcp_buffer _ Hl (dhcp_params_no_nul _ Hf)) as [Hd Hc].
  unfold dhcp_step. rewrite Hd, Hc. apply Forall_cons in Hf as [H1 Hf].
  apply Forall_cons in Hf as [H2 Hf].
  rewrite (dhcp_params_cons f1), strtok_field by done.
  rewrite (dhcp_params_cons f2), strtok_field by done.
  unfold set_mobility, getNIDgw. destruct (decide _); reflexivity.
Qed.

(** The response of the DHCP client, seven fields each followed by the
    separator, sets the core, gateway, rendezvous and DNS identifiers and the
    addresses in that order, an invalid field leaving its value; the node
    considers that it stayed in its domain exactly when the second field is
    the printed form of the gateway it had; and the new values reach the DNS
    address, the packet handler and the mapper. *)
Theorem dhcp_parameters_applied f1 f2 f3 f4 f5 f6 f7 s :
  Forall field_ok [f1; f2; f3; f4; f5; f6; f7] →
  (length (dhcp_params [f1; f2; f3; f4; f5; f6; f7]) < dhcp_MAXBUFLEN)%nat →
  nm_ok (dh_nm s) →
  let c' := apply_fields f1 f2 f3 f4 f5 f6 f7
              (dh_conf s <| conf_mobility :=
                 if decide (f2 = inet_ntop6 (conf_nidgw (dh_conf s))) then 0 else 1 |>) in
  ∃ s', dhcp_step (Some (dhcp_params [f1; f2; f3; f4; f5; f6; f7])) s = Go s'
  ∧ dh_conf s' = c' <| conf_server_address := update_dns_server_address (conf_niddns c') |>
  ∧ dh_nidcore s' = conf_nidcore c'
  ∧ getNMEntry (conf_niddns c') (dh_nm s') = Some (mkNME [] (conf_nidcore c'))
  ∧ getNMEntry32 (nid2nid32 (conf_niddns c')) (dh_nm s')
    = Some (mkNME32 [] (conf_niddns c') (conf_nidcore c')).
Proof.
  intros Hf Hl Hn c'. rewrite dhcp_step_text by done. eexists. split; [reflexivity|].
  apply set_conf_dhcp_effect; [|done]. by apply seven_fields.
Qed.

(** A client that stays behind the gateway it has. *)
Definition sample_fields : list (list Z) :=
  chars <$> ["3ffe::7"; "3ffe::4"; "10.0.0.9"; "3ffe::8"; "10.0.0.2"; "3ffe::9";
             "10.0.0.77"]%string.

Lemma dhcp_parameters_applied_witness :
  ∃ s', dhcp_step (Some (dhcp_params sample_fields))
          (mkDhcp sample_config (init_nid_mapper sample_config) nid_zero) = Go s'
  ∧ conf_mobility (dh_conf s') = 0 ∧ conf_gatewayIP (dh_conf s') = 0x0900000a.
Proof.
  destruct (dhcp_parameters_applied (chars "3ffe::7") (chars "3ffe::4") (chars "10.0.0.9")
    (chars "3ffe::8") (chars "10.0.0.2") (chars "3ffe::9") (chars "10.0.0.77")
    (mkDhcp sample_config (init_nid_mapper sample_config) nid_zero)) as (s' & E & H & _).
  - apply (bool_decide_unpack _). vm_compute. exact I.
  - vm_compute. lia.
  - apply init_nid_mapper_ok.
  - exists s'. split; [exact E|]. rewrite H. split; vm_compute; reflexivity.
Defined.
