(* ===== verification/SystemProps.v ===== *)
(** Properties of the daemon as a whole: what holds under every interleaving
    of its threads, which threads can leave the bounds of their objects, the
    way of a packet from one node to another, and start-up. *)

From S2P Require Import Prelude NidTypes Inet HashTable Hash LList EntryTable Configuration.
From S2P Require Import QueueTable ConnectionMapper NidMapper RoutingTable Gwc Dhtc PacketHandler.
From S2P Require Import NidRouting Control Rvsc Mobility DnsHandler Dhcp Nidd NidFilter System.
From S2P Require Import SystemInv MapperProps PacketProps RvsProps.

Local Open Scope Z_scope.

(** ** Turns of the packet path *)

Lemma node_step_go nofile ev n n' out :
  thread_of ev ∈ n_threads n → take_turn nofile ev n = Some (n', Go out) →
  node_step nofile ev n = Some (Running n', out).
Proof. intros Ht E. unfold node_step. rewrite decide_True by done. by rewrite E. Qed.

Lemma node_step_down nofile ev n n' r :
  thread_of ev ∈ n_threads n → take_turn nofile ev n = Some (n', r) →
  r = ProcessExit ∨ r = Fault → node_step nofile ev n = Some (Down, []).
Proof.
  intros Ht E Hr. unfold node_step. rewrite decide_True by done. rewrite E.
  by destruct Hr as [-> | ->].
Qed.

Lemma run_cons nofile ev evs n n1 out n2 out2 :
  node_step nofile ev n = Some (Running n1, out) → run nofile evs n1 = Some (n2, out2) →
  run nofile (ev :: evs) n = Some (n2, out ++ out2).
Proof. intros E1 E2. cbn [run]. by rewrite E1, E2. Qed.

Lemma run_app nofile evs evs' n n1 out n2 out2 :
  run nofile evs n = Some (n1, out) → run nofile evs' n1 = Some (n2, out2) →
  run nofile (evs ++ evs') n = Some (n2, out ++ out2).
Proof.
  revert n out. induction evs as [|ev evs IH]; intros n out E1 E2.
  { cbn [run] in E1. by injection E1 as -> <-. }
  cbn [run app] in *. destruct (node_step nofile ev n) as [[[m|] o]|]; try done.
  destruct (run nofile evs m) as [[m' o']|] eqn:E; cbn [mbind option_bind] in *; [|done].
  injection E1 as -> <-. rewrite (IH m o') by done. cbn [mbind option_bind]. by rewrite app_assoc.
Qed.

(** The packet a sender's handler builds for [d], once the mapper has [e] for
    its address. *)
Definition data_packet (n : node) (e : NMEntry32) (d : list Z) : list Z :=
  header_bytes (mkHeader 0 (nh_srcNID (header_of (l_ph_output (n_loc n)))) (nme32_nid e)
                  (n_nidcore n) (nme32_nidgw e)) ++ d.

Lemma turn_ph_output_data n d nf e :
  node_ok n → (20 ≤ length d ≤ ph_size)%nat → c_nf2ph (n_ch n) = d :: nf →
  getNMEntry32 (ip_daddr d) (sh_nm (n_sh n)) = Some e →
  ∃ n', turn_ph_output n = Some (n', Go []) ∧ n_threads n' = n_threads n
  ∧ n_sh n' = n_sh n ∧ c_ph2nr (n_ch n') = c_ph2nr (n_ch n) ++ [data_packet n e d].
Proof.
  intros H Hl Hc He. pose proof (ok_ph_output _ (node_locals n H)) as Hb.
  pose proof (data_sent d (n_nidcore n) _ _ e Hb Hl (node_nidcore n H) (node_nids n H) He) as Hs.
  unfold turn_ph_output. rewrite Hc. cbn [ph_select mbind option_bind].
  destruct (ph_output_step FromNf d _ _ _) as [buf out]. cbn [snd] in Hs. subst out.
  eexists. split; [done|]. done.
Qed.

Lemma turn_nr_output_known n d ck ce :
  c_ph2nr (n_ch n) = [d] → (nh_len ≤ length d ≤ MAXBUFLEN)%nat →
  cm_get (env_cm (sh_cm (n_sh n))) (hdr_destNID d) = Some ce →
  ce_tstamp ce = 0 ∨ ck_proactive ck < ce_tstamp ce + 4 →
  ∃ n', turn_nr_output ck n = Some (n', Go [Udp (ce_ip ce) d]) ∧ n_threads n' = n_threads n.
Proof.
  intros Hc [L M] Hg Ht. unfold turn_nr_output. rewrite Hc. cbn [chan_read mbind option_bind].
  unfold nr_output_step. rewrite !(take_ge d) by lia.
  pose proof (header_overlay d (l_nr_output (n_loc n)) L M) as Hh. rewrite take_ge in Hh by lia.
  unfold hdr_destNID at 1. rewrite Hh. fold (hdr_destNID d).
  rewrite (getCMEntry_known _ _ _ ce) by done.
  rewrite take_overlay. by eexists.
Qed.

(** A packet for this node. *)
Lemma turn_nr_input_us n from d now :
  (nh_len ≤ length d ≤ MAXBUFLEN)%nat → hdr_destNID d = getNID (sh_conf (n_sh n)) →
  c_nr2ph (n_ch n) = [] →
  ∃ n', turn_nr_input (Received from d) now n = Some (n', Go []) ∧ n_threads n' = n_threads n
  ∧ c_nr2ph (n_ch n') = [d]
  ∧ nri_buf (l_nr_input (n_loc n')) = overlay d (nri_buf (l_nr_input (n_loc n)))
  ∧ l_ph_input (n_loc n') = l_ph_input (n_loc n)
  ∧ sh_conf (n_sh n') = sh_conf (n_sh n) ∧ sh_nm (n_sh n') = sh_nm (n_sh n)
  ∧ env_cm (sh_cm (n_sh n'))
    = newCMEntry (nh_srcNID (header_of d)) from now (env_cm (sh_cm (n_sh n))).
Proof.
  intros [L M] Hd Hc. unfold turn_nr_input, nr_input_step, recvfrom. cbn [nri_buf nri_addr].
  rewrite !(take_ge d) by lia.
  pose proof (header_overlay d (nri_buf (l_nr_input (n_loc n))) L M) as Hh.
  rewrite take_ge in Hh by lia. rewrite Hh.
  change (nh_destNID (header_of d)) with (hdr_destNID d). rewrite decide_True by done.
  eexists. split; [done|]. split_and!; try done. cbn [n_ch c_nr2ph set_field eta_of eta_node eta_channels].
  unfold chan_write_len. rewrite (proj2 (Z.ltb_ge _ _)) by lia.
  by rewrite Nat2Z.id, take_overlay, Hc.
Qed.

Lemma turn_ph_input_data n h d :
  header_ok h → nh_type h = 0 → (10 ≤ length d ≤ ph_size)%nat → ip_protocol d ∈ [6; 17; 1] →
  c_nr2ph (n_ch n) = [header_bytes h ++ d] →
  ∃ n', turn_ph_input true n = Some (n', Go [RawIp (ip_protocol d) d])
  ∧ n_threads n' = n_threads n ∧ c_nr2ph (n_ch n') = []
  ∧ l_ph_input (n_loc n') = overlay (header_bytes h ++ d) (l_ph_input (n_loc n))
  ∧ l_nr_input (n_loc n') = l_nr_input (n_loc n)
  ∧ sh_conf (n_sh n') = sh_conf (n_sh n)
  ∧ env_cm (sh_cm (n_sh n')) = env_cm (sh_cm (n_sh n))
  ∧ sh_nm (n_sh n') = newNMEntry (nh_srcNID h) (nh_srcNIDgw h) (sh_nm (n_sh n)).
Proof.
  intros Hh Ht [L M] Hp Hc. unfold turn_ph_input. rewrite Hc. cbn [chan_read mbind option_bind].
  pose proof (length_header_bytes h Hh) as Hl.
  assert (Hk : take MAXBUFLEN (header_bytes h ++ d) = header_bytes h ++ d).
  { apply take_ge. rewrite length_app, Hl. unfold ph_size in M. unfold MAXBUFLEN, nh_len in *. lia. }
  rewrite Hk. destruct (ph_input_reads h d (l_ph_input (n_loc n)) Hh M) as (E1 & E2 & E3).
  unfold ph_input_step. rewrite E3, E1, Ht.
  destruct (ph_deliver_data (λ _, true) d _ L E2) as [-> _]; [|done..].
  rewrite Hk. eexists. split; [done|]. by split_and!.
Qed.

(** A complete DATA packet [d'] for this node, from the socket to the raw
    socket. *)
Lemma receive_data nofile n h d from now :
  node_ok n → thread_nr_input ∈ n_threads n → thread_ph_input ∈ n_threads n →
  c_nr2ph (n_ch n) = [] →
  header_ok h → nh_type h = 0 → nh_destNID h = getNID (sh_conf (n_sh n)) →
  (10 ≤ length d ≤ ph_size)%nat → ip_protocol d ∈ [6; 17; 1] →
  ∃ n', run nofile [EvNrInput (Received from (header_bytes h ++ d)) now; EvPhInput true] n
        = Some (n', [RawIp (ip_protocol d) d])
  ∧ n_threads n' = n_threads n ∧ c_nr2ph (n_ch n') = []
  ∧ nri_buf (l_nr_input (n_loc n')) = overlay (header_bytes h ++ d) (nri_buf (l_nr_input (n_loc n)))
  ∧ l_ph_input (n_loc n') = overlay (header_bytes h ++ d) (l_ph_input (n_loc n))
  ∧ sh_conf (n_sh n') = sh_conf (n_sh n)
  ∧ env_cm (sh_cm (n_sh n')) = newCMEntry (nh_srcNID h) from now (env_cm (sh_cm (n_sh n)))
  ∧ sh_nm (n_sh n') = newNMEntry (nh_srcNID h) (nh_srcNIDgw h) (sh_nm (n_sh n)).
Proof.
  intros H Hti Htp Hc Hh Ht Hd [L M] Hp. pose proof (length_header_bytes h Hh) as Hl.
  assert (Hlen : (nh_len ≤ length (header_bytes h ++ d) ≤ MAXBUFLEN)%nat).
  { rewrite length_app, Hl. unfold ph_size in M. unfold MAXBUFLEN, nh_len in *. lia. }
  assert (Hhd : header_of (header_bytes h ++ d) = h) by by apply header_of_bytes.
  destruct (turn_nr_input_us n from (header_bytes h ++ d) now Hlen) as
    (n1 & E1 & T1 & C1 & B1 & P1 & F1 & N1 & M1); [unfold hdr_destNID; by rewrite Hhd|done|].
  destruct (turn_ph_input_data n1 h d Hh Ht (conj L M) Hp C1) as
    (n2 & E2 & T2 & C2 & P2 & B2 & F2 & M2 & N2).
  exists n2. rewrite Hhd in M1. split_and!; [|congruence..].
  change ([RawIp (ip_protocol d) d]) with ([] ++ [RawIp (ip_protocol d) d] ++ []).
  eapply run_cons; [apply node_step_go; [done|exact E1]|].
  eapply run_cons; [apply node_step_go; [by rewrite T1|exact E2]|done].
Qed.

(** C2. End to end: an IP packet captured on one node, for an address its
    mapper knows and with a current binding of the NID behind it, is sent in
    one datagram to that binding's address; the node of that NID gives exactly
    that packet to the raw socket of its protocol, and has learned on the way
    where the sender is (address, core gateway, 32-bit identifier), so that it
    can answer. *)
Theorem data_delivery nofile n1 n2 d nf e ce ck from now :
  node_ok n1 → node_ok n2 → bytes_ok d →
  thread_ph_output ∈ n_threads n1 → thread_nr_output ∈ n_threads n1 →
  thread_nr_input ∈ n_threads n2 → thread_ph_input ∈ n_threads n2 →
  c_nf2ph (n_ch n1) = d :: nf → c_ph2nr (n_ch n1) = [] → c_nr2ph (n_ch n2) = [] →
  (20 ≤ length d ≤ ph_size)%nat → ip_protocol d ∈ [6; 17; 1] →
  getNMEntry32 (ip_daddr d) (sh_nm (n_sh n1)) = Some e →
  cm_get (env_cm (sh_cm (n_sh n1))) (nme32_nid e) = Some ce →
  ce_tstamp ce = 0 ∨ ck_proactive ck < ce_tstamp ce + 4 →
  nme32_nid e = getNID (sh_conf (n_sh n2)) →
  let src := nh_srcNID (header_of (l_ph_output (n_loc n1))) in
  (∃ n1', run nofile [EvPhOutput; EvNrOutput ck] n1
          = Some (n1', [Udp (ce_ip ce) (data_packet n1 e d)]))
  ∧ ∃ n2', run nofile [EvNrInput (Received from (data_packet n1 e d)) now; EvPhInput true] n2
           = Some (n2', [RawIp (ip_protocol d) d])
    ∧ cm_get (env_cm (sh_cm (n_sh n2'))) src
      = Some (refreshed from now (cm_get (env_cm (sh_cm (n_sh n2))) src))
    ∧ getNMEntry32 (nid2nid32 src) (sh_nm (n_sh n2')) = Some (mkNME32 [] src (n_nidcore n1)).
Proof.
  intros H1 H2 Hb Hpo Hno Hni Hpi Hc1 Hc1' Hc2 Hl Hp He Hce Hts Hid src.
  pose proof (node_nids n1 H1) as [Hn]. destruct (Hn _ _ He) as [He1 He2].
  destruct (buf_header_ok _ (ok_ph_output _ (node_locals n1 H1))) as (_ & Hsrc & _).
  set (h := mkHeader 0 src (nme32_nid e) (n_nidcore n1) (nme32_nidgw e)).
  assert (Hh : header_ok h) by (split_and!; try done; apply H1).
  assert (Hlen : (nh_len ≤ length (header_bytes h ++ d) ≤ MAXBUFLEN)%nat).
  { pose proof (length_header_bytes h Hh). rewrite length_app. unfold ph_size in Hl.
    unfold MAXBUFLEN, nh_len in *. lia. }
  split.
  - destruct (turn_ph_output_data n1 d nf e H1 Hl Hc1 He) as (n & E & T & S & C).
    rewrite Hc1' in C. fold src in C.
    destruct (turn_nr_output_known n (data_packet n1 e d) ck ce C) as (n' & E' & _); [done| |done|].
    { rewrite S. unfold hdr_destNID, data_packet. fold src h. by rewrite header_of_bytes. }
    exists n'. change ([Udp ?a ?b]) with ([] ++ [Udp a b] ++ []).
    eapply run_cons; [apply node_step_go; [done|exact E]|].
    eapply run_cons; [apply node_step_go; [by rewrite T|exact E']|done].
  - destruct (receive_data nofile n2 h d from now H2 Hni Hpi Hc2 Hh) as
      (n' & E & _ & _ & _ & _ & _ & M & N); [done|done|lia|done|].
    exists n'. split; [exact E|]. rewrite M, N. split.
    + rewrite cm_get_newCMEntry by apply H2. by rewrite decide_True.
    + destruct (newNMEntry_get src (n_nidcore n1) (sh_nm (n_sh n2))) as (_ & _ & ->); [apply H2|].
      by rewrite decide_True.
Qed.

(** Nodes for the witnesses: the daemon as [nidd_main] leaves it. *)
Definition all_ok : thread → bool := λ _, true.

Definition sample_start (c : config) : outcome (shared * startup) :=
  nidd_main all_ok all_ok all_ok c.

Definition sample_node (c : config) : node :=
  match sample_start c with
  | Go (sh, su) => start_node c 0x0900000a 3 sh su
  | _ => start_node c 0x0900000a 3 (init_tables c) (mkStartup [] [])
  end.

Lemma sample_node_eq c r :
  sample_start c = Go r → sample_node c = start_node c 0x0900000a 3 r.1 r.2.
Proof. unfold sample_node. intros ->. by destruct r. Qed.

Lemma sample_node_ok c r : conf_ok c → sample_start c = Go r → node_ok (sample_node c).
Proof.
  intros Hc E. rewrite (sample_node_eq c r E). destruct r as [sh su].
  by eapply start_node_ok.
Qed.

(** A bool test for [Go]. *)
Definition is_go {A} (o : outcome A) : bool := match o with Go _ => true | _ => false end.
Lemma is_go_spec {A} (o : outcome A) : is_go o = true → ∃ a, o = Go a.
Proof. destruct o; try done. by eexists. Qed.

Definition sender_conf : config := sample_config <| conf_nidgw := sample_nid 3 |>.
Definition receiver_conf : config := sample_config <| conf_nid := sample_nid 3 |>.

Lemma sender_conf_ok : conf_ok sender_conf.
Proof. split; apply (bool_decide_unpack _); vm_compute; exact I. Qed.

Lemma receiver_conf_ok : conf_ok receiver_conf.
Proof. split; apply (bool_decide_unpack _); vm_compute; exact I. Qed.

Lemma sender_ok : node_ok (sample_node sender_conf).
Proof.
  destruct (is_go_spec (sample_start sender_conf)) as [r E]; [vm_compute; reflexivity|].
  eapply sample_node_ok; [apply sender_conf_ok|exact E].
Qed.

Lemma receiver_ok : node_ok (sample_node receiver_conf).
Proof.
  destruct (is_go_spec (sample_start receiver_conf)) as [r E]; [vm_compute; reflexivity|].
  eapply sample_node_ok; [apply receiver_conf_ok|exact E].
Qed.

(** The sender once its filter has captured [sample_ip 6]. *)
Definition capturing : node :=
  sample_node sender_conf <| n_ch ::= (λ ch, ch <| c_nf2ph := [sample_ip 6] |>) |>.

Lemma capturing_ok : node_ok capturing.
Proof.
  apply (take_turn_ok 1024 (EvNidfilter (IpqPacket (sample_ip 6))) (sample_node sender_conf)
    capturing (Go [])).
  - apply sender_ok.
  - apply sample_ip_ok.
  - vm_compute. reflexivity.
Qed.

Lemma data_delivery_witness :
  ∃ n2', run 1024 [EvNrInput (Received 0x0900000a
                     (data_packet capturing (mkNME32 [] (sample_nid 3) (sample_nid 4))
                        (sample_ip 6))) 100; EvPhInput true] (sample_node receiver_conf)
         = Some (n2', [RawIp 6 (sample_ip 6)]).
Proof.
  destruct (data_delivery 1024 capturing (sample_node receiver_conf) (sample_ip 6) []
    (mkNME32 [] (sample_nid 3) (sample_nid 4)) (mkConn 0x0100000a 0) (sample_clock 90)
    0x0900000a 100) as [_ (n2' & E & _)].
  - apply capturing_ok.
  - apply receiver_ok.
  - apply sample_ip_ok.
  - apply (bool_decide_unpack _). vm_compute. exact I.
  - apply (bool_decide_unpack _). vm_compute. exact I.
  - apply (bool_decide_unpack _). vm_compute. exact I.
  - apply (bool_decide_unpack _). vm_compute. exact I.
  - vm_compute. reflexivity.
  - vm_compute. reflexivity.
  - vm_compute. reflexivity.
  - vm_compute. lia.
  - apply (bool_decide_unpack _). vm_compute. exact I.
  - vm_compute. reflexivity.
  - vm_compute. reflexivity.
  - by left.
  - vm_compute. reflexivity.
  - exists n2'. exact E.
Defined.

(** ** A datagram without a header *)

Lemma header_of_packet h d r : header_ok h → header_of ((header_bytes h ++ d) ++ r) = h.
Proof. intros H. rewrite <-app_assoc. by apply header_of_bytes. Qed.

(** An empty datagram passes the destination test on the header the buffer
    still holds. *)
Lemma turn_nr_input_empty n h d r from now :
  nri_buf (l_nr_input (n_loc n)) = (header_bytes h ++ d) ++ r →
  header_ok h → nh_destNID h = getNID (sh_conf (n_sh n)) → c_nr2ph (n_ch n) = [] →
  ∃ n', turn_nr_input (Received from []) now n = Some (n', Go []) ∧ n_threads n' = n_threads n
  ∧ c_nr2ph (n_ch n') = [[]] ∧ l_ph_input (n_loc n') = l_ph_input (n_loc n)
  ∧ env_cm (sh_cm (n_sh n')) = newCMEntry (nh_srcNID h) from now (env_cm (sh_cm (n_sh n))).
Proof.
  intros Hb Hh Hd Hc. unfold turn_nr_input, nr_input_step, recvfrom. rewrite take_nil.
  unfold overlay. cbn [nri_buf nri_addr app length drop]. rewrite drop_0, Hb, header_of_packet by done.
  rewrite decide_True by done. eexists. split; [done|]. split_and!; try done.
  cbn [n_ch c_nr2ph set_field eta_of eta_node eta_channels]. by rewrite Hc.
Qed.

(** The packet handler takes the negative length left for the payload to the
    raw socket, which refuses it. *)
Lemma turn_ph_input_empty b n h d r :
  header_ok h → nh_type h = 0 → (10 ≤ length d)%nat → ip_protocol d ∈ [6; 17; 1] →
  c_nr2ph (n_ch n) = [[]] → l_ph_input (n_loc n) = (header_bytes h ++ d) ++ r →
  ∃ n', turn_ph_input b n = Some (n', ProcessExit).
Proof.
  intros Hh Ht L Hp Hc Hb. unfold turn_ph_input. rewrite Hc. cbn [chan_read mbind option_bind].
  rewrite take_nil. unfold ph_input_step. rewrite take_nil. unfold overlay. cbn [app length].
  rewrite drop_0.
  rewrite Hb, header_of_packet, Ht by done.
  assert (Hpt : ip_protocol (payload ((header_bytes h ++ d) ++ r)) = ip_protocol d).
  { unfold ip_protocol, payload. rewrite <-app_assoc, drop_app_length' by by rewrite length_header_bytes.
    by rewrite lookup_app_l by lia. }
  unfold ph_deliver. cbn [msg_type_of]. rewrite Hpt. unfold raw_sendto.
  change (Z.of_nat 0 - Z.of_nat nh_len <? 0) with true. cbn iota.
  rewrite !elem_of_cons, elem_of_nil in Hp.
  destruct Hp as [->|[->|[->|[]]]]; by eexists.
Qed.

(** C36. Neither input thread looks at the number of bytes received.  Once a
    node has delivered one DATA packet, an empty datagram from anywhere is
    taken for another packet of the same peer: it moves the peer's binding to
    the address it came from, and the packet handler then passes a negative
    length to the raw socket, fails and ends the whole daemon. *)
Theorem empty_datagram_kills nofile n h d from now attacker now' b :
  node_ok n → thread_nr_input ∈ n_threads n → thread_ph_input ∈ n_threads n →
  c_nr2ph (n_ch n) = [] →
  header_ok h → nh_type h = 0 → nh_destNID h = getNID (sh_conf (n_sh n)) →
  (10 ≤ length d ≤ ph_size)%nat → ip_protocol d ∈ [6; 17; 1] →
  let cm1 := newCMEntry (nh_srcNID h) from now (env_cm (sh_cm (n_sh n))) in
  ∃ n', run nofile [EvNrInput (Received from (header_bytes h ++ d)) now; EvPhInput true;
                    EvNrInput (Received attacker []) now'] n
        = Some (n', [RawIp (ip_protocol d) d])
  ∧ cm_get (env_cm (sh_cm (n_sh n'))) (nh_srcNID h)
    = Some (refreshed attacker now' (cm_get cm1 (nh_srcNID h)))
  ∧ node_step nofile (EvPhInput b) n' = Some (Down, []).
Proof.
  intros H Hti Htp Hc Hh Ht Hd [L M] Hp cm1.
  destruct (receive_data nofile n h d from now H Hti Htp Hc Hh Ht Hd (conj L M) Hp) as
    (n1 & E1 & T1 & C1 & B1 & P1 & F1 & M1 & _).
  unfold overlay in B1, P1.
  destruct (turn_nr_input_empty n1 h d _ attacker now' B1 Hh) as (n2 & E2 & T2 & C2 & P2 & M2);
    [by rewrite F1|done|].
  rewrite P1 in P2.
  destruct (turn_ph_input_empty b n2 h d _ Hh Ht L Hp C2 P2) as (n3 & E3).
  exists n2. split_and!.
  - change ([EvNrInput (Received from (header_bytes h ++ d)) now; EvPhInput true;
                EvNrInput (Received attacker []) now'])
      with ([EvNrInput (Received from (header_bytes h ++ d)) now; EvPhInput true]
              ++ [EvNrInput (Received attacker []) now']).
    rewrite <-(app_nil_r [RawIp _ _]). eapply run_app; [exact E1|].
    eapply (run_cons _ _ [] _ n2 [] _ []); [apply node_step_go; [by rewrite T1|exact E2]|done].
  - rewrite M2, M1. rewrite cm_get_newCMEntry by (apply newCMEntry_ok, H). by rewrite decide_True.
  - eapply node_step_down; [by rewrite T2, T1|exact E3|by left].
Qed.

Lemma empty_datagram_kills_witness :
  let h := mkHeader 0 (sample_nid 1) (sample_nid 3) (sample_nid 7) (sample_nid 4) in
  ∃ n', run 1024 [EvNrInput (Received 0x0900000a (header_bytes h ++ sample_ip 6)) 100;
                  EvPhInput true; EvNrInput (Received 666 []) 101] (sample_node receiver_conf)
        = Some (n', [RawIp 6 (sample_ip 6)])
  ∧ node_step 1024 (EvPhInput true) n' = Some (Down, []).
Proof.
  intros h.
  destruct (empty_datagram_kills 1024 (sample_node receiver_conf) h (sample_ip 6) 0x0900000a 100
    666 101 true) as (n' & E & _ & D).
  - apply receiver_ok.
  - apply (bool_decide_unpack _). vm_compute. exact I.
  - apply (bool_decide_unpack _). vm_compute. exact I.
  - vm_compute. reflexivity.
  - apply (bool_decide_unpack _). vm_compute. exact I.
  - reflexivity.
  - vm_compute. reflexivity.
  - vm_compute. lia.
  - apply (bool_decide_unpack _). vm_compute. exact I.
  - exists n'. split; [exact E|exact D].
Defined.

(** ** Every interleaving *)

(** C1. The invariant of the daemon: from the state [main] leaves, whatever
    the order in which the threads take their turns, whatever the network,
    the user's packets, the name server and the DHCP client send, every state
    the daemon reaches has well-formed hash tables, 16-byte identifiers and
    32-bit addresses in every table and variable, and buffers and messages of
    their declared sizes. *)
Theorem daemon_invariant nofile lib_ok sym_ok create_ok c locator fds sh su s :
  conf_ok c → nidd_main lib_ok sym_ok create_ok c = Go (sh, su) →
  reachable_ok nofile (Running (start_node c locator fds sh su)) s → system_ok s.
Proof.
  intros Hc Hm Hr. apply (reachable_system_ok _ _ _ Hr). by eapply start_node_ok.
Qed.

Lemma daemon_invariant_witness :
  node_ok (sample_node sender_conf <| n_ch ::= (λ ch, ch <| c_nf2ph := [sample_ip 6] |>) |>).
Proof.
  destruct (is_go_spec (sample_start sender_conf)) as [[sh su] E]; [vm_compute; reflexivity|].
  apply (daemon_invariant 1024 all_ok all_ok all_ok sender_conf 0x0900000a 3 sh su
    (Running (sample_node sender_conf <| n_ch ::= (λ ch, ch <| c_nf2ph := [sample_ip 6] |>) |>))).
  - exact sender_conf_ok.
  - exact E.
  - apply (reach_ok_step _ _ _ _ (EvNidfilter (IpqPacket (sample_ip 6))) [] (reach_ok_refl _ _)
      sample_ip_ok).
    apply step_turn.
    pose proof (sample_node_eq sender_conf (sh, su) E) as Hn. cbn [fst snd] in Hn. rewrite <-Hn.
    vm_compute. reflexivity.
Defined.

(** A turn whose results are all [Go]. *)
Ltac split_turn E :=
  repeat first
    [ apply bind_Some in E as (? & ? & E)
    | match type of E with
      | context [match ?x with _ => _ end] => destruct x
      | (let '_ := ?x in _) = _ => destruct x
      end ].

Lemma ph_deliver_no_fault accepts t pt len : ph_deliver accepts t pt len ≠ Fault.
Proof. unfold ph_deliver. by repeat case_match. Qed.

Lemma turn_ph_input_no_fault b n n' : turn_ph_input b n ≠ Some (n', Fault).
Proof.
  intros E. unfold turn_ph_input in E. apply bind_Some in E as ([d c] & _ & E).
  unfold ph_input_step in E.
  match type of E with context [ph_deliver ?a ?t ?p ?l] =>
    pose proof (ph_deliver_no_fault a t p l); destruct (ph_deliver a t p l) as [[]| | |] end;
    congruence.
Qed.

Lemma turn_rvs_get_no_fault n n' : node_ok n → turn_rvs_get n ≠ Some (n', Fault).
Proof.
  intros H E. unfold turn_rvs_get in E. apply bind_Some in E as ([d c] & Er & E).
  apply chan_read_nid in Er as [Hd _]; [|unfold nmsg_len; lia|apply H].
  destruct (rvs_get_step_go (sh_conf (n_sh n)) d (l_rvs_get (n_loc n)) Hd) as (m & Hg & _);
    [apply H..|].
  cbn [n_sh n_loc sh_conf set_field eta_of eta_node eta_shared] in E. rewrite Hg in E. congruence.
Qed.

Lemma turn_mobility_no_fault ev ls l clk clk1 clk2 n n' :
  turn_mobility ev ls l clk clk1 clk2 n ≠ Some (n', Fault).
Proof.
  intros E. unfold turn_mobility, mobility_step in E.
  assert (Hr : read_event ev ≠ Fault) by (unfold read_event; by repeat case_match).
  destruct (read_event ev) as [[]| | |]; try congruence. by destruct (2 <=? _).
Qed.

(** The threads that can access memory outside an object. *)
Definition unsafe_threads : list thread :=
  [thread_nidfilter; thread_dht_get; thread_dhcp; thread_dnshandler].

(** No turn of another thread ends in an access outside an object. *)
Lemma turn_no_fault nofile ev n n' r :
  node_ok n → thread_of ev ∉ unsafe_threads → take_turn nofile ev n = Some (n', r) → r ≠ Fault.
Proof.
  intros H Hn E ->.
  destruct ev; cbn [take_turn thread_of] in *;
    try (apply Hn; apply (bool_decide_unpack _); vm_compute; exact I); clear Hn.
  - unfold turn_ph_output in E. split_turn E; congruence.
  - by apply turn_ph_input_no_fault in E.
  - unfold turn_nr_output in E. split_turn E; congruence.
  - unfold turn_nr_output_gw in E. split_turn E; congruence.
  - unfold turn_nr_output_core in E. split_turn E; congruence.
  - unfold turn_nr_input in E. split_turn E; congruence.
  - unfold turn_nr_input_gw in E. split_turn E; congruence.
  - unfold turn_control in E. split_turn E; congruence.
  - unfold turn_control_rvs in E. split_turn E; congruence.
  - unfold turn_control_gw in E. split_turn E; congruence.
  - unfold turn_control_gw_core in E. split_turn E; congruence.
  - unfold turn_gw_listener in E. split_turn E; congruence.
  - unfold turn_gw_core_listener in E. split_turn E; congruence.
  - unfold turn_gw_talker in E. split_turn E; congruence.
  - unfold turn_rvs_update in E. split_turn E; congruence.
  - by apply turn_rvs_get_no_fault in E.
  - unfold turn_rvs_proxy_send, rvs_proxy_send_step in E.
    apply bind_Some in E as ([d c] & _ & E). by destruct sent_ok.
  - unfold turn_rvs_proxy_recv in E. split_turn E; congruence.
  - unfold turn_rvs2gw in E. split_turn E; congruence.
  - by apply turn_mobility_no_fault in E.
  - unfold turn_dht_update, dht_update_step in E. by destruct s.
Qed.

(** Each of the four excepted threads has a faulting turn. *)
Definition faulting_events : list event :=
  [EvNidfilter (IpqPacket [69; 0; 0; 40]);
   EvDhtGet Connected None 0;
   EvDhcp (Some []);
   EvDns (mkDnsEv (Some (1, replicate 512 97)) true None true)].

(** They do fault: a packet whose length field exceeds what was captured, a
    failed call to the DHT, an empty parameter text, a name without end. *)
Lemma faulting_events_fault :
  (thread_of <$> faulting_events) = unsafe_threads ∧
  let n := capturing <| n_sh ::= (λ s, s <| sh_dht ::= (λ e, e <| sp_dht := [sample_nid 3] |>) |>) |> in
  (λ ev, snd <$> take_turn 1024 ev n) <$> faulting_events = replicate 4 (Some Fault).
Proof. split; vm_compute; reflexivity. Qed.

(** ** The requests of the connection mapper *)

(** What is on [sp_cm2rvs]. *)
Definition requests (n : node) : chan := sp_cm2rvs (sh_cm (n_sh n)).

Lemma getCMEntry_requests nid ck e :
  sp_cm2rvs e `prefix_of` sp_cm2rvs (getCMEntry nid ck e).1.1.
Proof.
  unfold getCMEntry. destruct (et_find _ _) as [[p ce]|]; [case_match; [done|case_match]|].
  - destruct (isQueued _ _ _) as [q b]. case_match; [by eexists|done].
  - by eexists.
  - by eexists.
Qed.

Lemma control_step_requests d m now e : sp_cm2rvs (control_step d m now e).2 = sp_cm2rvs e.
Proof. unfold control_step. by repeat case_match. Qed.

(** Every thread but one leaves the requests or adds to them. *)
Definition keeps_requests (n n' : node) : Prop := requests n `prefix_of` requests n'.

Lemma keeps_requests_same n n' :
  sp_cm2rvs (sh_cm (n_sh n')) = sp_cm2rvs (sh_cm (n_sh n)) → keeps_requests n n'.
Proof. intros H. unfold keeps_requests, requests. by rewrite H. Qed.

#[export] Instance keeps_requests_preorder : PreOrder keeps_requests.
Proof.
  split; [by intros n; apply keeps_requests_same|].
  intros n1 n2 n3 H1 H2. unfold keeps_requests in *. by transitivity (requests n2).
Qed.

(** The turns of the output threads. *)
Lemma turn_nr_output_requests ck n n' r :
  turn_nr_output ck n = Some (n', r) → keeps_requests n n'.
Proof.
  intros E. unfold turn_nr_output, nr_output_step in E. apply bind_Some in E as ([d c] & _ & E).
  match type of E with context [getCMEntry ?a ?b ?e] =>
    pose proof (getCMEntry_requests a b e) as Hp; destruct (getCMEntry a b e) as [[e1 f] ip] end.
  by simplify_eq.
Qed.

Lemma turn_nr_output_gw_requests ck now n n' r :
  turn_nr_output_gw ck now n = Some (n', r) → keeps_requests n n'.
Proof.
  intros E. unfold turn_nr_output_gw, nr_output_gw_step in E.
  apply bind_Some in E as ([[src d] c] & _ & E). destruct src.
  - match type of E with context [getCMEntry ?a ?b ?e] =>
      pose proof (getCMEntry_requests a b e) as Hp; destruct (getCMEntry a b e) as [[e1 f] ip] end.
    destruct (f =? 0); [destruct (getRTEntry _ _ _) as [[rt' f'] ip']|]; by simplify_eq.
  - destruct (getRTEntry _ _ _) as [[rt' f'] ip']. simplify_eq. by apply keeps_requests_same.
Qed.

Lemma turn_nr_output_core_requests ck now now1 now2 n n' r :
  turn_nr_output_core ck now now1 now2 n = Some (n', r) → keeps_requests n n'.
Proof.
  intros E. unfold turn_nr_output_core, nr_output_core_step in E.
  apply bind_Some in E as ([[src d] c] & _ & E). destruct src.
  - match type of E with context [getCMEntry ?a ?b ?e] =>
      pose proof (getCMEntry_requests a b e) as Hp; destruct (getCMEntry a b e) as [[e1 f] ip] end.
    destruct (f =? 0); by simplify_eq.
  - simplify_eq. by apply keeps_requests_same.
Qed.

Lemma turn_mobility_requests ev ls l clk clk1 clk2 n n' r :
  turn_mobility ev ls l clk clk1 clk2 n = Some (n', r) → keeps_requests n n'.
Proof.
  intros E. unfold turn_mobility in E. apply keeps_requests_same.
  destruct (mobility_step _ _ _ _ _ _ _ _); by simplify_eq.
Qed.

Lemma take_turn_requests nofile ev n n' r :
  thread_of ev ≠ thread_rvs_get → take_turn nofile ev n = Some (n', r) → keeps_requests n n'.
Proof.
  intros Hne E. destruct ev; cbn [take_turn thread_of] in *; try done;
    try (by eapply turn_nr_output_requests); try (by eapply turn_nr_output_gw_requests);
    try (by eapply turn_nr_output_core_requests); try (by eapply turn_mobility_requests);
    apply keeps_requests_same.
  - unfold turn_nidfilter in E. destruct (nidfilter_step m) as [[[]|]| | |]; by simplify_eq.
  - unfold turn_ph_output in E. split_turn E; by simplify_eq.
  - unfold turn_ph_input in E. apply bind_Some in E as ([d c] & _ & E).
    destruct (ph_input_step _ _ _ _) as [[buf nm] [[]| | |]]; by simplify_eq.
  - unfold turn_nr_input in E. split_turn E; by simplify_eq.
  - unfold turn_nr_input_gw in E. split_turn E; by simplify_eq.
  - unfold turn_control in E. apply bind_Some in E as ([d c] & _ & E).
    pose proof (control_step_requests d (l_control (n_loc n)) now (sh_cm (n_sh n))) as Hc.
    destruct (control_step _ _ _ _) as [m e]. by simplify_eq.
  - unfold turn_control_rvs in E. split_turn E; by simplify_eq.
  - unfold turn_control_gw in E. split_turn E; by simplify_eq.
  - unfold turn_control_gw_core in E. split_turn E; by simplify_eq.
  - unfold turn_gw_listener in E. split_turn E; by simplify_eq.
  - unfold turn_gw_core_listener in E. split_turn E; by simplify_eq.
  - unfold turn_gw_talker in E. split_turn E; by simplify_eq.
  - unfold turn_rvs_update in E. split_turn E; by simplify_eq.
  - unfold turn_rvs_proxy_send in E. apply bind_Some in E as ([d c] & _ & E).
    destruct (rvs_proxy_send_step _ _ _) as [[]| | |]; by simplify_eq.
  - unfold turn_rvs_proxy_recv in E. split_turn E; by simplify_eq.
  - unfold turn_rvs2gw in E. split_turn E; by simplify_eq.
  - unfold turn_dht_update in E. by simplify_eq.
  - unfold turn_dht_get in E. apply bind_Some in E as ([d c] & _ & E).
    destruct (dht_get_step _ _ _ _ _ _) as [[]| | |]; by simplify_eq.
  - unfold turn_dhcp in E. destruct (dhcp_step _ _); by simplify_eq.
  - unfold turn_dns in E. destruct (dns_step _ _ _) as [s r0]. by simplify_eq.
Qed.

Lemma take_turn_threads nofile ev n n' r :
  take_turn nofile ev n = Some (n', r) → n_threads n' = n_threads n.
Proof.
  intros E. destruct ev; cbn [take_turn] in E;
    match type of E with
    | turn_mobility _ _ _ _ _ _ _ = _ =>
        unfold turn_mobility in E; destruct (mobility_step _ _ _ _ _ _ _ _)
    | turn_dns _ _ _ = _ => unfold turn_dns in E; destruct (dns_step _ _ _) as [s r0]
    | turn_dhcp _ _ = _ => unfold turn_dhcp in E; destruct (dhcp_step _ _)
    | turn_nidfilter _ _ = _ =>
        unfold turn_nidfilter in E; destruct (nidfilter_step _) as [[[]|]| | |]
    | turn_dht_update _ _ = _ => unfold turn_dht_update in E
    | turn_ph_input _ _ = _ =>
        unfold turn_ph_input in E; apply bind_Some in E as ([d c] & _ & E);
        destruct (ph_input_step _ _ _ _) as [[buf nm] [[]| | |]]
    | turn_rvs_get _ = _ =>
        unfold turn_rvs_get in E; apply bind_Some in E as ([d c] & _ & E);
        destruct (rvs_get_step _ _ _) as [[]| | |]
    | turn_rvs_proxy_send _ _ = _ =>
        unfold turn_rvs_proxy_send in E; apply bind_Some in E as ([d c] & _ & E);
        destruct (rvs_proxy_send_step _ _ _) as [[]| | |]
    | turn_dht_get _ _ _ _ = _ =>
        unfold turn_dht_get in E; apply bind_Some in E as ([d c] & _ & E);
        destruct (dht_get_step _ _ _ _ _ _) as [[]| | |]
    | ?t = _ => let h := eval unfold turn_ph_output, turn_nr_output, turn_nr_output_gw,
                  turn_nr_output_core, turn_nr_input, turn_nr_input_gw, turn_control,
                  turn_control_rvs, turn_control_gw, turn_control_gw_core, turn_gw_listener,
                  turn_gw_core_listener, turn_gw_talker, turn_rvs_update, turn_rvs_proxy_recv,
                  turn_rvs2gw in t in change t with h in E; split_turn E
    end; by simplify_eq.
Qed.

(** A step without [thread_rvs_get] keeps it out and keeps the requests. *)
Lemma step_requests nofile n ev out n' :
  thread_rvs_get ∉ n_threads n → step nofile (Running n) ev out (Running n') →
  thread_rvs_get ∉ n_threads n' ∧ keeps_requests n n'.
Proof.
  intros Hn Hs. inversion Hs as [? ? ? ? E]; subst. unfold node_step in E.
  destruct (decide _) as [Hin|]; [|done].
  destruct (take_turn nofile ev n) as [[m r]|] eqn:Et; [|done]. cbn [mbind option_bind] in E.
  pose proof (take_turn_threads _ _ _ _ _ Et) as Ht.
  assert (Hk : keeps_requests n m) by (eapply take_turn_requests; [|exact Et]; intros Heq; by rewrite Heq in Hin).
  destruct r; simplify_eq; cbn [n_threads set_field eta_of eta_node]; rewrite ?Ht; split; try done.
  rewrite list_elem_of_filter. tauto.
Qed.

Lemma reachable_requests nofile s s' n n' :
  reachable nofile s s' → s = Running n → s' = Running n' → thread_rvs_get ∉ n_threads n →
  thread_rvs_get ∉ n_threads n' ∧ keeps_requests n n'.
Proof.
  intros H. revert n'. induction H as [s|s1 s2 s3 ev out _ IH Hs]; intros n' E E' Hn.
  { rewrite E in E'. injection E' as <-. by split. }
  subst s3. inversion Hs as [m ? ? ? Hm]; subst s2.
  destruct (IH m E eq_refl Hn) as [Hm1 Hm2].
  destruct (step_requests nofile m ev out n' Hm1 Hs) as [Ha Hb]. split; [done|].
  by transitivity m.
Qed.

(** Only the threads of the node's type are started. *)
Lemma start_all_threads lib_ok sym_ok create_ok ts s s' x :
  start_all lib_ok sym_ok create_ok ts s = Go s' → x ∈ su_threads s' →
  x ∈ su_threads s ∨ x ∈ ts.
Proof.
  revert s. induction ts as [|t ts IH]; intros s E Hx; cbn [start_all] in E.
  { apply Go_inj in E as <-. by left. }
  destruct (start lib_ok sym_ok create_ok t s) as [s1| | |] eqn:Es; try done.
  destruct (IH s1 E Hx) as [H1|H1]; [|right; by apply list_elem_of_further].
  unfold start in Es. repeat case_match; simplify_eq; cbn [su_threads] in H1; [|by left].
  apply elem_of_app in H1 as [H1|H1]; [by left|]. apply list_elem_of_singleton in H1 as ->.
  right. apply list_elem_of_here.
Qed.

Lemma nidd_main_threads lib_ok sym_ok create_ok c sh su x :
  nidd_main lib_ok sym_ok create_ok c = Go (sh, su) → x ∈ su_threads su →
  ∃ t, node_type_of (getType c) = Some t ∧ x ∈ first_threads t ++ node_threads c t.
Proof.
  unfold nidd_main. intros E Hx. destruct (node_type_of (getType c)) as [t|]; [|done].
  exists t. split; [done|].
  destruct (start_all _ _ _ (first_threads t) _) as [s1| | |] eqn:E1; try done.
  destruct (match t with NODE | GATEWAY => _ | _ => _ end) as [s2| | |] eqn:E2; try done.
  assert (s2 = s1) as ->.
  { destruct t; unfold run_dhcpcd in E2; repeat case_match; by simplify_eq. }
  destruct (start_all _ _ _ (node_threads c t) _) as [s3| | |] eqn:E3; try done.
  apply Go_inj in E. injection E as _ ->. rewrite elem_of_app.
  destruct (start_all_threads _ _ _ _ _ _ _ E3 Hx) as [H|H]; [|by right].
  destruct (start_all_threads _ _ _ _ _ _ _ E1 H) as [H'|H']; [|by left].
  by apply not_elem_of_nil in H'.
Qed.

Lemma no_rvs_get_thread c t :
  t ≠ NODE → thread_rvs_get ∉ first_threads t ++ node_threads c t.
Proof.
  intros Ht. unfold node_threads, threads_NODE, threads_RVS, threads_GATEWAY, threads_CORE,
    dns_threads, dht_threads.
  destruct t; [done|..]; destruct (get_dns c =? 0), (get_dht c =? 0); apply (bool_decide_unpack _);
    vm_compute; exact I.
Qed.

(** A gateway, a rendezvous server or a core starts no [thread_rvs_get],
    though its connection mapper writes a request to [sp_cm2rvs] for every
    destination it does not know: in no run is such a request ever read, and
    the socket fills until the writer blocks. *)
Theorem requests_never_read nofile lib_ok sym_ok create_ok c locator fds sh su n n' :
  nidd_main lib_ok sym_ok create_ok c = Go (sh, su) → getType c ≠ 0 →
  reachable nofile (Running (start_node c locator fds sh su)) (Running n) →
  reachable nofile (Running n) (Running n') →
  requests n `prefix_of` requests n'.
Proof.
  intros Hm Ht H1 H2.
  assert (Hs : thread_rvs_get ∉ su_threads su).
  { intros Hin. destruct (nidd_main_threads _ _ _ _ _ _ _ Hm Hin) as (t & Et & Hx).
    apply (no_rvs_get_thread c t) in Hx; [done|]. intros ->. apply Ht.
    unfold node_type_of in Et. by repeat case_match. }
  destruct (reachable_requests _ _ _ _ _ H1 eq_refl eq_refl Hs) as [Hn _].
  by apply (reachable_requests _ _ _ _ _ H2 eq_refl eq_refl Hn).
Qed.

Definition gateway_conf : config := sample_config <| conf_type := 2 |>.

(** A gateway that has sent one packet to an unknown destination. *)
Definition asking_events : list event :=
  [EvNidfilter (IpqPacket (sample_ip 6)); EvPhOutput; EvNrOutputGw (sample_clock 50) 50].

Lemma run_reachable nofile evs n0 n n' out :
  reachable nofile n0 (Running n) → run nofile evs n = Some (n', out) →
  reachable nofile n0 (Running n').
Proof.
  revert n out. induction evs as [|ev evs IH]; intros n out Hr E; cbn [run] in E.
  { by injection E as <- _. }
  destruct (node_step nofile ev n) as [[[m|] o]|] eqn:Es; try done.
  destruct (run nofile evs m) as [[m' o']|] eqn:Er; [|done]. injection E as <- _.
  apply (IH m o'); [|done]. eapply reach_step; [exact Hr|]. by apply step_turn.
Qed.

Lemma asking_reached :
  ∃ n out, run 1024 asking_events (sample_node gateway_conf) = Some (n, out)
  ∧ requests n = [sample_nid 3].
Proof.
  assert (H : (λ r, requests r.1) <$> run 1024 asking_events (sample_node gateway_conf)
              = Some [sample_nid 3]) by (vm_compute; reflexivity).
  destruct (run 1024 asking_events (sample_node gateway_conf)) as [[n out]|]; [|done].
  exists n, out. split; [done|]. by injection H.
Qed.

Lemma requests_never_read_witness :
  ∃ n, requests n = [sample_nid 3]
  ∧ ∀ n', reachable 1024 (Running n) (Running n') → [sample_nid 3] `prefix_of` requests n'.
Proof.
  destruct (is_go_spec (sample_start gateway_conf)) as [[sh su] E];
    [vm_compute; reflexivity|].
  destruct asking_reached as (n & out & Er & Hn).
  exists n. split; [exact Hn|]. intros n' Hr. rewrite <-Hn.
  apply (requests_never_read 1024 all_ok all_ok all_ok gateway_conf 0x0900000a 3 sh su n n' E);
    [discriminate| |exact Hr].
  refine (run_reachable _ _ _ _ _ out (reach_refl _ _) _).
  rewrite (sample_node_eq gateway_conf _ E) in Er. exact Er.
Defined.
