(* ===== verification/WiringProps.v ===== *)
(** The wiring of the daemon that [main] starts: which thread reads and which
    writes each socket pair, and that what one thread writes another one, started
    with it, reads. *)

From S2P Require Import Prelude NidTypes Inet HashTable Hash LList EntryTable Configuration.
From S2P Require Import QueueTable ConnectionMapper NidMapper RoutingTable Gwc Dhtc PacketHandler.
From S2P Require Import NidRouting Control Rvsc Mobility DnsHandler Dhcp Nidd NidFilter System.
From S2P Require Import SystemInv MapperProps StartProps SystemProps.

Local Open Scope Z_scope.

(** ** Socket pairs *)

Inductive socket_pair :=
  | Nf2ph | Ph2nr | Nr2ph | Nr | Mo2ph | Gwt2ph | Co2gwl | Ph2co | Rvs2ph | Co2rvs
  | Rvs2gwt | Gwl2gwt | Cm2rvs | Dht.

#[export] Instance socket_pair_eq_dec : EqDecision socket_pair.
Proof. solve_decision. Defined.

(** The datagrams written and not yet read. *)
Definition waiting (sp : socket_pair) (n : node) : chan :=
  match sp with
  | Nf2ph => c_nf2ph (n_ch n) | Ph2nr => c_ph2nr (n_ch n) | Nr2ph => c_nr2ph (n_ch n)
  | Nr => c_nr (n_ch n) | Mo2ph => c_mo2ph (n_ch n) | Gwt2ph => c_gwt2ph (n_ch n)
  | Co2gwl => c_co2gwl (n_ch n) | Ph2co => c_ph2co (n_ch n) | Rvs2ph => c_rvs2ph (n_ch n)
  | Co2rvs => c_co2rvs (n_ch n) | Rvs2gwt => c_rvs2gwt (n_ch n) | Gwl2gwt => c_gwl2gwt (n_ch n)
  | Cm2rvs => sp_cm2rvs (sh_cm (n_sh n)) | Dht => sp_dht (sh_dht (n_sh n))
  end.

Definition reads_of (th : thread) : list socket_pair :=
  match th with
  | thread_ph_output => [Nf2ph; Rvs2ph; Mo2ph; Gwt2ph]
  | thread_ph_input => [Nr2ph]
  | thread_nr_output => [Ph2nr]
  | thread_nr_output_gw | thread_nr_output_core => [Ph2nr; Nr]
  | thread_control | thread_control_rvs | thread_control_gw | thread_control_gw_core => [Ph2co]
  | thread_gw_listener | thread_gw_core_listener => [Co2gwl]
  | thread_gw_talker => [Rvs2gwt; Gwl2gwt]
  | thread_rvs_get => [Cm2rvs]
  | thread_rvs_proxy_send => [Co2rvs]
  | thread_rvs2gw => [Rvs2gwt]
  | thread_dht_get => [Dht]
  | _ => []
  end.

Definition writes_of (th : thread) : list socket_pair :=
  match th with
  | thread_nidfilter => [Nf2ph]
  | thread_ph_output => [Ph2nr]
  | thread_ph_input => [Ph2co]
  | thread_nr_output | thread_nr_output_gw => [Cm2rvs]
  | thread_nr_output_core => [Cm2rvs; Dht]
  | thread_nr_input => [Nr2ph]
  | thread_nr_input_gw => [Nr2ph; Nr]
  | thread_control_rvs => [Co2rvs]
  | thread_control_gw | thread_control_gw_core => [Co2gwl]
  | thread_gw_listener => [Gwl2gwt]
  | thread_gw_core_listener | thread_gw_talker | thread_rvs2gw => [Gwt2ph]
  | thread_rvs_update | thread_rvs_get => [Rvs2ph]
  | thread_rvs_proxy_recv => [Rvs2ph; Rvs2gwt]
  | thread_mobility => [Mo2ph; Rvs2ph]
  | _ => []
  end.

(** What a turn of [th] does to the socket pairs. *)
Definition flow (th : thread) (n n' : node) : Prop :=
  ∀ sp, (sp ∈ reads_of th ∧ ∃ d, waiting sp n = d :: waiting sp n')
     ∨ (∃ w, waiting sp n' = waiting sp n ++ w ∧ (w = [] ∨ sp ∈ writes_of th)).

Lemma chan_read_cons k c d c' : chan_read k c = Some (d, c') → ∃ d0, c = d0 :: c'.
Proof. destruct c as [|d0 c]; [done|]. intros [= _ <-]. by exists d0. Qed.

Lemma chan_write_len_app buf len c : ∃ w, chan_write_len buf len c = c ++ w.
Proof. unfold chan_write_len, chan_write. case_match; [exists []; by rewrite app_nil_r|by eexists]. Qed.

Lemma opt_write_app d c : ∃ w, opt_write d c = c ++ w.
Proof. destruct d; [by eexists|exists []; by rewrite app_nil_r]. Qed.

Lemma redirect_all_app locators i lpt m c : ∃ w, redirect_all locators i lpt m c = c ++ w.
Proof.
  revert i m c. induction lpt as [|x lpt IH]; intros i m c; cbn [redirect_all]; [exists []; by rewrite app_nil_r|].
  edestruct IH as [w ->]. unfold chan_write. rewrite <-app_assoc. by eexists.
Qed.

Lemma dht_request_app nid now1 now2 e : ∃ w, sp_dht (dht_request nid now1 now2 e) = sp_dht e ++ w.
Proof. unfold dht_request. repeat case_match; cbn; first [by eexists | exists []; by rewrite app_nil_r]. Qed.

Lemma core_route_app dst gw now now1 now2 rt reg e :
  ∃ w, sp_dht (core_route dst gw now now1 now2 rt reg e).1.2 = sp_dht e ++ w.
Proof.
  unfold core_route. destruct (getRTEntry _ _ _) as [[rt' f] ip]. destruct (f =? 0); [|exists []; by rewrite app_nil_r].
  destruct (getRegistry _ _) as [f1 ip1]. destruct (f1 =? 0); [|exists []; by rewrite app_nil_r].
  unfold getDHTEntry. destruct (dht_request_app gw now1 now2 e) as [w Hw].
  repeat case_match; simplify_eq; cbn; try (by eexists); exists []; by rewrite app_nil_r.
Qed.

(** One of three: nothing is written, something is, the first datagram is read. *)
Ltac flow_pair :=
  cbn; rewrite ?app_nil_r;
  repeat match goal with H : sp_cm2rvs _ = _ |- _ => rewrite H; clear H
                       | H : sp_dht _ = _ |- _ => rewrite H; clear H
                       | H : chan_write_len _ _ _ = _ |- _ => rewrite H; clear H
                       | H : opt_write _ _ = _ |- _ => rewrite H; clear H
                       | H : redirect_all _ _ _ _ _ = _ |- _ => rewrite H; clear H
                       | H : ?f (n_ch _) = _ :: _ |- _ => rewrite H; clear H end;
  cbn; rewrite ?drop_0;
  first
    [ right; exists []; rewrite app_nil_r; split; [reflexivity|left; reflexivity]
    | right; eexists; split; [reflexivity|right; apply (bool_decide_unpack _); exact I]
    | left; split; [apply (bool_decide_unpack _); exact I|by eexists] ].

Ltac flows := intros []; flow_pair.

Lemma flow_control now n n' r : turn_control now n = Some (n', r) → flow thread_control n n'.
Proof.
  intros E. unfold turn_control in E. apply bind_Some in E as ([d c] & [d0 Hc]%chan_read_cons & E).
  pose proof (control_step_requests d (l_control (n_loc n)) now (sh_cm (n_sh n))) as Hk.
  destruct (control_step _ _ _ _) as [m e]. cbn [snd] in Hk. simplify_eq. flows.
Qed.

Lemma flow_control_rvs now n n' r : turn_control_rvs now n = Some (n', r) → flow thread_control_rvs n n'.
Proof.
  intros E. unfold turn_control_rvs in E. apply bind_Some in E as ([d c] & [d0 Hc]%chan_read_cons & E).
  unfold control_rvs_step in E. repeat case_match; simplify_eq; flows.
Qed.

Lemma flow_control_gw now n n' r : turn_control_gw now n = Some (n', r) → flow thread_control_gw n n'.
Proof.
  intros E. unfold turn_control_gw in E. apply bind_Some in E as ([d c] & [d0 Hc]%chan_read_cons & E).
  unfold control_gw_step in E. repeat case_match; simplify_eq; flows.
Qed.

Lemma flow_control_gw_core now n n' r :
  turn_control_gw_core now n = Some (n', r) → flow thread_control_gw_core n n'.
Proof.
  intros E. unfold turn_control_gw_core in E. apply bind_Some in E as ([d c] & [d0 Hc]%chan_read_cons & E).
  unfold control_gw_core_step in E. repeat case_match; simplify_eq; flows.
Qed.

Lemma flow_ph_output n n' r : turn_ph_output n = Some (n', r) → flow thread_ph_output n n'.
Proof.
  intros E. unfold turn_ph_output in E. apply bind_Some in E as ([src d] & Hs & E).
  destruct (ph_output_step _ _ _ _ _) as [buf out].
  destruct (opt_write_app out (c_ph2nr (n_ch n))) as [w Hw].
  unfold ph_select in Hs.
  destruct (c_nf2ph (n_ch n)) eqn:E1, (c_rvs2ph (n_ch n)) eqn:E2, (c_mo2ph (n_ch n)) eqn:E3,
    (c_gwt2ph (n_ch n)) eqn:E4; simplify_eq; flows.
Qed.

Lemma flow_ph_input a n n' r : turn_ph_input a n = Some (n', r) → flow thread_ph_input n n'.
Proof.
  intros E. unfold turn_ph_input in E. apply bind_Some in E as ([d c] & [d0 Hc]%chan_read_cons & E).
  destruct (ph_input_step _ _ _ _) as [[buf nm] [[]| | |]]; simplify_eq; flows.
Qed.

(** A lookup of an address, as a turn does it. *)
Ltac requests E :=
  match type of E with context [getCMEntry ?a ?b ?e] =>
    destruct (getCMEntry_requests a b e) as [? ?]; destruct (getCMEntry a b e) as [[? ?] ?] end.

Lemma flow_nr_output ck n n' r : turn_nr_output ck n = Some (n', r) → flow thread_nr_output n n'.
Proof.
  intros E. unfold turn_nr_output, nr_output_step in E.
  apply bind_Some in E as ([d c] & [d0 Hc]%chan_read_cons & E). requests E. cbn [fst] in *. simplify_eq. flows.
Qed.

Lemma flow_nr_output_gw ck now n n' r :
  turn_nr_output_gw ck now n = Some (n', r) → flow thread_nr_output_gw n n'.
Proof.
  intros E. unfold turn_nr_output_gw, nr_output_gw_step in E.
  apply bind_Some in E as ([[src d] ch] & Hs & E). unfold nr_select in Hs.
  destruct (c_ph2nr (n_ch n)) eqn:E1, (c_nr (n_ch n)) eqn:E2; simplify_eq;
    try requests E; cbn [fst] in *; repeat case_match; simplify_eq; flows.
Qed.

Lemma flow_nr_output_core ck now now1 now2 n n' r :
  turn_nr_output_core ck now now1 now2 n = Some (n', r) → flow thread_nr_output_core n n'.
Proof.
  intros E. unfold turn_nr_output_core, nr_output_core_step in E.
  apply bind_Some in E as ([[src d] ch] & Hs & E). unfold nr_select in Hs.
  match type of E with context [core_route ?a ?b ?c ?d ?e ?f ?g ?h] =>
    destruct (core_route_app a b c d e f g h) as [? ?]; set (route := core_route a b c d e f g h) in * end.
  destruct (c_ph2nr (n_ch n)) eqn:E1, (c_nr (n_ch n)) eqn:E2; simplify_eq;
    try requests E; cbn [fst] in *; repeat case_match; simplify_eq; flows.
Qed.

Lemma flow_nr_input x now n n' r : turn_nr_input x now n = Some (n', r) → flow thread_nr_input n n'.
Proof.
  intros E. unfold turn_nr_input, nr_input_step in E. destruct (recvfrom _ _) as [k l].
  destruct (chan_write_len_app (nri_buf l) k (c_nr2ph (n_ch n))) as [w Hw].
  destruct (decide _); simplify_eq; flows.
Qed.

Lemma flow_nr_input_gw x now n n' r : turn_nr_input_gw x now n = Some (n', r) → flow thread_nr_input_gw n n'.
Proof.
  intros E. unfold turn_nr_input_gw, nr_input_gw_step in E. destruct (recvfrom _ _) as [k l].
  destruct (chan_write_len_app (nri_buf l) k (c_nr2ph (n_ch n))) as [w Hw].
  destruct (chan_write_len_app (nri_buf l) k (c_nr (n_ch n))) as [w' Hw'].
  destruct (decide _); simplify_eq; flows.
Qed.

Lemma flow_gw_listener now n n' r : turn_gw_listener now n = Some (n', r) → flow thread_gw_listener n n'.
Proof.
  intros E. unfold turn_gw_listener in E. apply bind_Some in E as ([d c] & [d0 Hc]%chan_read_cons & E).
  destruct (gw_listener_step _ _ _ _) as [[m rt] out]. simplify_eq. flows.
Qed.

Lemma flow_gw_core_listener loc now n n' r :
  turn_gw_core_listener loc now n = Some (n', r) → flow thread_gw_core_listener n n'.
Proof.
  intros E. unfold turn_gw_core_listener in E. apply bind_Some in E as ([d c] & [d0 Hc]%chan_read_cons & E).
  destruct (gw_core_listener_step _ _ _ _ _ _ _) as [[[m rt] reg] out].
  destruct (opt_write_app out (c_gwt2ph (n_ch n))) as [w Hw]. simplify_eq. flows.
Qed.

Lemma flow_gw_talker loc n n' r : turn_gw_talker loc n = Some (n', r) → flow thread_gw_talker n n'.
Proof.
  intros E. unfold turn_gw_talker in E. apply bind_Some in E as ([d ch] & Hs & E). unfold talker_select in Hs.
  destruct (gw_talker_step _ _ _ _) as [m out].
  destruct (c_rvs2gwt (n_ch n)) eqn:E1, (c_gwl2gwt (n_ch n)) eqn:E2; simplify_eq; flows.
Qed.

Lemma flow_rvs_get n n' r : turn_rvs_get n = Some (n', r) → flow thread_rvs_get n n'.
Proof.
  intros E. unfold turn_rvs_get in E. apply bind_Some in E as ([d c] & [d0 Hc]%chan_read_cons & E).
  destruct (rvs_get_step _ _ _) as [[m out]| | |]; simplify_eq; flows.
Qed.

Lemma flow_proxy_send ok n n' r : turn_rvs_proxy_send ok n = Some (n', r) → flow thread_rvs_proxy_send n n'.
Proof.
  intros E. unfold turn_rvs_proxy_send in E. apply bind_Some in E as ([d c] & [d0 Hc]%chan_read_cons & E).
  destruct (rvs_proxy_send_step _ _ _) as [[m out]| | |]; simplify_eq; flows.
Qed.

Lemma flow_proxy_recv d n n' r : turn_rvs_proxy_recv d n = Some (n', r) → flow thread_rvs_proxy_recv n n'.
Proof.
  intros E. unfold turn_rvs_proxy_recv in E. destruct (rvs_proxy_recv_step _ _) as [[m out] ack].
  destruct (opt_write_app ack (c_rvs2gwt (n_ch n))) as [w Hw]. simplify_eq. flows.
Qed.

Lemma flow_rvs2gw n n' r : turn_rvs2gw n = Some (n', r) → flow thread_rvs2gw n n'.
Proof.
  intros E. unfold turn_rvs2gw in E. apply bind_Some in E as ([d c] & [d0 Hc]%chan_read_cons & E).
  destruct (rvs2gw_step _ _ _) as [m out]. simplify_eq. flows.
Qed.

Lemma mobility_step_app c ev ls l clk clk1 clk2 s s' :
  mobility_step c ev ls l clk clk1 clk2 s = Go s' →
  ∃ w w', sp_mo2ph s' = sp_mo2ph s ++ w ∧ mo_rvs2ph s' = mo_rvs2ph s ++ w'.
Proof.
  unfold mobility_step. destruct (read_event ev) as [[]| | |]; try done.
  2: { intros ->%Go_inj. exists [], []. by rewrite !app_nil_r. }
  case_match; intros E%Go_inj; subst s'; cbn [sp_mo2ph mo_rvs2ph].
  - assert (Hr : ∀ b i lpt m, ∃ w, (if b : bool then redirect_all ls i lpt m (sp_mo2ph s) else sp_mo2ph s)
                              = sp_mo2ph s ++ w).
    { intros [] i lpt m; [apply redirect_all_app|exists []; by rewrite app_nil_r]. }
    edestruct Hr as [w ->]. by eexists w, _.
  - exists [], []. by rewrite !app_nil_r.
Qed.

Lemma flow_mobility ev ls l clk clk1 clk2 n n' r :
  turn_mobility ev ls l clk clk1 clk2 n = Some (n', r) → flow thread_mobility n n'.
Proof.
  intros E. unfold turn_mobility in E. destruct (mobility_step _ _ _ _ _ _ _ _) as [s| | |] eqn:Em; simplify_eq;
    try flows.
  apply mobility_step_app in Em as (w & w' & Hw & Hw'). cbn [sp_mo2ph mo_rvs2ph] in Hw, Hw'.
  intros []; cbn; rewrite ?Hw, ?Hw'; flow_pair.
Qed.

Lemma dht_get_step_requests d s answer now l e l' e' :
  dht_get_step d s answer now l e = Go (l', e') → sp_dht e' = sp_dht e.
Proof.
  unfold dht_get_step. destruct (connectDHTserver s) as [b| | |]; try done. rewrite bind_Go.
  intros E. repeat case_match; try discriminate; by apply Go_inj in E as [= <- <-].
Qed.

Lemma flow_dht_get s x now n n' r : turn_dht_get s x now n = Some (n', r) → flow thread_dht_get n n'.
Proof.
  intros E. unfold turn_dht_get in E. apply bind_Some in E as ([d c] & [d0 Hc]%chan_read_cons & E).
  destruct (dht_get_step _ _ _ _ _ _) as [[l e]| | |] eqn:Eg; simplify_eq; try flows.
  apply dht_get_step_requests in Eg. cbn in Eg. flows.
Qed.

(** Every turn of every thread. *)
Lemma turn_flow nofile ev n n' r : take_turn nofile ev n = Some (n', r) → flow (thread_of ev) n n'.
Proof.
  intros E. destruct ev; cbn [take_turn thread_of] in *;
    [..|by eapply flow_dht_get| |];
    eauto 2 using flow_ph_output, flow_ph_input, flow_nr_output, flow_nr_output_gw, flow_nr_output_core,
      flow_nr_input, flow_nr_input_gw, flow_control, flow_control_rvs, flow_control_gw, flow_control_gw_core,
      flow_gw_listener, flow_gw_core_listener, flow_gw_talker, flow_rvs_get, flow_proxy_send, flow_proxy_recv,
      flow_rvs2gw, flow_mobility.
  - unfold turn_nidfilter in E. destruct (nidfilter_step m) as [[[d ?]|]| | |]; simplify_eq; flows.
  - unfold turn_rvs_update in E. destruct (rvs_update_step _ _ _) as [m out]. simplify_eq. flows.
  - unfold turn_dht_update in E. simplify_eq. flows.
  - unfold turn_dhcp in E. destruct (dhcp_step _ _) as [x| | |]; simplify_eq; flows.
  - unfold turn_dns in E. destruct (dns_step _ _ _) as [x y]. simplify_eq. flows.
Qed.

(** ** Reading *)

(** The socket pairs served before this one by the thread that reads it. *)
Definition before (sp : socket_pair) : list socket_pair :=
  match sp with
  | Rvs2ph => [Nf2ph]
  | Mo2ph => [Nf2ph; Rvs2ph]
  | Gwt2ph => [Nf2ph; Rvs2ph; Mo2ph]
  | Nr => [Ph2nr]
  | Gwl2gwt => [Rvs2gwt]
  | _ => []
  end.

(** A thread serves a socket pair: whenever a datagram waits there, and none where
    it looks first, some turn of it takes the datagram. *)
Definition serves (nofile : nat) (th : thread) (sp : socket_pair) : Prop :=
  ∀ n d q, waiting sp n = d :: q → Forall (λ sp', waiting sp' n = []) (before sp) →
    ∃ ev n' r, thread_of ev = th ∧ take_turn nofile ev n = Some (n', r) ∧ waiting sp n' = q.

Ltac rewrite_heads :=
  repeat match goal with
    | H : ?x = [] |- context [?x] => rewrite H
    | H : ?x = _ :: _ |- context [?x] => rewrite H
    end.

Ltac heads :=
  repeat match goal with H : Forall _ _ |- _ => apply Forall_cons in H as [? H] | H : Forall _ [] |- _ => clear H end;
  cbn [waiting] in *; rewrite_heads; cbn [chan_read mbind option_bind].

(** The steps of the turn, whatever they give. *)
Ltac step_through :=
  repeat match goal with
    | |- context [let '(_, _) := ?x in _] => destruct x
    | |- context [match ?x with Go _ => _ | _ => _ end] => destruct x as [?| | |]
    | |- context [match ?x with ToRaw _ _ => _ | _ => _ end] => destruct x
    end.

Ltac taken :=
  eexists _, _; split; [reflexivity|]; split; [reflexivity|]; cbn; rewrite_heads; cbn; by rewrite ?drop_0.

Lemma ph_output_serves nofile sp : sp ∈ reads_of thread_ph_output → serves nofile thread_ph_output sp.
Proof.
  intros Hin n d q Hw Hb. exists EvPhOutput. cbn [take_turn]. unfold turn_ph_output, ph_select.
  cbn [reads_of] in Hin. rewrite !elem_of_cons in Hin.
  destruct Hin as [->|[->|[->|[->|[]%elem_of_nil]]]]; cbn [before] in Hb; heads; step_through; taken.
Qed.

Lemma nr_output_gw_serves nofile sp : sp ∈ reads_of thread_nr_output_gw → serves nofile thread_nr_output_gw sp.
Proof.
  intros Hin n d q Hw Hb. exists (EvNrOutputGw (mkClock 0 0 0 (mkTv 0 0) (mkTv 0 0)) 0).
  cbn [take_turn]. unfold turn_nr_output_gw, nr_select. cbn [reads_of] in Hin. rewrite !elem_of_cons in Hin.
  destruct Hin as [->|[->|[]%elem_of_nil]]; cbn [before] in Hb; heads; step_through; taken.
Qed.

Lemma nr_output_core_serves nofile sp :
  sp ∈ reads_of thread_nr_output_core → serves nofile thread_nr_output_core sp.
Proof.
  intros Hin n d q Hw Hb. exists (EvNrOutputCore (mkClock 0 0 0 (mkTv 0 0) (mkTv 0 0)) 0 (mkTv 0 0) (mkTv 0 0)).
  cbn [take_turn]. unfold turn_nr_output_core, nr_select. cbn [reads_of] in Hin. rewrite !elem_of_cons in Hin.
  destruct Hin as [->|[->|[]%elem_of_nil]]; cbn [before] in Hb; heads; step_through; taken.
Qed.

Lemma gw_talker_serves nofile sp : sp ∈ reads_of thread_gw_talker → serves nofile thread_gw_talker sp.
Proof.
  intros Hin n d q Hw Hb. exists (EvGwTalker 0).
  cbn [take_turn]. unfold turn_gw_talker, talker_select. cbn [reads_of] in Hin. rewrite !elem_of_cons in Hin.
  destruct Hin as [->|[->|[]%elem_of_nil]]; cbn [before] in Hb; heads; step_through; taken.
Qed.

(** The threads with one socket pair to read. *)
Lemma single_serves nofile th sp : reads_of th = [sp] → serves nofile th sp.
Proof.
  intros Hr. destruct th; try discriminate Hr; injection Hr as <-; intros n d q Hw Hb.
  - exists (EvPhInput true). cbn [take_turn]. unfold turn_ph_input. heads. step_through; taken.
  - exists (EvNrOutput (mkClock 0 0 0 (mkTv 0 0) (mkTv 0 0))). cbn [take_turn]. unfold turn_nr_output. heads.
    step_through; taken.
  - exists EvRvsGet. cbn [take_turn]. unfold turn_rvs_get. heads. step_through; taken.
  - exists (EvRvsProxySend true). cbn [take_turn]. unfold turn_rvs_proxy_send. heads. step_through; taken.
  - exists EvRvs2gw. cbn [take_turn]. unfold turn_rvs2gw. heads. step_through; taken.
  - exists (EvControl 0). cbn [take_turn]. unfold turn_control. heads. step_through; taken.
  - exists (EvControlRvs 0). cbn [take_turn]. unfold turn_control_rvs. heads. step_through; taken.
  - exists (EvControlGw 0). cbn [take_turn]. unfold turn_control_gw. heads. step_through; taken.
  - exists (EvControlGwCore 0). cbn [take_turn]. unfold turn_control_gw_core. heads. step_through; taken.
  - exists (EvGwListener 0). cbn [take_turn]. unfold turn_gw_listener. heads. step_through; taken.
  - exists (EvGwCoreListener 0 0). cbn [take_turn]. unfold turn_gw_core_listener. heads. step_through; taken.
  - exists (EvDhtGet Connected (Some []) 0). cbn [take_turn]. unfold turn_dht_get. heads. cbn. taken.
Qed.

Lemma reads_serves nofile th sp : sp ∈ reads_of th → serves nofile th sp.
Proof.
  intros Hin. destruct th; try (by apply elem_of_nil in Hin);
    try (apply single_serves; by apply list_elem_of_singleton in Hin as ->).
  - by apply ph_output_serves.
  - by apply nr_output_gw_serves.
  - by apply nr_output_core_serves.
  - by apply gw_talker_serves.
Qed.

(** ** The threads started together *)

(** The socket pairs nobody reads in a daemon of this type. *)
Definition orphan (c : config) (t : node_types) (sp : socket_pair) : bool :=
  match sp, t with
  | Cm2rvs, NODE => false
  | Cm2rvs, _ => true
  | Dht, CORE => get_dht c =? 0
  | _, _ => false
  end.

Definition started (c : config) (t : node_types) : list thread := first_threads t ++ node_threads c t.

(** Checked over the four lists of threads, with and without the DHT and DNS
    threads. *)
Definition wired (c : config) (t : node_types) : bool :=
  forallb (λ th, forallb (λ sp, eqb (negb (orphan c t sp))
                                 (existsb (λ th', bool_decide (sp ∈ reads_of th')) (started c t)))
             (writes_of th)) (started c t).

Lemma started_wired c t : wired c t = true.
Proof.
  unfold wired, started, node_threads, threads_NODE, threads_RVS, threads_GATEWAY, threads_CORE,
    dns_threads, dht_threads, orphan.
  destruct t, (get_dns c =? 0), (get_dht c =? 0); vm_compute; reflexivity.
Qed.

Lemma started_written c t th sp :
  th ∈ started c t → sp ∈ writes_of th →
  if orphan c t sp then ∀ th', th' ∈ started c t → sp ∉ reads_of th'
  else ∃ th', th' ∈ started c t ∧ sp ∈ reads_of th'.
Proof.
  intros Hth Hsp. pose proof (started_wired c t) as H. unfold wired in H.
  rewrite forallb_forall in H. specialize (H th (proj1 (list_elem_of_In _ _) Hth)).
  rewrite forallb_forall in H. specialize (H sp (proj1 (list_elem_of_In _ _) Hsp)).
  apply eqb_prop in H. destruct (orphan c t sp); cbn [negb] in H.
  - intros th' Hth' Hr. assert (existsb (λ x, bool_decide (sp ∈ reads_of x)) (started c t) = true) as E; [|congruence].
    apply existsb_exists. exists th'. split; [by apply list_elem_of_In|by apply bool_decide_eq_true].
  - symmetry in H. apply existsb_exists in H as (th' & Hin & Hr). exists th'.
    split; [by apply list_elem_of_In|by apply bool_decide_eq_true in Hr].
Qed.

Lemma started_serves nofile c t ev n n' r sp :
  thread_of ev ∈ started c t → take_turn nofile ev n = Some (n', r) →
  (length (waiting sp n) < length (waiting sp n'))%nat →
  if orphan c t sp then ∀ th, th ∈ started c t → sp ∉ reads_of th
  else ∃ th, th ∈ started c t ∧ serves nofile th sp.
Proof.
  intros Hin Et Hl. destruct (turn_flow _ _ _ _ _ Et sp) as [[_ [d Ed]]|(w & Ew & Hw)].
  { rewrite Ed in Hl. cbn in Hl. lia. }
  destruct Hw as [->|Hw]; [rewrite Ew, app_nil_r in Hl; lia|].
  pose proof (started_written c t _ _ Hin Hw) as H. destruct (orphan c t sp); [exact H|].
  destruct H as (th & Hth & Hr). exists th. split; [done|by apply reads_serves].
Qed.

Lemma unread_kept nofile ev n n' r sp :
  sp ∉ reads_of (thread_of ev) → take_turn nofile ev n = Some (n', r) → waiting sp n `prefix_of` waiting sp n'.
Proof.
  intros Hin Et. destruct (turn_flow _ _ _ _ _ Et sp) as [[H _]|(w & -> & _)]; [done|]. by eexists.
Qed.

(** C35. What [main] starts is wired together.  When every library and thread can be
    loaded and created, a daemon that does not run the DHCP client starts the
    threads listed here for its type, in this order, and fits them in the twelve
    elements of [lib_db], so that the handler of SIGINT closes them all.  Whatever
    socket pair one of them ever writes, in any state, another of them serves: when
    a datagram waits there and none in the socket pairs that thread looks at first,
    a turn of it takes the datagram.  There are two exceptions, in which nobody ever
    takes one: the requests of the connection mapper in gateways, servers and cores,
    and those of the core's output thread when the DHT is not configured.  A node or
    a gateway configured for DHCP starts nothing: the command it prints into the 32
    bytes of [aux] needs at least 37. *)
Theorem startup_wiring nofile c t :
  node_type_of (getType c) = Some t →
  let r := nidd_main (λ _, true) (λ _, true) (λ _, true) c in
  let dns := if get_dns c =? 0 then [] else [thread_dnshandler] in
  let dht := if get_dht c =? 0 then [] else [thread_dht_update; thread_dht_get] in
  (get_dhcp c ≠ 0 → t = NODE ∨ t = GATEWAY → r = Fault)
  ∧ (get_dhcp c = 0 ∨ t = RVS ∨ t = CORE →
     ∃ sh su, r = Go (sh, su)
     ∧ su_threads su =
         match t with
         | NODE =>
             [thread_dhcp; thread_nidfilter; thread_ph_output; thread_ph_input; thread_nr_output;
              thread_nr_input; thread_rvs_update; thread_rvs_get; thread_mobility; thread_control]
             ++ dns
         | RVS =>
             [thread_nidfilter; thread_ph_output; thread_ph_input; thread_nr_output; thread_nr_input;
              thread_rvs_proxy_recv; thread_rvs_proxy_send; thread_control_rvs; thread_rvs_update;
              thread_rvs2gw] ++ dns
         | GATEWAY =>
             [thread_dhcp; thread_nidfilter; thread_ph_output; thread_ph_input; thread_nr_output_gw;
              thread_nr_input_gw; thread_mobility; thread_rvs_update; thread_control_gw;
              thread_gw_talker; thread_gw_listener] ++ dns
         | CORE =>
             [thread_nidfilter; thread_ph_output; thread_ph_input; thread_nr_output_core;
              thread_nr_input_gw; thread_control_gw_core; thread_gw_core_listener] ++ dht ++ dns
         end
     ∧ su_libs su = lib_of <$> su_threads su ∧ (catch_int su sh).1 = su_libs su
     ∧ ∀ ev n n' out sp,
         thread_of ev ∈ su_threads su → take_turn nofile ev n = Some (n', out) →
         (length (waiting sp n) < length (waiting sp n'))%nat →
         (∃ th, th ∈ su_threads su ∧ serves nofile th sp)
         ∨ ((sp = Cm2rvs ∧ t ≠ NODE ∨ sp = Dht ∧ t = CORE ∧ get_dht c = 0)
            ∧ ∀ ev' m m' out', thread_of ev' ∈ su_threads su → take_turn nofile ev' m = Some (m', out') →
                waiting sp m `prefix_of` waiting sp m')).
Proof.
  intros Ht r dns dht. destruct (main_starts c t Ht) as [Hf Hg]. unfold uses_dhcp in *. split.
  - intros Hd Hty. apply Hf. apply Z.eqb_neq in Hd. rewrite Hd. by destruct Hty as [-> | ->].
  - intros Hd. destruct Hg as (sh & su & E & Es & El & _ & Ec).
    { destruct Hd as [-> | [-> | ->]]; [done| |]; by rewrite andb_false_r. }
    exists sh, su. split; [exact E|]. split; [rewrite Es; by destruct t|].
    split; [by rewrite El, Es|]. split; [by rewrite Ec, El|]. rewrite Es. fold (started c t).
    intros ev n n' out sp Hin Et Hl. pose proof (started_serves nofile c t ev n n' out sp Hin Et Hl) as Hs.
    destruct (orphan c t sp) eqn:Eo; [right|by left]. split.
    + destruct sp; try discriminate Eo; [left|right]; cbn in Eo; destruct t; try discriminate Eo; try done.
      by apply Z.eqb_eq in Eo.
    + intros ev' m m' out' Hin' Et'. eapply unread_kept; [|exact Et']. by apply Hs.
Qed.

Definition dns_gateway : config := sample_config <| conf_type := 2 |> <| conf_dns := 1 |>.

(** A gateway with the DNS proxy opens twelve libraries, and what its input thread
    passes on for other nodes is served by its output thread; with DHCP it does not
    start. *)
Lemma startup_wiring_witness :
  (∃ sh su, nidd_main (λ _, true) (λ _, true) (λ _, true) dns_gateway = Go (sh, su)
     ∧ length (su_libs su) = 12%nat
     ∧ ∀ ev n n' out, thread_of ev = thread_nr_input_gw → take_turn 1024 ev n = Some (n', out) →
         (length (waiting Nr n) < length (waiting Nr n'))%nat →
         ∃ th, th ∈ su_threads su ∧ serves 1024 th Nr)
  ∧ nidd_main (λ _, true) (λ _, true) (λ _, true)
      (sample_config <| conf_dhcp := 1 |> <| conf_primaryIface := chars "eth0" |>) = Fault.
Proof.
  split.
  - destruct (startup_wiring 1024 dns_gateway GATEWAY) as [_ H]; [reflexivity|].
    destruct (H (or_introl eq_refl)) as (sh & su & E & Ht & Hl & _ & Hw).
    exists sh, su. split; [exact E|]. split; [rewrite Hl, Ht; reflexivity|].
    intros ev n n' out He Et Hlen. destruct (Hw ev n n' out Nr) as [?|[[[A _]|[A _]] _]]; try done.
    rewrite He, Ht. apply (bool_decide_unpack _). vm_compute. exact I.
  - destruct (startup_wiring 1024 (sample_config <| conf_dhcp := 1 |> <| conf_primaryIface := chars "eth0" |>) NODE)
      as [H _]; [reflexivity|].
    apply H; [discriminate|left; reflexivity].
Defined.
