(* ===== verification/MemoryProps.v ===== *)
(** The turns of the packet path on checked memory are the turns of the system:
    no access leaves its object, and the offsets of the members are those of the
    structures the turns are stated on. *)

From S2P Require Import Prelude NidTypes Inet InetProps HashTable Hash EntryTable Configuration.
From S2P Require Import QueueTable ConnectionMapper NidMapper RoutingTable Gwc Dhtc.
From S2P Require Import PacketHandler NidRouting Control Rvsc Nidd System SystemInv Memory.
From S2P Require Import CheckedTurns SystemProps.

Local Open Scope Z_scope.

(** ** Accesses to structures

    A structure is its members one after another, followed by what comes after
    it in the object; an access skips the members before the one it names. *)

Lemma mem_bind_Go {A B} (f : A → mem B) (m : mem A) o x o' :
  m o = Go (x, o') → (m ≫= f) o = f x o'.
Proof. intros E. unfold mbind, mem_bind. by rewrite E. Qed.

Definition after {A} (x : list Z) (r : outcome (A * list Z)) : outcome (A * list Z) :=
  '(v, o) ← r; Go (v, x ++ o).

Lemma load_skip x r m k n :
  length x = m → load (m + k) n (x ++ r) = after x (load k n r).
Proof.
  intros <-. unfold load, after. rewrite length_app, slice_app_r.
  repeat case_decide; try lia; done.
Qed.

Lemma load_here x r n : length x = n → load 0 n (x ++ r) = Go (x, x ++ r).
Proof.
  intros <-. unfold load. rewrite decide_True by (rewrite length_app; lia).
  unfold slice. by rewrite drop_0, take_app_length.
Qed.

Lemma store_skip x r m k y :
  length x = m → store (m + k) y (x ++ r) = after x (store k y r).
Proof.
  intros <-. unfold store, after. rewrite length_app, splice_app_r.
  repeat case_decide; try lia; done.
Qed.

Lemma store_here x y r : length y = length x → store 0 y (x ++ r) = Go ((), y ++ r).
Proof.
  intros Hl. unfold store. rewrite decide_True by (rewrite length_app; lia).
  unfold splice. by rewrite take_0, Hl, Nat.add_0_l, drop_app_length.
Qed.

Ltac len_of x :=
  lazymatch x with
  | le_bytes ?n _ => n
  | _ => lazymatch goal with H : length x = ?m |- _ => m end
  end.

Ltac lens := rewrite ?length_le_bytes; congruence.

(** One access to a member. *)
Ltac access :=
  lazymatch goal with
  | |- context [load ?off ?n (?x ++ ?r)] =>
      let m := len_of x in
      let off' := eval vm_compute in off in
      lazymatch off' with
      | O => change (load off n (x ++ r)) with (load 0 n (x ++ r));
             rewrite (load_here x r n) by lens
      | _ => let k := eval vm_compute in (off' - m)%nat in
             change (load off n (x ++ r)) with (load (m + k) n (x ++ r));
             rewrite (load_skip x r m k n) by lens
      end
  | |- context [store ?off ?y (?x ++ ?r)] =>
      let m := len_of x in
      let off' := eval vm_compute in off in
      lazymatch off' with
      | O => change (store off y (x ++ r)) with (store 0 y (x ++ r));
             rewrite (store_here x y r) by lens
      | _ => let k := eval vm_compute in (off' - m)%nat in
             change (store off y (x ++ r)) with (store (m + k) y (x ++ r));
             rewrite (store_skip x r m k y) by lens
      end
  end.

Ltac mem_simpl :=
  unfold mbind, mem_bind, mret, mem_ret, outcome_bind, outcome_ret, after; cbv beta iota.

Ltac accesses := unfold load_int, store_int; mem_simpl; repeat (access; mem_simpl).

(** The bytes of an object from a structure on. *)
Lemma header_split buf :
  buf_ok buf → buf = header_bytes (header_of buf) ++ payload buf.
Proof.
  intros [Hl Hb]. rewrite header_bytes_of; [|rewrite Hl; unfold nh_len, MAXBUFLEN; lia|done].
  symmetry. apply take_drop.
Qed.

Lemma put_header_app h h' p : header_ok h → header_ok h' →
  put_header h' (header_bytes h ++ p) = header_bytes h' ++ p.
Proof.
  intros H H'. unfold put_header, overlay.
  by rewrite length_header_bytes, <-(length_header_bytes h), drop_app_length.
Qed.

Lemma msg_split p :
  (nmsg_len ≤ length p)%nat → bytes_ok p → p = msg_bytes (msg_of p) ++ drop nmsg_len p.
Proof. intros Hl Hb. rewrite msg_bytes_of by done. symmetry. apply take_drop. Qed.

Lemma take_twice {A} n (l : list A) : take n (take n l) = take n l.
Proof. by rewrite take_take, Nat.min_id. Qed.

(** ** packetHandler.c *)

(** Writing from the start of an object that holds enough. *)
Lemma mem_send_ok n o :
  (n + nh_len ≤ length o)%nat → mem_send n o = Go (Some (take (n + nh_len) o), o).
Proof.
  intros H. unfold mem_send. rewrite sys_write_in by (rewrite Nat2Z.id; lia).
  rewrite (proj2 (Z.ltb_ge _ 0)) by lia. rewrite Nat2Z.id. unfold slice. by rewrite drop_0.
Qed.

(** Take structures apart. *)
Ltac sizes :=
  repeat match goal with
         | H : header_ok ?h |- _ => destruct H as (?&[]&[]&[]&[]); destruct h
         | H : msg_ok ?m |- _ => destruct H as (?&[]&[]&[]&[]&[]&?); destruct m
         | H : nid_ok _ |- _ => destruct H
         end;
  cbn [nh_type nh_srcNID nh_destNID nh_srcNIDgw nh_destNIDgw nm_type nm_srcNID nm_destNID
       nm_srcNIDgw nm_destNIDgw nm_nid nm_ip] in *.

Ltac flat := unfold header_bytes, msg_bytes; cbn [nh_type nh_srcNID nh_destNID nh_srcNIDgw
  nh_destNIDgw nm_type nm_srcNID nm_destNID nm_srcNIDgw nm_destNIDgw nm_nid nm_ip set_field
  eta_of eta_header eta_msg]; rewrite <-?app_assoc.

Lemma mem_header_nf {A} h p t g a b (k : mem A) :
  header_ok h → nid_ok g → nid_ok a → nid_ok b →
  (_ ← store_int at_type t; _ ← store at_srcNIDgw g; _ ← store at_destNID a;
   _ ← store at_destNIDgw b; k) (header_bytes h ++ p)
  = k (header_bytes (h <| nh_type := t |> <| nh_srcNIDgw := g |>
                          <| nh_destNID := a |> <| nh_destNIDgw := b |>) ++ p).
Proof. intros. sizes. flat. by accesses. Qed.

Lemma mem_copy_msg_nids_ok h m q :
  header_ok h → msg_ok m →
  mem_copy_msg_nids (header_bytes h ++ msg_bytes m ++ q)
  = Go ((), header_bytes (h <| nh_type := nm_type m |> <| nh_srcNID := nm_srcNID m |>
                            <| nh_destNID := nm_destNID m |>) ++ msg_bytes m ++ q).
Proof.
  intros. unfold mem_copy_msg_nids. sizes. flat. accesses. by rewrite le_val_bytes4.
Qed.

Lemma mem_copy_msg_gws h m q :
  header_ok h → msg_ok m →
  (s ← load (at_pt at_srcNIDgw) 16; _ ← store at_srcNIDgw s;
   d ← load (at_pt at_destNIDgw) 16; store at_destNIDgw d) (header_bytes h ++ msg_bytes m ++ q)
  = Go ((), header_bytes (h <| nh_srcNIDgw := nm_srcNIDgw m |>
                            <| nh_destNIDgw := nm_destNIDgw m |>) ++ msg_bytes m ++ q).
Proof. intros. sizes. flat. by accesses. Qed.

(** What the output thread does after the read, on the parts of its buffer. *)
Lemma load_payload off n h p :
  header_ok h → (off + n ≤ length p)%nat →
  load (at_pt off) n (header_bytes h ++ p) = Go (slice off n p, header_bytes h ++ p).
Proof. intros Hh Hl. apply load_right; [by apply length_header_bytes|done]. Qed.

Lemma mem_bind_bind {A B C} (m : mem A) (f : A → mem B) (g : B → mem C) o :
  (m ≫= (λ x, f x ≫= g)) o = ((m ≫= f) ≫= g) o.
Proof. unfold mbind, mem_bind. by destruct (m o) as [[]| | |]. Qed.

Lemma send_structs k h p :
  header_ok h → (k + nh_len ≤ nh_len + length p)%nat →
  mem_send k (header_bytes h ++ p) = Go (Some (take (k + nh_len) (header_bytes h ++ p)), header_bytes h ++ p).
Proof. intros Hh Hk. apply mem_send_ok. rewrite length_app, length_header_bytes by done. lia. Qed.

(** The header with members of a message. *)
Lemma msg_nids_header h m :
  header_ok h → msg_ok m →
  header_ok (h <| nh_type := nm_type m |> <| nh_srcNID := nm_srcNID m |>
               <| nh_destNID := nm_destNID m |>).
Proof. intros (?&?&?&?&?) (?&?&?&?&?&?&?). by split_and!. Qed.

Lemma msg_gws_header h m :
  header_ok h → msg_ok m →
  header_ok (h <| nh_srcNIDgw := nm_srcNIDgw m |> <| nh_destNIDgw := nm_destNIDgw m |>).
Proof. intros (?&?&?&?&?) (?&?&?&?&?&?&?). by split_and!. Qed.

Lemma send_msg_nids h m q k :
  header_ok h → msg_ok m → (k + nh_len ≤ nh_len + length (msg_bytes m ++ q))%nat →
  let buf := header_bytes h ++ msg_bytes m ++ q in
  let buf' := put_header (h <| nh_type := nm_type m |> <| nh_srcNID := nm_srcNID m |>
                            <| nh_destNID := nm_destNID m |>) buf in
  (_ ← mem_copy_msg_nids; mem_send k) buf = Go (Some (take (k + nh_len) buf'), buf').
Proof.
  intros Hh Hm Hk. cbv zeta. pose proof (msg_nids_header h m Hh Hm).
  rewrite (mem_bind_Go _ _ _ _ _ (mem_copy_msg_nids_ok h m q Hh Hm)).
  rewrite put_header_app by done. by apply send_structs.
Qed.

Lemma send_msg_gws h m q k :
  header_ok h → msg_ok m → (k + nh_len ≤ nh_len + length (msg_bytes m ++ q))%nat →
  let buf := header_bytes h ++ msg_bytes m ++ q in
  let buf' := put_header (h <| nh_srcNIDgw := nm_srcNIDgw m |>
                            <| nh_destNIDgw := nm_destNIDgw m |>) buf in
  (s ← load (at_pt at_srcNIDgw) 16; _ ← store at_srcNIDgw s;
   d ← load (at_pt at_destNIDgw) 16; _ ← store at_destNIDgw d; mem_send k) buf
  = Go (Some (take (k + nh_len) buf'), buf').
Proof.
  intros Hh Hm Hk. cbv zeta. pose proof (msg_gws_header h m Hh Hm) as Hh'.
  rewrite put_header_app by done. rewrite <-(send_structs k _ _ Hh' Hk).
  clear Hh' Hk. revert Hh Hm. generalize (mem_send k) as f. intros. sizes. flat. by accesses.
Qed.

Lemma mem_ph_output_ok src d core nm buf :
  buf_ok buf → bytes_ok d → nid_ok core → nm_nids_ok nm →
  mem_ph_output src d core nm buf
  = Go ((ph_output_step src d core nm buf).2, (ph_output_step src d core nm buf).1).
Proof.
  intros Hb Hd Hc [Hn]. unfold mem_ph_output, ph_output_step.
  pose proof (splice_ok (take ph_size d) buf Hb) as Hs.
  rewrite (mem_bind_Go _ _ _ (length (take ph_size d)) (splice nh_len (take ph_size d) buf));
    [|apply sys_read_in; destruct Hb as [-> _]; rewrite length_take; unfold ph_size, MAXBUFLEN, nh_len; lia].
  specialize (Hs ltac:(auto with nid) ltac:(rewrite length_take; lia)).
  assert (Hk : (length (take ph_size d) + nh_len ≤ MAXBUFLEN)%nat)
    by (rewrite length_take; unfold ph_size, MAXBUFLEN, nh_len; lia).
  revert Hk. generalize (length (take ph_size d)). intros k Hk.
  revert Hs. generalize (splice nh_len (take ph_size d) buf). clear buf Hb. intros buf Hb.
  pose proof (buf_msg_ok buf Hb) as Hm. destruct (payload_ok buf Hb) as [Hpb Hpl].
  pose proof (buf_header_ok buf Hb) as Hh. pose proof (header_split buf Hb) as Hsp.
  assert (Hml : (nmsg_len ≤ length (payload buf))%nat)
    by (rewrite Hpl; unfold nmsg_len, ph_size, MAXBUFLEN, nh_len; lia).
  pose proof (msg_split _ Hml Hpb) as Hmp.
  assert (Hkp : (k + nh_len ≤ nh_len + length (payload buf))%nat)
    by (rewrite Hpl; unfold ph_size, MAXBUFLEN, nh_len in *; lia).
  unfold ip_daddr.
  revert Hsp Hmp Hh Hm Hkp Hml.
  generalize (header_of buf) as h, (payload buf) as p. intros h p -> Hmp Hh Hm Hkp Hml.
  clear Hb Hpb Hpl.
  destruct src.
  - unfold load_int.
    rewrite (mem_bind_Go _ _ _ (le_val (slice 16 4 p)) (header_bytes h ++ p)).
    2:{ rewrite (mem_bind_Go _ _ _ (slice 16 4 p) (header_bytes h ++ p)); [done|].
        apply load_payload; [done|]. unfold nmsg_len in Hml. lia. }
    destruct (getNMEntry32 _ nm) as [e|] eqn:E; [|done].
    destruct (Hn _ _ E) as [H1 H2].
    rewrite mem_header_nf by done. cbn [fst snd]. rewrite put_header_app; [|done|].
    2:{ destruct Hh as (?&?&?&?&?). split_and!; simpl; try done. }
    rewrite send_structs; [done|destruct Hh as (?&?&?&?&?); split_and!; simpl; done|done].
  - revert Hmp Hm Hkp. generalize (msg_of p) as m, (drop nmsg_len p) as q. intros m q -> Hm Hkp.
    by apply send_msg_nids.
  - revert Hmp Hm Hkp. generalize (msg_of p) as m, (drop nmsg_len p) as q. intros m q -> Hm Hkp.
    by apply send_msg_nids.
  - revert Hmp Hm Hkp. generalize (msg_of p) as m, (drop nmsg_len p) as q. intros m q -> Hm Hkp.
    rewrite (mem_bind_Go _ _ _ _ _ (mem_copy_msg_nids_ok h _ _ Hh Hm)).
    pose proof (msg_nids_header h m Hh Hm) as Hh1. pose proof (msg_gws_header _ m Hh1 Hm) as Hh2.
    rewrite send_msg_gws by done. cbv zeta. by rewrite !put_header_app.
Qed.

(** [mem_ph_input] on the buffer after the read. *)
Lemma sys_write_payload len buf :
  buf_ok buf → (Z.to_nat len ≤ ph_size)%nat →
  sys_write nh_len len buf
  = Go (if len <? 0 then None else Some (take (Z.to_nat len) (payload buf)), buf).
Proof.
  intros [Hl _] H. rewrite sys_write_in; [done|].
  rewrite Hl. unfold ph_size, MAXBUFLEN, nh_len in *. lia.
Qed.

Lemma mem_raw_ok accepts proto len buf :
  buf_ok buf → (Z.to_nat len ≤ ph_size)%nat →
  mem_raw accepts proto len buf
  = match raw_sendto (λ _, accepts) (payload buf) len with
    | Some pkt => Go (ToRaw proto pkt, buf)
    | None => ProcessExit
    end.
Proof.
  intros Hb H. unfold mem_raw. rewrite (mem_bind_Go _ _ _ _ _ (sys_write_payload len buf Hb H)).
  unfold raw_sendto. destruct (len <? 0); [done|]. by destruct accepts.
Qed.

Lemma load_header_members buf :
  buf_ok buf →
  load at_srcNID 16 buf = Go (nh_srcNID (header_of buf), buf)
  ∧ load at_destNID 16 buf = Go (nh_destNID (header_of buf), buf)
  ∧ load at_srcNIDgw 16 buf = Go (nh_srcNIDgw (header_of buf), buf)
  ∧ load at_destNIDgw 16 buf = Go (nh_destNIDgw (header_of buf), buf)
  ∧ load_int at_type buf = Go (nh_type (header_of buf), buf).
Proof.
  intros Hb. pose proof (buf_header_ok buf Hb) as Hh. pose proof (header_split buf Hb) as Hsp.
  revert Hsp Hh. generalize (header_of buf) as h, (payload buf) as p. intros h p -> Hh.
  sizes. flat. split_and!; accesses; try done. by rewrite le_val_bytes4.
Qed.

Lemma read_buf d buf :
  buf_ok buf → bytes_ok d →
  sys_read d 0 MAXBUFLEN buf
  = Go (length (take MAXBUFLEN d), overlay (take MAXBUFLEN d) buf).
Proof.
  intros [Hl _] _. rewrite sys_read_in; [by rewrite <-overlay_splice|].
  rewrite Hl, length_take. lia.
Qed.

(** An outcome that comes with a state. *)
Definition with_state {A S} (r : outcome A) (s : S) : outcome (A * S) := x ← r; Go (x, s).

Lemma load_protocol buf :
  buf_ok buf → load (at_pt 9) 1 buf = Go (slice 9 1 (payload buf), buf).
Proof.
  intros Hb. pose proof (buf_header_ok buf Hb) as Hh.
  rewrite (header_split buf Hb) at 1 3. apply load_payload; [done|].
  destruct (payload_ok buf Hb) as [_ ->]. unfold ph_size, MAXBUFLEN, nh_len. lia.
Qed.

Lemma load_byte_at off pt : le_val (slice off 1 pt) = default 0 (pt !! off).
Proof.
  replace (pt !! off) with (drop off pt !! 0%nat) by (rewrite lookup_drop; f_equal; lia).
  unfold slice. destruct (drop off pt); [done|]. cbn [take le_val lookup list_lookup default]. simpl. lia.
Qed.

Lemma mem_ph_input_ok a d nm buf :
  buf_ok buf → bytes_ok d →
  mem_ph_input a d nm buf
  = let '(buf', nm', r) := ph_input_step (λ _, a) d nm buf in
    with_state (r ← r; Go (nm', r)) buf'.
Proof.
  intros Hb Hd. unfold mem_ph_input, ph_input_step.
  rewrite (mem_bind_Go _ _ _ _ _ (read_buf d buf Hb Hd)).
  pose proof (overlay_buf_ok d buf Hb Hd) as Ho.
  assert (Hk : (length (take MAXBUFLEN d) ≤ MAXBUFLEN)%nat) by (rewrite length_take; lia).
  revert Hk Ho. generalize (length (take MAXBUFLEN d)), (overlay (take MAXBUFLEN d) buf).
  clear buf Hb d Hd. intros k buf Hk Hb.
  destruct (load_header_members buf Hb) as (H1 & H2 & H3 & H4 & H5).
  rewrite (mem_bind_Go _ _ _ _ _ H1), (mem_bind_Go _ _ _ _ _ H3), (mem_bind_Go _ _ _ _ _ H5).
  set (len := Z.of_nat k - Z.of_nat nh_len).
  assert (Hlen : (Z.to_nat len ≤ ph_size)%nat) by (unfold len, ph_size, MAXBUFLEN, nh_len in *; lia).
  unfold ph_deliver, control_write.
  destruct (msg_type_of (nh_type (header_of buf))) as [[[]|[]]|]; try done;
    try (cbn beta; unfold mbind at 1, mem_bind at 1;
         rewrite (mem_bind_Go _ _ _ _ _ (sys_write_payload len buf Hb Hlen));
         by destruct (len <? 0)).
  unfold ip_protocol. rewrite <-load_byte_at.
  unfold mbind at 1, mem_bind at 1.
  rewrite (mem_bind_Go _ _ _ _ _ (load_protocol buf Hb)).
  destruct (_ =? IPPROTO_TCP); [rewrite mem_raw_ok by done; by destruct (raw_sendto _ _ _)|].
  destruct (_ =? IPPROTO_UDP); [rewrite mem_raw_ok by done; by destruct (raw_sendto _ _ _)|].
  destruct (_ =? IPPROTO_ICMP); [rewrite mem_raw_ok by done; by destruct (raw_sendto _ _ _)|].
  done.
Qed.

(** ** nid_routing.c *)

Lemma mem_sendto_ok ip k buf :
  buf_ok buf → (k ≤ MAXBUFLEN)%nat → mem_sendto ip k buf = Go ([Udp ip (take k buf)], buf).
Proof.
  intros [Hl _] Hk. unfold mem_sendto, mbind, mem_bind.
  rewrite sys_write_in by (rewrite Hl, Nat2Z.id; lia).
  rewrite (proj2 (Z.ltb_ge _ 0)) by lia. rewrite Nat2Z.id. unfold slice. by rewrite drop_0.
Qed.

(** The buffer after the read, with what is to be known of it. *)
Ltac after_read Hb Hd :=
  rewrite (mem_bind_Go _ _ _ _ _ (read_buf _ _ Hb Hd));
  let Ho := fresh "Ho" in let Hk := fresh "Hk" in
  pose proof (overlay_buf_ok _ _ Hb Hd) as Ho;
  match type of Ho with
  | buf_ok (overlay (take MAXBUFLEN ?d) ?b) =>
      assert (Hk : (length (take MAXBUFLEN d) ≤ MAXBUFLEN)%nat) by (rewrite length_take; lia);
      revert Hk Ho; generalize (length (take MAXBUFLEN d)), (overlay (take MAXBUFLEN d) b);
      clear b Hb d Hd; intros k buf Hk Hb
  end.

Lemma mem_nr_output_ok d ck e buf :
  buf_ok buf → bytes_ok d →
  mem_nr_output d ck e buf
  = let '(buf', e', (ip, pkt)) := nr_output_step d ck buf e in Go (e', [Udp ip pkt], buf').
Proof.
  intros Hb Hd. unfold mem_nr_output, nr_output_step. after_read Hb Hd.
  destruct (load_header_members buf Hb) as (_ & H2 & _).
  rewrite (mem_bind_Go _ _ _ _ _ H2). unfold hdr_destNID.
  destruct (getCMEntry _ ck e) as [[e' f] ip].
  by rewrite (mem_bind_Go _ _ _ _ _ (mem_sendto_ok ip k buf Hb Hk)).
Qed.

Lemma mem_nr_output_gw_ok src d ck now e rt buf :
  buf_ok buf → bytes_ok d →
  mem_nr_output_gw src d ck now e rt buf
  = let '(buf', e', rt', (ip, pkt)) := nr_output_gw_step src d ck now buf e rt in
    Go (e', rt', [Udp ip pkt], buf').
Proof.
  intros Hb Hd. unfold mem_nr_output_gw, nr_output_gw_step. after_read Hb Hd.
  destruct (load_header_members buf Hb) as (_ & H2 & _).
  rewrite (mem_bind_Go _ _ _ _ _ H2). unfold hdr_destNID.
  destruct src.
  - destruct (getCMEntry _ ck e) as [[e' f] ip]. destruct (f =? 0).
    + rewrite (mem_bind_Go _ _ _ _ _ H2). destruct (getRTEntry _ now rt) as [[rt' f'] ip'].
      by rewrite (mem_bind_Go _ _ _ _ _ (mem_sendto_ok ip' k buf Hb Hk)).
    + by rewrite (mem_bind_Go _ _ _ _ _ (mem_sendto_ok ip k buf Hb Hk)).
  - destruct (getRTEntry _ now rt) as [[rt' f'] ip'].
    by rewrite (mem_bind_Go _ _ _ _ _ (mem_sendto_ok ip' k buf Hb Hk)).
Qed.

Lemma mem_core_route_ok k now now1 now2 rt reg dht buf :
  buf_ok buf → (k ≤ MAXBUFLEN)%nat →
  mem_core_route k now now1 now2 rt reg dht buf
  = let '(rt', dht', ip) :=
      core_route (hdr_destNID buf) (hdr_destNIDgw buf) now now1 now2 rt reg dht in
    Go (rt', dht', match ip with Some ip => [Udp ip (take k buf)] | None => [] end, buf).
Proof.
  intros Hb Hk. unfold mem_core_route, core_route.
  destruct (load_header_members buf Hb) as (_ & H2 & _ & H4 & _).
  rewrite (mem_bind_Go _ _ _ _ _ H2). unfold hdr_destNID, hdr_destNIDgw.
  destruct (getRTEntry _ now rt) as [[rt' f] ip]. destruct (f =? 0);
    [|by rewrite (mem_bind_Go _ _ _ _ _ (mem_sendto_ok _ k buf Hb Hk))].
  rewrite (mem_bind_Go _ _ _ _ _ H2). destruct (getRegistry _ reg) as [f' ip'].
  destruct (f' =? 0); [|by rewrite (mem_bind_Go _ _ _ _ _ (mem_sendto_ok _ k buf Hb Hk))].
  rewrite (mem_bind_Go _ _ _ _ _ H4).
  destruct (getDHTEntry _ now1 now2 dht) as [[dht' f''] [ip''|]]; destruct (f'' =? 0); try done.
  by rewrite (mem_bind_Go _ _ _ _ _ (mem_sendto_ok _ k buf Hb Hk)).
Qed.

Lemma mem_nr_output_core_ok src d ck now now1 now2 e rt reg dht buf :
  buf_ok buf → bytes_ok d →
  mem_nr_output_core src d ck now now1 now2 e rt reg dht buf
  = let '(buf', e', rt', dht', out) :=
      nr_output_core_step src d ck now now1 now2 buf e rt reg dht in
    Go (e', (rt', dht', match out with Some (ip, pkt) => [Udp ip pkt] | None => [] end), buf').
Proof.
  intros Hb Hd. unfold mem_nr_output_core, nr_output_core_step. after_read Hb Hd.
  destruct (load_header_members buf Hb) as (_ & H2 & _).
  pose proof (mem_core_route_ok k now now1 now2 rt reg dht buf Hb Hk) as Hr.
  destruct (core_route _ _ now now1 now2 rt reg dht) as [[rt' dht'] ip'] eqn:Er.
  destruct src; [rewrite (mem_bind_Go _ _ _ _ _ H2); unfold hdr_destNID at 1;
    destruct (getCMEntry _ ck e) as [[e' f] ip]; destruct (f =? 0)|].
  - rewrite (mem_bind_Go _ _ _ _ _ Hr). cbn [fst snd]. by destruct ip'.
  - by rewrite (mem_bind_Go _ _ _ _ _ (mem_sendto_ok ip k buf Hb Hk)).
  - rewrite (mem_bind_Go _ _ _ _ _ Hr). cbn [fst snd]. by destruct ip'.
Qed.

(** What [write (fd, buf, recv_bytes)] sends. *)
Definition written (buf : list Z) (n : Z) : option (list Z) :=
  if n <? 0 then None else Some (take (Z.to_nat n) buf).

Lemma opt_write_written buf n c : opt_write (written buf n) c = chan_write_len buf n c.
Proof. unfold written, chan_write_len. by destruct (n <? 0). Qed.

Lemma mem_recvfrom_ok r l :
  nri_ok l → recv_ok r →
  mem_recvfrom r (nri_addr l) (nri_buf l)
  = Go ((recvfrom r l).1, nri_addr (recvfrom r l).2, nri_buf (recvfrom r l).2)
  ∧ ((recvfrom r l).1 ≤ Z.of_nat MAXBUFLEN).
Proof.
  intros [Hb Ha] Hr. destruct r as [from d|]; [|done]. destruct Hr as [_ Hd].
  unfold mem_recvfrom, recvfrom. rewrite (mem_bind_Go _ _ _ _ _ (read_buf d _ Hb Hd)).
  split; [done|]. cbn [fst]. rewrite length_take. lia.
Qed.

Lemma mem_nr_input_ok nid r now l cm :
  nri_ok l → recv_ok r →
  mem_nr_input nid r now (nri_addr l) cm (nri_buf l)
  = let '(n, l) := recvfrom r l in
    let w := written (nri_buf l) n in
    if decide (hdr_destNID (nri_buf l) = nid) then
      Go (nri_addr l, newCMEntry (nh_srcNID (header_of (nri_buf l))) (nri_addr l) now cm, w, None,
          nri_buf l)
    else Go (nri_addr l, cm, None, w, nri_buf l).
Proof.
  intros Hl Hr. destruct (mem_recvfrom_ok r l Hl Hr) as [E Hn].
  destruct (recvfrom_ok r l Hl Hr) as [Hb _].
  unfold mem_nr_input. rewrite (mem_bind_Go _ _ _ _ _ E).
  destruct (recvfrom r l) as [n l']. cbn [fst snd] in *.
  destruct (load_header_members _ Hb) as (H1 & H2 & _).
  assert (Hw : sys_write 0 n (nri_buf l') = Go (written (nri_buf l') n, nri_buf l')).
  { rewrite sys_write_in by (rewrite (proj1 Hb); lia). unfold slice. by rewrite drop_0. }
  rewrite (mem_bind_Go _ _ _ _ _ H2). unfold hdr_destNID. case_decide.
  - rewrite (mem_bind_Go _ _ _ _ _ H1). by rewrite (mem_bind_Go _ _ _ _ _ Hw).
  - by rewrite (mem_bind_Go _ _ _ _ _ Hw).
Qed.

(** ** Messages *)

Lemma read_message d m :
  bytes_ok d → msg_ok m →
  ∃ k, sys_read d 0 nmsg_len (msg_bytes m) = Go (k, msg_bytes (read_msg d m)).
Proof.
  intros Hd Hm. exists (length (take nmsg_len d)).
  pose proof (length_msg_bytes m Hm) as Hl.
  assert (Ho : length (overlay (take nmsg_len d) (msg_bytes m)) = nmsg_len)
    by (rewrite length_overlay; rewrite ?length_take; lia).
  rewrite sys_read_in by (rewrite Hl, length_take; lia).
  rewrite <-overlay_splice. unfold read_msg.
  rewrite msg_bytes_of; [|by rewrite Ho|auto with nid].
  by rewrite (take_ge (overlay _ _)) by (rewrite Ho; lia).
Qed.

Lemma msg_bytes_self m : msg_ok m → msg_of (msg_bytes m) = m.
Proof. apply msg_of_self. Qed.

(** The object of a message alone, with its end. *)
Lemma msg_object m : msg_bytes m = msg_bytes m ++ [].
Proof. by rewrite app_nil_r. Qed.

Lemma write_message m :
  msg_ok m → mem_write_msg (msg_bytes m) = Go (Some (msg_bytes m), msg_bytes m).
Proof.
  intros Hm. pose proof (length_msg_bytes m Hm) as Hl. unfold mem_write_msg.
  rewrite sys_write_in by (rewrite Hl, Nat2Z.id; lia). rewrite Nat2Z.id.
  change (Z.of_nat nmsg_len <? 0) with false. cbv iota.
  by rewrite <-Hl, slice_all.
Qed.

Lemma load_msg_members m :
  msg_ok m →
  load_int at_type (msg_bytes m) = Go (nm_type m, msg_bytes m)
  ∧ load at_srcNIDgw 16 (msg_bytes m) = Go (nm_srcNIDgw m, msg_bytes m)
  ∧ load at_nid 16 (msg_bytes m) = Go (nm_nid m, msg_bytes m)
  ∧ load_int at_ip (msg_bytes m) = Go (nm_ip m, msg_bytes m).
Proof.
  intros Hm. rewrite (msg_object m). sizes. flat.
  split_and!; accesses; try done; by rewrite le_val_bytes4.
Qed.

(** One assignment. *)
Lemma store_msg_type z m :
  msg_ok m → store_int at_type z (msg_bytes m) = Go ((), msg_bytes (m <| nm_type := z |>)).
Proof. intros. rewrite (msg_object m), (msg_object (_ <| _ := _ |>)). sizes. flat. by accesses. Qed.

Lemma store_msg_srcNID x m :
  nid_ok x → msg_ok m → store at_srcNID x (msg_bytes m) = Go ((), msg_bytes (m <| nm_srcNID := x |>)).
Proof. intros. rewrite (msg_object m), (msg_object (_ <| _ := _ |>)). sizes. flat. by accesses. Qed.

Lemma store_msg_destNID x m :
  nid_ok x → msg_ok m → store at_destNID x (msg_bytes m) = Go ((), msg_bytes (m <| nm_destNID := x |>)).
Proof. intros. rewrite (msg_object m), (msg_object (_ <| _ := _ |>)). sizes. flat. by accesses. Qed.

Lemma store_msg_srcNIDgw x m :
  nid_ok x → msg_ok m →
  store at_srcNIDgw x (msg_bytes m) = Go ((), msg_bytes (m <| nm_srcNIDgw := x |>)).
Proof. intros. rewrite (msg_object m), (msg_object (_ <| _ := _ |>)). sizes. flat. by accesses. Qed.

Lemma store_msg_destNIDgw x m :
  nid_ok x → msg_ok m →
  store at_destNIDgw x (msg_bytes m) = Go ((), msg_bytes (m <| nm_destNIDgw := x |>)).
Proof. intros. rewrite (msg_object m), (msg_object (_ <| _ := _ |>)). sizes. flat. by accesses. Qed.

Lemma store_msg_nid x m :
  nid_ok x → msg_ok m → store at_nid x (msg_bytes m) = Go ((), msg_bytes (m <| nm_nid := x |>)).
Proof. intros. rewrite (msg_object m), (msg_object (_ <| _ := _ |>)). sizes. flat. by accesses. Qed.

Lemma store_msg_ip z m :
  msg_ok m → store_int at_ip z (msg_bytes m) = Go ((), msg_bytes (m <| nm_ip := z |>)).
Proof. intros. rewrite (msg_object m), (msg_object (_ <| _ := _ |>)). sizes. flat. by accesses. Qed.

Ltac mstep H := rewrite (mem_bind_Go _ _ _ _ _ H).

(** A program over a message, from its bytes. *)
Lemma on_msg_Go {A} (p : mem A) m x m' :
  msg_ok m' → p (msg_bytes m) = Go (x, msg_bytes m') → on_msg p m = Go (x, m').
Proof.
  intros Hm E. unfold on_msg, mbind, outcome_bind. rewrite E. by rewrite msg_bytes_self.
Qed.

(** ** control.c *)

Lemma mem_newCMEntry_ok now cm m :
  msg_ok m →
  mem_newCMEntry now cm (msg_bytes m)
  = Go (newCMEntry (nm_nid m) (nm_ip m) now cm, msg_bytes m).
Proof.
  intros Hm. destruct (load_msg_members m Hm) as (_ & _ & H3 & H4).
  unfold mem_newCMEntry. mstep H3. by mstep H4.
Qed.

Lemma mem_delCMEntry_ok cm m :
  msg_ok m → mem_delCMEntry cm (msg_bytes m) = Go (delCMEntry (nm_nid m) cm, msg_bytes m).
Proof.
  intros Hm. destruct (load_msg_members m Hm) as (_ & _ & H3 & _).
  unfold mem_delCMEntry. by mstep H3.
Qed.

Section control.
Variables (d : list Z) (m : NID_msg) (now : Z).
Hypotheses (Hd : bytes_ok d) (Hm : msg_ok m).

Let m' := read_msg d m.

Lemma control_msg_ok : msg_ok m'.
Proof. by apply read_msg_ok. Qed.

Lemma mem_control_ok e :
  on_msg (mem_control d now e) m
  = let '(m, e) := control_step d m now e in Go (e, m).
Proof.
  apply on_msg_Go; [apply control_msg_ok|]. unfold mem_control, control_step. fold m'.
  destruct (read_message d m Hd Hm) as [k Hr]. fold m' in Hr. mstep Hr.
  destruct (load_msg_members m' control_msg_ok) as (H1 & _ & H3 & H4). mstep H1.
  destruct (msg_type_of (nm_type m')) as [[[]|[]]|]; try done.
  - by mstep (mem_newCMEntry_ok now (env_cm e) m' control_msg_ok).
  - by mstep (mem_delCMEntry_ok (env_cm e) m' control_msg_ok).
  - mstep H4. destruct (nm_ip m' =? 0); [done|]. cbn [negb]. mstep H3.
    by mstep (mem_newCMEntry_ok now (env_cm e) m' control_msg_ok).
Qed.

Lemma mem_control_rvs_ok cm c :
  ∃ w, on_msg (mem_control_rvs d now cm) m
       = Go ((control_rvs_step d m now cm c).1.2, w, (control_rvs_step d m now cm c).1.1)
       ∧ opt_write w c = (control_rvs_step d m now cm c).2.
Proof.
  unfold control_rvs_step. fold m'. destruct (read_message d m Hd Hm) as [k Hr]. fold m' in Hr.
  destruct (load_msg_members m' control_msg_ok) as (H1 & _ & H3 & H4).
  destruct (msg_type_of (nm_type m')) as [[[]|[]]|] eqn:Et;
    (eexists; split; [apply on_msg_Go; [apply control_msg_ok|]; unfold mem_control_rvs; mstep Hr; mstep H1; rewrite Et;
       first [done | by mstep (mem_newCMEntry_ok now cm m' control_msg_ok)
             | by mstep (mem_delCMEntry_ok cm m' control_msg_ok) | by mstep (write_message m' control_msg_ok)]|done]).
Qed.

Lemma mem_control_gw_ok cm c :
  ∃ w, on_msg (mem_control_gw d now cm) m
       = Go ((control_gw_step d m now cm c).1.2, w, (control_gw_step d m now cm c).1.1)
       ∧ opt_write w c = (control_gw_step d m now cm c).2.
Proof.
  unfold control_gw_step. fold m'. destruct (read_message d m Hd Hm) as [k Hr]. fold m' in Hr.
  destruct (load_msg_members m' control_msg_ok) as (H1 & _ & H3 & H4).
  destruct (msg_type_of (nm_type m')) as [[[]|[]]|] eqn:Et;
    (eexists; split; [apply on_msg_Go; [apply control_msg_ok|]; unfold mem_control_gw; mstep Hr; mstep H1; rewrite Et;
       first [done | by mstep (mem_newCMEntry_ok now cm m' control_msg_ok)
             | by mstep (mem_delCMEntry_ok cm m' control_msg_ok) | by mstep (write_message m' control_msg_ok)]|done]).
Qed.

Lemma mem_control_gw_core_ok cm reg c :
  let s := control_gw_core_step d m now cm reg c in
  ∃ w, on_msg (mem_control_gw_core d now cm reg) m = Go (s.1.1.2, s.1.2, w, s.1.1.1)
       ∧ opt_write w c = s.2.
Proof.
  cbv zeta. unfold control_gw_core_step. fold m'.
  destruct (read_message d m Hd Hm) as [k Hr]. fold m' in Hr.
  destruct (load_msg_members m' control_msg_ok) as (H1 & _ & H3 & H4).
  destruct (msg_type_of (nm_type m')) as [[[]|[]]|] eqn:Et;
    (eexists; split; [apply on_msg_Go; [apply control_msg_ok|]; unfold mem_control_gw_core; mstep Hr; mstep H1;
       rewrite Et;
       first [done | by mstep (mem_newCMEntry_ok now cm m' control_msg_ok)
             | by mstep (mem_delCMEntry_ok cm m' control_msg_ok) | by mstep (write_message m' control_msg_ok)
             | mstep H3; by mstep H4]|done]).
Qed.
End control.

(** ** gwc.c *)

Lemma mem_set_locator_ok locator m :
  msg_ok m → mem_set_locator locator (msg_bytes m) = Go ((), msg_bytes (set_locator locator m)).
Proof.
  intros Hm. unfold mem_set_locator, set_locator, pton4_into.
  destruct (inet_pton_in _) as [ip|]; [by apply store_msg_ip|by destruct m].
Qed.

Lemma mem_gw_listener_ok d m now rt :
  bytes_ok d → msg_ok m →
  on_msg (mem_gw_listener d now rt) m
  = let '(m, rt, out) := gw_listener_step d m now rt in Go (rt, Some out, m).
Proof.
  intros Hd Hm. assert (Hm' : msg_ok (read_msg d m)) by auto with nid.
  apply on_msg_Go; [done|]. unfold mem_gw_listener. destruct (read_message d m Hd Hm) as [k Hr].
  mstep Hr. destruct (load_msg_members _ Hm') as (_ & _ & H3 & H4). mstep H3. mstep H4.
  by mstep (write_message _ Hm').
Qed.

Lemma msg_with_type z m : msg_ok m → nid32_ok z → msg_ok (m <| nm_type := z |>).
Proof. intros. solve_msg. Qed.

Lemma msg_with_srcNID x m : msg_ok m → nid_ok x → msg_ok (m <| nm_srcNID := x |>).
Proof. intros. solve_msg. Qed.

Lemma msg_with_destNID x m : msg_ok m → nid_ok x → msg_ok (m <| nm_destNID := x |>).
Proof. intros. solve_msg. Qed.

Lemma msg_with_srcNIDgw x m : msg_ok m → nid_ok x → msg_ok (m <| nm_srcNIDgw := x |>).
Proof. intros. solve_msg. Qed.

Lemma msg_with_destNIDgw x m : msg_ok m → nid_ok x → msg_ok (m <| nm_destNIDgw := x |>).
Proof. intros. solve_msg. Qed.

Lemma nm_srcNIDgw_ok m : msg_ok m → nid_ok (nm_srcNIDgw m).
Proof. by intros (?&?&?&?&?). Qed.

Lemma ctrl_type_ok t : nid32_ok (nid_ctrl_type_val t).
Proof. by destruct t. Qed.

#[local] Hint Resolve msg_with_type msg_with_srcNID msg_with_destNID msg_with_srcNIDgw
  msg_with_destNIDgw nm_srcNIDgw_ok ctrl_type_ok : nid.

Lemma mem_gw_core_listener_ok nid locator d m now rt reg :
  nid_ok nid → bytes_ok d → msg_ok m →
  on_msg (mem_gw_core_listener nid locator d now rt reg) m
  = let '(m, rt, reg, out) := gw_core_listener_step nid locator d m now rt reg in
    Go (rt, reg, out, m).
Proof.
  intros Hn Hd Hm. assert (Hm' : msg_ok (read_msg d m)) by auto with nid.
  unfold mem_gw_core_listener, gw_core_listener_step.
  destruct (read_message d m Hd Hm) as [k Hr].
  destruct (load_msg_members _ Hm') as (_ & H2 & H3 & H4).
  unfold on_msg. revert Hm' Hr H2 H3 H4. generalize (read_msg d m). intros m' Hm' Hr H2 H3 H4.
  rewrite (mem_bind_Go _ _ _ _ _ Hr), (mem_bind_Go _ _ _ _ _ H3), (mem_bind_Go _ _ _ _ _ H4).
  rewrite (mem_bind_Go _ _ _ _ _ H2). case_decide as Hg.
  - mstep H3. unfold mret, mem_ret, mbind, outcome_bind. by rewrite msg_bytes_self.
  - set (m1 := m' <| nm_type := _ |>). set (m2 := m1 <| nm_srcNID := nid |>).
    set (m3 := m2 <| nm_destNID := nm_srcNIDgw m2 |>).
    set (m4 := m3 <| nm_destNIDgw := nm_srcNIDgw m3 |>).
    set (m5 := m4 <| nm_srcNIDgw := nid |>).
    assert (H1 : msg_ok m1) by (unfold m1; auto with nid).
    assert (Hm2 : msg_ok m2) by (unfold m2; auto with nid).
    assert (Hm3 : msg_ok m3) by (unfold m3; auto with nid).
    assert (Hm4 : msg_ok m4) by (unfold m4; auto with nid).
    assert (Hm5 : msg_ok m5) by (unfold m5; auto with nid).
    mstep (store_msg_type (nid_ctrl_type_val REDIRECT_CORE) m' Hm').
    mstep (store_msg_srcNID nid m1 Hn H1).
    mstep (proj1 (proj2 (load_msg_members m2 Hm2))).
    mstep (store_msg_destNID _ m2 (nm_srcNIDgw_ok m2 Hm2) Hm2).
    mstep (proj1 (proj2 (load_msg_members m3 Hm3))).
    mstep (store_msg_destNIDgw _ m3 (nm_srcNIDgw_ok m3 Hm3) Hm3).
    mstep (store_msg_srcNIDgw nid m4 Hn Hm4).
    mstep (mem_set_locator_ok locator m5 Hm5).
    mstep (write_message _ (set_locator_ok locator m5 Hm5)).
    unfold mret, mem_ret, mbind, outcome_bind. by rewrite msg_bytes_self by (by apply set_locator_ok).
Qed.

Lemma mem_gw_talker_ok c locator d m :
  conf_ok c → bytes_ok d → msg_ok m →
  on_msg (mem_gw_talker c locator d) m
  = let '(m, out) := gw_talker_step c locator d m in Go (Some out, m).
Proof.
  intros Hc Hd Hm. assert (Hm' : msg_ok (read_msg d m)) by auto with nid.
  pose proof (gw_talker_msg c locator d m Hc Hd Hm) as Hw.
  apply on_msg_Go; [done|]. unfold mem_gw_talker. destruct (read_message d m Hd Hm) as [k Hr].
  mstep Hr. mstep (store_msg_type (nid_ctrl_type_val REGISTRY) _ Hm').
  pose proof (msg_with_type _ _ Hm' (ctrl_type_ok REGISTRY)) as H1.
  pose proof (conf_ok_nidgw c Hc) as Hg. mstep (store_msg_destNID (getNIDgw c) _ Hg H1).
  pose proof (msg_with_destNID (getNIDgw c) _ H1 Hg) as H2.
  mstep (mem_set_locator_ok locator _ H2). by apply write_message.
Qed.

(** ** rvsc.c *)

Lemma mem_copy_members_ok swap m :
  msg_ok m →
  mem_copy_members swap (msg_bytes m)
  = Go (msg_bytes (if swap then m <| nm_srcNID := nm_destNID m |> <| nm_destNID := nm_srcNID m |>
                   else m), msg_bytes m).
Proof.
  intros Hm. rewrite (msg_object m). unfold mem_copy_members. sizes.
  destruct swap; flat; accesses; by rewrite ?app_nil_r.
Qed.

Lemma mem_rvs_proxy_send_ok d m sent_ok :
  bytes_ok d → msg_ok m →
  on_msg (mem_rvs_proxy_send d sent_ok) m
  = '(m, out) ← rvs_proxy_send_step d m sent_ok; Go (out, m).
Proof.
  intros Hd Hm. assert (Hm' : msg_ok (read_msg d m)) by auto with nid.
  unfold on_msg, mem_rvs_proxy_send, rvs_proxy_send_step.
  destruct (read_message d m Hd Hm) as [k Hr]. rewrite (mem_bind_Go _ _ _ _ _ Hr).
  rewrite (mem_bind_Go _ _ _ _ _ (mem_copy_members_ok false _ Hm')).
  destruct sent_ok; [|done]. unfold mret, mem_ret, mbind, outcome_bind.
  rewrite msg_bytes_self by done. by destruct (read_msg d m).
Qed.

Lemma msg_type_bytes m : nid32_ok (nm_type m) → le_val (slice at_type 4 (msg_bytes m)) = nm_type m.
Proof.
  intros Hm. transitivity (le_val (le_bytes 4 (nm_type m))); [by f_equal|by apply le_val_bytes4].
Qed.

Lemma mem_rvs_proxy_recv_ok d m :
  (∀ b, d = Some b → bytes_ok b) → msg_ok m →
  on_msg (mem_rvs_proxy_recv d) m
  = let '(m, out, ack) := rvs_proxy_recv_step d m in Go (out, ack, m).
Proof.
  intros Hd Hm. unfold mem_rvs_proxy_recv, rvs_proxy_recv_step.
  set (m' := match d with Some d => read_msg d m | None => m end).
  assert (Hm' : msg_ok m') by (unfold m'; destruct d; [apply read_msg_ok; auto|done]).
  assert (∃ k, match d with Some d => sys_read d 0 nmsg_len | None => mret 0%nat end (msg_bytes m)
               = Go (k, msg_bytes m')) as [k Hr].
  { unfold m'. destruct d; [apply read_message; auto|by eexists]. }
  clearbody m'. apply on_msg_Go; [done|]. mstep Hr. mstep (mem_copy_members_ok true m' Hm').
  rewrite msg_type_bytes by (destruct Hm' as [? _]; by destruct m'). by destruct m'.
Qed.

Lemma mem_rvs_update_ok c locator m :
  conf_ok c → msg_ok m →
  on_msg (mem_rvs_update c locator) m
  = let '(m, out) := rvs_update_step c locator m in Go (Some out, m).
Proof.
  intros Hc Hm. pose proof (rvs_update_msg c locator m Hc Hm) as Hw.
  pose proof (conf_ok_nidrvs c Hc) as Hg.
  apply on_msg_Go; [done|]. unfold mem_rvs_update.
  mstep (store_msg_destNID (getNIDrvs c) m Hg Hm).
  pose proof (msg_with_destNID (getNIDrvs c) m Hm Hg) as H2.
  mstep (mem_set_locator_ok locator _ H2). by apply write_message.
Qed.

(** The requests on [sp_cm2rvs] are identifiers. *)
Lemma mem_rvs_get_ok c d m :
  conf_ok c → nid_ok d → msg_ok m →
  on_msg (mem_rvs_get c d) m
  = '(m, out) ← rvs_get_step c (take nmsg_len d) m; Go (Some out, m).
Proof.
  intros Hc Hd Hm. pose proof (conf_ok_nidrvs c Hc) as Hg. pose proof (proj1 Hd) as Hl.
  rewrite take_ge by (rewrite Hl; unfold nmsg_len; lia).
  rewrite <-(take_ge d 16) at 2 by lia. rewrite rvs_get_step_nid by done.
  set (m2 := m <| nm_nid := d |>). pose proof (length_msg_bytes m Hm) as Hlm.
  assert (H2 : msg_ok m2) by (unfold m2; solve_msg).
  pose proof (msg_with_destNID (getNIDrvs c) m2 H2 Hg) as H3.
  apply on_msg_Go; [done|]. unfold mem_rvs_get.
  assert (Hr : sys_read d at_nid nmsg_len (msg_bytes m) = Go (16%nat, msg_bytes m2)).
  { rewrite sys_read_in; rewrite (take_ge d) by (rewrite Hl; unfold nmsg_len; lia).
    - by rewrite Hl, splice_nid.
    - rewrite Hl, Hlm. unfold at_nid, nmsg_len. lia. }
  mstep Hr. mstep (store_msg_destNID (getNIDrvs c) m2 Hg H2). by apply write_message.
Qed.

Lemma mem_rvs2gw_ok c d m :
  conf_ok c → bytes_ok d → msg_ok m →
  on_msg (mem_rvs2gw c d) m = let '(m, out) := rvs2gw_step c d m in Go (Some out, m).
Proof.
  intros Hc Hd Hm. assert (Hm' : msg_ok (read_msg d m)) by auto with nid.
  pose proof (rvs2gw_msg c d m Hc Hd Hm) as Hw. pose proof (conf_ok_nidgw c Hc) as Hg.
  apply on_msg_Go; [done|]. unfold mem_rvs2gw. destruct (read_message d m Hd Hm) as [k Hr].
  mstep Hr. mstep (store_msg_type (nid_ctrl_type_val REGISTRY) _ Hm').
  pose proof (msg_with_type _ _ Hm' (ctrl_type_ok REGISTRY)) as H1.
  mstep (store_msg_destNID (getNIDgw c) _ Hg H1). by apply write_message.
Qed.
(** ** The turns *)

(** How a turn ends: with the node and what is sent, or without. *)
Definition ended (t : node * outcome (list packet)) : outcome (node * list packet) :=
  out ← t.2; Go (t.1, out).

Lemma checked_ph_output_eq n : node_ok n → checked_ph_output n = ended <$> turn_ph_output n.
Proof.
  intros H. unfold checked_ph_output, turn_ph_output. pose proof (node_channels n H) as Hc.
  destruct (ph_select _ _ _ _) as [[src d]|] eqn:E; [|done].
  assert (Hd : bytes_ok d) by (eapply ph_select_ok; [..|exact E]; apply Hc).
  cbn [mbind option_bind]. rewrite mem_ph_output_ok;
    [|apply (node_locals n H)|done|apply (node_nidcore n H)|apply (node_nids n H)].
  by destruct (ph_output_step _ _ _ _ _) as [buf out].
Qed.

(** The first datagram of a channel. *)
Lemma chan_head d c : chan_ok (d :: c) → bytes_ok d.
Proof. by intros [? ?]%Forall_cons. Qed.

Lemma ph_input_step_take a d nm buf :
  ph_input_step a (take MAXBUFLEN d) nm buf = ph_input_step a d nm buf.
Proof. unfold ph_input_step. by rewrite take_twice. Qed.

Lemma checked_ph_input_eq a n : node_ok n → checked_ph_input a n = ended <$> turn_ph_input a n.
Proof.
  intros H. unfold checked_ph_input, turn_ph_input. pose proof (ok_nr2ph _ (node_channels n H)) as Hc.
  destruct (c_nr2ph (n_ch n)) as [|d c]; [done|]. apply chan_head in Hc.
  cbn [chan_read mbind option_bind].
  rewrite mem_ph_input_ok, ph_input_step_take; [|apply (node_locals n H)|done].
  destruct (ph_input_step _ _ _ _) as [[buf nm] [[]| | |]]; done.
Qed.

Lemma checked_nr_output_eq ck n : node_ok n → checked_nr_output ck n = ended <$> turn_nr_output ck n.
Proof.
  intros H. unfold checked_nr_output, turn_nr_output.
  pose proof (ok_ph2nr _ (node_channels n H)) as Hc.
  destruct (c_ph2nr (n_ch n)) as [|d c]; [done|]. apply chan_head in Hc.
  cbn [chan_read mbind option_bind].
  rewrite mem_nr_output_ok by (done || apply (node_locals n H)).
  unfold nr_output_step at 2. rewrite take_twice.
  fold (nr_output_step d ck (l_nr_output (n_loc n)) (sh_cm (n_sh n))).
  by destruct (nr_output_step _ _ _ _) as [[buf e] [ip pkt]].
Qed.

Lemma nr_source_of_select ch :
  nr_select ch = '(src, d, ch) ← nr_source_of ch; Some (src, take MAXBUFLEN d, ch).
Proof. unfold nr_select, nr_source_of. by destruct (c_ph2nr ch), (c_nr ch). Qed.

Lemma nr_source_of_ok ch src d ch' :
  channels_ok ch → nr_source_of ch = Some (src, d, ch') → bytes_ok d.
Proof.
  intros Hc E. unfold nr_source_of in E.
  pose proof (ok_ph2nr _ Hc) as H1. pose proof (ok_nr _ Hc) as H2.
  destruct (c_ph2nr ch), (c_nr ch); simplify_eq; by eapply chan_head.
Qed.

Lemma checked_nr_output_gw_eq ck now n :
  node_ok n → checked_nr_output_gw ck now n = ended <$> turn_nr_output_gw ck now n.
Proof.
  intros H. unfold checked_nr_output_gw, turn_nr_output_gw. rewrite nr_source_of_select.
  destruct (nr_source_of (n_ch n)) as [[[src d] ch]|] eqn:E; [|done].
  apply nr_source_of_ok in E; [|apply H]. cbn [mbind option_bind].
  rewrite mem_nr_output_gw_ok by (done || apply (node_locals n H)).
  unfold nr_output_gw_step at 2. rewrite take_twice.
  fold (nr_output_gw_step src d ck now (l_nr_output (n_loc n)) (sh_cm (n_sh n)) (sh_rt (n_sh n))).
  by destruct (nr_output_gw_step _ _ _ _ _ _ _) as [[[buf e] rt] [ip pkt]].
Qed.

Lemma checked_nr_output_core_eq ck now now1 now2 n :
  node_ok n →
  checked_nr_output_core ck now now1 now2 n = ended <$> turn_nr_output_core ck now now1 now2 n.
Proof.
  intros H. unfold checked_nr_output_core, turn_nr_output_core. rewrite nr_source_of_select.
  destruct (nr_source_of (n_ch n)) as [[[src d] ch]|] eqn:E; [|done].
  apply nr_source_of_ok in E; [|apply H]. cbn [mbind option_bind].
  rewrite mem_nr_output_core_ok by (done || apply (node_locals n H)).
  unfold nr_output_core_step at 2. rewrite take_twice.
  fold (nr_output_core_step src d ck now now1 now2 (l_nr_output (n_loc n)) (sh_cm (n_sh n))
          (sh_rt (n_sh n)) (sh_registry (n_sh n)) (sh_dht (n_sh n))).
  by destruct (nr_output_core_step _ _ _ _ _ _ _ _ _ _ _) as [[[[buf e] rt] dht] out].
Qed.

Lemma checked_nr_input_eq r now n :
  node_ok n → recv_ok r → checked_nr_input r now n = ended <$> turn_nr_input r now n.
Proof.
  intros H Hr. unfold checked_nr_input, turn_nr_input, nr_input_step.
  rewrite mem_nr_input_ok by (done || apply (node_locals n H)).
  destruct (recvfrom r _) as [k [buf addr]]. cbn [nri_buf nri_addr]. unfold hdr_destNID.
  by case_decide; rewrite <-?opt_write_written.
Qed.

Lemma checked_nr_input_gw_eq r now n :
  node_ok n → recv_ok r → checked_nr_input_gw r now n = ended <$> turn_nr_input_gw r now n.
Proof.
  intros H Hr. unfold checked_nr_input_gw, turn_nr_input_gw, nr_input_gw_step.
  rewrite mem_nr_input_ok by (done || apply (node_locals n H)).
  destruct (recvfrom r _) as [k [buf addr]]. cbn [nri_buf nri_addr]. unfold hdr_destNID.
  by case_decide; rewrite <-?opt_write_written.
Qed.

(** A message is read once: the channel has cut it already. *)
Lemma read_msg_take d m : read_msg (take nmsg_len d) m = read_msg d m.
Proof. unfold read_msg. by rewrite take_twice. Qed.

Lemma control_step_take d m now e :
  control_step (take nmsg_len d) m now e = control_step d m now e.
Proof. unfold control_step. by rewrite read_msg_take. Qed.

Lemma checked_control_eq now n : node_ok n → checked_control now n = ended <$> turn_control now n.
Proof.
  intros H. unfold checked_control, turn_control. pose proof (ok_ph2co _ (node_channels n H)) as Hc.
  destruct (c_ph2co (n_ch n)) as [|d c]; [done|]. apply chan_head in Hc.
  cbn [chan_read mbind option_bind].
  rewrite mem_control_ok, control_step_take by (done || apply (node_locals n H)).
  by destruct (control_step _ _ _ _).
Qed.

Lemma checked_control_rvs_eq now n :
  node_ok n → checked_control_rvs now n = ended <$> turn_control_rvs now n.
Proof.
  intros H. unfold checked_control_rvs, turn_control_rvs.
  pose proof (ok_ph2co _ (node_channels n H)) as Hc.
  destruct (c_ph2co (n_ch n)) as [|d c]; [done|]. apply chan_head in Hc.
  cbn [chan_read mbind option_bind].
  destruct (mem_control_rvs_ok d (l_control (n_loc n)) now Hc (ok_control _ (node_locals n H))
              (env_cm (sh_cm (n_sh n))) (c_co2rvs (n_ch n))) as (w & -> & Hw).
  unfold control_rvs_step in *. rewrite read_msg_take.
  revert Hw. destruct (msg_type_of _) as [[[]|[]]|]; cbn [fst snd]; intros <-; done.
Qed.

Lemma checked_control_gw_eq now n :
  node_ok n → checked_control_gw now n = ended <$> turn_control_gw now n.
Proof.
  intros H. unfold checked_control_gw, turn_control_gw.
  pose proof (ok_ph2co _ (node_channels n H)) as Hc.
  destruct (c_ph2co (n_ch n)) as [|d c]; [done|]. apply chan_head in Hc.
  cbn [chan_read mbind option_bind].
  destruct (mem_control_gw_ok d (l_control (n_loc n)) now Hc (ok_control _ (node_locals n H))
              (env_cm (sh_cm (n_sh n))) (c_co2gwl (n_ch n))) as (w & -> & Hw).
  unfold control_gw_step in *. rewrite read_msg_take.
  revert Hw. destruct (msg_type_of _) as [[[]|[]]|]; cbn [fst snd]; intros <-; done.
Qed.

Lemma checked_control_gw_core_eq now n :
  node_ok n → checked_control_gw_core now n = ended <$> turn_control_gw_core now n.
Proof.
  intros H. unfold checked_control_gw_core, turn_control_gw_core.
  pose proof (ok_ph2co _ (node_channels n H)) as Hc.
  destruct (c_ph2co (n_ch n)) as [|d c]; [done|]. apply chan_head in Hc.
  cbn [chan_read mbind option_bind].
  destruct (mem_control_gw_core_ok d (l_control (n_loc n)) now Hc (ok_control _ (node_locals n H))
              (env_cm (sh_cm (n_sh n))) (sh_registry (n_sh n)) (c_co2gwl (n_ch n)))
    as (w & -> & Hw).
  unfold control_gw_core_step in *. rewrite read_msg_take.
  revert Hw. destruct (msg_type_of _) as [[[]|[]]|]; cbn [fst snd]; intros <-; done.
Qed.

Lemma checked_gw_listener_eq now n :
  node_ok n → checked_gw_listener now n = ended <$> turn_gw_listener now n.
Proof.
  intros H. unfold checked_gw_listener, turn_gw_listener.
  pose proof (ok_co2gwl _ (node_channels n H)) as Hc.
  destruct (c_co2gwl (n_ch n)) as [|d c]; [done|]. apply chan_head in Hc.
  cbn [chan_read mbind option_bind].
  rewrite mem_gw_listener_ok by (done || apply (node_locals n H)).
  unfold gw_listener_step. by rewrite read_msg_take.
Qed.

Lemma checked_gw_core_listener_eq locator now n :
  node_ok n → checked_gw_core_listener locator now n = ended <$> turn_gw_core_listener locator now n.
Proof.
  intros H. unfold checked_gw_core_listener, turn_gw_core_listener.
  pose proof (ok_co2gwl _ (node_channels n H)) as Hc.
  destruct (c_co2gwl (n_ch n)) as [|d c]; [done|]. apply chan_head in Hc.
  cbn [chan_read mbind option_bind].
  rewrite mem_gw_core_listener_ok by (done || apply (node_locals n H) || apply (node_conf n H)).
  unfold gw_core_listener_step. rewrite read_msg_take. by case_decide.
Qed.

Lemma talker_select_len ch d ch' :
  channels_ok ch → talker_select ch = Some (d, ch') → bytes_ok d.
Proof.
  intros Hc E. unfold talker_select in E.
  pose proof (ok_rvs2gwt _ Hc) as H1. pose proof (ok_gwl2gwt _ Hc) as H2.
  destruct (c_rvs2gwt ch), (c_gwl2gwt ch); simplify_eq; by eapply chan_head.
Qed.

Lemma checked_gw_talker_eq locator n :
  node_ok n → checked_gw_talker locator n = ended <$> turn_gw_talker locator n.
Proof.
  intros H. unfold checked_gw_talker, turn_gw_talker.
  destruct (talker_select (n_ch n)) as [[d ch]|] eqn:E; [|done].
  apply talker_select_len in E; [|apply H]. cbn [mbind option_bind].
  by rewrite mem_gw_talker_ok by (done || apply (node_locals n H) || apply (node_conf n H)).
Qed.

Lemma checked_rvs_update_eq locator n :
  node_ok n → checked_rvs_update locator n = ended <$> turn_rvs_update locator n.
Proof.
  intros H. unfold checked_rvs_update, turn_rvs_update.
  by rewrite mem_rvs_update_ok by (done || apply (node_locals n H) || apply (node_conf n H)).
Qed.

Lemma checked_rvs_get_eq n : node_ok n → checked_rvs_get n = ended <$> turn_rvs_get n.
Proof.
  intros H. unfold checked_rvs_get, turn_rvs_get. pose proof (node_cm2rvs n H) as Hc.
  destruct (sp_cm2rvs _) as [|d c]; [done|]. apply Forall_cons in Hc as [Hd Hc].
  cbn [chan_read mbind option_bind].
  set (n' := set_field n_sh _ n).
  assert (Hn : node_conf n H = node_conf n H) by done.
  rewrite mem_rvs_get_ok by (done || apply (node_locals n H) || apply (node_conf n H)).
  by destruct (rvs_get_step _ _ _) as [[m out]| | |].
Qed.

Lemma checked_rvs_proxy_send_eq b n :
  node_ok n → checked_rvs_proxy_send b n = ended <$> turn_rvs_proxy_send b n.
Proof.
  intros H. unfold checked_rvs_proxy_send, turn_rvs_proxy_send.
  pose proof (ok_co2rvs _ (node_channels n H)) as Hc.
  destruct (c_co2rvs (n_ch n)) as [|d c]; [done|]. apply chan_head in Hc.
  cbn [chan_read mbind option_bind].
  rewrite mem_rvs_proxy_send_ok by (done || apply (node_locals n H)).
  unfold rvs_proxy_send_step. rewrite read_msg_take. by destruct b.
Qed.

Lemma checked_rvs_proxy_recv_eq d n :
  node_ok n → (∀ b, d = Some b → bytes_ok b) →
  checked_rvs_proxy_recv d n = ended <$> turn_rvs_proxy_recv d n.
Proof.
  intros H Hd. unfold checked_rvs_proxy_recv, turn_rvs_proxy_recv.
  rewrite mem_rvs_proxy_recv_ok by (done || apply (node_locals n H)).
  by destruct (rvs_proxy_recv_step _ _) as [[m out] ack].
Qed.

Lemma checked_rvs2gw_eq n : node_ok n → checked_rvs2gw n = ended <$> turn_rvs2gw n.
Proof.
  intros H. unfold checked_rvs2gw, turn_rvs2gw.
  pose proof (ok_rvs2gwt _ (node_channels n H)) as Hc.
  destruct (c_rvs2gwt (n_ch n)) as [|d c]; [done|]. apply chan_head in Hc.
  cbn [chan_read mbind option_bind].
  rewrite mem_rvs2gw_ok by (done || apply (node_locals n H) || apply (node_conf n H)).
  unfold rvs2gw_step. by rewrite read_msg_take.
Qed.

(** ** No access outside an object *)

(** The threads that carry packets and messages. *)
Definition packet_path : list thread :=
  [thread_ph_output; thread_ph_input; thread_nr_output; thread_nr_output_gw;
   thread_nr_output_core; thread_nr_input; thread_nr_input_gw; thread_control;
   thread_control_rvs; thread_control_gw; thread_control_gw_core; thread_gw_listener;
   thread_gw_core_listener; thread_gw_talker; thread_rvs_update; thread_rvs_get;
   thread_rvs_proxy_send; thread_rvs_proxy_recv; thread_rvs2gw].

Lemma packet_path_safe t : t ∈ packet_path → t ∉ unsafe_threads.
Proof.
  intros Hp Hu. unfold unsafe_threads in Hu. rewrite !elem_of_cons in Hu.
  destruct Hu as [->|[->|[->|[->|Hu]]]]; [..|by apply elem_of_nil in Hu];
    revert Hp; apply (bool_decide_unpack (_ ∉ _)); vm_compute; exact I.
Qed.

Lemma checked_turn_eq nofile ev n :
  node_ok n → event_ok ev → thread_of ev ∈ packet_path →
  checked_turn ev n = ended <$> take_turn nofile ev n.
Proof.
  intros H Hev Hp.
  destruct ev; cbn [checked_turn take_turn thread_of] in *;
    try (apply (bool_decide_unpack _) in Hp; done);
    try (exfalso; revert Hp; apply (bool_decide_unpack (_ ∉ _)); vm_compute; exact I).
  - by apply checked_ph_output_eq.
  - by apply checked_ph_input_eq.
  - by apply checked_nr_output_eq.
  - by apply checked_nr_output_gw_eq.
  - by apply checked_nr_output_core_eq.
  - by apply checked_nr_input_eq.
  - by apply checked_nr_input_gw_eq.
  - by apply checked_control_eq.
  - by apply checked_control_rvs_eq.
  - by apply checked_control_gw_eq.
  - by apply checked_control_gw_core_eq.
  - by apply checked_gw_listener_eq.
  - by apply checked_gw_core_listener_eq.
  - by apply checked_gw_talker_eq.
  - by apply checked_rvs_update_eq.
  - by apply checked_rvs_get_eq.
  - by apply checked_rvs_proxy_send_eq.
  - apply checked_rvs_proxy_recv_eq; [done|]. by intros b ->.
  - by apply checked_rvs2gw_eq.
Qed.

(** C4. Memory safety of the packet path, by refinement: in every state of the
    invariant, the turn of a thread of the packet handler, the router, the
    control, gateway and rendezvous threads, run on the bytes of its buffer or
    message with every read and write checked against the size of that object
    and every member at its offset in the packed structure, never accesses a
    byte outside the object, and reads, writes and sends exactly what the turn
    of the system does. *)
Theorem packet_path_memory_safe nofile ev n :
  node_ok n → event_ok ev → thread_of ev ∈ packet_path →
  checked_turn ev n = ended <$> take_turn nofile ev n ∧ checked_turn ev n ≠ Some Fault.
Proof.
  intros H Hev Hp. pose proof (checked_turn_eq nofile ev n H Hev Hp) as E.
  split; [done|]. rewrite E. intros Hf.
  destruct (take_turn nofile ev n) as [[n' r]|] eqn:Et; [|done].
  apply (turn_no_fault nofile ev n n' r); [done| |done|].
  - by apply packet_path_safe.
  - by destruct r.
Qed.

Lemma packet_path_memory_safe_witness :
  is_Some (checked_turn EvPhOutput capturing)
  ∧ checked_turn EvPhOutput capturing = ended <$> take_turn 1024 EvPhOutput capturing.
Proof.
  split; [vm_compute; by eexists|].
  apply (packet_path_memory_safe 1024 EvPhOutput capturing); [exact capturing_ok|exact I|].
  apply (bool_decide_unpack _). vm_compute. exact I.
Defined.
