(* ===== verification/NetworkProps.v ===== *)
(** A session follows a node that moves: the run of a network of three daemons
    in which a node gets another address, its peer hears of it through the
    gateway, and a packet of the peer reaches the node at the new address. *)

From S2P Require Import Prelude NidTypes Inet HashTable Hash LList EntryTable Configuration.
From S2P Require Import QueueTable ConnectionMapper NidMapper RoutingTable Gwc Dhtc PacketHandler.
From S2P Require Import NidRouting Control Rvsc Mobility DnsHandler Dhcp Nidd NidFilter System.
From S2P Require Import SystemInv Network MapperProps PacketProps RvsProps SystemProps.

Local Open Scope Z_scope.

(** ** Runs of one daemon *)

Lemma run_ok nofile evs n n' out :
  node_ok n → Forall event_ok evs → run nofile evs n = Some (n', out) → node_ok n'.
Proof.
  intros Hn He. revert n out Hn. induction He as [|ev evs He _ IH]; intros n out Hn E; cbn [run] in E.
  { by injection E as -> <-. }
  destruct (node_step nofile ev n) as [[[n1|] o]|] eqn:E1; [|done..].
  destruct (run nofile evs n1) as [[n2 o2]|] eqn:E2; [|done]. injection E as -> <-.
  eapply IH; [|exact E2]. exact (node_step_ok _ _ _ _ _ Hn He E1).
Qed.

Lemma run_one nofile ev n n' out :
  thread_of ev ∈ n_threads n → take_turn nofile ev n = Some (n', Go out) →
  run nofile [ev] n = Some (n', out).
Proof.
  intros Ht E. cbn [run]. rewrite (node_step_go _ _ _ _ _ Ht E). cbn [mbind option_bind].
  by rewrite app_nil_r.
Qed.

(** A lookup for another identifier leaves a binding, and the gateway. *)
Lemma getCMEntry_frame nid ck e n :
  env_ok e → nid ≠ n →
  cm_get (env_cm (getCMEntry nid ck e).1.1) n = cm_get (env_cm e) n
  ∧ cm_gatewayIP (env_cm (getCMEntry nid ck e).1.1) = cm_gatewayIP (env_cm e).
Proof.
  intros [Hc Hq] Hne. unfold getCMEntry, cm_unknown.
  repeat case_match; cbn; try done; split; try done;
    rewrite cm_get_newCMEntry by auto with nid; rewrite decide_False by done; [|done].
  rewrite cm_get_delCMEntry by done. by rewrite decide_False.
Qed.

(** ** Turns with a message *)

Lemma message_packet m h :
  header_ok h → msg_ok m →
  (nh_len ≤ length (header_bytes h ++ msg_bytes m) ≤ MAXBUFLEN)%nat
  ∧ header_of (header_bytes h ++ msg_bytes m) = h.
Proof.
  intros Hh Hm. rewrite length_app, length_header_bytes, length_msg_bytes by done.
  split; [unfold nh_len, nmsg_len, MAXBUFLEN; lia|by apply header_of_bytes].
Qed.

(** The header in front of message [m]. *)
Definition heads (m : NID_msg) (h : NID_header) : Prop :=
  header_ok h ∧ nh_type h = nm_type m ∧ nh_srcNID h = nm_srcNID m ∧ nh_destNID h = nm_destNID m.

Lemma turn_ph_output_message n src m :
  node_ok n → msg_ok m → src ≠ FromNf →
  ph_select (c_nf2ph (n_ch n)) (c_rvs2ph (n_ch n)) (c_mo2ph (n_ch n)) (c_gwt2ph (n_ch n))
  = Some (src, msg_bytes m) →
  ∃ h buf, heads m h ∧
    turn_ph_output n
    = Some (n <| n_loc ::= (λ l, l <| l_ph_output := buf |>) |>
              <| n_ch := ph_pop src (n_ch n) <| c_ph2nr ::= chan_write (header_bytes h ++ msg_bytes m) |> |>,
            Go []).
Proof.
  intros Hn Hm Hs E. unfold turn_ph_output. rewrite E. cbn [mbind option_bind].
  pose proof (ok_ph_output _ (node_locals n Hn)) as Hb.
  pose proof (encapsulate_message src m (n_nidcore n) (sh_nm (n_sh n)) _ Hb Hm Hs) as Ho.
  destruct (ph_output_step src _ _ _ _) as [buf out]. cbn [snd] in Ho. subst out.
  eexists _, buf. split; [|reflexivity]. destruct (buf_header_ok _ Hb) as (?&?&?&?&?).
  destruct Hm as (?&?&?&?&?&?&?). by destruct src; split_and!.
Qed.

Lemma turn_nr_output_sends n d ck :
  c_ph2nr (n_ch n) = [d] → (nh_len ≤ length d ≤ MAXBUFLEN)%nat →
  let r := getCMEntry (hdr_destNID d) ck (sh_cm (n_sh n)) in
  ∃ buf, turn_nr_output ck n
         = Some (n <| n_loc ::= (λ l, l <| l_nr_output := buf |>) |>
                   <| n_sh ::= (λ s, s <| sh_cm := r.1.1 |>) |>
                   <| n_ch ::= (λ ch, ch <| c_ph2nr := [] |>) |>, Go [Udp r.2 d]).
Proof.
  intros Hc [L M] r. unfold turn_nr_output. rewrite Hc. cbn [chan_read mbind option_bind].
  unfold nr_output_step. rewrite !(take_ge d) by lia.
  pose proof (header_overlay d (l_nr_output (n_loc n)) L M) as Hh. rewrite take_ge in Hh by lia.
  unfold hdr_destNID at 1. rewrite Hh. fold (hdr_destNID d). subst r.
  destruct (getCMEntry _ ck _) as [[e f] ip]. rewrite take_overlay. by eexists.
Qed.

(** What sending leaves as it was: the threads, the configuration and the
    queues of the input. *)
Record same_input (n n' : node) : Prop := {
  same_threads : n_threads n' = n_threads n;
  same_conf : sh_conf (n_sh n') = sh_conf (n_sh n);
  same_nr2ph : c_nr2ph (n_ch n') = c_nr2ph (n_ch n);
  same_nf2ph : c_nf2ph (n_ch n') = c_nf2ph (n_ch n);
}.

Lemma same_input_trans n1 n2 n3 : same_input n1 n2 → same_input n2 n3 → same_input n1 n3.
Proof. intros [] []. split; congruence. Qed.

(** The binding of [peer], and the gateway. *)
Record same_peer (peer : NID) (n n' : node) : Prop := {
  same_binding : cm_get (env_cm (sh_cm (n_sh n'))) peer = cm_get (env_cm (sh_cm (n_sh n))) peer;
  same_gateway : cm_gatewayIP (env_cm (sh_cm (n_sh n'))) = cm_gatewayIP (env_cm (sh_cm (n_sh n)));
}.

Lemma same_peer_trans peer n1 n2 n3 : same_peer peer n1 n2 → same_peer peer n2 n3 → same_peer peer n1 n3.
Proof. intros [] []. split; congruence. Qed.

(** A node whose output threads run and have nothing to send but messages. *)
Record sending (n : node) : Prop := {
  sending_ok : node_ok n;
  sending_ph : thread_ph_output ∈ n_threads n;
  sending_nr : thread_nr_output ∈ n_threads n;
  sending_nf : c_nf2ph (n_ch n) = [];
  sending_out : c_ph2nr (n_ch n) = [];
}.

Definition send_turns (ck : cm_clock) : list event := [EvPhOutput; EvNrOutput ck].

(** One message, from either queue. *)
Lemma send_one nofile ck n src m peer :
  sending n → msg_ok m → src ≠ FromNf →
  ph_select (c_nf2ph (n_ch n)) (c_rvs2ph (n_ch n)) (c_mo2ph (n_ch n)) (c_gwt2ph (n_ch n))
  = Some (src, msg_bytes m) →
  ∃ n' h, heads m h
    ∧ run nofile (send_turns ck) n
      = Some (n', [Udp (getCMEntry (nm_destNID m) ck (sh_cm (n_sh n))).2 (header_bytes h ++ msg_bytes m)])
    ∧ sending n' ∧ same_input n n' ∧ (nm_destNID m ≠ peer → same_peer peer n n')
    ∧ c_rvs2ph (n_ch n') = c_rvs2ph (ph_pop src (n_ch n))
    ∧ c_mo2ph (n_ch n') = c_mo2ph (ph_pop src (n_ch n)).
Proof.
  intros [Hn Tp Tn Hnf Hout] Hm Hs Hsel.
  destruct (turn_ph_output_message n src m Hn Hm Hs Hsel) as (h & buf & Hh & E1). set (n1 := _ <| n_ch := _ |>) in E1.
  destruct (message_packet m h (proj1 Hh) Hm) as [Hl Hd]. set (d := header_bytes h ++ msg_bytes m) in *.
  assert (C1 : c_ph2nr (n_ch n1) = [d]) by (subst n1; cbn; destruct src; cbn; by rewrite Hout).
  assert (Hdst : hdr_destNID d = nm_destNID m) by (unfold hdr_destNID; rewrite Hd; apply Hh).
  destruct (turn_nr_output_sends n1 d ck C1 Hl) as (buf2 & E2). rewrite Hdst in E2.
  change (sh_cm (n_sh n1)) with (sh_cm (n_sh n)) in E2. set (n2 := _ <| n_ch ::= _ |>) in E2.
  assert (E : run nofile (send_turns ck) n = Some (n2, [Udp (getCMEntry (nm_destNID m) ck (sh_cm (n_sh n))).2 d])).
  { change [Udp ?a ?b] with ([] ++ [Udp a b] ++ []).
    eapply run_cons; [apply node_step_go; [exact Tp|exact E1]|].
    eapply run_cons; [apply node_step_go; [exact Tn|exact E2]|done]. }
  assert (Hn2 : node_ok n2) by (eapply run_ok; [exact Hn| |exact E]; by repeat constructor).
  exists n2, h. split_and!; [done|exact E| | | |by destruct src|by destruct src].
  - split; try done. cbn. by destruct src.
  - split; by destruct src.
  - intros Hne. destruct (getCMEntry_frame (nm_destNID m) ck (sh_cm (n_sh n)) peer) as [F1 F2];
      [apply Hn|done|by split].
Qed.

(** Messages for others, until that for [peer]. *)
Lemma send_until nofile ck peer ms rest n :
  sending n → c_rvs2ph (n_ch n) = [] → c_mo2ph (n_ch n) = (msg_bytes <$> ms) ++ rest →
  Forall (λ m, msg_ok m ∧ nm_destNID m ≠ peer) ms →
  ∃ n' out, run nofile (mjoin (replicate (length ms) (send_turns ck))) n = Some (n', out)
    ∧ (∀ a, length (omap (sent_by a) out) = length ms) ∧ (∀ i, omap (local_output i) out = [])
    ∧ sending n' ∧ same_input n n' ∧ same_peer peer n n'
    ∧ c_rvs2ph (n_ch n') = [] ∧ c_mo2ph (n_ch n') = rest.
Proof.
  intros Hs Hr Hmo Hf. revert n Hs Hr Hmo. induction Hf as [|m ms [Hm Hp] _ IH]; intros n Hs Hr Hmo.
  { exists n, []. by split_and!. }
  destruct (send_one nofile ck n FromMo m peer Hs Hm) as (n1 & h & _ & E1 & S1 & I1 & P1 & R1 & M1); [done| |].
  { rewrite (sending_nf n Hs), Hr, Hmo. reflexivity. }
  destruct (IH n1) as (n2 & out & E2 & L2 & O2 & S2 & I2 & P2 & R2 & M2); [done|by rewrite R1|by rewrite M1; cbn; rewrite Hmo|].
  exists n2. eexists. split; [cbn [length replicate]; by eapply run_app|]. split_and!; try done.
  - intros a. cbn. by rewrite L2.
  - by eapply same_input_trans.
  - eapply same_peer_trans; [by apply P1|done].
Qed.

(** ** The node that moves *)

Lemma rvs_update_message c a :
  conf_ok c → ∃ m, rvs_update c a = msg_bytes m ∧ msg_ok m ∧ nm_destNID m = getNIDrvs c.
Proof.
  intros [].
  exists (set_locator a (mkMsg (rvs_msg_type_val RVS_UPDATE) (getNID c) (getNIDrvs c) nid_zero nid_zero (getNID c) 0)).
  split; [reflexivity|]. split; [|done]. apply set_locator_ok.
  apply msg_zero_with_nids; done || apply nid_zero_ok || by unfold nid32_ok.
Qed.

Lemma redirect_ok c peer a : conf_ok c → nid_ok peer → nid32_ok a → msg_ok (redirect_msg (getNID c) peer a).
Proof. intros [] Hp Ha. split_and!; done || apply nid_zero_ok || by unfold nid32_ok. Qed.

(** A binding that is listed, for a peer that is neither the gateway nor the
    rendezvous server, is gone after the move. *)
Lemma updateCMconf_drops c now s peer ce :
  cm_ok s → cm_get s peer = Some ce → is_listed now ce = true →
  peer ≠ getNIDgw c → peer ≠ getNIDrvs c →
  cm_get (updateCMconf c (λ _, now) (λ _, now) s) peer = None
  ∧ cm_gatewayIP (updateCMconf c (λ _, now) (λ _, now) s) = getGatewayIP c.
Proof.
  intros Hs Hg Hl H1 H2. split; [|done]. rewrite updateCMconf_spec by done.
  rewrite !decide_False by done. unfold survivor. case_decide; [done|]. by rewrite Hg, Hl.
Qed.

Definition move_event (a now : Z) : event :=
  EvMobility (Some RTM_NEWADDR) (λ _, a) a (λ _, now) (λ _, now) (λ _, now).

(** The turns in which the news of a move leave: for the rendezvous server, for
    [k] other peers, for the peer. *)
Definition move_turns (a now : Z) (ck : cm_clock) (k : nat) : list event :=
  move_event a now :: send_turns ck ++ mjoin (replicate k (send_turns ck)) ++ send_turns ck.

Lemma mover_tells_peer nofile n a now ck peer ce :
  sending n → thread_mobility ∈ n_threads n → c_rvs2ph (n_ch n) = [] → c_mo2ph (n_ch n) = [] →
  let c := sh_conf (n_sh n) in
  get_mobility c = mobility_types_val INTRADOMAIN → l_mo_count (n_loc n) = 1 → nid32_ok a → nid_ok peer →
  cm_get (env_cm (sh_cm (n_sh n))) peer = Some ce → is_listed now ce = true →
  peer ≠ getNIDgw c → peer ≠ getNIDrvs c →
  let m := redirect_msg (getNID c) peer a in
  ∃ k n' out h, heads m h
    ∧ run nofile (move_turns a now ck k) n
      = Some (n', out ++ [Udp (getGatewayIP c) (header_bytes h ++ msg_bytes m)])
    ∧ length (omap (sent_by a) out) = S k ∧ (∀ i, omap (local_output i) out = [])
    ∧ node_ok n' ∧ same_input n n'.
Proof.
  intros Hs Tm Hr Hmo c Hin Hct Ha Hpeer Hg Hl Hgw Hrv m. pose proof (sending_ok n Hs) as Hn.
  pose proof (node_conf n Hn) as Hc.
  set (s0 := env_cm (sh_cm (n_sh n))) in *. assert (Hcm : cm_ok s0) by apply Hn.
  (* the mobility turn *)
  destruct (mobility_redirects_peers c (λ _, a) a (λ _, now) (λ _, now) (λ _, now)
    (mkMo 1 s0 [] [])) as [Em _]; [done|done|cbn; lia|].
  rewrite decide_False in Em by done.
  assert (Hin' : peer ∈ ll_nid <$> ll_nodes (getAllConnections (λ _, now) s0))
    by (apply listed_nid; [done|]; by exists ce).
  set (ll := ll_nodes _) in *. cbn [mo_cm sp_mo2ph mo_rvs2ph app] in Em.
  apply list_elem_of_split_l in Hin' as (pre & post & Ell & Hpre).
  set (f p := redirect_msg (getNID c) p a).
  assert (Eq : imap (λ _ x, msg_bytes (redirect_msg (getNID c) (ll_nid x) a)) ll
               = (msg_bytes <$> (f <$> pre)) ++ msg_bytes m :: (msg_bytes <$> (f <$> post))).
  { transitivity (msg_bytes <$> (f <$> (ll_nid <$> ll))).
    - clear. induction ll as [|x l IH]; [done|]. cbn. by rewrite <-IH.
    - by rewrite Ell, !fmap_app. }
  rewrite Eq in Em.
  assert (E0 : take_turn nofile (move_event a now) n
    = Some (n <| n_loc ::= (λ l, l <| l_mo_count := 0 |>) |>
              <| n_sh ::= put_cm (updateCMconf c (λ _, now) (λ _, now) s0) |>
              <| n_ch ::= (λ ch, ch <| c_mo2ph := (msg_bytes <$> (f <$> pre)) ++ msg_bytes m :: (msg_bytes <$> (f <$> post)) |>
                                    <| c_rvs2ph := [rvs_update c a] |>) |>, Go [])).
  { cbn [take_turn move_event]. unfold turn_mobility. rewrite Hct, Hr, Hmo. fold c s0. by rewrite Em. }
  set (n0 := _ <| n_ch ::= _ |>) in E0.
  destruct (updateCMconf_drops c now s0 peer ce) as [Hp0 Hg0]; [done..|].
  assert (S0 : sending n0).
  { destruct Hs as [_ Tp Tn Hnf Hout]. split; try done. exact (take_turn_ok nofile (move_event a now) n n0 _ Hn I E0). }
  (* the message for the rendezvous server *)
  destruct (rvs_update_message c a Hc) as (mr & Emr & Hmr & Dmr).
  destruct (send_one nofile ck n0 FromRvs mr peer S0 Hmr) as (n1 & h1 & _ & E1 & S1 & I1 & P1 & R1 & M1); [done| |].
  { change (c_nf2ph (n_ch n0)) with (c_nf2ph (n_ch n)). change (c_rvs2ph (n_ch n0)) with [rvs_update c a].
    rewrite (sending_nf n Hs), Emr. reflexivity. }
  cbn [ph_pop] in R1, M1. change (c_rvs2ph (n_ch n1) = []) in R1.
  (* the other peers *)
  assert (Hf : Forall (λ x, msg_ok x ∧ nm_destNID x ≠ peer) (f <$> pre)).
  { apply Forall_fmap, Forall_forall. intros p Hin2. split; [|intros Hd; change (p = peer) in Hd; by subst p].
    apply redirect_ok; [done| |done].
    assert (Hall : p ∈ ll_nid <$> ll) by (rewrite Ell; apply elem_of_app; by left).
    apply list_elem_of_fmap in Hall as (x & -> & Hx).
    exact (proj1 (Forall_forall _ _) (getAllConnections_nids (λ _, now) s0 Hcm (node_bindings n Hn)) x Hx). }
  destruct (send_until nofile ck peer (f <$> pre) (msg_bytes m :: (msg_bytes <$> (f <$> post))) n1 S1 R1 M1 Hf)
    as (n2 & out & E2 & L2 & O2 & S2 & I2 & P2 & R2 & M2).
  (* the peer *)
  destruct (send_one nofile ck n2 FromMo m peer S2) as (n3 & h & Hh & E3 & S3 & I3 & _ & _ & _);
    [by apply redirect_ok|done|rewrite (sending_nf n2 S2), R2, M2; reflexivity|].
  pose proof (same_peer_trans peer _ _ _ (P1 ltac:(by rewrite Dmr)) P2) as [Hb2 Hg2].
  assert (Hmiss : (getCMEntry peer ck (sh_cm (n_sh n2))).2 = getGatewayIP c).
  { rewrite <-Hg0. transitivity (cm_gatewayIP (env_cm (sh_cm (n_sh n2)))); [|exact Hg2].
    apply getCMEntry_missing; [apply (sending_ok n2 S2)|]. intros ce' Hce'. rewrite Hb2 in Hce'.
    change (cm_get (updateCMconf c (λ _, now) (λ _, now) s0) peer = Some ce') in Hce'. congruence. }
  rewrite length_fmap in *. set (p1 := Udp _ _) in E1. exists (length pre), n3, (p1 :: out), h. split_and!; [done| | | | |].
  - unfold move_turns. rewrite <-Hmiss.
    eapply (run_cons _ _ _ _ n0 []); [exact (node_step_go nofile (move_event a now) n n0 [] Tm E0)|].
    eapply (run_app _ _ _ _ _ [p1]); [exact E1|]. eapply run_app; [exact E2|exact E3].
  - cbn [omap list_omap]. subst p1. cbn [sent_by]. cbn [length]. by rewrite (L2 a).
  - intros i. subst p1. cbn. apply O2.
  - apply (sending_ok n3 S3).
  - eapply same_input_trans; [|eapply same_input_trans; [exact I2|exact I3]].
    eapply same_input_trans; [|exact I1]. by split.
Qed.

(** ** The gateway *)

Lemma gateway_passes nofile n from d now ck now' :
  thread_nr_input_gw ∈ n_threads n → thread_nr_output_gw ∈ n_threads n →
  c_nr (n_ch n) = [] → c_ph2nr (n_ch n) = [] →
  (nh_len ≤ length d ≤ MAXBUFLEN)%nat → hdr_destNID d ≠ getNID (sh_conf (n_sh n)) →
  ∃ n1 n2, node_step nofile (EvNrInputGw (Received from d) now) n = Some (Running n1, [])
    ∧ run nofile [EvNrOutputGw ck now'] n1
      = Some (n2, [Udp (getRTEntry (hdr_destNID d) now' (sh_rt (n_sh n))).2 d]).
Proof.
  intros Ti To Hc Hp [L M] Hne.
  assert (E1 : ∃ l, turn_nr_input_gw (Received from d) now n
    = Some (n <| n_loc ::= (λ loc, loc <| l_nr_input := l |>) |>
              <| n_sh ::= put_cm (env_cm (sh_cm (n_sh n))) |>
              <| n_ch ::= (λ ch, ch <| c_nr2ph := c_nr2ph (n_ch n) |> <| c_nr := [d] |>) |>, Go [])).
  { unfold turn_nr_input_gw, nr_input_gw_step, recvfrom. cbn [nri_buf nri_addr].
    rewrite header_overlay by done. change (nh_destNID (header_of d)) with (hdr_destNID d).
    rewrite decide_False by done. unfold chan_write_len. rewrite (proj2 (Z.ltb_ge _ _)) by lia.
    rewrite Nat2Z.id, routed_datagram, Hc by done. by eexists. }
  destruct E1 as [l E1]. set (n1 := _ <| n_ch ::= _ |>) in E1. exists n1.
  assert (E2 : ∃ n2, turn_nr_output_gw ck now' n1
    = Some (n2, Go [Udp (getRTEntry (hdr_destNID d) now' (sh_rt (n_sh n))).2 d])).
  { unfold turn_nr_output_gw, nr_select. change (c_ph2nr (n_ch n1)) with (c_ph2nr (n_ch n)).
    change (c_nr (n_ch n1)) with [d]. rewrite Hp. cbn [mbind option_bind].
    unfold nr_output_gw_step. rewrite !(take_ge d) by lia.
    pose proof (header_overlay d (l_nr_output (n_loc n1)) L M) as Hh. rewrite take_ge in Hh by lia.
    unfold hdr_destNID at 1. rewrite Hh. fold (hdr_destNID d).
    change (sh_rt (n_sh n1)) with (sh_rt (n_sh n)).
    destruct (getRTEntry (hdr_destNID d) now' (sh_rt (n_sh n))) as [[rt f] ip].
    rewrite take_overlay. by eexists. }
  destruct E2 as [n2 E2]. exists n2. split; [by apply node_step_go|by apply run_one].
Qed.

(** ** The peer *)

Lemma turn_nr_input_gets n from d now :
  (nh_len ≤ length d ≤ MAXBUFLEN)%nat → hdr_destNID d = getNID (sh_conf (n_sh n)) →
  c_nr2ph (n_ch n) = [] →
  ∃ l, turn_nr_input (Received from d) now n
  = Some (n <| n_loc ::= (λ loc, loc <| l_nr_input := l |>) |>
            <| n_sh ::= put_cm (newCMEntry (nh_srcNID (header_of d)) from now (env_cm (sh_cm (n_sh n)))) |>
            <| n_ch ::= (λ ch, ch <| c_nr2ph := [d] |>) |>, Go []).
Proof.
  intros [L M] Hd Hc. unfold turn_nr_input, nr_input_step, recvfrom. cbn [nri_buf nri_addr].
  rewrite header_overlay by done. change (nh_destNID (header_of d)) with (hdr_destNID d).
  rewrite decide_True by done. unfold chan_write_len. rewrite (proj2 (Z.ltb_ge _ _)) by lia.
  rewrite Nat2Z.id, routed_datagram, Hc by done. by eexists.
Qed.

Lemma turn_ph_input_redirect n m h :
  msg_ok m → heads m h → nm_type m = nid_ctrl_type_val REDIRECT →
  c_nr2ph (n_ch n) = [header_bytes h ++ msg_bytes m] →
  ∃ buf, turn_ph_input true n
  = Some (n <| n_loc ::= (λ l, l <| l_ph_input := buf |>) |>
            <| n_sh ::= (λ s, s <| sh_nm := newNMEntry (nh_srcNID h) (nh_srcNIDgw h) (sh_nm (n_sh n)) |>) |>
            <| n_ch ::= (λ ch, ch <| c_nr2ph := [] |>) |>
            <| n_ch ::= (λ ch, ch <| c_ph2co ::= chan_write (msg_bytes m) |>) |>, Go []).
Proof.
  intros Hm (Hh & Ht & _) Hr Hc. unfold turn_ph_input. rewrite Hc. cbn [chan_read mbind option_bind].
  assert (Hl : (length (msg_bytes m) ≤ ph_size)%nat)
    by (rewrite length_msg_bytes by done; unfold nmsg_len, ph_size, MAXBUFLEN, nh_len; lia).
  destruct (ph_input_reads h (msg_bytes m) (l_ph_input (n_loc n)) Hh Hl) as (E1 & E2 & E3).
  assert (Hk : take MAXBUFLEN (header_bytes h ++ msg_bytes m) = header_bytes h ++ msg_bytes m)
    by (apply take_ge; apply (message_packet m h Hh Hm)).
  unfold ph_input_step. rewrite !Hk in *. rewrite E3, E1, Ht, Hr. unfold ph_deliver, control_write.
  change (msg_type_of (nid_ctrl_type_val REDIRECT)) with (Some (Ctrl REDIRECT)). cbn iota beta.
  rewrite (proj2 (Z.ltb_ge _ _)) by lia. rewrite Nat2Z.id, E2. by eexists.
Qed.

Lemma turn_control_redirect n m now :
  msg_ok m → nm_type m = nid_ctrl_type_val REDIRECT → c_ph2co (n_ch n) = [msg_bytes m] →
  turn_control now n
  = Some (n <| n_loc ::= (λ l, l <| l_control := m |>) |>
            <| n_sh ::= (λ s, s <| sh_cm := sh_cm (n_sh n)
                           <| env_cm ::= newCMEntry (nm_nid m) (nm_ip m) now |> |>) |>
            <| n_ch ::= (λ ch, ch <| c_ph2co := [] |>) |>, Go []).
Proof.
  intros Hm Ht Hc. unfold turn_control. rewrite Hc. cbn [chan_read mbind option_bind].
  rewrite take_ge by (rewrite length_msg_bytes by done; lia).
  unfold control_step. rewrite read_msg_bytes by done. rewrite Ht.
  by change (msg_type_of (nid_ctrl_type_val REDIRECT)) with (Some (Ctrl REDIRECT)).
Qed.

(** The queues and threads of a node that waits with a captured packet [d]. *)
Record waiting (d : list Z) (n : node) : Prop := {
  waiting_ok : node_ok n;
  waiting_threads : Forall (λ t, t ∈ n_threads n)
    [thread_nr_input; thread_ph_input; thread_control; thread_ph_output; thread_nr_output];
  waiting_in : c_nr2ph (n_ch n) = [];
  waiting_co : c_ph2co (n_ch n) = [];
  waiting_out : c_ph2nr (n_ch n) = [];
  waiting_nf : ∃ nf, c_nf2ph (n_ch n) = d :: nf;
}.

Definition answer_turns (ck : cm_clock) (now : Z) : list event :=
  [EvPhInput true; EvControl now; EvPhOutput; EvNrOutput ck].

(** The news of a move reaches the peer, whose next packet goes to the new
    address. *)
Lemma peer_answers nofile n d mover a h from now now2 ck :
  waiting d n → nid_ok mover → nid32_ok a → nid32_ok from → 0 < now →
  let m := redirect_msg mover (getNID (sh_conf (n_sh n))) a in
  heads m h →
  (∀ ce, cm_get (env_cm (sh_cm (n_sh n))) mover = Some ce → ce_tstamp ce ≠ 0) →
  (20 ≤ length d ≤ ph_size)%nat → ip_daddr d = nid2nid32 mover → ck_proactive ck < now2 + 4 →
  ∃ n1 n2 h2,
    node_step nofile (EvNrInput (Received from (header_bytes h ++ msg_bytes m)) now) n = Some (Running n1, [])
    ∧ run nofile (answer_turns ck now2) n1 = Some (n2, [Udp a (header_bytes h2 ++ d)])
    ∧ header_ok h2 ∧ nh_type h2 = 0 ∧ nh_destNID h2 = mover
    ∧ cm_get (env_cm (sh_cm (n_sh n2))) mover = Some (mkConn a now2).
Proof.
  intros [Hn Ht Hin Hco Hout [nf Hnf]] Hmv Ha Hf Hnow m Hh Hst Hd Hdst Hck.
  apply Forall_cons in Ht as [T1 Ht]. apply Forall_cons in Ht as [T2 Ht]. apply Forall_cons in Ht as [T3 Ht].
  apply Forall_cons in Ht as [T4 Ht]. apply Forall_cons in Ht as [T5 _].
  assert (Hm : msg_ok m) by (split_and!; done || apply nid_zero_ok || (by unfold nid32_ok) || apply Hn).
  pose proof (message_packet m h (proj1 Hh) Hm) as [Hl Hhd]. set (pkt := header_bytes h ++ msg_bytes m) in *.
  destruct (turn_nr_input_gets n from pkt now Hl) as [l E1];
    [unfold hdr_destNID; rewrite Hhd; apply Hh|done|].
  rewrite Hhd, (proj1 (proj2 (proj2 Hh))) in E1. change (nm_srcNID m) with mover in E1.
  set (n1 := _ <| n_ch ::= _ |>) in E1.
  assert (H1 : node_step nofile (EvNrInput (Received from pkt) now) n = Some (Running n1, []))
    by by apply node_step_go.
  destruct (turn_ph_input_redirect n1 m h Hm Hh eq_refl eq_refl) as [buf E2]. set (n2 := _ <| n_ch ::= _ |>) in E2.
  assert (C2 : c_ph2co (n_ch n2) = [msg_bytes m]) by (subst n2; cbn; by rewrite Hco).
  pose proof (turn_control_redirect n2 m now2 Hm eq_refl C2) as E3. set (n3 := _ <| n_ch ::= _ |>) in E3.
  assert (R2 : run nofile [EvPhInput true; EvControl now2] n1 = Some (n3, [])).
  { eapply (run_cons _ _ _ _ _ [] _ []); [by apply node_step_go|]. by apply run_one. }
  assert (Hn1 : node_ok n1).
  { eapply (node_step_ok nofile _ n (Running n1)); [exact Hn| |exact H1]. split; [done|].
    apply bytes_ok_app. split; [by apply bytes_ok_header_bytes, Hh|by apply bytes_ok_msg_bytes]. }
  assert (Hn3 : node_ok n3) by (eapply run_ok; [exact Hn1| |exact R2]; by repeat constructor).
  (* the mapper and the binding *)
  destruct Hh as (Hh & _ & Hsrc & _). change (nm_srcNID m) with mover in Hsrc.
  assert (He : getNMEntry32 (ip_daddr d) (sh_nm (n_sh n3)) = Some (mkNME32 [] mover (nh_srcNIDgw h))).
  { change (sh_nm (n_sh n3)) with (newNMEntry (nh_srcNID h) (nh_srcNIDgw h) (sh_nm (n_sh n))).
    destruct (newNMEntry_get (nh_srcNID h) (nh_srcNIDgw h) (sh_nm (n_sh n))) as (_ & _ & ->); [apply Hn|].
    by rewrite Hdst, Hsrc, decide_True. }
  assert (Hb : cm_get (env_cm (sh_cm (n_sh n3))) mover = Some (mkConn a now2)).
  { change (env_cm (sh_cm (n_sh n3))) with (newCMEntry mover a now2 (newCMEntry mover from now (env_cm (sh_cm (n_sh n))))).
    rewrite !cm_get_newCMEntry, !decide_True by (done || apply newCMEntry_ok, Hn || apply Hn).
    assert (Hr : refreshed from now (cm_get (env_cm (sh_cm (n_sh n))) mover) = mkConn from now).
    { unfold refreshed. destruct (cm_get _ mover) as [ce|]; [|done].
      by rewrite (proj2 (Z.eqb_neq _ _) (Hst ce eq_refl)). }
    rewrite Hr. unfold refreshed. cbn [ce_tstamp]. by rewrite (proj2 (Z.eqb_neq _ _)) by lia. }
  (* the packet *)
  destruct (turn_ph_output_data n3 d nf _ Hn3 Hd Hnf He) as (n4 & E4 & T4' & S4 & C4).
  change (c_ph2nr (n_ch n3)) with (c_ph2nr (n_ch n)) in C4. rewrite Hout in C4. cbn [app] in C4.
  unfold data_packet in C4. set (h2 := mkHeader _ _ _ _ _) in C4.
  assert (Hh2 : header_ok h2).
  { destruct (buf_header_ok _ (ok_ph_output _ (node_locals n3 Hn3))) as (_ & ? & _).
    destruct Hh as (_&_&_&?&_). by split_and!; try done; apply Hn3. }
  assert (Hd2 : hdr_destNID (header_bytes h2 ++ d) = mover) by (unfold hdr_destNID; by rewrite header_of_bytes).
  destruct (turn_nr_output_sends n4 (header_bytes h2 ++ d) ck C4) as (buf5 & E5).
  { rewrite length_app, length_header_bytes by done. unfold ph_size in Hd. unfold nh_len, MAXBUFLEN in *. lia. }
  rewrite Hd2, S4, (getCMEntry_known _ _ _ (mkConn a now2) Hb) in E5 by (by right). cbn [fst snd ce_ip] in E5.
  set (n5 := _ <| n_ch ::= _ |>) in E5.
  exists n1, n5, h2. split; [exact H1|]. split_and!; try done.
  - unfold answer_turns. eapply (run_app _ [_; _] [_; _] _ n3 []); [exact R2|].
    eapply (run_cons _ _ _ _ n4 []); [by apply node_step_go|]. apply run_one; [by rewrite T4'|exact E5].
Qed.

(** ** The network *)

(** A datagram arrives, and the host takes turns. *)
Lemma net_receive nofile i k now a n n1 evs n2 out d net :
  nt_hosts net !! i = Some (mkHost a (Running n)) → nt_air net !! k = Some d → d_to d = a →
  node_step nofile (receive_event n (d_from d) (d_data d) now) n = Some (Running n1, []) →
  Forall (λ ev, place a ev = Some ev) evs → run nofile evs n1 = Some (n2, out) →
  net_run nofile (NetDeliver i k now :: (NetTurn i <$> evs)) net
  = Some (host_goes i a (Running n2) out (mkNet (nt_hosts net) (delete k (nt_air net)) (nt_log net))).
Proof.
  intros Hi Hk Hd E1 Hp E2. cbn [net_run net_step]. rewrite Hi. cbn [mbind option_bind running h_sys h_addr].
  rewrite Hk. cbn [mbind option_bind]. rewrite decide_True by done. rewrite E1. cbn [mbind option_bind].
  rewrite (net_run_turns nofile i a evs n1 n2 out); [|cbn; by eapply list_lookup_insert_eq, lookup_lt_Some|done..].
  f_equal. unfold host_goes. cbn [nt_hosts nt_air nt_log omap list_omap]. by rewrite list_insert_insert_eq, !app_nil_r.
Qed.

(** The last datagram on its way. *)
Lemma net_receive_last nofile i now a n n1 evs n2 out d hosts air log :
  hosts !! i = Some (mkHost a (Running n)) → d_to d = a →
  node_step nofile (receive_event n (d_from d) (d_data d) now) n = Some (Running n1, []) →
  Forall (λ ev, place a ev = Some ev) evs → run nofile evs n1 = Some (n2, out) →
  net_run nofile (NetDeliver i (length air) now :: (NetTurn i <$> evs)) (mkNet hosts (air ++ [d]) log)
  = Some (mkNet (<[i := mkHost a (Running n2)]> hosts) (air ++ omap (sent_by a) out)
            (log ++ omap (local_output i) out)).
Proof.
  intros. erewrite net_receive; [|done|by apply list_lookup_middle|done..].
  cbn [nt_hosts nt_air nt_log]. by rewrite delete_middle, app_nil_r.
Qed.

(** The schedule: [iA] moves to address [a] and sends the news, with those of
    [k] other peers before that for [iB]; the gateway [iG] passes it on; [iB]
    takes it and sends its packet; [iA] receives it.  [base] datagrams are on
    their way before. *)
Definition move_session (iA iG iB : nat) (a : NID32) (base k : nat) (now nowg nowb : Z)
    (ck ckg ckb : cm_clock) : list net_event :=
  NetMove iA a :: (NetTurn iA <$> move_turns a now ck k)
    ++ NetDeliver iG (base + S k) nowg :: (NetTurn iG <$> [EvNrOutputGw ckg nowg])
    ++ NetDeliver iB (base + S k) nowb :: (NetTurn iB <$> answer_turns ckb nowb)
    ++ NetDeliver iA (base + S k) nowb :: (NetTurn iA <$> [EvPhInput true]).

(** C3. A session follows a node that moves.  Three daemons: a node that gets
    another address inside its domain, its gateway, and a peer with a binding the
    node still lists, who has captured a packet for the node.  There is a schedule
    in which the node tells the peer its new address: the news goes to the gateway,
    for the move has cleared the node's own bindings, and on to the peer by the
    gateway's route; the peer rebinds the node, sends the packet straight to the
    new address, and the node's daemon delivers it unchanged.  Nothing else is
    delivered by any of the three, whatever datagrams are on their way. *)
Theorem session_follows_move nofile net iA iG iB a0 a g b nA nG nB d ce now nowg nowb ck ckg ckb :
  nt_hosts net !! iA = Some (mkHost a0 (Running nA)) → nt_hosts net !! iG = Some (mkHost g (Running nG)) →
  nt_hosts net !! iB = Some (mkHost b (Running nB)) → iA ≠ iG → iA ≠ iB → iG ≠ iB →
  let cA := sh_conf (n_sh nA) in
  let nidA := getNID cA in
  let nidB := getNID (sh_conf (n_sh nB)) in
  (* the node that moves *)
  sending nA → Forall (λ t, t ∈ n_threads nA) [thread_mobility; thread_nr_input; thread_ph_input] →
  c_rvs2ph (n_ch nA) = [] → c_mo2ph (n_ch nA) = [] → c_nr2ph (n_ch nA) = [] →
  get_mobility cA = mobility_types_val INTRADOMAIN → l_mo_count (n_loc nA) = 1 →
  cm_get (env_cm (sh_cm (n_sh nA))) nidB = Some ce → is_listed now ce = true →
  nidB ≠ getNIDgw cA → nidB ≠ getNIDrvs cA →
  (* its gateway *)
  getGatewayIP cA = g →
  thread_nr_input ∉ n_threads nG → thread_nr_input_gw ∈ n_threads nG → thread_nr_output_gw ∈ n_threads nG →
  c_nr (n_ch nG) = [] → c_ph2nr (n_ch nG) = [] → nidB ≠ getNID (sh_conf (n_sh nG)) →
  (getRTEntry nidB nowg (sh_rt (n_sh nG))).2 = b →
  (* the peer *)
  waiting d nB → (20 ≤ length d ≤ ph_size)%nat → ip_daddr d = nid2nid32 nidA → ip_protocol d ∈ [6; 17; 1] →
  (∀ ce, cm_get (env_cm (sh_cm (n_sh nB))) nidA = Some ce → ce_tstamp ce ≠ 0) →
  nid32_ok a → nid32_ok g → 0 < nowb → ck_proactive ckb < nowb + 4 →
  ∃ k net' nB',
    net_run nofile (move_session iA iG iB a (length (nt_air net)) k now nowg nowb ck ckg ckb) net = Some net'
    ∧ nt_log net' = nt_log net ++ [(iA, RawIp (ip_protocol d) d)]
    ∧ nt_hosts net' !! iB = Some (mkHost b (Running nB'))
    ∧ cm_get (env_cm (sh_cm (n_sh nB'))) nidA = Some (mkConn a nowb).
Proof.
  intros HA HG HB NAG NAB NGB cA nidA nidB SA TA RA MA IA Hmob Hct Hce Hls Hgw Hrv Hg G1 G2 G3 G4 G5 G6 G7
    WB Hd Hdst Hpr Hst Ha Hgo Hnow Hck.
  apply Forall_cons in TA as [TA1 TA]. apply Forall_cons in TA as [TA2 TA]. apply Forall_cons in TA as [TA3 _].
  pose proof (node_conf nA (sending_ok nA SA)) as [HnA _]. pose proof (node_conf nB (waiting_ok d nB WB)) as [HnB _].
  (* the news leave *)
  destruct (mover_tells_peer nofile nA a now ck nidB ce SA TA1 RA MA Hmob Hct Ha HnB Hce Hls Hgw Hrv)
    as (k & nA1 & out & h & Hh & E1 & L1 & O1 & KA & [T1 F1 C1 _]). fold cA nidA in Hh, E1.
  set (m := redirect_msg nidA nidB a) in *. rewrite Hg in E1.
  assert (Hm : msg_ok m) by (split_and!; done || apply nid_zero_ok || (by unfold nid32_ok)).
  pose proof (message_packet m h (proj1 Hh) Hm) as [Hl Hhd]. set (p := header_bytes h ++ msg_bytes m) in *.
  assert (Hpd : hdr_destNID p = nidB) by (unfold hdr_destNID; rewrite Hhd; apply Hh).
  set (net0 := mkNet (<[iA := mkHost a (Running nA)]> (nt_hosts net)) (nt_air net) (nt_log net)).
  assert (LA : (iA < length (nt_hosts net))%nat) by by eapply lookup_lt_Some.
  assert (R1 : net_run nofile (NetMove iA a :: (NetTurn iA <$> move_turns a now ck k)) net
               = Some (host_goes iA a (Running nA1) (out ++ [Udp g p]) net0)).
  { cbn [net_run net_step]. rewrite HA. cbn [mbind option_bind h_sys]. fold net0.
    apply net_run_turns with (n := nA); [by apply list_lookup_insert_eq| |exact E1].
    unfold move_turns, move_event, send_turns. constructor; [done|]. repeat (apply Forall_app; split); [by repeat constructor| |by repeat constructor].
    clear. induction k; [constructor|]. by repeat constructor. }
  set (air := nt_air net ++ omap (sent_by a) out).
  assert (Lair : length air = (length (nt_air net) + S k)%nat) by (subst air; by rewrite length_app, L1).
  assert (Hn1 : host_goes iA a (Running nA1) (out ++ [Udp g p]) net0
    = mkNet (<[iA := mkHost a (Running nA1)]> (nt_hosts net)) (air ++ [mkDatagram a g p]) (nt_log net)).
  { unfold host_goes. subst net0 air. cbn [nt_hosts nt_air nt_log].
    rewrite list_insert_insert_eq, !omap_app, O1, <-app_assoc. by rewrite !app_nil_r. }
  set (hosts1 := <[iA := _]> (nt_hosts net)) in Hn1. set (net1 := mkNet hosts1 _ _) in Hn1. rewrite Hn1 in R1.
  (* the gateway *)
  destruct (gateway_passes nofile nG a p nowg ckg nowg G2 G3 G4 G5 Hl) as (nG1 & nG2 & E2 & E3);
    [by rewrite Hpd|]. rewrite Hpd, G7 in E3.
  pose proof (net_receive_last nofile iG nowg g nG nG1 [EvNrOutputGw ckg nowg] nG2 [Udp b p] (mkDatagram a g p)
    hosts1 air (nt_log net)) as R2. cbn [d_to d_from d_data] in R2.
  specialize (R2 ltac:(subst hosts1; by rewrite list_lookup_insert_ne) eq_refl).
  unfold receive_event in R2. rewrite decide_False in R2 by done.
  specialize (R2 E2 ltac:(by repeat constructor) E3). cbn [omap list_omap sent_by local_output] in R2.
  rewrite app_nil_r in R2. set (hosts2 := <[iG := _]> hosts1) in R2.
  (* the peer *)
  destruct (peer_answers nofile nB d nidA a h g nowb nowb ckb WB HnA Ha Hgo Hnow Hh Hst Hd Hdst Hck)
    as (nB1 & nB2 & h2 & E4 & E5 & Hh2 & Ty2 & De2 & Bi).
  pose proof (net_receive_last nofile iB nowb b nB nB1 (answer_turns ckb nowb) nB2
    [Udp a (header_bytes h2 ++ d)] (mkDatagram g b p)
    hosts2 air (nt_log net)) as R3. cbn [d_to d_from d_data] in R3.
  specialize (R3 ltac:(subst hosts2 hosts1; by rewrite !list_lookup_insert_ne) eq_refl).
  unfold receive_event in R3. rewrite decide_True in R3
    by (pose proof (waiting_threads d nB WB) as Ht; by apply Forall_cons in Ht as [? _]).
  specialize (R3 E4 ltac:(by repeat constructor) E5). cbn [omap list_omap sent_by local_output] in R3.
  rewrite app_nil_r in R3. set (hosts3 := <[iB := _]> hosts2) in R3.
  (* the node *)
  pose proof (length_header_bytes h2 Hh2) as Lh2.
  destruct (turn_nr_input_gets nA1 b (header_bytes h2 ++ d) nowb) as [l E6].
  { rewrite length_app, Lh2. unfold ph_size in Hd. unfold nh_len, MAXBUFLEN in *. lia. }
  { unfold hdr_destNID. rewrite header_of_bytes, De2, F1 by done. done. }
  { by rewrite C1. }
  set (nA2 := _ <| n_ch ::= _ |>) in E6.
  assert (S6 : node_step nofile (EvNrInput (Received b (header_bytes h2 ++ d)) nowb) nA1 = Some (Running nA2, []))
    by (apply node_step_go; [by rewrite T1|exact E6]).
  destruct (turn_ph_input_data nA2 h2 d Hh2 Ty2) as (nA3 & E7 & _); [lia|done|done|].
  assert (R7 : run nofile [EvPhInput true] nA2 = Some (nA3, [RawIp (ip_protocol d) d]))
    by (apply run_one; [cbn; by rewrite T1|exact E7]).
  pose proof (net_receive_last nofile iA nowb a nA1 nA2 [EvPhInput true] nA3
    [RawIp (ip_protocol d) d] (mkDatagram b a (header_bytes h2 ++ d))
    hosts3 air (nt_log net)) as R4. cbn [d_to d_from d_data] in R4.
  specialize (R4 ltac:(subst hosts3 hosts2 hosts1; rewrite !list_lookup_insert_ne by done; by apply list_lookup_insert_eq) eq_refl).
  unfold receive_event in R4. rewrite decide_True in R4 by by rewrite T1.
  specialize (R4 S6 ltac:(by repeat constructor) R7). cbn [omap list_omap local_output] in R4.
  (* the whole run *)
  eexists k, _, nB2. split.
  { unfold move_session. rewrite <-Lair. rewrite app_comm_cons.
    rewrite (net_run_app _ _ _ _ _ R1). subst net1. rewrite app_comm_cons, (net_run_app _ _ _ _ _ R2).
    rewrite app_comm_cons, (net_run_app _ _ _ _ _ R3). exact R4. }
  cbn [nt_log nt_hosts]. split; [done|]. split; [|exact Bi].
  subst hosts3 hosts2 hosts1. rewrite list_lookup_insert_ne by done. apply list_lookup_insert_eq.
  rewrite !length_insert. by eapply lookup_lt_Some.
Qed.

(** ** Three daemons *)

Definition ran (c : config) (evs : list event) : node :=
  match run 1024 evs (sample_node c) with Some (n, _) => n | None => sample_node c end.

Lemma ran_ok c evs :
  conf_ok c → is_go (sample_start c) = true → Forall event_ok evs → node_ok (ran c evs).
Proof.
  intros Hc [r E]%is_go_spec He. unfold ran.
  pose proof (sample_node_ok c r Hc E) as Hn. destruct (run 1024 evs (sample_node c)) as [[n out]|] eqn:Er; [|done].
  by eapply run_ok.
Qed.

Definition mover_conf : config := sample_config <| conf_mobility := mobility_types_val INTRADOMAIN |>.
Definition gate_conf : config := gateway_conf <| conf_nid := sample_nid 4 |>.
Definition peer_conf : config := sample_config <| conf_nid := sample_nid 3 |>.

Definition peer_packet : list Z :=
  header_bytes (mkHeader 0 (sample_nid 3) (sample_nid 1) nid_zero nid_zero) ++ sample_ip 6.

(** The node has heard a first address event, and a packet of the peer at
    10.0.0.3. *)
Definition mover : node :=
  ran mover_conf [move_event 0x0900000a 90; EvNrInput (Received 0x0300000a peer_packet) 100;
    EvPhInput true].

(** The peer has registered with the gateway. *)
Definition peer_registers : list Z :=
  let m := mkMsg (nid_ctrl_type_val REGISTRY) (sample_nid 3) (sample_nid 4) nid_zero nid_zero (sample_nid 3) 0x0300000a in
  header_bytes (mkHeader (nm_type m) (nm_srcNID m) (nm_destNID m) nid_zero nid_zero) ++ msg_bytes m.

Definition gate : node :=
  ran gate_conf [EvNrInputGw (Received 0x0300000a peer_registers) 99; EvPhInput true; EvControlGw 99; EvGwListener 99].

(** A packet of 20 bytes for 1.0.0.1. *)
Definition packet_back : list Z := [69; 0; 0; 20; 0; 0; 0; 0; 64; 6; 0; 0; 1; 0; 0; 3; 1; 0; 0; 1].
Definition peer_node : node := ran peer_conf [EvNidfilter (IpqPacket packet_back)].

Definition three_hosts : network :=
  mkNet [mkHost 0x0900000a (Running mover); mkHost 0x0100000a (Running gate); mkHost 0x0300000a (Running peer_node)]
    [] [].

Lemma session_follows_move_witness :
  ∃ k net' nB,
    net_run 1024 (move_session 0 1 2 0x0a00000a 0 k 102 103 104 (sample_clock 102) (sample_clock 103) (sample_clock 104))
      three_hosts = Some net'
    ∧ nt_log net' = [(0%nat, RawIp 6 packet_back)]
    ∧ nt_hosts net' !! 2%nat = Some (mkHost 0x0300000a (Running nB))
    ∧ cm_get (env_cm (sh_cm (n_sh nB))) (sample_nid 1) = Some (mkConn 0x0a00000a 104).
Proof.
  assert (HA : node_ok mover).
  { apply ran_ok; [split; apply (bool_decide_unpack _); vm_compute; exact I|vm_compute; reflexivity|].
    repeat constructor; apply (bool_decide_unpack _); vm_compute; exact I. }
  assert (HG : node_ok gate).
  { apply ran_ok; [split; apply (bool_decide_unpack _); vm_compute; exact I|vm_compute; reflexivity|].
    repeat constructor; apply (bool_decide_unpack _); vm_compute; exact I. }
  assert (HB : node_ok peer_node).
  { apply ran_ok; [split; apply (bool_decide_unpack _); vm_compute; exact I|vm_compute; reflexivity|].
    repeat constructor; apply (bool_decide_unpack _); vm_compute; exact I. }
  destruct (session_follows_move 1024 three_hosts 0 1 2 0x0900000a 0x0a00000a 0x0100000a 0x0300000a mover gate peer_node
    packet_back (mkConn 0x0300000a 100) 102 103 104 (sample_clock 102) (sample_clock 103) (sample_clock 104))
    as (k & net' & nB & E & L & Hh & Hb); [..|exists k, net', nB; split; [exact E|]; split; [exact L|]; split; [exact Hh|exact Hb]].
  all: lazymatch goal with
       | |- sending _ => split; [exact HA|apply (bool_decide_unpack _); vm_compute; exact I..|vm_compute; reflexivity|vm_compute; reflexivity]
       | |- waiting _ _ => split; [exact HB|apply (bool_decide_unpack _); vm_compute; exact I|vm_compute; reflexivity..|exists []; vm_compute; reflexivity]
       | |- ∀ x, _ => intros x; vm_compute; discriminate
       | |- (_ ≤ _)%nat ∧ _ => apply (bool_decide_unpack _); vm_compute; exact I
       | |- nid32_ok _ => split; vm_compute; congruence
       | |- _ < _ => vm_compute; reflexivity
       | |- _ = _ => vm_compute; reflexivity
       | |- _ => apply (bool_decide_unpack _); vm_compute; exact I
       end.
Defined.
