(* ===== verification/ConfPrintProps.v ===== *)
(** What the daemon prints of its configuration can be read back. *)

From S2P Require Import Prelude NidTypes Inet InetProps HashTable Hash EntryTable Configuration LList.
From S2P Require Import QueueTable Dhtc ConfPrint SystemInv.

Local Open Scope Z_scope.

(** ** The last word of each line *)

Fixpoint last_words_from (cur : list Z) (s : list Z) : list (list Z) :=
  match s with
  | [] => []
  | x :: s =>
      if x =? 10 then cur :: last_words_from [] s
      else last_words_from (if x =? 32 then [] else cur ++ [x]) s
  end.

Definition last_words (text : list Z) : list (list Z) := last_words_from [] text.

(** A word has no blank and no newline. *)
Definition word (t : list Z) : Prop := Forall (λ x, x ≠ 10 ∧ x ≠ 32) t.

Lemma address_word t : Forall address_char t → word t.
Proof. intros H. eapply Forall_impl; [exact H|]. unfold address_char. simpl. lia. Qed.

Lemma last_words_word t cur s : word t → last_words_from cur (t ++ s) = last_words_from (cur ++ t) s.
Proof.
  revert cur. induction t as [|x t IH]; intros cur H; [by rewrite app_nil_r|].
  apply Forall_cons in H as [[H1 H2] H]. cbn [app last_words_from].
  rewrite (proj2 (Z.eqb_neq x 10)), (proj2 (Z.eqb_neq x 32)) by done. rewrite IH by done.
  by rewrite <-app_assoc.
Qed.

Lemma last_words_skip p cur s :
  10 ∉ p → last_words_from cur (p ++ 32 :: s) = last_words_from [] s.
Proof.
  revert cur. induction p as [|x p IH]; intros cur H; [done|].
  apply not_elem_of_cons in H as [H1 H]. cbn [app last_words_from].
  rewrite (proj2 (Z.eqb_neq x 10)) by done. by apply IH.
Qed.

Definition no_newline (s : string) : bool := bool_decide (10 ∉ chars s).

Lemma last_words_line label n t s :
  no_newline label = true → word t → last_words (line label n t ++ s) = t :: last_words s.
Proof.
  intros Hl Ht. unfold no_newline in Hl. apply bool_decide_eq_true in Hl. unfold last_words, line, newline.
  replace ((chars label ++ [58] ++ tabs n ++ [32] ++ t ++ [10]) ++ s)
    with ((chars label ++ [58] ++ tabs n) ++ 32 :: t ++ 10 :: s) by (by rewrite <-!app_assoc).
  rewrite last_words_skip, last_words_word by
    (done || (rewrite !not_elem_of_app; split_and!; [done|by apply (bool_decide_unpack _)|];
              unfold tabs; intros H%elem_of_replicate; lia)).
  done.
Qed.

(** A closed text of whole lines. *)
Lemma last_words_app t s : last_words_from [] (t ++ [10] ++ s) = last_words_from [] (t ++ [10]) ++ last_words s.
Proof.
  assert (H : ∀ cur, last_words_from cur (t ++ [10] ++ s) = last_words_from cur (t ++ [10]) ++ last_words s).
  { induction t as [|x t IH]; intros cur; [done|]. cbn [app last_words_from].
    destruct (x =? 10); [cbn; f_equal|]; apply IH. }
  apply H.
Qed.

(** ** The values *)

(** The identifiers and the addresses among the words. *)
Definition nids_in (text : list Z) : list NID := omap char2nid (last_words text).
Definition addresses_in (text : list Z) : list NID32 := omap char2nid32 (last_words text).

(** [l] and [a] are what the text [t] holds, whatever follows it. *)
Definition holds (t : list Z) (l : list NID) (a : list NID32) : Prop :=
  ∀ s, nids_in (t ++ s) = l ++ nids_in s ∧ addresses_in (t ++ s) = a ++ addresses_in s.

Lemma holds_nil : holds [] [] [].
Proof. done. Qed.

Lemma holds_app t l a t' l' a' : holds t l a → holds t' l' a' → holds (t ++ t') (l ++ l') (a ++ a').
Proof.
  intros H H' s. rewrite <-!app_assoc. destruct (H (t' ++ s)) as [-> ->]. by destruct (H' s) as [-> ->].
Qed.

Lemma holds_closed t :
  nids_in (t ++ newline) = [] → addresses_in (t ++ newline) = [] → holds (t ++ newline) [] [].
Proof.
  intros H1 H2 s. unfold nids_in, addresses_in, last_words in *. rewrite <-app_assoc.
  unfold newline in *. rewrite last_words_app, !omap_app. by rewrite H1, H2.
Qed.

Lemma holds_nid label n x :
  no_newline label = true → nid_ok x → holds (line label n (inet_ntop6 x)) [x] [].
Proof.
  intros Hl Hx s. unfold nids_in, addresses_in.
  rewrite last_words_line by (done || by apply address_word, inet_ntop6_address).
  cbn [omap list_omap]. unfold char2nid, char2nid32. by rewrite inet_pton6_ntop6, pton_in_ntop6.
Qed.

Lemma holds_address label n x :
  no_newline label = true → nid32_ok x → holds (line label n (inet_ntop4 x)) [] [x].
Proof.
  intros Hl Hx s. unfold nids_in, addresses_in.
  rewrite last_words_line by (done || by apply address_word, inet_ntop4_address).
  cbn [omap list_omap]. unfold char2nid, char2nid32. by rewrite pton6_ntop4, inet_pton_ntop_in.
Qed.

Lemma holds_type c : holds (print_type c) [] [].
Proof. unfold print_type, type_name. repeat case_match; by apply (holds_closed (chars "Type:" ++ tabs 3 ++ [32] ++ chars _)). Qed.

Lemma holds_eq t l a l' a' : holds t l a → l = l' → a = a' → holds t l' a'.
Proof. by intros H <- <-. Qed.

(** A text made of lines. *)
Ltac holds_line :=
  lazymatch goal with
  | |- holds (print_type _) _ _ => apply holds_type
  | |- holds (banner ?b) _ _ => apply (holds_closed (chars b)); vm_compute; reflexivity
  | |- holds (line _ _ (inet_ntop6 _)) _ _ => apply holds_nid; [reflexivity|assumption]
  | |- holds (line _ _ (inet_ntop4 _)) _ _ => apply holds_address; [reflexivity|assumption]
  | |- holds [] _ _ => apply holds_nil
  | |- holds (_ ++ _) _ _ => eapply holds_app; holds_line
  end.

Ltac holds := eapply holds_eq; [holds_line|reflexivity|reflexivity].

Lemma print_conf_holds c :
  conf_ok c → nid32_ok (conf_dhtIP c) →
  holds (print_conf c)
    [conf_nid c; conf_nidcorehome c; conf_nidcore c; conf_nidgw c; conf_nidrvs c; conf_niddns c]
    ([conf_gatewayIP c; conf_rvsIP c] ++ if conf_type c =? node_types_val CORE then [conf_dhtIP c] else []).
Proof. intros [] Hd. unfold print_conf. destruct (conf_type c =? _); holds. Qed.

Lemma print_dhcp_holds c :
  conf_ok c → nid32_ok (conf_ip c) →
  holds (print_dhcp c) [conf_nidcore c; conf_nidgw c; conf_nidrvs c; conf_niddns c]
    [conf_gatewayIP c; conf_rvsIP c; conf_ip c].
Proof. intros [] Hd. unfold print_dhcp. holds. Qed.

Lemma holds_whole t l a : holds t l a → nids_in t = l ∧ addresses_in t = a.
Proof. intros H. destruct (H []) as [H1 H2]. by rewrite !app_nil_r in H1, H2. Qed.

(** C30. What the daemon prints of its configuration is a faithful account.  The
    texts of identifiers and addresses fit their buffers, [char2nid] and
    [char2nid32] take them back to the values and refuse the texts of the other
    family; read so, the last words of the lines of [print_conf] are exactly the
    identifiers and the addresses of the configuration, in order, the DHT address on
    a core only, and those of [print_dhcp] exactly what the response set. *)
Theorem printed_configuration_reads_back c :
  conf_ok c → nid32_ok (conf_dhtIP c) → nid32_ok (conf_ip c) →
  (∀ nid, nid_ok nid → char2nid (nid2char nid) = Some nid ∧ char2nid32 (nid2char nid) = None
                       ∧ (length (nid2char nid) < INET6_ADDRSTRLEN)%nat)
  ∧ (∀ a, nid32_ok a → char2nid32 (nid322char a) = Some a ∧ char2nid (nid322char a) = None
                       ∧ (length (nid322char a) < 16)%nat)
  ∧ nids_in (print_conf c)
    = [conf_nid c; conf_nidcorehome c; conf_nidcore c; conf_nidgw c; conf_nidrvs c; conf_niddns c]
  ∧ addresses_in (print_conf c)
    = [conf_gatewayIP c; conf_rvsIP c] ++ (if conf_type c =? node_types_val CORE then [conf_dhtIP c] else [])
  ∧ nids_in (print_dhcp c) = [conf_nidcore c; conf_nidgw c; conf_nidrvs c; conf_niddns c]
  ∧ addresses_in (print_dhcp c) = [conf_gatewayIP c; conf_rvsIP c; conf_ip c].
Proof.
  intros Hc Hd Hi. split; [|split].
  - intros nid Hn. split; [by apply inet_pton6_ntop6|]. split; [by apply pton_in_ntop6|].
    pose proof (length_inet_ntop6 nid Hn). unfold nid2char, INET6_ADDRSTRLEN. lia.
  - intros a Ha. split; [by apply inet_pton_ntop_in|]. split; [by apply pton6_ntop4|].
    pose proof (length_inet_ntop4 a). unfold nid322char. lia.
  - destruct (holds_whole _ _ _ (print_conf_holds c Hc Hd)) as [E1 E2].
    destruct (holds_whole _ _ _ (print_dhcp_holds c Hc Hi)) as [E3 E4]. by split_and!.
Qed.

Definition core_conf : config :=
  config_init <| conf_type := node_types_val CORE |>
    <| conf_nid := [0x3f;0xfe;0;4;0;0;0;0;0;0;0;0;0;0;0;1] |>
    <| conf_nidcore := [0;0;0;0;0;0;0;0;0;0;255;255;10;0;0;7] |>
    <| conf_dhtIP := 0x0100000a |>.

Lemma printed_configuration_reads_back_witness :
  nids_in (print_conf core_conf)
  = [conf_nid core_conf; nid_zero; conf_nidcore core_conf; nid_zero; nid_zero; nid_zero]
  ∧ addresses_in (print_conf core_conf) = [0; 0; 0x0100000a]
  ∧ last_words (print_conf core_conf) !! 2%nat = Some (chars "3ffe:4::1")
  ∧ last_words (print_conf core_conf) !! 4%nat = Some (chars "::ffff:10.0.0.7").
Proof.
  destruct (printed_configuration_reads_back core_conf) as (_ & _ & H1 & H2 & _).
  - constructor; split; vm_compute; try discriminate; repeat constructor; try discriminate.
  - split; vm_compute; [discriminate|reflexivity].
  - split; vm_compute; [discriminate|reflexivity].
  - split; [exact H1|]. split; [exact H2|]. split; vm_compute; reflexivity.
Defined.
