(* ===== verification/DhcpInv.v ===== *)
(** The types of the DHCP client's state: what every operation keeps, whatever
    the network and the system answer. *)

From S2P Require Import Prelude NidTypes Inet HashTable Hash EntryTable Configuration PacketHandler.
From S2P Require Import UdpIp DhcpMsg DhcpOptions BuildMsg TokenRing DhcpEnv Arp SendRecv DhcpConfig.
From S2P Require Import DhcpClient DhcpArgs.

Local Open Scope Z_scope.

(** ** Objects of bytes *)

(** An object of [n] bytes. *)
Definition object (n : nat) (b : list Z) : Prop := length b = n ∧ bytes_ok b.

#[export] Instance object_dec n b : Decision (object n b).
Proof. unfold object. apply _. Defined.

Lemma object_splice n off d b :
  object n b → bytes_ok d → (off + length d ≤ n)%nat → object n (splice off d b).
Proof.
  intros [Hn Hb] Hd Hl. split; [|by apply bytes_ok_splice].
  rewrite length_splice by lia. done.
Qed.

Lemma object_overlay n d b :
  object n b → bytes_ok d → (length d ≤ n)%nat → object n (overlay d b).
Proof. intros. rewrite overlay_splice. by apply object_splice. Qed.

Lemma object_zero n : object n (replicate n 0).
Proof. split; [apply length_replicate|apply bytes_ok_replicate]. Qed.

Lemma object_slice n off k b : object n b → (off + k ≤ n)%nat → object k (slice off k b).
Proof. intros [Hn Hb] Hk. split; [apply length_slice; lia|by apply bytes_ok_slice]. Qed.

Lemma object_app n m a b : object n a → object m b → object (n + m) (a ++ b).
Proof. intros [Ha Ba] [Hb Bb]. split; [by rewrite length_app, Ha, Hb|by apply bytes_ok_app]. Qed.

Lemma udpipgen_object n x saddr daddr sport dport msglen ip_id y id' :
  object n x → udpipgen x saddr daddr sport dport msglen ip_id = Some (y, id') → object n y.
Proof.
  unfold udpipgen. intros [Hn Hx]. case_match eqn:E; [done|]. apply Nat.ltb_ge in E.
  set (x1 := overlay _ x). assert (H1 : object n x1).
  { apply object_overlay; [done|apply pseudo_header_ok|].
    rewrite length_pseudo_header. unfold udpip_len in *. lia. }
  destruct (in_cksum x1 _) as [c|]; [|done]. rewrite bind_ret. cbv zeta.
  destruct (in_cksum (ip_header _ _ _ _) _) as [d|]; [|done]. rewrite bind_ret.
  intros H. assert (y = overlay (splice 10 (le_bytes 2 d) (ip_header saddr daddr msglen ip_id))
    (splice 26 (le_bytes 2 (if c =? 0 then 65535 else c)) x1)) as -> by congruence.
  apply object_overlay.
  - apply object_splice; [done|apply le_bytes_ok|]. rewrite length_le_bytes. unfold udpip_len in *. lia.
  - apply bytes_ok_splice; [apply ip_header_ok|apply le_bytes_ok].
  - rewrite length_splice; rewrite length_ip_header; rewrite ?length_le_bytes;
      unfold ip_len, udpip_len in *; lia.
Qed.

Lemma udpipchk_object n f off g r :
  object n f → udpipchk f off = Some (g, r) → object n g.
Proof.
  intros Hf. unfold udpipchk. destruct (f !! off) as [ip0|]; [|done]. rewrite bind_ret.
  destruct (in_cksum (drop off f) _) as [c|]; [|done]. rewrite bind_ret.
  case_match eqn:E0; [by intros; simplify_eq|]. case_match eqn:E1; [done|]. apply Nat.ltb_ge in E1.
  destruct Hf as [Lf Bf]. case_match eqn:E2; [done|]. zbool. cbv zeta.
  set (k := Z.to_nat _). set (ip := slice off ip_len f).
  assert (Lip : length ip = ip_len) by (by apply length_slice).
  assert (Hk : (k + udpip_len ≤ n)%nat) by (subst k; lia).
  set (f1 := splice k ip f).
  assert (H1 : object n f1).
  { apply object_splice; [by split|by apply bytes_ok_slice|]. rewrite Lip.
    unfold ip_len, udpip_len in *. lia. }
  case_match eqn:E3; [by intros; simplify_eq|].
  set (u := slice (k + 24) 2 f1).
  assert (Hu : object 2 u) by (apply (object_slice n); [done|unfold udpip_len in *; lia]).
  destruct Hu as [Lu Bu].
  set (f2 := splice (k + 10) u _).
  assert (H2 : object n f2).
  { apply object_splice; [|done|rewrite Lu; unfold udpip_len in *; lia].
    apply object_splice; [done|apply bytes_ok_replicate|].
    rewrite length_replicate. unfold udpip_len in *. lia. }
  destruct (in_cksum (drop k f2) _) as [c2|]; [|done]. rewrite bind_ret.
  case_match eqn:E4; [by intros; simplify_eq|]. intros; simplify_eq.
  apply object_splice; [done|by apply bytes_ok_slice|]. rewrite Lip. lia.
Qed.

Lemma eth_header_object dhost shost ty :
  object 6 dhost → object 6 shost → object eth_len (eth_header dhost shost ty).
Proof.
  intros Hd Hs. unfold eth_header. apply (object_app 6 8); [done|]. apply (object_app 6 2); [done|].
  split; [apply length_le_bytes|apply le_bytes_ok].
Qed.

Lemma send_frame_object l dhost m opts s d ip_id f id' :
  object 6 dhost → link_ok l → dhcp_ok m → bytes_ok opts →
  send_frame l dhost m opts s d ip_id = Go (f, id') → object frame_len f.
Proof.
  intros Hd Hl Hm Ho. unfold send_frame. case_match eqn:E; [done|]. apply Nat.ltb_ge in E.
  set (eth := eth_header _ _ _). assert (He : object eth_len eth) by by apply eth_header_object.
  set (f1 := splice (msg_off + options_off) _ _).
  assert (H1 : object frame_len f1).
  { apply object_splice; [|apply bytes_ok_app; split; [apply be_bytes_ok|done]|].
    - apply object_splice; [|by apply dhcp_bytes_ok|].
      + apply object_overlay; [apply object_zero|apply He|]. rewrite (proj1 He). unfold frame_len. lia.
      + rewrite (length_dhcp_bytes m Hm). vm_compute. lia.
    - rewrite length_app. change (length magic_cookie) with 4%nat. lia. }
  destruct (udpipgen (drop eth_len f1) _ _ _ _ _ _) as [[y id2]|] eqn:Eg; [|done].
  cbn [accessed]. rewrite bind_Go. intros H.
  assert (f = take eth_len f1 ++ y) as -> by congruence.
  change frame_len with (eth_len + (frame_len - eth_len))%nat. destruct H1 as [L1 B1]. apply object_app.
  - split; [rewrite length_take, L1; unfold frame_len; lia|by apply bytes_ok_take].
  - eapply udpipgen_object; [|exact Eg]. split; [by rewrite length_drop, L1|by apply bytes_ok_drop].
Qed.

(** The variables of the command line, as far as messages carry them. *)
Definition opt_bytes_ok (s : option (list Z)) : Prop := match s with Some s => bytes_ok s | None => True end.

Definition vars_typed (v : dhcp_vars) : Prop :=
  nid32_ok (v_inform_ipaddr v)
  ∧ opt_bytes_ok (v_HostName v) ∧ opt_bytes_ok (v_ClassID v) ∧ opt_bytes_ok (v_ClientID v).

Lemma put_opt_bytes c d : byte_ok c → bytes_ok d → bytes_ok (put_opt c d).
Proof.
  intros. unfold put_opt. constructor; [done|]. constructor; [|done]. apply Z.mod_pos_bound. lia.
Qed.

Lemma opt_read_bytes n i o d : opts_ok o → opt_read n i o = Some d → bytes_ok d.
Proof.
  intros Ho H. unfold opt_read in H. destruct (opt_val o i) as [b|] eqn:E; [|done].
  rewrite bind_ret in H. case_match; [done|]. simplify_eq.
  apply bytes_ok_take. apply (opts_ok_entry _ _ _ Ho E).
Qed.

Section BuildTypes.
Context (v : dhcp_vars) (l : dhcp_link) (i : dhcpInterface) (o : dhcpOptions).
Context (Hv : vars_typed v) (Hl : link_ok l) (Hi : iface_sized i) (Ho : opts_ok o).

Lemma host_opt_bytes : bytes_ok (host_opt v).
Proof.
  destruct Hv as (_ & H & _). unfold host_opt. destruct (v_HostName v); [|constructor].
  apply put_opt_bytes; [done|]. apply bytes_ok_app. split; [done|]. by repeat constructor.
Qed.

Lemma asked_addr_bytes : bytes_ok (asked_addr_opt v i).
Proof.
  unfold asked_addr_opt. case_match; [constructor|]. apply put_opt_bytes; [done|apply le_bytes_ok].
Qed.

Lemma client_bytes_typed d : client_bytes i = Some d → bytes_ok d.
Proof.
  destruct Hi as (_ & _ & _ & _ & [_ Hb]). unfold client_bytes. case_match; [done|].
  intros; simplify_eq. by apply bytes_ok_take.
Qed.

Lemma ident_opts_bytes d : ident_opts i = Some d → bytes_ok d.
Proof.
  destruct Hi as (_ & _ & _ & [_ Hc] & [_ Hb]). unfold ident_opts, class_bytes.
  case_match; [done|]. rewrite bind_ret. destruct (client_bytes i) as [k|] eqn:Ek; [|done].
  rewrite bind_ret. intros H0.
  assert (d = dhcpClassIdentifier :: if_class_len i `mod` 256
    :: take (Z.to_nat (if_class_len i)) (if_class_id i ++ if_client_id i) ++ k ++ [endOption]) as ->
    by congruence.
  constructor; [done|]. constructor; [apply Z.mod_pos_bound; lia|]. rewrite !bytes_ok_app. split_and!.
  - apply bytes_ok_take. by apply bytes_ok_app.
  - by apply client_bytes_typed.
  - by repeat constructor.
Qed.

Lemma client_opts_bytes d : client_opts i = Some d → bytes_ok d.
Proof.
  unfold client_opts. destruct (client_bytes i) as [k|] eqn:Ek; [|done]. rewrite bind_ret.
  intros H0. assert (d = k ++ [endOption]) as -> by congruence. apply bytes_ok_app.
  split; [by apply client_bytes_typed|by repeat constructor].
Qed.

Lemma sid_opt_bytes d : sid_opt o = Some d → bytes_ok d.
Proof.
  unfold sid_opt. destruct (opt_read 4 _ o) as [x|] eqn:E; [|done]. intros H. simpl in H. simplify_eq.
  apply put_opt_bytes; [done|by eapply opt_read_bytes].
Qed.

Lemma lease_opt_bytes d : lease_opt o = Some d → bytes_ok d.
Proof.
  unfold lease_opt. case_match; [|intros; simplify_eq; constructor].
  destruct (opt_read 4 _ o) as [x|] eqn:E; [|done]. intros H'. simpl in H'. simplify_eq.
  apply put_opt_bytes; [done|by eapply opt_read_bytes].
Qed.

Lemma secs_flags_ok : 0 ≤ secs10 < 2 ^ 16 ∧ 0 ≤ resp_flags v < 2 ^ 16.
Proof.
  split; [by apply (bool_decide_unpack _)|]. unfold resp_flags.
  destruct (v_BroadcastResp v); by apply (bool_decide_unpack _).
Qed.

(** Whatever a message needs, the frame built fills the object. *)
Lemma build_object k xid ip_id f id' :
  nid32_ok xid → buildUdpIpMsg k v l i o xid ip_id = Go (f, id') → object frame_len f.
Proof.
  intros Hx. pose proof secs_flags_ok as [Hs Hf]. pose proof host_opt_bytes as Bh.
  pose proof asked_addr_bytes as Ba. destruct Hi as (Hc & _ & Hsh & _).
  pose proof (proj1 Hv) as Hinf.
  assert (Hac : nid32_ok (asked_ciaddr v i)) by (unfold asked_ciaddr; by case_match).
  assert (Hb : object 6 MAC_BCAST_ADDR) by by apply (bool_decide_unpack _).
  assert (Bt : ∀ t, bytes_ok (type_opt t)) by (intros []; by apply (bool_decide_unpack _)).
  assert (Bz : bytes_ok size_opt) by by apply (bool_decide_unpack _); vm_compute.
  assert (Bp : bytes_ok param_opt) by by apply (bool_decide_unpack _); vm_compute.
  assert (Bn : bytes_ok (put_opt dhcpIPaddrLeaseTime (nleaseTime v)))
    by (apply put_opt_bytes; [done|apply be_bytes_ok]).
  pose proof ident_opts_bytes as Bi. pose proof client_opts_bytes as Bk.
  pose proof sid_opt_bytes as Bs. pose proof lease_opt_bytes as Bl.
  destruct k; cbn [buildUdpIpMsg];
    unfold buildDhcpDiscover, buildDhcpRequest, buildDhcpRenew, buildDhcpRebind, buildDhcpReboot,
      buildDhcpRelease, buildDhcpDecline, buildDhcpInform;
    repeat match goal with
      | |- context [accessed ?x] => destruct x; [cbn [accessed]; rewrite bind_Go|done]
      end;
    try (destruct (if_ciaddr i =? 0));
    apply send_frame_object; try done; try (apply request_msg_ok; done || lia);
    rewrite ?bytes_ok_app; split_and!; auto; try constructor.
Qed.
End BuildTypes.

(** ** Token ring frames *)

Lemma byte_by_ones z : Z.land z (Z.ones 8) = z → byte_ok z.
Proof. intros <-. rewrite Z.land_ones by lia. apply Z.mod_pos_bound. lia. Qed.

Lemma byte_ones z : byte_ok z → Z.land z (Z.ones 8) = z.
Proof. unfold byte_ok. intros. rewrite Z.land_ones by lia. by apply Z.mod_small. Qed.

Lemma lor_byte a b : byte_ok a → byte_ok b → byte_ok (Z.lor a b).
Proof. intros Ha Hb. apply byte_by_ones. rewrite Z.land_lor_distr_l. by rewrite !byte_ones. Qed.

Lemma ldiff_byte a b : byte_ok a → byte_ok (Z.ldiff a b).
Proof.
  intros Ha. apply byte_by_ones. rewrite !Z.ldiff_land, <-Z.land_assoc, (Z.land_comm (Z.lnot b)), Z.land_assoc.
  by rewrite byte_ones.
Qed.

Lemma rii_bytes a : bytes_ok a → bytes_ok (set_rii a) ∧ bytes_ok (clear_rii a).
Proof.
  intros H. destruct a as [|b a]; [done|]. apply Forall_cons in H as [Hb Ha].
  split; (constructor; [|done]); [by apply lor_byte|by apply ldiff_byte].
Qed.

Lemma length_rii a : length (set_rii a) = length a ∧ length (clear_rii a) = length a.
Proof. by destruct a. Qed.

Lemma tr_header_bytes d s ty : bytes_ok d → bytes_ok s → bytes_ok ty → bytes_ok (tr_header d s ty).
Proof.
  intros Hd Hs Ht. unfold tr_header, trllc.
  assert (Hl : bytes_ok [EXTENDED_SAP; EXTENDED_SAP; UI_CMD; 0; 0; 0]) by by apply (bool_decide_unpack _).
  assert (Hf : bytes_ok [AC; LLC_FRAME]) by by apply (bool_decide_unpack _).
  case_match; rewrite !bytes_ok_app; split_and!; auto with nid. by apply rii_bytes.
Qed.

Lemma eth2tr_object n f k g len : object n f → eth2tr f k = Some (g, len) → object n g.
Proof.
  intros [Ln Bf]. unfold eth2tr. case_match eqn:E1; [done|]. apply Nat.ltb_ge in E1.
  set (h := tr_header _ _ _). case_match eqn:E2; [done|]. apply Nat.ltb_ge in E2. intros.
  assert (Bh : bytes_ok h) by (apply tr_header_bytes; auto with nid).
  assert (Ls : length (slice eth_len k f) = k) by (apply length_slice; lia).
  simplify_eq. apply object_overlay; [|done|lia].
  apply object_splice; [by split|auto with nid|lia].
Qed.

Lemma tr_strip_object n f s k g :
  object n f → object 6 s → (k ≤ 30)%nat → tr_strip f s k = Some g → object n g.
Proof.
  intros Hf [Ls Bs] Hk. unfold tr_strip. case_match eqn:E; [done|]. apply Nat.ltb_ge in E.
  rewrite (proj1 Hf) in E. unfold eth_len, trllc_len, IPPACKET_SIZE in *. intros H.
  assert (Ly : object 2 (slice (14 + k + 8 - 2) 2 f)) by (apply (object_slice n); [done|lia]).
  assert (La : object 6 (slice 2 6 f)) by (apply (object_slice n); [done|lia]).
  destruct Ly as [Ly By], La as [La Ba].
  set (f1 := splice 12 _ _) in H. assert (H1 : object n f1).
  { apply object_splice; [|done|rewrite Ly; lia]. apply object_splice; [|done|rewrite Ls; lia].
    apply object_splice; [done|done|rewrite La; lia]. }
  assert (Ld : object 1500 (slice (14 + k + 8) 1500 f1)) by (apply (object_slice n); [done|lia]).
  assert (g = splice 14 (slice (14 + k + 8) 1500 f1) f1) as -> by congruence.
  apply object_splice; [done|apply Ld|rewrite (proj1 Ld); lia].
Qed.

Lemma rif_len_bound rcf k : rif_len rcf = Some k → (k ≤ 30)%nat.
Proof.
  unfold rif_len. assert (H : Z.land rcf (swap16 TR_RCF_LEN_MASK) < 32).
  { change (swap16 TR_RCF_LEN_MASK) with (Z.ones 5). rewrite Z.land_ones by lia.
    apply Z.mod_pos_bound. lia. }
  case_match eqn:E; [done|]. zbool. intros [= <-].
  destruct (decide (Z.land rcf (swap16 TR_RCF_LEN_MASK) = 31)) as [Ho|]; [|lia].
  by rewrite Ho in *.
Qed.

Lemma tr2eth_object n f g : object n f → tr2eth f = Some (Some g) → object n g.
Proof.
  intros Hf. unfold tr2eth. case_match eqn:E; [done|]. apply Nat.ltb_ge in E.
  rewrite (proj1 Hf) in E. unfold trh_len in E.
  assert (Hs : object 6 (slice 8 6 f)) by (apply (object_slice n); [done|lia]).
  set (s := slice 8 6 f) in *.
  assert (Hc : object 6 (clear_rii s)).
  { split; [rewrite (proj2 (length_rii s)); apply Hs|apply rii_bytes, Hs]. }
  assert (Hr : tr_routed f s = Some (Some g) → object n g).
  { unfold tr_routed. destruct (rif_len _) as [k|] eqn:Ek; [|done]. case_match; [done|].
    case_match; [|done]. destruct (tr_strip f _ k) as [x|] eqn:Et; [|done]. intros. simplify_eq/=.
    eapply tr_strip_object; [done|exact Hc|by eapply rif_len_bound|done]. }
  case_match; [done|]. case_match; [|done].
  destruct (tr_strip f s 0) as [x|] eqn:Et; [|done]. intros. simplify_eq/=.
  eapply (tr_strip_object n f s 0); [done..|lia|done].
Qed.
