(* ===== verification/DhcpMsgProps.v ===== *)
(** What the messages of the DHCP client say, and what it reads in those of a
    server. *)

From S2P Require Import Prelude NidTypes Inet PacketHandler UdpIp DhcpMsg DhcpOptions BuildMsg.

Local Open Scope Z_scope.

(** ** The checksum *)

(** RFC 1071: addition of 16-bit words with end-around carry, in network
    order, a last odd byte padded with zero. *)
Definition ocadd (a b : Z) : Z := let s := a + b in if s <? 2 ^ 16 then s else s - 65535.

Fixpoint words (bs : list Z) : list Z :=
  match bs with
  | a :: b :: bs => be_val [a; b] :: words bs
  | [a] => [be_val [a; 0]]
  | [] => []
  end.

Definition rfc1071 (bs : list Z) : Z := 65535 - foldr ocadd 0 (words bs).

Lemma ocadd_bounds a b : 0 ≤ a < 2 ^ 16 → 0 ≤ b < 2 ^ 16 → 0 ≤ ocadd a b < 2 ^ 16.
Proof. intros. unfold ocadd. case_match; zbool; lia. Qed.

Lemma ocadd_mod a b :
  0 ≤ a < 2 ^ 16 → 0 ≤ b < 2 ^ 16 →
  (∃ k, a + b = 65535 * k + ocadd a b) ∧ (ocadd a b = 0 ↔ a = 0 ∧ b = 0).
Proof.
  intros. unfold ocadd. case_match; zbool.
  - split; [exists 0; lia|lia].
  - split; [exists 1; lia|lia].
Qed.

Lemma words_sum bs :
  bytes_ok bs →
  let s := foldr ocadd 0 (words bs) in
  0 ≤ s < 2 ^ 16 ∧ (∃ k, 256 * wsum bs = 65535 * k + s) ∧ (s = 0 ↔ wsum bs = 0).
Proof.
  induction bs as [|a|a b bs IH] using pairs_ind; intros H; cbv zeta in *.
  - simpl. split; [lia|]. split; [exists 0; lia|done].
  - apply Forall_cons in H as [Ha _]. unfold byte_ok in Ha.
    cbn [words foldr wsum]. change (be_val [a; 0]) with (0 + 256 * (a + 256 * 0)).
    unfold ocadd. case_match; zbool; [|lia].
    split; [lia|]. split; [exists 0; lia|lia].
  - apply Forall_cons in H as [Ha H]. apply Forall_cons in H as [Hb H]. unfold byte_ok in Ha, Hb.
    destruct (IH H) as (B & [k K] & Z0). cbn [words foldr wsum].
    set (s := foldr ocadd 0 (words bs)) in *.
    change (be_val [a; b]) with (b + 256 * (a + 256 * 0)).
    change (le_val [a; b]) with (a + 256 * (b + 256 * 0)).
    set (w := b + 256 * (a + 256 * 0)). assert (Hw : 0 ≤ w < 2 ^ 16) by (subst w; lia).
    pose proof (wsum_bounds bs H) as [Hws _].
    destruct (ocadd_mod w s Hw B) as [[j J] Hz]. split; [by apply ocadd_bounds|].
    split; [exists (j + k + b); subst w; lia|]. rewrite Hz, Z0. subst w. lia.
Qed.

(** Two 16-bit sums that agree modulo 65535 are equal, zero apart. *)
Lemma sums_equal x y k :
  0 ≤ x ≤ 65535 → 0 ≤ y ≤ 65535 → x = y + 65535 * k → (x = 0 ↔ y = 0) → x = y.
Proof. intros. assert (k = 0 ∨ k = 1 ∨ k = -1) by nia. lia. Qed.

Lemma swap16_bytes z : 0 ≤ z < 2 ^ 16 → swap16 z = z `div` 256 + 256 * (z `mod` 256).
Proof.
  intros H. unfold swap16, be_val, reverse. cbn [le_bytes rev_append le_val].
  Z.to_euclidean_division_equations; lia.
Qed.

(** The one's complement sum of the words: all ones when the checksum is among
    them and right. *)
Definition ocsum (bs : list Z) : Z := foldr ocadd 0 (words bs).

(** [in_cksum] sums the words as they lie in memory, on a little-endian
    machine, and folds the carries once at the end. *)
Lemma in_cksum_rfc1071 bs :
  bytes_ok bs → Z.of_nat (length bs) ≤ 65535 →
  ∃ c, in_cksum bs (Z.of_nat (length bs)) = Some c
    ∧ le_bytes 2 c = be_bytes 2 (rfc1071 bs)
    ∧ 0 ≤ wsum bs < 2 ^ 31.
Proof.
  intros Hb Hl. pose proof (wsum_int bs Hb Hl) as Hw.
  exists (cksum_fold (wsum bs)). rewrite in_cksum_all by done. split; [done|]. split; [|done].
  destruct (cksum_fold_spec (wsum bs) Hw) as (B & [k K] & Z0).
  destruct (words_sum bs Hb) as (B' & [k' K'] & Z0').
  rewrite <-le_bytes_swap16. f_equal. unfold rfc1071.
  set (s := foldr ocadd 0 (words bs)) in *. set (f := cksum_fold (wsum bs)) in *.
  assert (Hs : swap16 (65535 - s) = 65535 - (s `div` 256 + 256 * (s `mod` 256)))
    by (rewrite swap16_bytes by lia; Z.to_euclidean_division_equations; lia).
  rewrite Hs. pose proof (Z.div_mod s 256) as E. pose proof (Z.mod_pos_bound s 256) as M.
  assert (D : 0 ≤ s `div` 256 < 256) by (Z.to_euclidean_division_equations; lia).
  set (q := s `div` 256) in *. set (m := s `mod` 256) in *.
  enough (65535 - f = q + 256 * m) by lia.
  apply (sums_equal _ _ (256 * k' + q - wsum bs - k)); lia.
Qed.

Lemma cksum_loop_inv w n sum r :
  cksum_loop w n sum = Some r → (n ≤ length w)%nat ∧ r = sum + wsum (take n w).
Proof.
  intros E. destruct (decide (n ≤ length w)%nat) as [H|H].
  { rewrite cksum_loop_sum in E by done. by simplify_eq. }
  exfalso. revert n sum E H. induction w as [|a|a b w IH] using pairs_ind; intros n sum E H;
    cbn [length] in H.
  - destruct n as [|[|n]]; [lia|done..].
  - destruct n as [|[|n]]; [lia..|done].
  - destruct n as [|[|n]]; [lia..|]. apply (IH n (sum + le_val [a; b])); [exact E|lia].
Qed.

(** A checksum of zero: the words add up to all ones. *)
Lemma cksum_zero bs :
  bytes_ok bs → Z.of_nat (length bs) ≤ 65535 → cksum_fold (wsum bs) = 0 → ocsum bs = 65535.
Proof.
  intros Hb Hl E. destruct (in_cksum_rfc1071 bs Hb Hl) as (c & Ec & Hc & _).
  rewrite in_cksum_all in Ec by done. assert (c = 0) as -> by congruence.
  unfold rfc1071 in Hc. fold (ocsum bs) in Hc. destruct (words_sum bs Hb) as [B _]. fold (ocsum bs) in B.
  apply (f_equal be_val) in Hc. rewrite be_val_bytes in Hc. change (be_val (le_bytes 2 0)) with 0 in Hc.
  rewrite Z.mod_small in Hc by lia. lia.
Qed.

(** What [udpipchk] accepts.  [y] is the packet with the pseudo header in place
    of the IP header. *)
Lemma udpipchk_accepts before x b obj :
  bytes_ok x → x !! O = Some b → Z.land b 15 = 5 →
  (udpip_len ≤ length x)%nat → Z.of_nat (length x) ≤ 65535 →
  udpipchk (before ++ x) (length before) = Some (obj, 0) →
  let ulen := slice 24 2 x in
  let y := replicate 9 0 ++ slice 9 1 x ++ ulen ++ drop 12 x in
  obj = before ++ x ∧ ocsum (take 20 x) = 65535
  ∧ (slice 26 2 x = [0; 0]
     ∨ (Z.to_nat (be_val ulen + 20) ≤ length x)%nat
       ∧ ocsum (take (Z.to_nat (be_val ulen + 20)) y) = 65535).
Proof.
  intros Hb H0 H5 Lx Lm E ulen y. unfold udpip_len in Lx.
  assert (Hi : cksum_fold (wsum (take ip_len x)) = 0).
  { unfold udpipchk in E.
    replace ((before ++ x) !! length before) with (Some b) in E
      by (rewrite lookup_app_r, Nat.sub_diag by done; done).
    rewrite bind_ret, H5 in E. change (4 * 5) with (Z.of_nat ip_len) in E.
    rewrite drop_app_length, (in_cksum_sum x), Nat2Z.id, bind_ret in E by (unfold ip_len; lia).
    destruct (cksum_fold _ =? 0) eqn:Ez; zbool; [done|]. simpl in E. congruence. }
  assert (Hy : splice 10 ulen (splice 0 (replicate 9 0) x) = y).
  { unfold y, ulen. do 28 (destruct x as [|? x]; [simpl in Lx; lia|]). reflexivity. }
  assert (Hbu : bytes_ok ulen) by (unfold ulen; auto with nid).
  assert (Lu : length ulen = 2%nat) by (unfold ulen; apply length_slice; lia).
  rewrite (udpipchk_plain before x b H0 H5 Lx Hi) in E. cbv zeta in E. fold ulen in E.
  rewrite Hy, swap16_le_val in E by done.
  assert (Hx20 : before ++ splice 0 (take ip_len x) y = before ++ x).
  { f_equal. rewrite <-Hy. unfold ulen.
    do 28 (destruct x as [|? x]; [simpl in Lx; lia|]). reflexivity. }
  split; [|split].
  - destruct (le_val _ =? 0); [congruence|]. destruct (in_cksum y _) as [c|]; [|done].
    rewrite bind_ret in E. destruct (negb _); congruence.
  - apply cksum_zero; [auto with nid|rewrite length_take; lia|exact Hi].
  - destruct (le_val (slice 26 2 x) =? 0) eqn:Ez.
    { left. apply Z.eqb_eq in Ez. apply le_val_inj; [auto with nid|by repeat constructor| |exact Ez].
      transitivity 2%nat; [apply length_slice; lia|done]. }
    right. destruct (in_cksum y (be_val ulen + Z.of_nat ip_len)) as [c|] eqn:Ec; [|done].
    rewrite bind_ret in E. destruct (c =? 0) eqn:Ez'; zbool; [|simpl in E; congruence]. subst c.
    unfold in_cksum in Ec. apply fmap_Some in Ec as (r & Er & Ec).
    apply cksum_loop_inv in Er as [Hn ->]. change (Z.of_nat ip_len) with 20 in *.
    assert (Ly : length y = length x).
    { unfold y. rewrite !length_app, length_replicate, length_drop, Lu, length_slice by lia. lia. }
    rewrite Ly in Hn. split; [done|]. apply cksum_zero; [| |by symmetry].
    + unfold y. apply bytes_ok_take. rewrite !bytes_ok_app. auto 10 with nid.
    + rewrite length_take. lia.
Qed.

(** C25. The checksums of the client are those of RFC 1071: what [in_cksum]
    stores is, byte by byte, the Internet checksum in network order of any bytes
    that fit a packet, without overflow; whatever was in the headers before, the
    packet [udpipgen] makes of a message is accepted and left as it is by
    [udpipchk]; and a packet without IP options that [udpipchk] accepts is left
    as it was, the words of its header add up to all ones, and unless the sender
    sent no UDP checksum so do those of the pseudo header and the datagram,
    which end inside the packet. *)
Theorem checksum_is_rfc1071 bs saddr daddr sport dport ip_id msg hdr rest before x b obj :
  bytes_ok bs → Z.of_nat (length bs) ≤ 65535 →
  bytes_ok msg → Z.of_nat (length msg) + 28 ≤ 65535 → length hdr = udpip_len →
  bytes_ok x → x !! O = Some b → Z.land b 15 = 5 →
  (udpip_len ≤ length x)%nat → Z.of_nat (length x) ≤ 65535 →
  udpipchk (before ++ x) (length before) = Some (obj, 0) →
  (∃ c, in_cksum bs (Z.of_nat (length bs)) = Some c ∧ le_bytes 2 c = be_bytes 2 (rfc1071 bs)
        ∧ 0 ≤ wsum bs < 2 ^ 31)
  ∧ (∃ headers, length headers = udpip_len
       ∧ udpipgen (hdr ++ msg ++ rest) saddr daddr sport dport (Z.of_nat (length msg)) ip_id
         = Some (headers ++ msg ++ rest, u16_wrap (ip_id + 1))
       ∧ udpipchk (before ++ headers ++ msg ++ rest) (length before)
         = Some (before ++ headers ++ msg ++ rest, 0))
  ∧ let ulen := slice 24 2 x in
    let y := replicate 9 0 ++ slice 9 1 x ++ ulen ++ drop 12 x in
    obj = before ++ x ∧ ocsum (take 20 x) = 65535
    ∧ (slice 26 2 x = [0; 0]
       ∨ (Z.to_nat (be_val ulen + 20) ≤ length x)%nat
         ∧ ocsum (take (Z.to_nat (be_val ulen + 20)) y) = 65535).
Proof.
  intros Hb Hl Hm Hml Hh Hx H0 H5 Lx Lm E. split; [by apply in_cksum_rfc1071|]. split.
  - exists (gen_ip saddr daddr ip_id msg ++ gen_udp saddr daddr sport dport msg).
    split; [by rewrite length_app, length_gen_ip|]. rewrite <-!app_assoc.
    split; [by apply udpipgen_eq|by apply udpipchk_gen].
  - by apply (udpipchk_accepts before x b).
Qed.

Definition sample_bytes : list Z := chars "an odd number of bytes.".

Definition sample_packet : list Z :=
  match udpipgen (replicate 28 0 ++ sample_bytes) 0x0100000a 0x0200000a 1 2
          (Z.of_nat (length sample_bytes)) 7 with
  | Some (p, _) => p
  | None => []
  end.

Lemma checksum_is_rfc1071_witness :
  (∃ c, in_cksum sample_bytes (Z.of_nat (length sample_bytes)) = Some c
    ∧ le_bytes 2 c = be_bytes 2 (rfc1071 sample_bytes) ∧ le_bytes 2 c ≠ [0; 0])
  ∧ ocsum (take 20 sample_packet) = 65535 ∧ slice 26 2 sample_packet ≠ [0; 0].
Proof.
  destruct (checksum_is_rfc1071 sample_bytes 0 0 0 0 0 sample_bytes (replicate 28 0) []
    [1; 2; 3] sample_packet 69 ([1; 2; 3] ++ sample_packet)) as ((c & E & H & _) & _ & _ & S & _).
  - apply (bool_decide_unpack _). vm_compute. exact I.
  - vm_compute. discriminate.
  - apply (bool_decide_unpack _). vm_compute. exact I.
  - vm_compute. discriminate.
  - reflexivity.
  - apply (bool_decide_unpack _). vm_compute. exact I.
  - reflexivity.
  - reflexivity.
  - apply (bool_decide_unpack _). vm_compute. exact I.
  - vm_compute. discriminate.
  - vm_compute. reflexivity.
  - split; [|split; [exact S|vm_compute; discriminate]].
    exists c. split; [exact E|]. split; [exact H|]. rewrite H. vm_compute. discriminate.
Defined.

(** ** Messages of the client *)

Section SentFrame.
Context (v : dhcp_vars) (l : dhcp_link) (i : dhcpInterface) (o : dhcpOptions).
Context (k : client_msg) (xid ip_id : Z).
Context (Hv : vars_ok v) (Hl : link_ok l) (Hi : iface_ok i) (Hx : nid32_ok xid)
  (Hk : server_known k o).

Let frame : list Z :=
  sent_frame l (msg_dhost i k) (msg_header v l i k xid) (msg_options v i o k)
    (msg_saddr i k) (msg_daddr i k) ip_id.
Let m : dhcpMessage := sent_msg (msg_header v l i k xid) (msg_options v i o k).

Lemma the_msg_ok : dhcp_ok m.
Proof.
  destruct (msg_options_ok v i o Hv Hi k Hk). apply sent_msg_ok; [by apply msg_header_ok|done..].
Qed.

Lemma length_eth : length (eth_header (msg_dhost i k) (l_ClientHwAddr l) ETHERTYPE_IP) = eth_len.
Proof.
  destruct Hl as [Hh _]. unfold eth_header. by rewrite !length_app, (length_msg_dhost i Hi), Hh.
Qed.

Lemma sent_frame_split :
  ∃ x, length x = msg_off ∧ frame = x ++ dhcp_bytes m ++ replicate 964 0
    ∧ take eth_len x = eth_header (msg_dhost i k) (l_ClientHwAddr l) ETHERTYPE_IP.
Proof.
  unfold frame, sent_frame. fold m. set (e := eth_header _ _ _). pose proof length_eth as Le. fold e in Le.
  exists (e ++ gen_ip (msg_saddr i k) (msg_daddr i k) ip_id (dhcp_bytes m)
            ++ gen_udp (msg_saddr i k) (msg_daddr i k) (swap16 DHCP_CLIENT_PORT)
                 (swap16 DHCP_SERVER_PORT) (dhcp_bytes m)).
  split; [|split; [by rewrite <-!app_assoc|by apply take_app_length']].
  rewrite !length_app, Le, length_gen_ip. done.
Qed.

Lemma sent_frame_read :
  length frame = frame_len ∧ recv_msg frame msg_off = m
  ∧ drop (msg_off + options_off + 4) frame
    = msg_options v i o k
        ++ replicate (options_len - 4 - length (msg_options v i o k)) 0 ++ replicate 964 0.
Proof.
  destruct sent_frame_split as (x & Lx & E & _). rewrite E. pose proof the_msg_ok as Hm. split_and!.
  - rewrite !length_app, Lx, (length_dhcp_bytes m Hm), length_replicate. done.
  - unfold recv_msg. rewrite drop_app_length' by done. by apply dhcp_of_bytes.
  - rewrite <-Nat.add_assoc, <-drop_drop, drop_app_length' by done.
    rewrite (dhcp_bytes_split m Hm). change (dm_options m) with (sent_options (msg_options v i o k)).
    unfold sent_options. rewrite <-drop_drop, <-app_assoc.
    rewrite drop_app_length' by (by rewrite length_dhcp_head).
    by rewrite <-!app_assoc, drop_app_length' by done.
Qed.

Lemma sent_frame_valid : udpipchk frame eth_len = Some (frame, 0).
Proof.
  pose proof the_msg_ok as Hm. unfold frame, sent_frame. fold m. rewrite <-length_eth.
  apply udpipchk_gen; [by apply dhcp_bytes_ok|]. rewrite (length_dhcp_bytes m Hm). done.
Qed.

Lemma sent_options_parsed :
  ∃ o', parse_options (options_len - 4) (drop (msg_off + options_off + 4) frame) opts_zero = Some o'
    ∧ ∀ c, opt_data o' c = tlv_last c (msg_tlvs v i o k) None.
Proof.
  destruct sent_frame_read as (_ & _ & E). destruct (msg_tlvs_ok v i o Hv Hi k Hk) as [Ht Hn].
  rewrite E. unfold msg_options. rewrite <-!app_assoc. cbn [app].
  destruct (parse_tlvs (msg_tlvs v i o k) (options_len - 4)
    (replicate (options_len - 4 - length (tlvs_bytes (msg_tlvs v i o k) ++ [endOption])) 0
       ++ replicate 964 0) opts_zero opts_zero_ok Ht) as (o' & -> & _ & D & _).
  { unfold options_len. lia. }
  exists o'. split; [done|]. exact D.
Qed.
End SentFrame.

Lemma sent_msg_zeroed m opts z :
  dm_options m = z → sent_msg m opts <| dm_options := z |> = m.
Proof. intros <-. by destruct m. Qed.

(** C26. Every message the client builds is an Ethernet frame with a packet that
    passes its own test of the checksums; what is read at the place of the
    message is the header meant, behind the cookie, and the options read in it
    are exactly those written, whatever the host name, the identifiers and the
    lease. *)
Theorem client_message_read k v l i o xid ip_id :
  vars_ok v → link_ok l → iface_ok i → nid32_ok xid → server_known k o →
  ∃ frame o',
    buildUdpIpMsg k v l i o xid ip_id = Go (frame, u16_wrap (ip_id + 1))
    ∧ length frame = frame_len
    ∧ take eth_len frame = eth_header (msg_dhost i k) (l_ClientHwAddr l) ETHERTYPE_IP
    ∧ udpipchk frame eth_len = Some (frame, 0)
    ∧ (let m := recv_msg frame msg_off in
       m <| dm_options := replicate options_len 0 |> = msg_header v l i k xid
       ∧ take 4 (dm_options m) = magic_cookie)
    ∧ parse_options (options_len - 4) (drop (msg_off + options_off + 4) frame) opts_zero = Some o'
    ∧ ∀ c, opt_data o' c = tlv_last c (msg_tlvs v i o k) None.
Proof.
  intros Hv Hl Hi Hx Hk.
  destruct (sent_options_parsed v l i o k xid ip_id Hv Hl Hi Hx Hk) as (o' & Ho & D).
  destruct (sent_frame_read v l i o k xid ip_id Hv Hl Hi Hx Hk) as (Lf & Em & _).
  destruct (sent_frame_split v l i o k xid ip_id Hl Hi) as (x & Lx & E & Te).
  eexists _, o'. split; [by apply build_sent|]. split_and!; try done.
  - rewrite E, take_app_le by (rewrite Lx; unfold msg_off; lia). done.
  - by apply sent_frame_valid.
  - cbv zeta. rewrite Em. split; [by apply sent_msg_zeroed|done].
Qed.

(** A client on Ethernet that has an address and knows its server. *)
Definition sample_vars : dhcp_vars :=
  mkVars (chars "eth0") (chars "eth0") (Some (chars "node")) None None false 3600 true true true
    false false false 60 true false false 0 (chars "/etc/dhcpc") None true 0 0 false.

Definition sample_link : dhcp_link := mkLink [0; 17; 34; 51; 68; 85] false.

Definition sample_uname : list Z := chars "Linux 2.4.20 i686".

Definition sample_iface : dhcpInterface :=
  match classclientsetup sample_vars sample_uname sample_link
          (iface_zero <| if_ciaddr := 0x4d00000a |> <| if_siaddr := 0x0100000a |>) with
  | Go i => i
  | _ => iface_zero
  end.

Definition sample_opts : dhcpOptions :=
  default opts_zero (parse_options 18
    (tlvs_bytes [(dhcpServerIdentifier, [10; 0; 0; 1]); (dhcpIPaddrLeaseTime, [0; 0; 14; 16])]
       ++ [endOption] ++ replicate 300 0) opts_zero).

Lemma sample_ok :
  vars_ok sample_vars ∧ link_ok sample_link ∧ iface_ok sample_iface
  ∧ ∀ k, server_known k sample_opts.
Proof.
  split_and!; [by apply (bool_decide_unpack _); vm_compute..|]. intros k.
  split.
  - destruct (parse_options_total 18 (tlvs_bytes [(dhcpServerIdentifier, [10; 0; 0; 1]);
      (dhcpIPaddrLeaseTime, [0; 0; 14; 16])] ++ [endOption] ++ replicate 300 0) opts_zero)
      as (o' & E & Ho).
    + apply opts_zero_ok.
    + by apply (bool_decide_unpack _); vm_compute.
    + right. apply (bool_decide_unpack _). by vm_compute.
    + unfold sample_opts. by rewrite E.
  - split; intros _; vm_compute; by eexists.
Qed.

Lemma client_message_read_witness :
  ∃ frame o',
    buildUdpIpMsg MRequest sample_vars sample_link sample_iface sample_opts 77 1 = Go (frame, 2)
    ∧ udpipchk frame eth_len = Some (frame, 0)
    ∧ opt_data o' dhcpRequestedIPaddr = Some [10; 0; 0; 77].
Proof.
  destruct sample_ok as (Hv & Hl & Hi & Hk).
  destruct (client_message_read MRequest sample_vars sample_link sample_iface sample_opts 77 1 Hv Hl Hi)
    as (f & o' & E & _ & _ & U & _ & _ & D); [by split; vm_compute|apply Hk|].
  exists f, o'. split; [exact E|]. split; [exact U|]. rewrite D. vm_compute. reflexivity.
Defined.

(** ** RFC 2131 *)

(** RFC 2131, table 5 and section 4.4: which messages carry the address in
    [ciaddr], as a client has that is bound to it, which ask for it in option
    50, which name the server in option 54, which have options 55 and 57, and
    which go to the server alone.  A client that has no address asks for none.
    Section 4.4.4 has DHCPDECLINE broadcast; this client sends it to the
    server. *)
Record rfc_row := mkRow {
  row_ciaddr : bool; row_requested : bool; row_server : bool; row_params : bool;
  row_unicast : bool;
}.

Definition rfc2131 (k : client_msg) : rfc_row :=
  match k with
  | MDiscover => mkRow false true false true false
  | MRequest => mkRow false true true true false
  | MReboot => mkRow false true false true false
  | MRenew => mkRow true false false true true
  | MRebind => mkRow true false false true false
  | MRelease => mkRow true false true false true
  | MDecline => mkRow false true true false true
  | MInform => mkRow false false false true false
  end.

Lemma tlv_last_app c l l' d : tlv_last c (l ++ l') d = tlv_last c l' (tlv_last c l d).
Proof. apply foldl_app. Qed.

Lemma tlv_last_cons c t l d :
  tlv_last c (t :: l) d = tlv_last c l (if decide (t.1 = c) then Some t.2 else d).
Proof. done. Qed.

Section Rfc.
Context (v : dhcp_vars) (i : dhcpInterface) (o : dhcpOptions).

Lemma tlv_last_host c d : c ≠ hostName → tlv_last c (host_tlv v) d = d.
Proof.
  intros Hc. unfold host_tlv. destruct (v_HostName v); [|done].
  rewrite tlv_last_cons. cbn [fst]. by rewrite decide_False.
Qed.

Lemma tlv_last_read c c' d :
  tlv_last c (read_tlv o c') d
  = if decide (c' = c) then match opt_read 4 c' o with Some x => Some x | None => d end else d.
Proof.
  unfold read_tlv. destruct (opt_read 4 c' o); [|by case_decide].
  rewrite tlv_last_cons. cbn [fst snd]. done.
Qed.

Lemma tlv_last_addr c d :
  v_BeRFC1541 v = false →
  tlv_last c (addr_tlv v i) d
  = if decide (dhcpRequestedIPaddr = c) then Some (le_bytes 4 (if_ciaddr i)) else d.
Proof. intros Hv. unfold addr_tlv. rewrite Hv. by rewrite tlv_last_cons. Qed.
End Rfc.

Ltac tlvs :=
  repeat first [ rewrite tlv_last_app | rewrite tlv_last_cons
               | rewrite tlv_last_host by done | rewrite tlv_last_read
               | rewrite tlv_last_addr by done ];
  cbn [fst snd]; repeat first [rewrite decide_True by done | rewrite decide_False by done]; cbn [tlv_last foldl].

(** The addresses and ports of a frame. *)
Lemma sent_frame_addresses v l i o k xid ip_id :
  vars_ok v → link_ok l → iface_ok i →
  let frame := sent_frame l (msg_dhost i k) (msg_header v l i k xid) (msg_options v i o k)
                 (msg_saddr i k) (msg_daddr i k) ip_id in
  slice 0 6 frame = msg_dhost i k ∧ slice 6 6 frame = l_ClientHwAddr l
  ∧ slice 12 2 frame = [8; 0]
  ∧ slice 26 4 frame = le_bytes 4 (msg_saddr i k) ∧ slice 30 4 frame = le_bytes 4 (msg_daddr i k)
  ∧ slice 34 4 frame = [0; 68; 0; 67].
Proof.
  intros Hv [Lh _] Hi frame. pose proof (length_msg_dhost i Hi k) as Ld.
  unfold frame, sent_frame, eth_header. rewrite <-!app_assoc.
  assert (He : length (msg_dhost i k ++ l_ClientHwAddr l ++ [8; 0]) = 14%nat)
    by (by rewrite !length_app, Ld, Lh).
  change (le_bytes 2 (swap16 ETHERTYPE_IP)) with [8; 0].
  set (p := gen_ip _ _ _ _ ++ _).
  assert (Hs : ∀ a n, slice (14 + a) n (msg_dhost i k ++ l_ClientHwAddr l ++ [8; 0] ++ p) = slice a n p).
  { intros a n. rewrite <-He, <-(slice_app_r a n (msg_dhost i k ++ l_ClientHwAddr l ++ [8; 0]) p).
    by rewrite <-!app_assoc. }
  split_and!.
  - by apply (slice_app_at 0 6 []).
  - by apply slice_app_at.
  - rewrite (app_assoc (msg_dhost i k)). apply slice_app_at; [by rewrite length_app, Ld, Lh|done].
  - by etransitivity; [apply (Hs 12%nat 4%nat)|].
  - by etransitivity; [apply (Hs 16%nat 4%nat)|].
  - by etransitivity; [apply (Hs 20%nat 4%nat)|].
Qed.

(** C11. Unless it is told to follow RFC 1541, the client sends what RFC 2131
    asks of each message, in a frame whose checksums its own test finds right:
    to the server alone or to all, from its hardware address and from the
    address it is bound to or from none, from port 68 to port 67; a request
    with the transaction number, the type and length of the hardware address
    and that address, ten seconds and the broadcast flag it was told to set
    (neither in a release or decline), and the address in [ciaddr] of a bound
    client only; its type in option 53, the address in option 50 and the server
    in option 54 or none, the parameters it wants in option 55 and the size it
    accepts in option 57, and always the client identifier in option 61. *)
Theorem messages_follow_rfc2131 k v l i o xid ip_id :
  vars_ok v → link_ok l → iface_ok i → nid32_ok xid → server_known k o →
  v_BeRFC1541 v = false → if_ciaddr i ≠ 0 →
  let row := rfc2131 k in
  ∃ frame o',
    buildUdpIpMsg k v l i o xid ip_id = Go (frame, u16_wrap (ip_id + 1))
    ∧ udpipchk frame eth_len = Some (frame, 0)
    ∧ (slice 0 6 frame = (if row_unicast row then if_shaddr i else replicate 6 255)
       ∧ slice 6 6 frame = l_ClientHwAddr l ∧ slice 12 2 frame = [8; 0]
       ∧ slice 26 4 frame = le_bytes 4 (if row_ciaddr row then if_ciaddr i else 0)
       ∧ slice 30 4 frame = le_bytes 4 (if row_unicast row then if_siaddr i else 0xffffffff)
       ∧ slice 34 4 frame = [0; 68; 0; 67])
    ∧ (let m := recv_msg frame msg_off in
       dm_op m = 1 ∧ dm_htype m = (if l_TokenRingIf l then 800 `mod` 256 else 1) ∧ dm_hlen m = 6
       ∧ dm_hops m = 0 ∧ dm_xid m = xid
       ∧ le_bytes 2 (dm_secs m) = (if row_params row then [0; 10] else [0; 0])
       ∧ le_bytes 2 (dm_flags m)
         = (if row_params row && v_BroadcastResp v then [128; 0] else [0; 0])
       ∧ dm_ciaddr m = (if k is MInform then v_inform_ipaddr v
                        else if row_ciaddr row then if_ciaddr i else 0)
       ∧ dm_yiaddr m = 0 ∧ dm_siaddr m = 0 ∧ dm_giaddr m = 0
       ∧ dm_chaddr m = l_ClientHwAddr l ++ replicate 10 0)
    ∧ parse_options (options_len - 4) (drop (msg_off + options_off + 4) frame) opts_zero = Some o'
    ∧ opt_data o' dhcpMessageType = Some [dhcp_type_val (sent_type k)]
    ∧ opt_data o' dhcpRequestedIPaddr
      = (if row_requested row then Some (le_bytes 4 (if_ciaddr i)) else None)
    ∧ opt_data o' dhcpServerIdentifier
      = (if row_server row then opt_read 4 dhcpServerIdentifier o else None)
    ∧ opt_data o' dhcpParamRequest = (if row_params row then Some requested_params else None)
    ∧ opt_data o' dhcpMaxMsgSize = (if row_params row then Some [2; 36] else None)
    ∧ opt_data o' dhcpClientIdentifier = Some (client_data i).
Proof.
  intros Hv Hl Hi Hx Hk Hr Hc row.
  destruct (sent_options_parsed v l i o k xid ip_id Hv Hl Hi Hx Hk) as (o' & Ho & D).
  destruct (sent_frame_read v l i o k xid ip_id Hv Hl Hi Hx Hk) as (Lf & Em & _).
  pose proof (sent_frame_valid v l i o k xid ip_id Hv Hl Hi Hx Hk) as Hu.
  destruct (sent_frame_addresses v l i o k xid ip_id Hv Hl Hi) as (A1 & A2 & A3 & A4 & A5 & A6).
  eexists _, o'. split; [by apply build_sent|]. rewrite Em, !D.
  destruct Hk as (_ & Hs & _). apply Z.eqb_neq in Hc.
  split; [exact Hu|]. split; [|split].
  - rewrite A1, A2, A3, A4, A5, A6. by destruct k.
  - cbv zeta. destruct Hl as [Lh _]. split_and!; try done.
    + by change (dm_htype _) with ((if l_TokenRingIf l then ARPHRD_IEEE802_TR else ARPHRD_ETHER) `mod` 256);
        destruct (l_TokenRingIf l).
    + change (dm_secs _) with (msg_secs k). by destruct k.
    + change (dm_flags _) with (msg_flags v k). unfold msg_flags, resp_flags.
      by destruct k, (v_BroadcastResp v).
    + change (dm_ciaddr _) with (msg_ciaddr v i k). unfold msg_ciaddr, asked_ciaddr.
      rewrite Hr, Hc. by destruct k.
    + change (dm_chaddr _) with (overlay (l_ClientHwAddr l) (replicate 16 0)).
      unfold overlay. by rewrite drop_replicate, Lh.
  - unfold msg_tlvs, ident_tlvs, size_tlv, nlease_tlv, client_tlv. rewrite Hc.
    split; [exact Ho|]. split_and!;
      destruct k; tlvs; try done; by destruct (opt_read 4 dhcpServerIdentifier o).
Qed.

Lemma messages_follow_rfc2131_witness :
  ∃ frame o',
    buildUdpIpMsg MDiscover sample_vars sample_link sample_iface sample_opts 77 1 = Go (frame, 2)
    ∧ opt_data o' dhcpRequestedIPaddr = Some [10; 0; 0; 77]
    ∧ dm_ciaddr (recv_msg frame msg_off) = 0 ∧ udpipchk frame eth_len = Some (frame, 0).
Proof.
  destruct sample_ok as (Hv & Hl & Hi & Hk).
  destruct (messages_follow_rfc2131 MDiscover sample_vars sample_link sample_iface sample_opts 77 1 Hv Hl Hi)
    as (f & o' & E & U & _ & (_ & _ & _ & _ & _ & _ & _ & C & _) & _ & _ & R & _);
    [by split; vm_compute|apply Hk|reflexivity|by vm_compute|].
  exists f, o'. split; [exact E|]. split; [rewrite R; vm_compute; reflexivity|].
  split; [exact C|exact U].
Defined.

(** ** Replies *)

(** The data of option [c] before the message is read, and after: the two
    times are cleared first. *)
Definition before (o : dhcpOptions) (c : Z) : option (list Z) :=
  if decide (c ∈ [dhcpT1value; dhcpT2value])
  then (λ d, replicate (length d) 0) <$> opt_data o c else opt_data o c.

Definition seen (o : dhcpOptions) (l : list tlv) (c : Z) : option (list Z) := tlv_last c l (before o c).

(** What the client then works with: what it saw, and for the parameters it
    needs a default.  [src] is the sender of the packet, [y] the address
    offered. *)
Definition reply_option (src : list Z) (y : Z) (lease : list Z) (s : Z → option (list Z)) (c : Z)
    : option (list Z) :=
  let sid := default src (s dhcpServerIdentifier) in
  let mask := default (class_mask y) (s subnetMask) in
  let time := time_or (s dhcpIPaddrLeaseTime) lease in
  if decide (c = dhcpServerIdentifier) then Some sid
  else if decide (c = dns) then Some (default (take 4 sid) (s dns))
  else if decide (c = subnetMask) then Some mask
  else if decide (c = broadcastAddr)
       then Some (default (le_bytes 4 (broadcast_of y (le_val (take 4 mask)))) (s broadcastAddr))
  else if decide (c = dhcpIPaddrLeaseTime) then Some time
  else if decide (c = dhcpT1value) then Some (time_or (s dhcpT1value) (part_of 1 2 time))
  else if decide (c = dhcpT2value) then Some (time_or (s dhcpT2value) (part_of 7 8 time))
  else s c.

(** The block of an option. *)
Lemma opt_block o i d :
  opts_ok o → opt_data o i = Some d →
  ∃ b, opt_val o i = Some (d ++ b) ∧ (i ∈ text_options → b !! O = Some 0).
Proof.
  intros Ho E. unfold opt_data in E. unfold opt_val. destruct (o_tab o !! i) as [[n b]|] eqn:Ei; [|done].
  destruct (Ho i _ Ei) as (A & B & _ & C). cbn [fst snd] in *.
  assert (d = take (Z.to_nat n) b) as -> by (cbn in E; congruence).
  exists (drop (Z.to_nat n) b). split; [cbn; by rewrite take_drop|].
  intros Hi. rewrite lookup_drop, Nat.add_0_r. auto.
Qed.

(** The message for the daemon: the text of option 17, the address offered and
    a separator, with zeros up to the size written. *)
Definition daemon_text (root : list Z) (y : Z) : list Z := root ++ inet_ntop4 y ++ [124].

Lemma tell_nidd_spec o t r y :
  opts_ok o → opt_data o dhcpMessageType = Some (t :: r) →
  (t = dhcp_type_val ACK → ∃ root, opt_data o rootPath = Some root ∧ 0 ∉ root) →
  tell_nidd true true y o
  = Go (if decide (t = dhcp_type_val ACK) then
          (λ root, nidd_message (root ++ [0]) y) <$> opt_data o rootPath else None).
Proof.
  intros Ho Ht Hr. destruct (opt_block _ _ _ Ho Ht) as (b & Eb & _).
  unfold tell_nidd. rewrite Eb. cbn [accessed app]. rewrite bind_Go. cbn [lookup list_lookup accessed].
  rewrite bind_Go. case_decide as Ht'.
  - rewrite (proj2 (Z.eqb_eq _ _)) by done. cbn [negb].
    destruct (Hr Ht') as (root & Er & Hn). destruct (opt_block _ _ _ Ho Er) as (c & Ec & Hc).
    rewrite Ec, Er. cbn [accessed]. rewrite bind_Go.
    assert (H17 : rootPath ∈ text_options) by (apply (bool_decide_unpack _); vm_compute; exact I).
    specialize (Hc H17). destruct c as [|z c]; [discriminate Hc|].
    assert (z = 0) as -> by (cbn in Hc; congruence).
    unfold strlen. rewrite cstr_app_nul by done.
    rewrite (proj2 (Nat.leb_gt _ _)) by (rewrite length_app; simpl; lia).
    cbn [fmap option_fmap option_map]. unfold nidd_message.
    rewrite (cstr_app_nul root []), (cstr_app_nul root c) by done. done.
  - rewrite (proj2 (Z.eqb_neq _ _)); done.
Qed.

(** Codes that are not in a list of constants. *)
Ltac not_code := apply (bool_decide_eq_false_1 _); vm_compute; reflexivity.

Lemma reply_option_filled o1 o2 o3 src y lease (s : Z → option (list Z)) c :
  (∀ c, opt_data o1 c = s c) →
  filled_addresses src y o1 o2 → filled_times lease o2 o3 →
  opt_data o3 c = reply_option src y lease s c.
Proof.
  intros D1 F2 F3. destruct F2 as [G1 G2 G3 G4 K2], F3 as [T1 T2 T3 K3].
  assert (K2' : ∀ c, c ∉ address_codes → opt_data o2 c = s c).
  { intros c' Hc. by rewrite (keeps_except_data _ _ _ _ K2 Hc). }
  assert (K3' : ∀ c, c ∉ time_codes → opt_data o3 c = opt_data o2 c).
  { intros c' Hc. by apply (keeps_except_data time_codes). }
  unfold lease_time in *. rewrite K2' in T1 by not_code.
  repeat rewrite K2' in T2 by not_code. repeat rewrite K2' in T3 by not_code.
  rewrite D1 in G1, G3. repeat rewrite D1 in G2. repeat rewrite D1 in G4.
  unfold reply_option. cbv zeta.
  repeat (case_decide; [subst c; try (rewrite K3' by not_code); done|]).
  rewrite K3', K2'; [done|..]; unfold address_codes, time_codes; rewrite !not_elem_of_cons;
    split_and!; (done || apply not_elem_of_nil).
Qed.

(** The address of a message after it is replaced. *)
Lemma spliced_yiaddr recv off y :
  nid32_ok y → (off + 20 ≤ length recv)%nat →
  dm_yiaddr (recv_msg (splice (off + 16) (le_bytes 4 y) recv) off) = y.
Proof.
  intros Hy Hl. transitivity (le_val (slice (off + 16) 4 (splice (off + 16) (le_bytes 4 y) recv))).
  - unfold recv_msg. cbn. unfold slice. by rewrite drop_drop.
  - rewrite (slice_splice_eq _ (le_bytes 4 y)); [by apply le_val_bytes4|].
    rewrite length_le_bytes. lia.
Qed.

Lemma recv_yiaddr_ok recv off :
  bytes_ok recv → (off + 20 ≤ length recv)%nat → nid32_ok (dm_yiaddr (recv_msg recv off)).
Proof.
  intros Hb Hl. apply (nid32_ok_slice 16); [rewrite length_drop; lia|auto with nid].
Qed.

Section Reply.
Context (lease : list Z) (send_ciaddr : Z) (s : parse_state) (l : list tlv) (rest : list Z).
Context (Hlease : bytes_ok lease) (Llease : length lease = 4%nat).
Context (Ho : opts_ok (ps_opts s)) (Hr : bytes_ok (ps_recv s)).
Context (Hm : (ps_msg s + 20 ≤ length (ps_recv s))%nat) (Hm' : (30 ≤ ps_msg s)%nat).
Context (Hl : Forall tlv_ok l) (Ll : (length (tlvs_bytes l) < options_len - 4)%nat).
Context (Hb : drop (ps_msg s + options_off + 4) (ps_recv s) = tlvs_bytes l ++ endOption :: rest).

Let got := seen (ps_opts s) l.
Let m := recv_msg (ps_recv s) (ps_msg s).

(** The address the client takes: its own when the message has none. *)
Definition taken_address : Z := if dm_yiaddr m =? 0 then send_ciaddr else dm_yiaddr m.

Context (H54 : ∀ d, got dhcpServerIdentifier = Some d → (4 ≤ length d)%nat).
Context (H1 : ∀ d, got subnetMask = Some d → (4 ≤ length d)%nat).

Lemma clear_times :
  ∃ o0, (o ← opt_clear dhcpT1value (ps_opts s); opt_clear dhcpT2value o) = Go o0 ∧ opts_ok o0
    ∧ ∀ c, opt_data o0 c = before (ps_opts s) c.
Proof.
  destruct (opt_clear_spec dhcpT1value (ps_opts s) Ho) as (o1 & -> & O1 & K1 & _ & D1); [not_text|].
  rewrite bind_Go.
  destruct (opt_clear_spec dhcpT2value o1 O1) as (o2 & -> & O2 & K2 & _ & D2); [not_text|].
  exists o2. split; [done|]. split; [done|]. intros c. unfold before.
  destruct (decide (c = dhcpT2value)) as [->|N2].
  { rewrite decide_True by by vm_compute; right; left. rewrite D2. by other_data. }
  rewrite (keeps_others_data _ _ _ K2) by congruence.
  destruct (decide (c = dhcpT1value)) as [->|N1].
  { rewrite decide_True by by left. done. }
  rewrite (keeps_others_data _ _ _ K1) by congruence.
  rewrite decide_False; [done|]. rewrite !not_elem_of_cons. split_and!; try done. apply not_elem_of_nil.
Qed.

Lemma parse_seen :
  ∃ o1, (o ← opt_clear dhcpT1value (ps_opts s); o ← opt_clear dhcpT2value o;
         accessed (parse_options (options_len - 4)
                     (drop (ps_msg s + options_off + 4) (ps_recv s)) o)) = Go o1
    ∧ opts_ok o1 ∧ ∀ c, opt_data o1 c = got c.
Proof.
  destruct clear_times as (o0 & E0 & O0 & D0).
  destruct (parse_tlvs l (options_len - 4) rest o0 O0 Hl Ll) as (o1 & E1 & O1 & D1 & _).
  exists o1. split; [|split; [done|]].
  - destruct (opt_clear dhcpT1value (ps_opts s)) as [a| | |]; try discriminate E0.
    rewrite bind_Go in E0 |- *. rewrite E0, bind_Go, Hb, E1. done.
  - intros c. rewrite D1, D0. done.
Qed.

Lemma reply_parse t r :
  got dhcpMessageType = Some (t :: r) →
  (t = dhcp_type_val ACK → ∃ root, got rootPath = Some root ∧ 0 ∉ root) →
  ∃ s', parseDhcpMsgRecv lease send_ciaddr true true s
        = Go (s', (if decide (t = dhcp_type_val ACK) then
                     (λ root, nidd_message (root ++ [0]) (dm_yiaddr m)) <$> got rootPath else None), t)
    ∧ opts_ok (ps_opts s') ∧ ps_msg s' = ps_msg s
    ∧ ps_recv s' = splice (ps_msg s + 16) (le_bytes 4 taken_address) (ps_recv s)
    ∧ ∀ c, opt_data (ps_opts s') c
           = reply_option (ip_src (ps_recv s)) taken_address lease got c.
Proof.
  intros Ht Hroot. destruct parse_seen as (o1 & E1 & O1 & D1).
  unfold parseDhcpMsgRecv. cbv zeta. fold m.
  destruct (opt_clear dhcpT1value (ps_opts s)) as [a| | |]; try discriminate E1.
  rewrite bind_Go in E1. rewrite bind_Go. cbv beta in E1 |- *.
  destruct (opt_clear dhcpT2value a) as [a'| | |]; try discriminate E1.
  rewrite bind_Go in E1. rewrite bind_Go.
  rewrite E1, bind_Go. rewrite (tell_nidd_spec o1 t r), bind_Go; [|done|by rewrite D1|by rewrite D1].
  change (if dm_yiaddr m =? 0 then send_ciaddr else dm_yiaddr m) with taken_address.
  set (recv := splice _ _ (ps_recv s)).
  assert (Es : ip_src recv = ip_src (ps_recv s))
    by (apply slice_splice_before; unfold eth_len; lia).
  assert (Bs : bytes_ok (ip_src (ps_recv s))) by by apply bytes_ok_slice.
  assert (Ls : length (ip_src (ps_recv s)) = 4%nat) by (apply length_slice; unfold eth_len; lia).
  rewrite Es.
  destruct (fill_addresses_spec (ip_src (ps_recv s)) taken_address o1 O1 Bs Ls) as (o2 & -> & O2 & F2);
    [intros d; rewrite D1; apply H54|intros d; rewrite D1; apply H1|]. rewrite bind_Go.
  destruct (fill_times_spec lease o2 O2 Hlease Llease) as (o3 & -> & O3 & F3 & _). rewrite bind_Go.
  assert (T3 : opt_data o3 dhcpMessageType = Some (t :: r)).
  { rewrite (keeps_except_data _ _ _ _ (filled_keep_times _ _ _ F3)) by not_code.
    rewrite (keeps_except_data _ _ _ _ (filled_keep _ _ _ _ F2)) by not_code. by rewrite D1. }
  destruct (opt_block _ _ _ O3 T3) as (b & Eb & _). rewrite Eb. cbn [accessed app]. rewrite bind_Go.
  cbn [lookup list_lookup accessed]. rewrite bind_Go. rewrite !D1.
  eexists. split; [reflexivity|]. cbn [ps_opts ps_msg ps_recv]. split_and!; try done.
  intros c. by apply (reply_option_filled o1 o2 o3).
Qed.
End Reply.

(** C27. A reply is read as it should be: for any well-formed list of options,
    with the message type and, in an acknowledgement, the root path, the client
    keeps the last value of each option, and fills in what it needs: its own
    address where the reply offers none, in the message, which is not changed
    otherwise; the server from the address of the sender, the resolver from the
    server, mask and broadcast address from the class of the address, the lease
    from its own request, and half and seven eighths of the lease for the two
    times.  The table stays well formed, and the daemon gets a message, with the
    address the server gave, for acknowledgements only. *)
Theorem reply_read lease send_ciaddr s l rest t r :
  bytes_ok lease → length lease = 4%nat → opts_ok (ps_opts s) → bytes_ok (ps_recv s) →
  (30 ≤ ps_msg s)%nat → (ps_msg s + 20 ≤ length (ps_recv s))%nat →
  Forall tlv_ok l → (length (tlvs_bytes l) < options_len - 4)%nat →
  drop (ps_msg s + options_off + 4) (ps_recv s) = tlvs_bytes l ++ endOption :: rest →
  let got := seen (ps_opts s) l in
  (∀ c d, c ∈ [dhcpServerIdentifier; subnetMask] → got c = Some d → (4 ≤ length d)%nat) →
  got dhcpMessageType = Some (t :: r) →
  (t = dhcp_type_val ACK → ∃ root, got rootPath = Some root ∧ 0 ∉ root) →
  let m := recv_msg (ps_recv s) (ps_msg s) in
  let y := if dm_yiaddr m =? 0 then send_ciaddr else dm_yiaddr m in
  ∃ s' told, parseDhcpMsgRecv lease send_ciaddr true true s = Go (s', told, t)
    ∧ opts_ok (ps_opts s') ∧ ps_msg s' = ps_msg s
    ∧ ps_recv s' = splice (ps_msg s + 16) (le_bytes 4 y) (ps_recv s)
    ∧ (nid32_ok send_ciaddr → dm_yiaddr (recv_msg (ps_recv s') (ps_msg s')) = y)
    ∧ (∀ c, opt_data (ps_opts s') c = reply_option (ip_src (ps_recv s)) y lease got c)
    ∧ told = (if decide (t = dhcp_type_val ACK)
              then (λ root, nidd_message (root ++ [0]) (dm_yiaddr m)) <$> got rootPath else None).
Proof.
  intros Bl Ll Ho Br Hm Hm' Hl Hn Hb got H4 Ht Hr m y.
  destruct (reply_parse lease send_ciaddr s l rest Bl Ll Ho Br Hm' Hm Hl Hn Hb) with (t := t) (r := r)
    as (s' & E & Ho' & Em & Er & D); [..|done|done|].
  - intros d. apply H4. by left.
  - intros d. apply H4. by right; left.
  - exists s'. eexists. split; [exact E|]. split; [done|]. split; [done|]. split; [exact Er|].
    split; [|split; [exact D|done]]. intros Hs. rewrite Er, Em.
    apply (spliced_yiaddr (ps_recv s) (ps_msg s) y); [|done].
    unfold y. destruct (_ =? 0); [done|]. by apply recv_yiaddr_ok.
Qed.

(** A server at 10.0.0.1 that gives 10.0.0.77 for an hour, with the root path
    the daemon expects. *)
Definition server_link : dhcp_link := mkLink [2; 0; 0; 0; 0; 1] false.

Definition server_msg (xid y : Z) : dhcpMessage :=
  request_msg sample_link xid 0 0 0 <| dm_op := DHCP_BOOTREPLY |> <| dm_yiaddr := y |>.

Definition server_frame (xid y src : Z) (l : list tlv) : list Z :=
  sent_frame server_link MAC_BCAST_ADDR (server_msg xid y) (tlvs_bytes l ++ [endOption])
    src INADDR_BROADCAST 1.

Definition sample_root : list Z :=
  concat ((λ f, f ++ [124]) <$>
    (chars <$> ["3ffe::7"; "3ffe::4"; "10.0.0.9"; "3ffe::8"; "10.0.0.2"; "3ffe::9"]%string)).

Definition ack_options : list tlv :=
  [(dhcpMessageType, [5]); (dhcpIPaddrLeaseTime, [0; 0; 14; 16]); (rootPath, sample_root)].

Definition sample_ack : list Z := server_frame 77 0x4d00000a 0x0100000a ack_options.

Lemma reply_read_witness :
  ∃ s' told, parseDhcpMsgRecv [255; 255; 255; 255] 0 true true (mkParse opts_zero sample_ack msg_off)
             = Go (s', told, 5)
    ∧ opt_data (ps_opts s') dhcpServerIdentifier = Some [10; 0; 0; 1]
    ∧ opt_data (ps_opts s') dhcpT1value = Some (be_bytes 4 1800)
    ∧ opt_data (ps_opts s') subnetMask = Some [255; 0; 0; 0]
    ∧ dm_yiaddr (recv_msg (ps_recv s') (ps_msg s')) = 0x4d00000a.
Proof.
  destruct (reply_read [255; 255; 255; 255] 0 (mkParse opts_zero sample_ack msg_off) ack_options
    (drop (length (tlvs_bytes ack_options) + 1) (drop (msg_off + options_off + 4) sample_ack)) 5 [])
    as (s' & told & E & _ & _ & _ & Y & D & _).
  - apply (bool_decide_unpack _). vm_compute. exact I.
  - reflexivity.
  - apply opts_zero_ok.
  - apply (bool_decide_unpack _). vm_compute. exact I.
  - apply (bool_decide_unpack _). vm_compute. exact I.
  - apply (bool_decide_unpack _). vm_compute. exact I.
  - apply (bool_decide_unpack _). vm_compute. exact I.
  - apply (bool_decide_unpack _). vm_compute. exact I.
  - vm_compute. reflexivity.
  - intros c d Hc. rewrite !elem_of_cons in Hc. destruct Hc as [->|[->|Hc]]; vm_compute; try discriminate.
    by apply elem_of_nil in Hc.
  - vm_compute. reflexivity.
  - intros _. exists sample_root. split; [vm_compute; reflexivity|].
    apply (bool_decide_unpack _). vm_compute. exact I.
  - exists s', told. split; [exact E|]. rewrite Y, !D by done. repeat split; vm_compute; reflexivity.
Defined.
