(* ===== verification/DhcpcdProps.v ===== *)
(** Properties of the DHCP client: the lease it gets reaches the daemon, replies
    it does not survive, the mask it guesses, its cache, and its command line. *)

From S2P Require Import Prelude NidTypes Inet InetProps HashTable Hash EntryTable Configuration QueueTable.
From S2P Require Import NidMapper PacketHandler Dhcp Nidd MapperProps StartProps.
From S2P Require Import UdpIp DhcpMsg DhcpOptions BuildMsg TokenRing DhcpEnv Arp SendRecv DhcpConfig.
From S2P Require Import DhcpClient DhcpArgs DhcpMsgProps.

Local Open Scope Z_scope.

(** ** From the server to the daemon *)

Lemma inet_ntop4_field y : field_ok (inet_ntop4 y).
Proof.
  destruct (inet_ntop4_chars y) as [H Hn]. split; [done|].
  split; intros Hin; pose proof (proj1 (Forall_forall _ _) H _ Hin); simpl in *; lia.
Qed.

(** The message of the client is the text of the root path, the address and a
    separator, followed by zeros. *)
Lemma nidd_message_text root y :
  0 ∉ root → ∃ n, nidd_message (root ++ [0]) y = daemon_text root y ++ replicate n 0
    ∧ (length (daemon_text root y) + n = length root + 17)%nat.
Proof.
  intros Hn. unfold nidd_message. rewrite (cstr_app_nul root []) by done. fold (daemon_text root y).
  pose proof (length_inet_ntop4 y) as Hl.
  assert (Ht : length (daemon_text root y) = (length root + length (inet_ntop4 y) + 1)%nat)
    by (unfold daemon_text; rewrite !length_app; simpl; lia).
  exists (length root + 17 - length (daemon_text root y))%nat. split; [|unfold INET_ADDRSTRLEN in *; lia].
  unfold overlay. rewrite drop_replicate. do 3 f_equal. unfold INET_ADDRSTRLEN. lia.
Qed.

(** Zeros behind the text do not matter to the daemon. *)
Lemma dhcp_step_padded p n s :
  (length p + n ≤ dhcp_MAXBUFLEN)%nat →
  dhcp_step (Some (p ++ replicate n 0)) s = dhcp_step (Some p) s.
Proof.
  intros H. unfold dhcp_step.
  assert (E : overlay (take dhcp_MAXBUFLEN (p ++ replicate n 0)) (replicate dhcp_MAXBUFLEN 0)
              = overlay (take dhcp_MAXBUFLEN p) (replicate dhcp_MAXBUFLEN 0)).
  { rewrite !take_ge by (rewrite ?length_app, ?length_replicate; lia).
    unfold overlay. rewrite <-app_assoc, !drop_replicate. f_equal.
    rewrite length_app, length_replicate, <-replicate_add. f_equal. lia. }
  by rewrite E.
Qed.

Lemma daemon_text_params fs y : daemon_text (dhcp_params fs) y = dhcp_params (fs ++ [inet_ntop4 y]).
Proof. unfold daemon_text, dhcp_params. rewrite fmap_app, concat_app. simpl. by rewrite app_nil_r. Qed.

(** C6. The acknowledgement of a server whose option 17 holds the six
    parameters of the node reaches the configuration of the daemon: the client
    appends the address it was given and sends the text, and the daemon sets
    the core identifier, the identifier and address of the gateway, those of
    the rendezvous server and the DNS identifier from the option, a field that
    is not an address leaving its value, sets its own address from the lease
    and the address of the DNS server from its identifier, decides whether the
    node has left its domain, and hands the core on to the packet handler and
    the mapper. *)
Theorem lease_reaches_daemon f1 f2 f3 f4 f5 f6 lease send_ciaddr s l rest r d :
  bytes_ok lease → length lease = 4%nat → opts_ok (ps_opts s) → bytes_ok (ps_recv s) →
  (30 ≤ ps_msg s)%nat → (ps_msg s + 20 ≤ length (ps_recv s))%nat →
  Forall tlv_ok l → (length (tlvs_bytes l) < options_len - 4)%nat →
  drop (ps_msg s + options_off + 4) (ps_recv s) = tlvs_bytes l ++ endOption :: rest →
  let got := seen (ps_opts s) l in
  (∀ c v, c ∈ [dhcpServerIdentifier; subnetMask] → got c = Some v → (4 ≤ length v)%nat) →
  got dhcpMessageType = Some (dhcp_type_val ACK :: r) →
  Forall field_ok [f1; f2; f3; f4; f5; f6] →
  got rootPath = Some (dhcp_params [f1; f2; f3; f4; f5; f6]) →
  (length (dhcp_params [f1; f2; f3; f4; f5; f6]) + 17 ≤ dhcp_MAXBUFLEN)%nat →
  let y := dm_yiaddr (recv_msg (ps_recv s) (ps_msg s)) in
  nid32_ok y → nm_ok (dh_nm d) →
  ∃ s' told d',
    parseDhcpMsgRecv lease send_ciaddr true true s = Go (s', Some told, dhcp_type_val ACK)
    ∧ dhcp_step (Some told) d = Go d'
    ∧ conf_ip (dh_conf d') = y
    ∧ conf_nidgw (dh_conf d') = pton6_into f2 (conf_nidgw (dh_conf d))
    ∧ conf_gatewayIP (dh_conf d') = pton4_into f3 (conf_gatewayIP (dh_conf d))
    ∧ conf_nidcore (dh_conf d') = pton6_into f1 (conf_nidcore (dh_conf d))
    ∧ conf_nidrvs (dh_conf d') = pton6_into f4 (conf_nidrvs (dh_conf d))
    ∧ conf_rvsIP (dh_conf d') = pton4_into f5 (conf_rvsIP (dh_conf d))
    ∧ conf_niddns (dh_conf d') = pton6_into f6 (conf_niddns (dh_conf d))
    ∧ conf_server_address (dh_conf d') = update_dns_server_address (conf_niddns (dh_conf d'))
    ∧ dh_nidcore d' = conf_nidcore (dh_conf d')
    ∧ conf_mobility (dh_conf d')
      = (if decide (f2 = inet_ntop6 (conf_nidgw (dh_conf d))) then 0 else 1)
    ∧ getNMEntry (conf_niddns (dh_conf d')) (dh_nm d') = Some (mkNME [] (conf_nidcore (dh_conf d'))).
Proof.
  intros Bl Ll Ho Br Hm Hm' Hl Hn Hb got H4 Ht Hf Hr Hlen y Hy Hnm.
  pose proof (dhcp_params_no_nul _ Hf) as Hnul.
  destruct (reply_parse lease send_ciaddr s l rest Bl Ll Ho Br Hm' Hm Hl Hn Hb)
    with (t := dhcp_type_val ACK) (r := r) as (s' & E & _).
  { intros v. apply H4. by left. }
  { intros v. apply H4. by right; left. }
  { done. }
  { intros _. by exists (dhcp_params [f1; f2; f3; f4; f5; f6]). }
  fold got in E. rewrite decide_True, Hr in E by done. cbn [fmap option_fmap option_map] in E.
  destruct (nidd_message_text _ y Hnul) as (n & En & Ln). rewrite daemon_text_params in En, Ln.
  set (fs := [f1; f2; f3; f4; f5; f6] ++ [inet_ntop4 y]) in *.
  assert (Hfs : Forall field_ok fs).
  { apply Forall_app. split; [done|]. constructor; [apply inet_ntop4_field|constructor]. }
  assert (Lfs : (length (dhcp_params fs) < dhcp_MAXBUFLEN)%nat).
  { pose proof (length_inet_ntop4 y). unfold fs in *.
    rewrite <-daemon_text_params in *. unfold daemon_text in *. rewrite !length_app in *.
    change (length [124]) with 1%nat in *. lia. }
  exists s', (nidd_message (dhcp_params [f1; f2; f3; f4; f5; f6] ++ [0]) y).
  rewrite En, dhcp_step_padded by lia. unfold fs in *. cbn [app] in *.
  rewrite dhcp_step_text by done. eexists. split; [rewrite <-En; exact E|]. split; [reflexivity|].
  destruct (set_conf_dhcp_effect (dhcp_params [f1; f2; f3; f4; f5; f6; inet_ntop4 y])
    (mkDhcp (dh_conf d <| conf_mobility := if decide (f2 = inet_ntop6 (conf_nidgw (dh_conf d))) then 0 else 1 |>)
       (dh_nm d) (dh_nidcore d)) _ eq_refl Hnm) as (C & K & M & _).
  rewrite seven_fields in C, K, M by done. cbn [dh_conf dh_nm] in *.
  assert (Hip : pton4_into (inet_ntop4 y) (conf_ip (dh_conf d)) = y)
    by (unfold pton4_into; by rewrite inet_pton_ntop_in).
  set (d' := set_conf_dhcp _ _) in *.
  set (c' := apply_fields f1 f2 f3 f4 f5 f6 (inet_ntop4 y) _) in *.
  assert (Ec : conf_nidcore (dh_conf d') = conf_nidcore c') by (rewrite C; reflexivity).
  assert (Ed : conf_niddns (dh_conf d') = conf_niddns c') by (rewrite C; reflexivity).
  rewrite Ec, Ed. clearbody d'. rewrite C, K. clear C K. split; [exact Hip|]. do 9 (split; [reflexivity|]). exact M.
Qed.

Lemma lease_reaches_daemon_witness :
  ∃ s' told d',
    parseDhcpMsgRecv [255; 255; 255; 255] 0 true true (mkParse opts_zero sample_ack msg_off)
    = Go (s', Some told, 5)
    ∧ dhcp_step (Some told) (mkDhcp sample_config (init_nid_mapper sample_config) nid_zero) = Go d'
    ∧ conf_ip (dh_conf d') = 0x4d00000a ∧ conf_gatewayIP (dh_conf d') = 0x0900000a
    ∧ conf_rvsIP (dh_conf d') = 0x0200000a.
Proof.
  destruct (lease_reaches_daemon (chars "3ffe::7") (chars "3ffe::4") (chars "10.0.0.9")
    (chars "3ffe::8") (chars "10.0.0.2") (chars "3ffe::9") [255; 255; 255; 255] 0
    (mkParse opts_zero sample_ack msg_off) ack_options
    (drop (length (tlvs_bytes ack_options) + 1) (drop (msg_off + options_off + 4) sample_ack)) []
    (mkDhcp sample_config (init_nid_mapper sample_config) nid_zero))
    as (s' & told & d' & E & S & I & _ & G & _ & _ & R & _).
  - apply (bool_decide_unpack _). vm_compute. exact I.
  - reflexivity.
  - apply opts_zero_ok.
  - apply (bool_decide_unpack _). vm_compute. exact I.
  - apply (bool_decide_unpack _). vm_compute. exact I.
  - apply (bool_decide_unpack _). vm_compute. exact I.
  - apply (bool_decide_unpack _). vm_compute. exact I.
  - apply (bool_decide_unpack _). vm_compute. exact I.
  - vm_compute. reflexivity.
  - intros c v Hc. rewrite !elem_of_cons in Hc. destruct Hc as [->|[->|Hc]]; vm_compute; try discriminate.
    by apply elem_of_nil in Hc.
  - vm_compute. reflexivity.
  - apply (bool_decide_unpack _). vm_compute. exact I.
  - vm_compute. reflexivity.
  - apply (bool_decide_unpack _). vm_compute. exact I.
  - split; vm_compute; [discriminate|reflexivity].
  - apply init_nid_mapper_ok.
  - exists s', told, d'. split; [exact E|]. split; [exact S|]. rewrite I, G, R.
    split_and!; vm_compute; reflexivity.
Defined.

(** C37. The client does not survive a reply an ordinary server may send: one
    without a message type, or an acknowledgement without a root path, which is
    an option few servers send, makes it follow a null pointer. *)
Theorem incomplete_reply_crashes lease send_ciaddr s l rest :
  opts_ok (ps_opts s) → Forall tlv_ok l → (length (tlvs_bytes l) < options_len - 4)%nat →
  drop (ps_msg s + options_off + 4) (ps_recv s) = tlvs_bytes l ++ endOption :: rest →
  let got := seen (ps_opts s) l in
  got dhcpMessageType = None
  ∨ (∃ r, got dhcpMessageType = Some (dhcp_type_val ACK :: r)) ∧ got rootPath = None →
  parseDhcpMsgRecv lease send_ciaddr true true s = Fault.
Proof.
  intros Ho Hl Hn Hb got Hg.
  destruct (parse_seen s l rest Ho Hl Hn Hb) as (o1 & E1 & O1 & D1).
  unfold parseDhcpMsgRecv. cbv zeta.
  destruct (opt_clear dhcpT1value (ps_opts s)) as [a| | |]; try discriminate E1.
  rewrite bind_Go in E1. rewrite bind_Go. cbv beta in E1 |- *.
  destruct (opt_clear dhcpT2value a) as [a'| | |]; try discriminate E1.
  rewrite bind_Go in E1. rewrite bind_Go, E1, bind_Go.
  assert (Hv : ∀ c, opt_data o1 c = None → opt_val o1 c = None).
  { intros c Hc. unfold opt_data in Hc. unfold opt_val. by destruct (o_tab o1 !! c). }
  unfold tell_nidd. destruct Hg as [Hg|[[r Hg] Hr]].
  - rewrite (Hv dhcpMessageType) by (by rewrite D1). reflexivity.
  - rewrite <-D1 in Hg, Hr. destruct (opt_block _ _ _ O1 Hg) as (b & Eb & _). rewrite Eb.
    cbn [accessed app]. rewrite bind_Go. cbn [lookup list_lookup accessed]. rewrite bind_Go.
    by rewrite (Hv rootPath Hr).
Qed.

(** An acknowledgement of an ordinary server. *)
Definition plain_ack : list Z :=
  server_frame 77 0x4d00000a 0x0100000a
    [(dhcpMessageType, [5]); (dhcpIPaddrLeaseTime, [0; 0; 14; 16]); (subnetMask, [255; 255; 255; 0])].

Lemma incomplete_reply_crashes_witness :
  parseDhcpMsgRecv [255; 255; 255; 255] 0 true true (mkParse opts_zero plain_ack msg_off) = Fault.
Proof.
  apply (incomplete_reply_crashes [255; 255; 255; 255] 0 (mkParse opts_zero plain_ack msg_off)
    [(dhcpMessageType, [5]); (dhcpIPaddrLeaseTime, [0; 0; 14; 16]); (subnetMask, [255; 255; 255; 0])]
    (drop 16 (drop (msg_off + options_off + 4) plain_ack))).
  - apply opts_zero_ok.
  - apply (bool_decide_unpack _). vm_compute. exact I.
  - apply (bool_decide_unpack _). vm_compute. exact I.
  - vm_compute. reflexivity.
  - right. split; [exists []; vm_compute; reflexivity|vm_compute; reflexivity].
Defined.

(** ** Masks *)

Lemma ones_shiftr k : (1 ≤ k)%nat → Z.shiftr (Z.ones (Z.of_nat k)) 1 = Z.ones (Z.of_nat (k - 1)).
Proof.
  intros H. rewrite Z.shiftr_div_pow2, !Z.ones_equiv by lia. unfold Z.pred.
  replace (Z.of_nat k) with (Z.of_nat (k - 1) + 1) by lia. rewrite Z.pow_add_r by lia.
  Z.to_euclidean_division_equations; lia.
Qed.

(** The loop gives up host bits from the top until those left are zero in the
    address; it takes at most one turn more than there are bits. *)
Lemma mask_loop_spec k fuel p :
  (k < fuel)%nat →
  ∃ j, (j ≤ k)%nat ∧ mask_loop fuel (Z.ones (Z.of_nat k)) p = Some (Z.ones (Z.of_nat j))
    ∧ p `mod` 2 ^ Z.of_nat j = 0 ∧ (j = k ∨ p `mod` 2 ^ Z.of_nat (S j) ≠ 0).
Proof.
  revert fuel. induction k as [|k IH]; intros fuel Hf; (destruct fuel as [|fuel]; [lia|]);
    cbn [mask_loop]; rewrite Z.land_comm, Z.land_ones by lia.
  - exists O. change (2 ^ Z.of_nat 0) with 1. rewrite Z.mod_1_r. by split_and!; [lia|..|left].
  - destruct (p `mod` 2 ^ Z.of_nat (S k) =? 0) eqn:E; zbool.
    + exists (S k). by split_and!; [lia|..|left].
    + rewrite ones_shiftr by lia. replace (S k - 1)%nat with k by lia.
      destruct (IH fuel) as (j & Hj & -> & H0 & H1); [lia|]. exists j. split_and!; try done; [lia|].
      right. destruct H1 as [->|H1]; done.
Qed.

Lemma low_bits_zero p a b :
  (a < b)%nat → p `mod` 2 ^ Z.of_nat b = 0 → p `mod` 2 ^ Z.of_nat (S a) = 0.
Proof.
  intros Hab Hm. apply Z.mod_divide in Hm as [q Hq]; [|lia]. apply Z.mod_divide; [lia|].
  exists (q * 2 ^ (Z.of_nat b - Z.of_nat (S a))). rewrite <-Z.mul_assoc, <-Z.pow_add_r by lia.
  rewrite Hq. do 2 f_equal. lia.
Qed.

Lemma high_mask k :
  (k ≤ 24)%nat → u32_wrap (Z.lnot (Z.ones (Z.of_nat k))) = 2 ^ 32 - 2 ^ Z.of_nat k.
Proof.
  intros Hk. unfold u32_wrap, Z.lnot. rewrite Z.ones_equiv.
  replace (Z.pred (- Z.pred (2 ^ Z.of_nat k))) with (2 ^ 32 - 2 ^ Z.of_nat k + (-1) * 2 ^ 32) by lia.
  assert (0 < 2 ^ Z.of_nat k ≤ 2 ^ 24) by (split; [lia|apply Z.pow_le_mono_r; lia]).
  rewrite Z.mod_add, Z.mod_small by lia. done.
Qed.

Lemma high_mask_land p k :
  (k ≤ 24)%nat → 0 ≤ p < 2 ^ 32 → p `mod` 2 ^ Z.of_nat k = 0 →
  Z.land p (2 ^ 32 - 2 ^ Z.of_nat k) = p.
Proof.
  intros Hk Hp H0. apply Z.mod_divide in H0 as [q ->]; [|lia].
  assert (E : 2 ^ 32 = 2 ^ (32 - Z.of_nat k) * 2 ^ Z.of_nat k)
    by (rewrite <-Z.pow_add_r by lia; f_equal; lia).
  assert (0 ≤ q < 2 ^ (32 - Z.of_nat k)) by (rewrite E in Hp; nia).
  replace (2 ^ 32 - 2 ^ Z.of_nat k) with (Z.ones (32 - Z.of_nat k) * 2 ^ Z.of_nat k)
    by (rewrite Z.ones_equiv, E; unfold Z.pred; lia).
  rewrite <-!Z.shiftl_mul_pow2, <-Z.shiftl_land, Z.land_ones, Z.mod_small by lia. done.
Qed.

(** The bits of the host part of an address by its class. *)
Definition class_bits (p : Z) : nat :=
  if IN_CLASSA p then 24 else if IN_CLASSB p then 16 else if IN_CLASSC p then 8 else 0.

(** C31. [getgenmask] ends for every address, with a mask of ones followed by
    [k] zeros: the host bits of the class when they are all zero in the
    address, and otherwise as many low bits as are zero, so that the route it
    is used for matches the destination; more turns would change nothing. *)
Theorem getgenmask_spec ip fuel :
  nid32_ok ip → (mask_fuel ≤ fuel)%nat →
  let p := swap32 ip in
  ∃ k, (k ≤ class_bits p)%nat
    ∧ getgenmask ip = Some (swap32 (2 ^ 32 - 2 ^ Z.of_nat k))
    ∧ p `mod` 2 ^ Z.of_nat k = 0
    ∧ (k = class_bits p ∨ p `mod` 2 ^ Z.of_nat (S k) ≠ 0)
    ∧ Z.land p (2 ^ 32 - 2 ^ Z.of_nat k) = p
    ∧ mask_loop fuel (class_host p) p = mask_loop mask_fuel (class_host p) p.
Proof.
  intros Hip Hf p.
  assert (Hp : 0 ≤ p < 2 ^ 32).
  { unfold p, swap32, be_val. pose proof (le_val_bounds (reverse (le_bytes 4 ip))) as H.
    rewrite length_reverse, length_le_bytes in H. apply H. auto with nid. }
  assert (Hc : class_host p = Z.ones (Z.of_nat (class_bits p)) ∧ (class_bits p ≤ 24)%nat)
    by (unfold class_host, class_bits; repeat case_match; split; (done || lia)).
  destruct Hc as [Hc Hb]. unfold getgenmask. fold p. rewrite Hc.
  destruct (mask_loop_spec (class_bits p) mask_fuel p) as (k & Hk & E & H0 & H1); [unfold mask_fuel; lia|].
  destruct (mask_loop_spec (class_bits p) fuel p) as (k' & Hk' & E' & H0' & H1');
    [unfold mask_fuel in *; lia|].
  assert (k' = k) as ->.
  { destruct (lt_eq_lt_dec k k') as [[L|L]|L]; [|done|].
    - destruct H1 as [->|H1]; [lia|]. by destruct H1; apply (low_bits_zero p k k').
    - destruct H1' as [->|H1']; [lia|]. by destruct H1'; apply (low_bits_zero p k' k). }
  exists k. rewrite E, E', bind_ret.
  rewrite high_mask by lia. split_and!; try done. apply high_mask_land; (done || lia).
Qed.

Lemma getgenmask_spec_witness :
  ∃ k, getgenmask 0x0000a8c0 = Some (swap32 (2 ^ 32 - 2 ^ Z.of_nat k)) ∧ (k ≤ 8)%nat
    ∧ getgenmask 0x0000a8c0 = Some 0x00ffffff.
Proof.
  destruct (getgenmask_spec 0x0000a8c0 mask_fuel) as (k & Hk & E & _).
  - split; vm_compute; [discriminate|reflexivity].
  - reflexivity.
  - exists k. split; [exact E|]. split; [exact Hk|]. vm_compute. reflexivity.
Defined.

(** ** The cache *)

(** An interface as it lies in memory. *)
Definition iface_memory (i : dhcpInterface) : Prop :=
  iface_sized i ∧ length (if_version i) = 11%nat
  ∧ - 2 ^ 31 ≤ if_class_len i < 2 ^ 31 ∧ - 2 ^ 31 ≤ if_client_len i < 2 ^ 31
  ∧ nid32_ok (if_xid i).

#[export] Instance iface_memory_dec i : Decision (iface_memory i).
Proof. unfold iface_memory, iface_sized, nid32_ok. apply _. Defined.

Lemma i32_le_val z : - 2 ^ 31 ≤ z < 2 ^ 31 → i32_wrap (le_val (le_bytes 4 z)) = z.
Proof.
  intros Hz. rewrite le_val_bytes. unfold i32_wrap. change (256 ^ Z.of_nat 4) with (2 ^ 32).
  rewrite Zplus_mod_idemp_l, Z.mod_small by lia. lia.
Qed.

Lemma length_iface_bytes i : iface_memory i → length (iface_bytes i) = iface_len.
Proof.
  intros ((_ & _ & [H1 _] & [H2 _] & [H3 _]) & H0 & _). unfold iface_bytes.
  rewrite !length_app, !length_le_bytes, H0, H1, H2, H3. done.
Qed.

Lemma iface_of_bytes i : iface_memory i → iface_of (iface_bytes i) = i.
Proof.
  intros ((Hc & Hs & [H1 _] & [H2 _] & [H3 _]) & H0 & Hcl & Hkl & Hx).
  destruct i as [ver ci si cl kl xid sh cid kid]. unfold iface_of, iface_bytes.
  cbn [if_version if_ciaddr if_siaddr if_class_len if_client_len if_xid if_shaddr if_class_id
       if_client_id] in *.
  set (a := ver ++ [0]). set (w := le_bytes 4).
  replace (ver ++ [0] ++ _) with (a ++ w ci ++ w si ++ w cl ++ w kl ++ w xid ++ sh ++ cid ++ kid ++ [])
    by (unfold a; by rewrite app_nil_r, <-app_assoc).
  assert (La : length a = 12%nat) by (unfold a; by rewrite length_app, H0).
  assert (Lw : ∀ z, length (w z) = 4%nat) by (intros; apply length_le_bytes).
  assert (Hi : ∀ off pre x r, length pre = off → slice off (length x) (pre ++ x ++ r) = x)
    by (intros; by apply slice_app_at).
  f_equal.
  - change (slice 0 11 (a ++ ?r)) with (slice 0 11 (a ++ r)). unfold a. rewrite <-!app_assoc.
    by apply (slice_app_at 0 11 [] ver).
  - rewrite (slice_app_at 12 4) by done. by apply le_val_bytes4.
  - rewrite (app_assoc a). rewrite (slice_app_at 16 4) by (rewrite ?length_app, ?La, ?Lw; done).
    by apply le_val_bytes4.
  - rewrite (app_assoc a), (app_assoc _ (w si)).
    rewrite (slice_app_at 20 4) by (rewrite ?length_app, ?La, ?Lw; done). by apply i32_le_val.
  - rewrite (app_assoc a), (app_assoc _ (w si)), (app_assoc _ (w cl)).
    rewrite (slice_app_at 24 4) by (rewrite ?length_app, ?La, ?Lw; done). by apply i32_le_val.
  - rewrite (app_assoc a), (app_assoc _ (w si)), (app_assoc _ (w cl)), (app_assoc _ (w kl)).
    rewrite (slice_app_at 28 4) by (rewrite ?length_app, ?La, ?Lw; done). by apply le_val_bytes4.
  - rewrite (app_assoc a), (app_assoc _ (w si)), (app_assoc _ (w cl)), (app_assoc _ (w kl)),
      (app_assoc _ (w xid)). apply slice_app_at; [|done]. by rewrite !length_app, La, !Lw.
  - rewrite (app_assoc a), (app_assoc _ (w si)), (app_assoc _ (w cl)), (app_assoc _ (w kl)),
      (app_assoc _ (w xid)), (app_assoc _ sh). apply slice_app_at; [|done].
    by rewrite !length_app, La, !Lw, H1.
  - rewrite (app_assoc a), (app_assoc _ (w si)), (app_assoc _ (w cl)), (app_assoc _ (w kl)),
      (app_assoc _ (w xid)), (app_assoc _ sh), (app_assoc _ cid). apply slice_app_at; [|done].
    by rewrite !length_app, La, !Lw, H1, H2.
Qed.

Lemma readDhcpCache_eq d b rest :
  readDhcpCache (d <| c_in := Text b :: rest |>)
  = let t := take iface_len b in
    let j := iface_of (overlay t (iface_bytes (c_iface d))) in
    let d := d <| c_in := rest |> <| c_iface := j |> in
    if (length t =? iface_len)%nat && bool_decide (if_version j = VERSION ++ [0])
    then (Val true, d <| c_prev_ip_addr := if_ciaddr j |>) else (Val false, d).
Proof.
  unfold readDhcpCache. rewrite (M_bind_val _ _ _ (Some b) (d <| c_in := rest |>)) by done.
  cbv zeta. set (t := take iface_len b). set (j := iface_of _).
  unfold set_iface, modify, get, mbind, M_bind. cbn [c_iface set_field]. fold j.
  by destruct (_ && _).
Qed.

Lemma if_version_of t old :
  (11 ≤ length t)%nat → if_version (iface_of (overlay t old)) = take 11 t.
Proof. intros H. unfold iface_of. cbn [if_version]. by apply slice_overlay. Qed.

Lemma iface_of_overlay t old : (iface_len ≤ length t)%nat → iface_of (overlay t old) = iface_of t.
Proof. unfold iface_len. intros H. unfold iface_of. by rewrite !slice_overlay by lia. Qed.

(** C29. What the client writes into its cache when it is configured is what it
    has after a restart: the file is accepted, and the interface with its
    address, its server and its identifiers is the one that was written; a
    file of another version or a shorter one is refused. *)
Theorem cache_roundtrip c d rest :
  iface_memory (c_iface c) →
  let i := c_iface c <| if_version := VERSION ++ [0] |> in
  (readDhcpCache (d <| c_in := Text (iface_bytes i) :: rest |>)
   = (Val true, d <| c_in := rest |> <| c_iface := i |> <| c_prev_ip_addr := if_ciaddr (c_iface c) |>))
  ∧ ∀ b, (length b < iface_len)%nat ∨ take 11 b ≠ VERSION ++ [0] →
         (readDhcpCache (d <| c_in := Text b :: rest |>)).1 = Val false.
Proof.
  intros (H1 & _ & H3) i. assert (Hi : iface_memory i) by (split; [exact H1|split; [reflexivity|exact H3]]).
  split; [|intros b Hb]; rewrite readDhcpCache_eq; cbv zeta.
  - pose proof (length_iface_bytes i Hi) as L. rewrite take_ge, L by lia.
    assert (E : ∀ old, iface_of (overlay (iface_bytes i) old) = i).
    { intros old. rewrite iface_of_overlay by (by rewrite L). by apply iface_of_bytes. }
    rewrite E. rewrite bool_decide_eq_true_2 by done. done.
  - destruct (length (take iface_len b) =? iface_len)%nat eqn:El; [|done]. apply Nat.eqb_eq in El.
    rewrite if_version_of by (rewrite El; unfold iface_len; lia).
    assert (Lb : (iface_len ≤ length b)%nat) by (rewrite length_take in El; lia).
    rewrite take_take. change (11 `min` iface_len)%nat with 11%nat.
    rewrite bool_decide_eq_false_2; [done|]. destruct Hb; [lia|done].
Qed.

(** The sample client, waiting for the answers [l]. *)
Definition sample_client (l : list answer) : client :=
  mkClient sample_vars sample_link sample_iface sample_opts (replicate frame_len 0)
    (replicate frame_len 0) msg_off 1 0 0 0x41 0 SInit false false false None None [] l [].

Lemma cache_roundtrip_witness :
  let i := sample_iface <| if_version := VERSION ++ [0] |> in
  (readDhcpCache (sample_client [Text (iface_bytes i)])).1 = Val true
  ∧ (readDhcpCache (sample_client [Text []])).1 = Val false.
Proof.
  destruct (cache_roundtrip (sample_client []) (sample_client []) []) as [E F].
  - apply (bool_decide_unpack _). vm_compute. exact I.
  - split; [exact (f_equal fst E)|]. apply (F []). left. apply (bool_decide_unpack _). vm_compute. exact I.
Defined.

(** ** The command line *)

(** Options without a value can be written together or apart. *)
Lemma parse_flags fs more rest p :
  Forall (λ c, ∀ q, is_Some (set_flag c q)) fs →
  parse_args ((45 :: fs ++ more) :: rest) p = parse_args ((45 :: fs) :: (45 :: more) :: rest) p.
Proof.
  intros Hf. revert p. induction Hf as [|c fs Hc _ IH]; intros p; [done|].
  destruct (Hc p) as [q E]. cbn [parse_args app] in *. rewrite E. apply IH.
Qed.

Definition flag_letters : list Z := chars "kndrDHRYNVBCTS".

Lemma flag_letters_set c q : c ∈ flag_letters → is_Some (set_flag c q).
Proof.
  unfold flag_letters. cbn [chars]. rewrite !elem_of_cons. intros H.
  repeat (destruct H as [->|H]; [by eexists|]). by apply elem_of_nil in H.
Qed.

(** What the rest of the program relies on. *)
Definition bounded_id (n : nat) (id : option (list Z)) : Prop :=
  match id with Some id => (length id ≤ n)%nat | None => True end.

Definition vars_bounds (v : dhcp_vars) : Prop :=
  bounded_id 48 (v_ClassID v) ∧ bounded_id 48 (v_ClientID v)
  ∧ 0 < v_TimeOut v < 2 ^ 31 ∧ 0 ≤ v_Window v < 2 ^ 31 ∧ 0 < v_LeaseTime v < 2 ^ 32
  ∧ (length (v_IfNameExt v) ≤ IFNAMSIZ)%nat ∧ v_IfName v = before_colon (v_IfNameExt v).

Lemma atol_bounds s : - 2 ^ 31 ≤ atol s < 2 ^ 31.
Proof. unfold atol. lia. Qed.

Lemma set_flag_bounds c p q :
  set_flag c p = Some q → vars_bounds (p_vars p) → vars_bounds (p_vars q).
Proof.
  unfold set_flag. intros E H. repeat (case_match; try discriminate); injection E as <-; exact H.
Qed.

Lemma set_address_bounds c a p q :
  set_address c a p = Some q → vars_bounds (p_vars p) → vars_bounds (p_vars q).
Proof.
  unfold set_address. intros E H. repeat (case_match; try discriminate); injection E as <-; exact H.
Qed.

Lemma set_value_bounds c a p q :
  set_value c a p = Some q → vars_bounds (p_vars p) → vars_bounds (p_vars q).
Proof.
  unfold set_value. intros E (H1 & H2 & H3 & H4 & H5 & H6 & H7). pose proof (atol_bounds a) as Ha.
  assert (Hu : 0 ≤ u32_wrap (atol a) < 2 ^ 32) by (apply Z.mod_pos_bound; lia).
  repeat (case_match; try discriminate); zbool; injection E as <-; split_and!; try done; try lia;
    try (cbn; lia).
  all: repeat match goal with H : negb _ = false |- _ => apply negb_false_iff, Nat.ltb_lt in H end.
  all: cbn; unfold CLASS_ID_MAX_LEN, CLIENT_ID_MAX_LEN in *; lia.
Qed.

Lemma swap32_ok z : nid32_ok (swap32 z).
Proof.
  unfold swap32, be_val, nid32_ok. pose proof (le_val_bounds (reverse (le_bytes 4 z))) as H.
  rewrite length_reverse, length_le_bytes in H. apply H. auto with nid.
Qed.

Lemma inet_aton_ok s n : inet_aton s = Some n → nid32_ok n.
Proof. unfold inet_aton. destruct (aton_go 4 0 s); intros; simplify_eq/=. apply swap32_ok. Qed.

(** What every option keeps, the loop keeps; [Q] holds of the arguments. *)
Section ParseArgs.
Context (Q : list Z → Prop) (P : parsed → Prop).
Context (Pflag : ∀ c p q, set_flag c p = Some q → P p → P q).
Context (Paddress : ∀ c a p q,
  (∀ n, a = Some n → nid32_ok n) → set_address c a p = Some q → P p → P q).
Context (Pvalue : ∀ c v p q, Q v → set_value c v p = Some q → P p → P q).
Context (Prest : ∀ a p, Q a → P p → P (p <| p_rest ::= λ l, l ++ [a] |>)).

Lemma parse_args_keeps args p q : Forall Q args → parse_args args p = Some q → P p → P q.
Proof using All.
  remember (length args) as n eqn:En. revert args p En.
  induction (lt_wf n) as [n _ IH]. intros args p -> HQ E H.
  destruct args as [|a rest]; [by injection E as <-|]. apply Forall_cons in HQ as [Qa Qr].
  assert (IHr : ∀ l p, (length l ≤ length rest)%nat → Forall Q l → parse_args l p = Some q → P p → P q).
  { intros l p' Hl. apply (IH (length l)); [simpl; lia|done]. }
  assert (Hd : ∀ b letters p, a = b :: letters → b = 45 →
    parse_args (a :: rest) p = Some q → P p → P q).
  { intros b letters p' -> ->. clear E H p IH Qa. revert p'.
    induction letters as [|c more IHl]; intros p E H; cbn [parse_args] in E; [by apply (IHr rest p)|].
    destruct (set_flag c p) as [p1|] eqn:Ef; [apply (IHl p1); [exact E|by eapply Pflag]|].
    destruct more; [|discriminate]. destruct (takes_address c).
    - destruct rest as [|v rest']; [by eapply (Paddress _ None)|].
      destruct (inet_aton v) as [z|] eqn:Ez; (destruct (set_address _ _ _) as [p1|] eqn:Ea; [|discriminate]).
      + apply (IHr rest' p1); [simpl; lia|by apply Forall_cons in Qr as []|exact E|].
        eapply Paddress; [|exact Ea|exact H]. intros ? [= <-]. by eapply inet_aton_ok.
      + apply (IHr (v :: rest') p1); [done..|exact E|]. by eapply (Paddress _ None).
    - destruct rest as [|v rest']; [discriminate|]. apply Forall_cons in Qr as [Qv Qr].
      destruct (set_value c v p) as [p1|] eqn:Ea; [|discriminate].
      eapply IHr; [| |exact E|by eapply Pvalue]; [simpl; lia|done]. }
  destruct a as [|b letters]; [by eapply (IHr rest); [..|apply Prest]|].
  destruct (decide (b = 45)) as [->|Hb]; [by eapply Hd|].
  assert (E' : parse_args rest (p <| p_rest ::= λ l, l ++ [b :: letters] |>) = Some q)
    by (rewrite <-E; cbn [parse_args]; by repeat case_match).
  eapply (IHr rest); [done|done|exact E'|by apply Prest].
Qed.
End ParseArgs.

Lemma default_vars_bounds : vars_bounds default_vars.
Proof. split_and!; try done; cbn; unfold IFNAMSIZ; lia. Qed.

Lemma command_line_bounds args p : command_line args = Some p → vars_bounds (p_vars p).
Proof.
  intros E. unfold command_line in E. destruct (parse_args args parsed_init) as [q|] eqn:Eq; [|done].
  rewrite bind_ret in E.
  assert (H : vars_bounds (p_vars q)).
  { eapply (parse_args_keeps (λ _, True) (λ p, vars_bounds (p_vars p))); [..|exact Eq|apply default_vars_bounds].
    - apply set_flag_bounds.
    - intros c a x y _. apply set_address_bounds.
    - intros c v x y _. apply set_value_bounds.
    - done.
    - by apply Forall_true. }
  unfold set_interface_name in E. destruct (p_rest q) as [|name l]; [by injection E as <-|].
  destruct (IFNAMSIZ <? length name)%nat eqn:El; [done|]. apply Nat.ltb_ge in El.
  injection E as <-. destruct H as (?&?&?&?&?&_). do 5 (split; [done|]); split; [exact El|reflexivity].
Qed.

(** C33. Whatever the arguments, a command line that is accepted gives a class
    and a client identifier of at most 48 characters, an interface name of at
    most 16, and times and a window in range, and the interface is the name up
    to the colon of an alias; letters without a value may be written together
    or apart; but a host name of any length is accepted. *)
Theorem command_line_accepts :
  (∀ args p, command_line args = Some p → vars_bounds (p_vars p))
  ∧ (∀ fs more rest p, Forall (λ c, c ∈ flag_letters) fs →
       parse_args ((45 :: fs ++ more) :: rest) p = parse_args ((45 :: fs) :: (45 :: more) :: rest) p)
  ∧ (∀ h, head_char h ≠ 45 →
       ∃ p, command_line [chars "-h"; h] = Some p ∧ v_HostName (p_vars p) = Some h).
Proof.
  split_and!.
  - apply command_line_bounds.
  - intros fs more rest p H. apply parse_flags. eapply Forall_impl; [exact H|].
    intros c Hc q. by apply flag_letters_set.
  - intros h Hh.
    assert (E : set_value 104 h parsed_init
                = Some (parsed_init <| p_vars ::= λ v, v <| v_HostName := Some h |> |>))
      by (unfold set_value; by rewrite (proj2 (Z.eqb_neq _ _))).
    unfold command_line.
    change (parse_args [chars "-h"; h] parsed_init)
      with (match set_value 104 h parsed_init with Some p => Some p | None => None end).
    rewrite E. by eexists.
Qed.

Lemma command_line_accepts_witness :
  (∃ p, command_line [chars "-dBh"; chars "node"; chars "eth0:1"] = Some p
        ∧ vars_bounds (p_vars p) ∧ v_IfName (p_vars p) = chars "eth0")
  ∧ parse_args [chars "-dB"; chars "-T"] parsed_init
    = parse_args [chars "-d"; chars "-B"; chars "-T"] parsed_init.
Proof.
  destruct command_line_accepts as (A & B & _). split.
  - destruct (command_line [chars "-dBh"; chars "node"; chars "eth0:1"]) as [p|] eqn:E.
    + exists p. split; [reflexivity|]. split; [exact (A _ p E)|].
      vm_compute in E. injection E as <-. vm_compute. reflexivity.
    + vm_compute in E. discriminate E.
  - refine (B (chars "d") (chars "B") [chars "-T"] parsed_init _).
    apply (bool_decide_unpack _). vm_compute. exact I.
Defined.
