(* ===== verification/DhcpTyping.v ===== *)
(** The DHCP client is well typed: whatever the network and the system answer,
    every turn leaves its objects with their sizes, its options as blocks that
    hold their bytes, and sends only frames that fit. *)

From S2P Require Import Prelude NidTypes Inet HashTable Hash EntryTable Configuration PacketHandler.
From S2P Require Import UdpIp DhcpMsg DhcpOptions BuildMsg TokenRing DhcpEnv Arp SendRecv DhcpConfig.
From S2P Require Import DhcpClient DhcpArgs DhcpInv DhcpMsgProps DhcpcdProps.

Local Open Scope Z_scope.

(** ** Options *)

Lemma opt_store_ok i d o o' :
  opts_ok o → bytes_ok d → (0 < length d ≤ 255)%nat → opt_store i d o = Some o' → opts_ok o'.
Proof.
  intros Ho Hd Hl E. destruct (opt_store_spec i d o Ho Hd Hl) as (x & E' & H & _).
  by replace o' with x by congruence.
Qed.

Lemma parse_options_ok rem p o o' :
  opts_ok o → bytes_ok p → parse_options rem p o = Some o' → opts_ok o'.
Proof.
  revert p o. induction (lt_wf rem) as [rem _ IH]. intros p o Ho Hp E.
  destruct rem as [|rem]; [by injection E as <-|]. destruct p as [|c p]; [done|].
  cbn [parse_options] in E. apply Forall_cons in Hp as [_ Hp].
  destruct (c =? endOption); [by injection E as <-|].
  destruct (c =? padOption); [by eapply (IH rem); [lia|..]|].
  destruct p as [|l p]; [done|]. apply Forall_cons in Hp as [Hl Hp]. unfold byte_ok in Hl.
  case_match eqn:El; [done|]. apply Nat.ltb_ge in El.
  destruct (l =? 0) eqn:E0; zbool.
  - rewrite bind_ret in E. eapply IH in E; [done|lia|done|by apply bytes_ok_drop].
  - destruct (opt_store c _ o) as [o1|] eqn:Es; [|done]. rewrite bind_ret in E.
    eapply IH in E; [done|lia| |by apply bytes_ok_drop].
    eapply opt_store_ok; [exact Ho| | |exact Es]; [by apply bytes_ok_take|]. rewrite length_take. lia.
Qed.

(** What [f] computes from a table of blocks are four bytes. *)
Definition four_bytes (f : dhcpOptions → outcome (list Z)) : Prop :=
  ∀ o d, opts_ok o → f o = Go d → object 4 d.

Lemma opt_default_ok i f o o' :
  i ∉ text_options → four_bytes f → opts_ok o → opt_default i f o = Go o' → opts_ok o'.
Proof.
  intros Hi Hf Ho. unfold opt_default. destruct (opt_val o i); [by intros [= <-]|].
  destruct (f o) as [d| | |] eqn:E; try done. rewrite bind_Go. intros [= <-].
  destruct (Hf _ _ Ho E). by apply opt_new4_spec.
Qed.

Lemma opt_time_ok i f o o' :
  i ∉ text_options → four_bytes f → opts_ok o → opt_time i f o = Go o' → opts_ok o'.
Proof.
  intros Hi Hf Ho. unfold opt_time.
  assert (Hn : ∀ d, f o = Go d → opts_ok (opt_new4 i d o)).
  { intros d E. destruct (Hf _ _ Ho E). by apply opt_new4_spec. }
  destruct (f o) as [d| | |] eqn:E.
  2-4: destruct (opt_val o i); repeat case_match; try done;
    destruct (opt_u32 i o); cbn [accessed]; try done; rewrite bind_Go; case_match; try done; by intros [= <-].
  specialize (Hn _ eq_refl). destruct (Hf _ _ Ho E) as [Ld Bd].
  destruct (opt_val o i) as [b|] eqn:Ev; [|rewrite bind_Go; by intros [= <-]].
  destruct (opt_len o i =? 4) eqn:E4; [|rewrite bind_Go; by intros [= <-]]. zbool.
  destruct (opts_ok_entry _ _ _ Ho Ev) as (A & B & C & _). rewrite E4 in B.
  destruct (opt_u32 i o) as [t|]; [|done]. cbn [accessed]. rewrite bind_Go.
  case_match; [|by intros [= <-]]. rewrite bind_Go. intros [= <-].
  apply opt_put_ok; [done|]. unfold entry_ok. cbn [fst snd]. rewrite length_overlay by lia.
  split; [lia|]. split; [lia|]. split; [auto with nid|done].
Qed.

Lemma opt_clear_ok i o o' : i ∉ text_options → opts_ok o → opt_clear i o = Go o' → opts_ok o'.
Proof. intros Hi Ho E. destruct (opt_clear_spec i o Ho Hi) as (x & E' & H & _). by replace o' with x by congruence. Qed.

Lemma opt_read_object n i o d : opts_ok o → opt_read n i o = Some d → object n d.
Proof.
  intros Ho E. split; [|by eapply opt_read_bytes]. unfold opt_read in E.
  destruct (opt_val o i) as [b|]; [|done]. rewrite bind_ret in E. case_match eqn:El; [done|].
  apply Nat.ltb_ge in El. simplify_eq. rewrite length_take. lia.
Qed.

Lemma le_val4 b : object 4 b → nid32_ok (le_val b).
Proof. intros [L B]. pose proof (le_val_bounds b B) as H. rewrite L in H. exact H. Qed.

Lemma opt_u32_ok i o z : opts_ok o → opt_u32 i o = Some z → nid32_ok z.
Proof.
  intros Ho E. unfold opt_u32 in E. destruct (opt_read 4 i o) as [d|] eqn:Er; [|done].
  simplify_eq/=. apply le_val4. by eapply opt_read_object.
Qed.

Lemma fill_ok src yiaddr lease o o1 o2 :
  object 4 src → object 4 lease → opts_ok o →
  fill_addresses src yiaddr o = Go o1 → fill_times lease o1 = Go o2 → opts_ok o2.
Proof.
  intros Hs Hl Ho. unfold fill_addresses, fill_times.
  assert (F1 : four_bytes (λ _, Go src)) by (intros ? ? _ [= <-]; done).
  assert (F2 : four_bytes (λ o, accessed (opt_read 4 dhcpServerIdentifier o))).
  { intros x d Hx. destruct (opt_read _ _ x) eqn:E; [|done]. intros [= <-]. by eapply opt_read_object. }
  assert (F3 : four_bytes (λ _, Go (class_mask yiaddr))).
  { intros ? ? _ [= <-]. split; apply class_mask_ok. }
  assert (F4 : four_bytes (λ o, mask ← accessed (opt_u32 subnetMask o);
                                Go (le_bytes 4 (broadcast_of yiaddr mask)))).
  { intros x d _. destruct (opt_u32 _ x); [|done]. cbn [accessed]. rewrite bind_Go. intros E%Go_inj. subst d.
    split; [apply length_le_bytes|apply le_bytes_ok]. }
  assert (F5 : four_bytes (λ _, Go lease)) by (intros ? ? _ [= <-]; done).
  assert (F6 : ∀ n d, four_bytes (lease_part n d)).
  { intros n d x y _. unfold lease_part. destruct (opt_u32 _ x); [|done]. cbn [accessed].
    rewrite bind_Go. intros E%Go_inj. subst y. split; [apply length_be_bytes|apply be_bytes_ok]. }
  intros E1 E2.
  destruct (opt_default dhcpServerIdentifier _ o) as [a| | |] eqn:D1; try done. rewrite bind_Go in E1.
  destruct (opt_default dns _ a) as [b| | |] eqn:D2; try done. rewrite bind_Go in E1.
  destruct (opt_default subnetMask _ b) as [c| | |] eqn:D3; try done. rewrite bind_Go in E1.
  destruct (opt_time dhcpIPaddrLeaseTime _ o1) as [d| | |] eqn:D4; try done. rewrite bind_Go in E2.
  destruct (opt_time dhcpT1value _ d) as [e| | |] eqn:D5; try done. rewrite bind_Go in E2.
  eapply (opt_time_ok dhcpT2value); [not_text|apply F6| |exact E2].
  eapply (opt_time_ok dhcpT1value); [not_text|apply F6| |exact D5].
  eapply (opt_time_ok dhcpIPaddrLeaseTime); [not_text|exact F5| |exact D4].
  eapply (opt_default_ok broadcastAddr); [not_text|exact F4| |exact E1].
  eapply (opt_default_ok subnetMask); [not_text|exact F3| |exact D3].
  eapply (opt_default_ok dns); [not_text|exact F2| |exact D2].
  eapply (opt_default_ok dhcpServerIdentifier); [not_text|exact F1|exact Ho|exact D1].
Qed.

Lemma parse_ok lease ci b1 b2 s s' told t :
  object 4 lease → opts_ok (ps_opts s) → object frame_len (ps_recv s) →
  (ps_msg s + 20 ≤ frame_len)%nat →
  parseDhcpMsgRecv lease ci b1 b2 s = Go (s', told, t) →
  opts_ok (ps_opts s') ∧ object frame_len (ps_recv s').
Proof.
  intros Hl Ho Hr Hm. unfold parseDhcpMsgRecv. cbv zeta. set (y := dm_yiaddr _).
  destruct (opt_clear dhcpT1value _) as [a| | |] eqn:D1; try done. rewrite bind_Go.
  destruct (opt_clear dhcpT2value a) as [b| | |] eqn:D2; try done. rewrite bind_Go.
  destruct (parse_options _ _ b) as [c|] eqn:D3; [|done]. cbn [accessed]. rewrite bind_Go.
  destruct (tell_nidd _ _ _ c) as [tl| | |]; try done. rewrite bind_Go.
  set (r := splice _ _ (ps_recv s)).
  destruct (fill_addresses _ _ c) as [d| | |] eqn:D4; try done. rewrite bind_Go.
  destruct (fill_times lease d) as [e| | |] eqn:D5; try done. rewrite bind_Go.
  destruct (opt_val e _) as [b53|]; [|done]. cbn [accessed]. rewrite bind_Go.
  destruct (b53 !! O); [|done]. cbn [accessed]. rewrite bind_Go. intros [= <- <- <-]. cbn [ps_opts ps_recv].
  assert (Hr' : object frame_len r).
  { apply object_splice; [done|apply le_bytes_ok|]. rewrite length_le_bytes. lia. }
  split; [|done]. eapply fill_ok; [| | |exact D4|exact D5]; [|done|].
  - apply (object_slice frame_len); [done|]. vm_compute. lia.
  - eapply parse_options_ok; [| |exact D3]; [|apply bytes_ok_drop, Hr].
    apply (opt_clear_ok dhcpT2value a); [not_text| |exact D2].
    apply (opt_clear_ok dhcpT1value (ps_opts s)); [not_text|exact Ho|exact D1].
Qed.

(** ** Frames received *)

(** Where [DhcpMsgRecv] can point. *)
Definition msg_place (m : nat) : Prop := (22 ≤ m ≤ 98)%nat.

Lemma find_ip_from_bounds n off f k :
  find_ip_from n off f = Some k → (off ≤ k ∧ k + 2 ≤ off + 2 * n)%nat.
Proof.
  revert off. induction n as [|n IH]; intros off; cbn [find_ip_from]; [done|].
  case_match; [intros [= <-]; lia|]. intros E%IH. lia.
Qed.

Lemma find_ip_bounds f : (14 ≤ find_ip f ≤ 30)%nat.
Proof.
  unfold find_ip, eth_len. destruct (find_ip_from 9 14 f) as [k|] eqn:E; cbn; [|lia].
  apply find_ip_from_bounds in E. lia.
Qed.

Lemma ihl_bounds b : 0 ≤ 4 * Z.land b 15 ≤ 60.
Proof. change 15 with (Z.ones 4). rewrite Z.land_ones by lia. pose proof (Z.mod_pos_bound b (2 ^ 4)). lia. Qed.

Lemma examine_ok ck tr xid len f e :
  object frame_len f → examine ck tr xid len f = Some e →
  object frame_len (e_frame e) ∧ ∀ m, e_msg e = Some m → msg_place m.
Proof.
  intros Hf. unfold examine. case_match; [by intros [= <-]|]. cbv zeta.
  case_match; [by intros [= <-]|]. pose proof (find_ip_bounds f) as Ho.
  assert (Hhl : 0 ≤ 4 * Z.land (byte_at (find_ip f) f) 15 ≤ 60) by apply ihl_bounds.
  destruct (if ck then _ else _) as [[g bad]|] eqn:E; [|done]. rewrite bind_ret; cbn beta iota.
  assert (Hg : object frame_len g).
  { destruct ck; [by eapply udpipchk_object|]. by injection E as <- _. }
  clear E. destruct (negb (bad =? 0)); intros Ee; simplify_eq/=; (split; [done|]); intros m Em; simplify_eq.
  unfold msg_place. lia.
Qed.

(** ** Types of the client *)

Definition answer_ok (a : answer) : Prop :=
  match a with
  | Number n => nid32_ok n
  | Datagram d _ => bytes_ok d
  | Hardware _ h => bytes_ok h
  | Text s => bytes_ok s ∧ (length s ≤ 255)%nat
  | _ => True
  end.

Definition route_ok (r : rtentry) : Prop :=
  nid32_ok (rt_dst r) ∧ nid32_ok (rt_gateway r) ∧ nid32_ok (rt_genmask r).

Definition effect_ok (e : effect) : Prop :=
  match e with
  | Sendto f => (length f ≤ frame_len)%nat ∧ bytes_ok f
  | SetAddress a | SetNetmask a | SetBroadcast a => nid32_ok a
  | AddRoute r => route_ok r
  | _ => True
  end.

Definition vars_full (v : dhcp_vars) : Prop :=
  vars_typed v ∧ vars_bounds v ∧ nid32_ok (v_default_router v).

Definition iface_typed (i : dhcpInterface) : Prop := iface_memory i ∧ bytes_ok (if_version i).

Record client_ok (c : client) : Prop := {
  ok_vars : vars_full (c_vars c);
  ok_link : link_ok (c_link c);
  ok_iface : iface_typed (c_iface c);
  ok_opts : opts_ok (c_opts c);
  ok_send : object frame_len (c_send c);
  ok_recv : object frame_len (c_recv c);
  ok_msg : msg_place (c_msg c);
  ok_in : Forall answer_ok (c_in c);
  ok_out : Forall effect_ok (c_out c);
}.

(** [m] keeps the types, and its value satisfies [Q]. *)
Definition typed {A} (Q : A → Prop) (m : M A) : Prop :=
  ∀ c, client_ok c → client_ok (m c).2 ∧ ∀ x, (m c).1 = Val x → Q x.

Lemma typed_mono {A} (P Q : A → Prop) m : (∀ x, P x → Q x) → typed P m → typed Q m.
Proof. intros HPQ H c Hc. destruct (H c Hc) as [H1 H2]. split; [done|]. intros x E. by apply HPQ, H2. Qed.

Lemma typed_ret {A} (Q : A → Prop) (x : A) : Q x → typed Q (mret x).
Proof. intros H c Hc. split; [done|]. by intros y [= <-]. Qed.

Lemma typed_bind {A B} (P : A → Prop) (Q : B → Prop) (m : M A) (f : A → M B) :
  typed P m → (∀ x, P x → typed Q (f x)) → typed Q (m ≫= f).
Proof.
  intros Hm Hf c Hc. destruct (Hm c Hc) as [H1 H2]. unfold mbind, M_bind.
  destruct (m c) as [[] c']; cbn [fst snd] in *; try (split; [done|discriminate]).
  by apply Hf; [apply H2|].
Qed.

Lemma typed_exit {A} (Q : A → Prop) n : typed Q (exit n).
Proof. by intros c Hc. Qed.

Lemma typed_longjmp {A} (Q : A → Prop) : typed Q longjmp.
Proof. by intros c Hc. Qed.

Lemma typed_waiting {A} (Q : A → Prop) : typed Q (λ c, (Waiting, c)).
Proof. by intros c Hc. Qed.

Lemma typed_setjmp {A} (Q : A → Prop) (h b : M A) : typed Q h → typed Q b → typed Q (setjmp h b).
Proof.
  intros Hh Hb c Hc. destruct (Hb c Hc) as [H1 H2]. unfold setjmp.
  destruct (b c) as [[] c']; cbn [fst snd] in *; try (split; [done|discriminate]); [by split|].
  by apply Hh.
Qed.

Lemma typed_get {A} (f : client → A) : typed (λ x, ∃ c, client_ok c ∧ x = f c) (get f).
Proof. intros c Hc. split; [done|]. intros x [= <-]. by exists c. Qed.

Lemma typed_modify f : (∀ c, client_ok c → client_ok (f c)) → typed (λ _, True) (modify f).
Proof. intros H c Hc. split; [by apply H|done]. Qed.

Lemma typed_lift {A} (m : outcome A) : typed (λ x, m = Go x) (lift m).
Proof. intros c Hc. unfold lift. destruct m; cbn; (split; [done|]); [by intros x [= <-]|done..]. Qed.

Lemma accessed_Go {A} (m : option A) x : accessed m = Go x → m = Some x.
Proof. destruct m; [by intros [= ->]|done]. Qed.

Lemma typed_accessed {A} (m : option A) : typed (λ x, m = Some x) (lift (accessed m)).
Proof. eapply typed_mono, typed_lift. intros x. apply accessed_Go. Qed.

Lemma typed_ask {A} (f : answer → option A) :
  typed (λ x, ∃ a, answer_ok a ∧ f a = Some x) (ask f).
Proof.
  intros c Hc. unfold ask. pose proof (ok_in c Hc) as Hi.
  destruct (c_in c) as [|a rest]; [done|]. apply Forall_cons in Hi as [Ha Hr].
  destruct (f a) as [x|] eqn:E; [|done]. split.
  - destruct Hc. by constructor.
  - intros y [= <-]. by exists a.
Qed.

Lemma typed_emit e : effect_ok e → typed (λ _, True) (emit e).
Proof.
  intros He. apply typed_modify. intros c []. constructor; try assumption.
  apply Forall_app. split; [assumption|]. by constructor.
Qed.

Lemma typed_fuel {A} (Q : A → Prop) (f : nat → M A) (g : client → nat) :
  (∀ n, typed Q (f n)) → typed Q (λ c, f (g c) c).
Proof. intros H c Hc. by apply H. Qed.

(** ** Automation

    [typing] follows a program, with the lemmas of the database of the same
    name for the operations it calls; a value of which nothing is known gets
    [always]. *)

Definition always {A} (_ : A) : Prop := True.

Create HintDb typing discriminated.

Lemma typed_any {A} (Q : A → Prop) m : typed Q m → typed always m.
Proof. by apply typed_mono. Qed.

Lemma typed_when b m : typed always m → typed always (when b m).
Proof. intros H. destruct b; [done|by apply typed_ret]. Qed.

Ltac typing_step :=
  match goal with
  | |- always _ => exact I
  | |- typed always (lift _) => eapply typed_any, typed_lift
  | |- typed always (ask _) => eapply typed_any, typed_ask
  | |- typed always (get _) => eapply typed_any, typed_get
  | |- typed _ (mret _) => apply typed_ret
  | |- typed _ (exit _) => apply typed_exit
  | |- typed _ longjmp => apply typed_longjmp
  | |- typed _ (λ c, (Waiting, c)) => apply typed_waiting
  | |- typed _ (setjmp _ _) => apply typed_setjmp
  | |- typed _ (get _ ≫= _) => eapply typed_bind; [apply typed_get|intros ? (? & ? & ->)]
  | |- typed _ (lift (accessed ?m) ≫= _) => eapply typed_bind; [apply typed_accessed|cbv beta; intros ? ?]
  | |- typed _ (lift _ ≫= _) => eapply typed_bind; [apply typed_lift|cbv beta; intros ? ?]
  | |- typed _ (ask _ ≫= _) => eapply typed_bind; [apply typed_ask|intros ? (? & ? & ?)]
  | |- typed _ (emit _) => eapply typed_mono; [|apply typed_emit]; [done|]
  | |- typed _ (modify _) => eapply typed_mono; [|apply typed_modify]; [done|]
  | |- typed _ (?m ≫= _) => eapply typed_bind; [solve [eauto 2 with typing]|intros ? ?]
  | |- typed _ (emit _ ≫= _) => eapply typed_bind; [apply typed_emit|intros _ _]
  | |- typed _ (modify _ ≫= _) => eapply typed_bind; [apply typed_modify|intros _ _]
  | |- typed _ (when _ _) => eapply typed_any, typed_when
  | |- typed _ (when _ _ ≫= _) => apply (typed_bind always); [apply typed_when|intros ? _]
  | |- typed _ ((if ?b then _ else _) ≫= _) => apply (typed_bind always); [|intros ? _]
  | |- typed _ ((match ?x with _ => _ end) ≫= _) => apply (typed_bind always); [|intros ? _]
  | |- typed _ (?m ≫= _) => eapply typed_bind; [eapply typed_any; solve [eauto 2 with typing]|intros ? ?]
  | |- typed _ (if ?b then _ else _) => destruct b eqn:?
  | |- typed _ (match ?x with _ => _ end) => destruct x eqn:?
  | |- typed _ _ => solve [eauto 2 with typing | eapply typed_any; eauto 2 with typing
                          | eapply typed_mono; [|solve [eauto 2 with typing]]; done]
  end.

Ltac typing :=
  repeat (cbv zeta; typing_step);
  try match goal with |- typed _ _ => fail 1 | |- _ => done end.

(** A change of members that keep their types. *)
Ltac keep_types := intros ? []; constructor; try assumption.

Lemma typed_succeeds : typed always succeeds.
Proof. eapply typed_any, typed_ask. Qed.

Lemma typed_number : typed nid32_ok number.
Proof. eapply typed_mono, typed_ask. intros x ([] & Ha & E); simplify_eq/=. done. Qed.

Lemma typed_clock : typed always clock.
Proof. eapply typed_any, typed_ask. Qed.

Definition name_ok (s : list Z) : Prop := bytes_ok s ∧ (length s ≤ 255)%nat.

Lemma typed_text : typed (λ t, ∀ s, t = Some s → name_ok s) text.
Proof. eapply typed_mono, typed_ask. intros x ([] & Ha & E); simplify_eq/=; by intros ? [= <-]. Qed.

Lemma typed_number_or_fail :
  typed (λ t, ∀ n, t = Some n → nid32_ok n)
    (ask (λ a, match a with Number n => Some (Some n) | Fails => Some None | _ => None end)).
Proof. eapply typed_mono, typed_ask. intros x ([] & Ha & E); simplify_eq/=; by intros ? [= <-]. Qed.

Lemma typed_alarm n : typed always (alarm n).
Proof. apply typed_any with (λ _, True), typed_modify. keep_types. Qed.

#[export] Hint Resolve typed_succeeds typed_number typed_clock typed_text typed_number_or_fail
  typed_alarm : typing.
#[export] Hint Extern 1 (always _) => exact I : typing.

Lemma typed_must : typed always must.
Proof. unfold must. typing. Qed.

Lemma typed_sendto f : (length f ≤ frame_len)%nat → bytes_ok f → typed always (sendto f).
Proof. intros. unfold sendto. typing. Qed.

#[export] Hint Resolve typed_must typed_sendto : typing.

Lemma typed_build k xid : nid32_ok xid → typed always (build k xid).
Proof.
  intros Hx. unfold build. typing. destruct x; typing. intros c' []. constructor; try assumption.
  destruct H as [Hv Hl Hi Ho _ _ _ _ _]. eapply build_object; [apply Hv|exact Hl|apply Hi|exact Ho|exact Hx|].
  eassumption.
Qed.

#[export] Hint Resolve typed_build : typing.

(** ** ARP, stopping, and signals *)

Lemma arp_object m :
  object 6 (am_dhost m) → object 6 (am_shost m) → object 6 (am_sHaddr m) → object 6 (am_tHaddr m) →
  byte_ok (am_hlen m) → byte_ok (am_plen m) → object arp_len (arp_bytes m).
Proof.
  intros [L1 B1] [L2 B2] [L3 B3] [L4 B4] Hh Hp. unfold arp_bytes, eth_header. split.
  - rewrite !length_app, !length_le_bytes, L1, L2, L3, L4, length_replicate. done.
  - rewrite !bytes_ok_app. assert (bytes_ok [am_hlen m; am_plen m]) by (apply Forall_cons; split; [done|]; apply Forall_cons; split; [done|constructor]).
    split_and!; auto with nid.
Qed.

Lemma arp_messages l i :
  link_ok l → iface_memory i →
  object arp_len (arp_bytes (arp_request l i)) ∧ object arp_len (arp_bytes (arp_release l i))
  ∧ object arp_len (arp_bytes (arp_inform l i)).
Proof.
  intros Hl Hi. pose proof (proj1 (proj2 (proj2 (proj1 Hi)))) as Hs.
  assert (object 6 MAC_BCAST_ADDR) by by apply (bool_decide_unpack _).
  assert (object 6 (replicate 6 0)) by apply object_zero.
  split_and!; apply arp_object; try done; unfold byte_ok; cbn; lia.
Qed.

Lemma arp_frame_ok l obj f obj' :
  object arp_len obj → arp_frame l obj = Some (f, obj') →
  ((length f ≤ frame_len)%nat ∧ bytes_ok f) ∧ object arp_len obj'.
Proof.
  intros Hm. assert (Ha : (arp_len ≤ frame_len)%nat) by (apply (bool_decide_unpack _); vm_compute; exact I).
  unfold arp_frame. case_match.
  - destruct (eth2tr _ _) as [[g n]|] eqn:E; [|done]. rewrite bind_ret. intros [= <- <-].
    pose proof (eth2tr_object _ _ _ _ _ Hm E) as [L B]. split; [|done]. rewrite length_take, L.
    split; [lia|by apply bytes_ok_take].
  - intros [= <- <-]. split; [|done]. destruct Hm as [-> B]. done.
Qed.

Lemma typed_device_name room : typed always (device_name room).
Proof. unfold device_name. typing. Qed.

#[export] Hint Resolve typed_device_name : typing.

Lemma typed_send_arp obj : object arp_len obj → typed (λ r, object arp_len r.2) (send_arp obj).
Proof.
  intros Ho. unfold send_arp. typing. unfold accessed in *.
  match goal with H : arp_frame _ _ = Some _ |- _ => apply arp_frame_ok in H as [[] ?]; [|exact Ho] end.
  eapply typed_bind; [by apply typed_sendto|]. intros ok _. by apply typed_ret.
Qed.

Lemma typed_arp_once m :
  (∀ l i, link_ok l → iface_typed i → object arp_len (arp_bytes (m l i))) → typed always (arp_once m).
Proof.
  intros Hm. unfold arp_once. typing. eapply typed_bind; [|intros [] _; by apply typed_ret].
  apply typed_send_arp, Hm; [by apply ok_link|by apply ok_iface].
Qed.

Lemma typed_arpRelease : typed always arpRelease.
Proof. apply typed_arp_once. intros l i Hl Hi. exact (proj1 (proj2 (arp_messages l i Hl (proj1 Hi)))). Qed.
Lemma typed_arpInform : typed always arpInform.
Proof. apply typed_arp_once. intros l i Hl Hi. exact (proj2 (proj2 (arp_messages l i Hl (proj1 Hi)))). Qed.

Lemma typed_deleteDhcpCache : typed always deleteDhcpCache.
Proof. unfold deleteDhcpCache. typing. Qed.
Lemma typed_deletePidFile : typed always deletePidFile.
Proof. unfold deletePidFile. typing. Qed.
Lemma typed_execute prm : typed always (execute_on_change prm).
Proof. unfold execute_on_change. typing. Qed.

Lemma typed_releaseDhcpOptions : typed always releaseDhcpOptions.
Proof. unfold releaseDhcpOptions. typing. keep_types. apply opts_zero_ok. Qed.

#[export] Hint Resolve typed_arpRelease typed_arpInform typed_deleteDhcpCache
  typed_deletePidFile typed_execute typed_releaseDhcpOptions : typing.

Lemma typed_dhcpStop : typed always dhcpStop.
Proof.
  unfold dhcpStop.
  typing; cbn; unfold nid32_ok; lia.
Qed.

Lemma typed_restore set n : (∀ s, effect_ok (set s)) → typed always (restore set n).
Proof. intros. unfold restore. typing. Qed.

Lemma take_frame k f : object frame_len f → (length (take k f) ≤ frame_len)%nat ∧ bytes_ok (take k f).
Proof. intros [L B]. rewrite length_take, L. split; [lia|by apply bytes_ok_take]. Qed.

Lemma set_ciaddr_ok c a : client_ok c → nid32_ok a → client_ok (c <| c_iface ::= λ i, i <| if_ciaddr := a |> |>).
Proof.
  intros [] Ha. constructor; try assumption. destruct ok_iface0 as [((_ & H) & H') Hv]. by split; [split; [split|]|].
Qed.

Lemma typed_send_part k c : client_ok c → typed always (sendto (take k (c_send c))).
Proof. intros Hc. apply typed_sendto; by apply take_frame, ok_send. Qed.

Lemma nid32_zero : nid32_ok 0.
Proof. unfold nid32_ok. lia. Qed.

#[export] Hint Resolve typed_dhcpStop typed_restore typed_send_part : typing.

Lemma typed_dhcpRelease : typed always dhcpRelease.
Proof.
  unfold dhcpRelease. typing. intros c Hc. by apply (set_ciaddr_ok c 0 Hc), nid32_zero.
Qed.

Lemma typed_terminate sig : typed always (terminate sig).
Proof. unfold terminate. typing. Qed.

#[export] Hint Resolve typed_dhcpRelease typed_terminate : typing.

Lemma typed_sigHandler sig : typed always (sigHandler sig).
Proof. unfold sigHandler. typing. Qed.

Lemma typed_interrupted sig : typed always (interrupted sig).
Proof.
  intros c Hc. unfold interrupted. case_match; [done|]. case_match; [|by apply typed_sigHandler].
  case_match; [done|]. apply typed_sigHandler. destruct Hc. by constructor.
Qed.

#[export] Hint Resolve typed_interrupted : typing.

Lemma typed_peekfd : typed always peekfd.
Proof. unfold peekfd. typing. Qed.
Lemma typed_sleep : typed always sleep.
Proof. unfold sleep. typing. Qed.
Lemma typed_recv_arp : typed always recv_arp.
Proof. unfold recv_arp. eapply typed_any, typed_ask. Qed.
Lemma typed_arp_examine f : typed always (arp_examine f).
Proof. unfold arp_examine. typing. Qed.

#[export] Hint Resolve typed_peekfd typed_sleep typed_recv_arp typed_arp_examine : typing.

Lemma typed_arp_loop fuel probes receiving obj :
  object arp_len obj → typed always (arp_loop fuel probes receiving obj).
Proof.
  revert probes receiving obj. induction fuel as [|fuel IH]; intros probes receiving obj Ho; cbn [arp_loop].
  - typing.
  - destruct receiving; [typing|]. destruct probes as [|probes]; [typing|].
    eapply typed_bind; [by apply typed_send_arp|]. intros [ok obj'] Ho'. cbn [snd] in Ho'. typing.
Qed.

Lemma typed_arpCheck : typed always arpCheck.
Proof.
  intros c Hc. apply typed_arp_loop; [|done].
  exact (proj1 (arp_messages _ _ (ok_link c Hc) (proj1 (ok_iface c Hc)))).
Qed.

#[export] Hint Resolve typed_arpCheck : typing.

(** ** Sending and receiving *)

Definition frame_ok (f : list Z) : Prop := (length f ≤ frame_len)%nat ∧ bytes_ok f.

Lemma typed_dhcp_frame : typed frame_ok dhcp_frame.
Proof.
  unfold dhcp_frame. typing.
  - simplify_eq. match goal with H : eth2tr _ _ = _ |- _ => rename H into E end.
    intros c []. constructor; try assumption. eapply eth2tr_object; [|exact E]. by apply ok_send.
  - simplify_eq. match goal with H : eth2tr _ _ = _ |- _ => rename H into E end.
    apply take_frame. eapply eth2tr_object; [|exact E]. by apply ok_send.
  - by apply take_frame, ok_send.
Qed.

#[export] Hint Resolve typed_dhcp_frame : typing.

Lemma typed_send_frame f : frame_ok f → typed always (sendto f).
Proof. intros []. by apply typed_sendto. Qed.

#[export] Hint Resolve typed_send_frame : typing.

Lemma typed_send_message k xid : nid32_ok xid → typed always (send_message k xid).
Proof. intros Hx. unfold send_message. typing. Qed.

Lemma typed_recv_frame : typed always recv_frame.
Proof.
  unfold recv_frame. typing. keep_types. destruct x0; try discriminate; simplify_eq.
  apply object_overlay; [apply object_zero|by apply bytes_ok_take|]. rewrite length_take. lia.
Qed.

Lemma typed_parse_reply daemon : typed always (parse_reply daemon).
Proof.
  unfold parse_reply. typing. destruct x as [[s told] t].
  match goal with H : parseDhcpMsgRecv _ _ _ _ _ = _ |- _ => rename H into E end.
  match goal with H : client_ok ?c |- _ => destruct H as [_ _ _ Ho _ Hr Hm _ _]; rename c into c0 end.
  apply parse_ok in E as [Ho' Hr']; [|split; [apply length_be_bytes|apply be_bytes_ok]|exact Ho|exact Hr|].
  2:{ transitivity 118%nat; [unfold msg_place in Hm; cbn; lia|]. apply (bool_decide_unpack _). vm_compute. exact I. }
  typing; simplify_eq. intros c []. by constructor.
Qed.

#[export] Hint Resolve typed_send_message typed_recv_frame typed_parse_reply : typing.

(** The frame received, converted on a token ring. *)
Lemma typed_received c :
  client_ok c →
  typed (λ g, ∀ f, g = Some f → object frame_len f)
    (if l_TokenRingIf (c_link c) then lift (accessed (tr2eth (c_recv c))) else mret (Some (c_recv c))).
Proof.
  intros Hc. case_match.
  - eapply typed_mono, typed_lift. intros g E%accessed_Go f ->.
    eapply tr2eth_object; [|exact E]. by apply ok_recv.
  - apply typed_ret. intros f [= <-]. by apply ok_recv.
Qed.

Lemma typed_receive_turn xid msg s : typed always (receive_turn xid msg s).
Proof.
  unfold receive_turn. eapply typed_bind; [apply typed_recv_frame|intros [[len daemon]|] _]; [|typing].
  eapply typed_bind; [apply typed_get|intros ? (c & Hc & ->)]. cbv zeta.
  eapply typed_bind; [by apply typed_received|intros [f|] Hf]; [|typing].
  specialize (Hf f eq_refl). typing.
  match goal with H : examine _ _ _ _ _ = _ |- _ => rename H into E end. apply examine_ok in E as [Hr Hm]; [|done].
  intros d []. constructor; try assumption. destruct (e_msg _) as [m|] eqn:Em; [|done]. by apply Hm.
Qed.

#[export] Hint Resolve typed_receive_turn : typing.

Lemma typed_more_to_receive s : typed always (more_to_receive s).
Proof. unfold more_to_receive. typing. Qed.

#[export] Hint Resolve typed_more_to_receive : typing.

Lemma typed_sr_loop fuel k xid msg s : nid32_ok xid → typed always (sr_loop fuel k xid msg s).
Proof.
  intros Hx. revert s. induction fuel as [|fuel IH]; intros s; cbn [sr_loop]; typing.
Qed.

Lemma typed_dhcpSendAndRecv xid msg k : nid32_ok xid → typed always (dhcpSendAndRecv xid msg k).
Proof.
  intros Hx. apply typed_fuel with (f := λ n, sr_loop n k xid msg _). intros. by apply typed_sr_loop.
Qed.

#[export] Hint Resolve typed_dhcpSendAndRecv : typing.

(** ** Configuration *)

Lemma opt_at_object i off n o b : opts_ok o → opt_at i off n o = Some b → object n b.
Proof.
  intros Ho. unfold opt_at. destruct (opt_val o i) as [x|] eqn:E; [|done]. rewrite bind_ret.
  case_match eqn:El; [done|]. apply Nat.ltb_ge in El. intros [= <-].
  apply (object_slice (length x)); [|lia]. split; [done|]. by apply (opts_ok_entry _ _ _ Ho E).
Qed.

Lemma opt_items_object i start n o l : opts_ok o → opt_items i start n o = Some l → Forall (object n) l.
Proof.
  intros Ho. unfold opt_items. intros E%mapM_Some.
  induction E as [|off b ? l Ea _ IH]; constructor; [by eapply opt_at_object|done].
Qed.

Lemma static_route_ok item r : object 8 item → static_route item = Some r → route_ok r.
Proof.
  intros [L B]. unfold static_route. destruct (getgenmask _) as [m|] eqn:E; [|done].
  rewrite bind_ret. intros [= <-]. unfold getgenmask in E. destruct (mask_loop _ _ _); [|done].
  rewrite bind_ret in E. injection E as <-. split_and!; cbn.
  - apply le_val4. split; [by rewrite length_take, L|by apply bytes_ok_take].
  - apply le_val4. split; [by rewrite length_drop, L|by apply bytes_ok_drop].
  - apply swap32_ok.
Qed.

Lemma typed_iterate {A B} (P : A → Prop) (f : A → M B) l :
  Forall P l → (∀ x, P x → typed always (f x)) → typed always (iterate f l).
Proof.
  intros Hl Hf. induction Hl as [|x l Hx _ IH]; cbn [iterate]; [by apply typed_ret|].
  eapply typed_bind; [by apply Hf|by intros]. 
Qed.

Lemma typed_add_route r : route_ok r → typed always (add_route r).
Proof. intros Hr. unfold add_route. typing. Qed.

#[export] Hint Resolve typed_add_route : typing.

Lemma typed_setDefaultRoute g : nid32_ok g → typed always (setDefaultRoute g).
Proof.
  intros Hg. assert (∀ w, route_ok (default_route w g)) by (intros; split_and!; done).
  assert (route_ok (gateway_host g)) by by split_and!. unfold setDefaultRoute. typing.
Qed.

#[export] Hint Resolve typed_setDefaultRoute : typing.

Lemma typed_set_static_routes : typed always set_static_routes.
Proof.
  unfold set_static_routes. typing.
  match goal with H : _ = Some _ |- _ => rename H into E end.
  apply (typed_iterate (object 8)); [eapply opt_items_object; [|exact E]; by apply ok_opts|].
  intros item Hi. typing.
  match goal with H : _ = Some _ |- _ => rename H into E' end.
  apply typed_add_route. by eapply static_route_ok.
Qed.

Lemma typed_set_default_routes : typed always set_default_routes.
Proof.
  unfold set_default_routes. typing.
  - apply (typed_iterate (λ _, True)); [by apply Forall_true|]. intros ? _. typing.
    match goal with H : _ = Some _ |- _ => rename H into E' end.
    apply typed_setDefaultRoute. eapply opt_u32_ok; [|exact E']. by apply ok_opts.
  - match goal with H : client_ok ?c |- _ => pose proof (proj2 (proj2 (ok_vars c H))) end.
    typing.
Qed.

Lemma ok_ciaddr c : client_ok c → nid32_ok (if_ciaddr (c_iface c)).
Proof. intros H. apply (ok_iface c H). Qed.

Lemma typed_set_interface : typed always set_interface.
Proof.
  unfold set_interface. typing.
  - by apply ok_ciaddr.
  - eapply opt_u32_ok; [|eassumption]. by apply ok_opts.
  - eapply opt_u32_ok; [|eassumption]. by apply ok_opts.
Qed.

Lemma typed_replace_file name contents : typed always (replace_file name contents).
Proof. unfold replace_file. typing. Qed.

#[export] Hint Resolve typed_set_static_routes typed_set_default_routes typed_set_interface
  typed_replace_file : typing.

Lemma typed_write_files : typed always write_resolv ∧ typed always write_nis ∧ typed always write_ntp.
Proof. unfold write_resolv, write_nis, write_ntp. split_and!; typing; keep_types. Qed.

(** *** Names *)

Lemma printable_ok h : name_ok h → name_ok (printable h).
Proof.
  intros [B L]. assert (H : bytes_ok (printable h) ∧ (length (printable h) ≤ length h)%nat).
  { clear L. induction B as [|c h Hc _ [IH1 IH2]]; [by split; [constructor|]|]. cbn [printable]. case_match.
    - split; [by constructor|cbn; lia].
    - split; [constructor|cbn; lia]. }
  destruct H. split; [done|lia].
Qed.

Lemma after_dot_ok h : name_ok h → name_ok (after_dot h).
Proof.
  intros [B L]. assert (H : bytes_ok (after_dot h) ∧ (length (after_dot h) ≤ length h)%nat).
  { clear L. induction B as [|c h Hc Hh [IH1 IH2]]; [by split; [constructor|]|]. cbn [after_dot]. repeat case_match.
    - split; [done|cbn; lia].
    - split; [done|cbn; lia].
    - split; [by constructor|done]. }
  destruct H. split; [done|lia].
Qed.

Lemma put_name_ok i name o : name_ok name → opts_ok o → opts_ok (put_name i name o).
Proof.
  intros [B L] Ho. unfold put_name. rewrite Z.mod_small by lia. apply opt_count_ok, opt_put_ok; [done|].
  unfold entry_ok. cbn [fst snd]. rewrite length_app, Nat2Z.id. change (length [0]) with 1%nat.
  split; [lia|]. split; [lia|]. split; [|intros _; by apply list_lookup_middle].
  apply bytes_ok_app. split; [done|]. by apply (bool_decide_unpack _).
Qed.

Lemma typed_update_opts f : (∀ o, opts_ok o → opts_ok (f o)) → typed always (update_opts f).
Proof. intros Hf. unfold update_opts. typing. keep_types. by apply Hf. Qed.

Lemma typed_put_name i name : name_ok name → typed always (update_opts (put_name i name)).
Proof. intros Hn. apply typed_update_opts. intros. by apply put_name_ok. Qed.

Lemma typed_set_name i set : (∀ s, effect_ok (set s)) → typed always (set_name i set).
Proof. intros. unfold set_name. typing. Qed.

Definition names_ok (t : option (list Z)) : Prop := ∀ s, t = Some s → name_ok s.

Lemma typed_set_host : typed names_ok set_host.
Proof.
  unfold set_host. eapply typed_bind; [apply typed_get|intros ? (c & Hc & ->)].
  case_match; [by apply typed_ret|]. eapply (typed_bind names_ok).
  { case_match; [apply typed_text|by apply typed_ret]. }
  intros hp Hhp. typing.
  - by apply typed_put_name, printable_ok, Hhp.
  - keep_types.
  - eapply typed_bind; [by apply typed_set_name|intros _ _]. by apply typed_ret.
Qed.

#[export] Hint Resolve typed_put_name : typing.

Lemma typed_set_domain hp : names_ok hp → typed always (set_domain hp).
Proof.
  intros Hhp. unfold set_domain. eapply typed_bind; [apply typed_get|intros ? (c & Hc & ->)].
  case_match; [by apply typed_ret|]. apply (typed_bind always); [|intros _ _].
  { typing. keep_types. }
  apply (typed_bind always); [|intros _ _; by apply typed_set_name].
  case_match; [|by apply typed_ret]. eapply (typed_bind names_ok).
  { case_match; [by apply typed_ret|apply typed_text]. }
  intros [h|] Hh; typing. apply typed_put_name, after_dot_ok. by apply Hh.
Qed.

(** *** Host information *)

Lemma cleanmetas_spec s s' :
  cleanmetas s = Some s' →
  length s' = length s ∧ (bytes_ok s → bytes_ok s') ∧ ∀ k, s !! k = Some 0 → s' !! k = Some 0.
Proof.
  revert s'. induction s as [|c s IH]; intros s' E; [done|]. cbn [cleanmetas] in E.
  destruct (c =? 0) eqn:E0; [by injection E as <-|]. zbool.
  destruct (cleanmetas s) as [r|] eqn:Er; [|done]. injection E as <-.
  destruct (IH r eq_refl) as (L & B & Z). cbn [length]. split; [by rewrite L|]. split.
  - intros [Hc Hs]%Forall_cons. constructor; [|by apply B]. by case_match.
  - intros [|k]; cbn; [|apply Z]. intros [= ->]. done.
Qed.

Lemma info_string_ok label i o t o' : opts_ok o → info_string label i o = Some (t, o') → opts_ok o'.
Proof.
  intros Ho. unfold info_string. case_match; [by intros [= <- <-]|].
  destruct (opt_val o i) as [b|] eqn:Ev; [|done]. rewrite bind_ret.
  destruct (cleanmetas b) as [b'|] eqn:Ec; [|done]. rewrite bind_ret. intros [= <- <-].
  destruct (opts_ok_entry _ _ _ Ho Ev) as (A & B & C & D).
  destruct (cleanmetas_spec _ _ Ec) as (L & Hb & Hz). apply opt_put_ok; [done|].
  unfold entry_ok. cbn [fst snd]. rewrite L. split; [done|]. split; [done|]. split; [by apply Hb|].
  intros Ht. by apply Hz, D.
Qed.

Lemma info_strings_ok o t o' : opts_ok o → info_strings o = Some (t, o') → opts_ok o'.
Proof.
  intros Ho. unfold info_strings.
  destruct (info_string _ hostName o) as [[? o1]|] eqn:E1; [|done]. rewrite bind_ret.
  destruct (info_string _ domainName o1) as [[? o2]|] eqn:E2; [|done]. rewrite bind_ret.
  destruct (info_string _ nisDomainName o2) as [[? o3]|] eqn:E3; [|done]. rewrite bind_ret.
  destruct (info_string _ rootPath o3) as [[? o4]|] eqn:E4; [|done]. rewrite bind_ret.
  intros [= <- <-]. repeat (eapply info_string_ok; [|eassumption]). done.
Qed.

Lemma info_server_ok l i msg recv o t recv' :
  object frame_len recv → info_server l i msg recv o = Some (t, recv') → object frame_len recv'.
Proof.
  intros [L B]. unfold info_server. destruct (opt_at _ _ _ o); [|done]. rewrite bind_ret. cbv zeta.
  destruct (cleanmetas _) as [s|] eqn:E; [|done]. rewrite bind_ret. intros [= _ <-].
  destruct (cleanmetas_spec _ _ E) as (Ls & Bs & _). split.
  - rewrite length_app, Ls, <-length_app, take_drop. done.
  - apply bytes_ok_app. split; [by apply bytes_ok_take|]. by apply Bs, bytes_ok_drop.
Qed.

Lemma hostinfo_text_ok c t o recv :
  client_ok c → hostinfo_text c = Some (t, o, recv) → opts_ok o ∧ object frame_len recv.
Proof.
  intros Hc. unfold hostinfo_text. cbv zeta.
  destruct (info_addresses _ _); [|done]. rewrite bind_ret. destruct (info_gateway _); [|done]. rewrite bind_ret.
  destruct (info_routes _); [|done]. rewrite bind_ret.
  destruct (info_strings _) as [[? o1]|] eqn:E; [|done]. rewrite bind_ret.
  destruct (info_dns _); [|done]. rewrite bind_ret. destruct (info_servers _ ntpServers _); [|done]. rewrite bind_ret.
  destruct (info_servers _ nisServers _); [|done]. rewrite bind_ret.
  destruct (info_server _ _ _ _ _) as [[? r]|] eqn:E'; [|done]. rewrite bind_ret.
  destruct (info_client _ _ _); [|done]. rewrite bind_ret. intros [= _ <- <-]. split.
  - eapply info_strings_ok; [|exact E]. by apply ok_opts.
  - eapply info_server_ok; [|exact E']. by apply ok_recv.
Qed.

Lemma typed_write_cache name content : typed always (write_cache name content).
Proof. unfold write_cache. typing. Qed.

#[export] Hint Resolve typed_write_cache : typing.

Lemma typed_write_hostinfo : typed always write_hostinfo.
Proof.
  unfold write_hostinfo. typing.
  - keep_types. destruct ok_iface0 as [(H1 & _ & H2) _].
    split; [split; [exact H1|split; [reflexivity|exact H2]]|]. by apply (bool_decide_unpack _).
  - keep_types.
  - simplify_eq. match goal with H : hostinfo_text _ = _ |- _ => apply hostinfo_text_ok in H as [? ?]; [|done] end.
    keep_types.
Qed.

Lemma typed_announce_change : typed always announce_change.
Proof. unfold announce_change. typing. keep_types. Qed.

#[export] Hint Resolve typed_set_host typed_set_domain typed_write_hostinfo typed_announce_change : typing.

Lemma typed_config_system : typed always config_system.
Proof.
  destruct typed_write_files as (H1 & H2 & H3). unfold config_system. typing.
Qed.

#[export] Hint Resolve typed_config_system : typing.

Lemma typed_dhcpConfig : typed always dhcpConfig.
Proof. unfold dhcpConfig. typing. Qed.

#[export] Hint Resolve typed_dhcpConfig : typing.

(** ** States *)

Lemma typed_set_iface f :
  (∀ i, iface_typed i → iface_typed (f i)) → typed always (set_iface f).
Proof. intros Hf. unfold set_iface. typing. keep_types. by apply Hf. Qed.

(** An interface read from a file of any contents. *)
Lemma iface_of_typed b : object iface_len b → iface_typed (iface_of b).
Proof.
  unfold iface_len. intros Hb.
  assert (Hs : ∀ off n, (off + n ≤ 136)%nat → object n (slice off n b))
    by (intros off n Hn; by apply (object_slice 136)).
  assert (Hi : ∀ z, - 2 ^ 31 ≤ i32_wrap z < 2 ^ 31).
  { intros z. unfold i32_wrap. pose proof (Z.mod_pos_bound (z + 2 ^ 31) (2 ^ 32)). lia. }
  split; [split; [split_and!|split; [|split; [|split]]]|]; try apply Hi; try (apply le_val4, Hs; lia);
    try (apply Hs; lia).
Qed.

Lemma iface_bytes_object i : iface_typed i → object iface_len (iface_bytes i).
Proof.
  intros [Hi Hv]. split; [by apply length_iface_bytes|].
  destruct Hi as ((_ & _ & [_ B1] & [_ B2] & [_ B3]) & _). unfold iface_bytes.
  assert (bytes_ok [0]) by by apply (bool_decide_unpack _).
  rewrite !bytes_ok_app. split_and!; auto with nid.
Qed.

Lemma typed_readDhcpCache : typed always readDhcpCache.
Proof.
  unfold readDhcpCache. eapply typed_bind; [apply typed_text|intros [b|] Hb]; [|typing].
  cbv zeta. destruct (Hb b eq_refl) as [B L]. eapply typed_bind; [apply typed_set_iface|intros _ _].
  - intros i Hi. apply iface_of_typed, object_overlay; [by apply iface_bytes_object|by apply bytes_ok_take|].
    rewrite length_take. lia.
  - typing. keep_types.
Qed.

Lemma typed_get_hardware : typed (λ h, object 6 h.2) get_hardware.
Proof.
  unfold get_hardware. typing. destruct x0; simplify_eq/=.
  apply object_overlay; [apply object_zero|by apply bytes_ok_take|]. rewrite length_take. lia.
Qed.

Lemma typed_set_link f : (∀ l, link_ok l → link_ok (f l)) → typed always (set_link f).
Proof. intros Hf. unfold set_link. typing. keep_types. by apply Hf. Qed.

#[export] Hint Resolve typed_readDhcpCache typed_get_hardware : typing.

Lemma typed_hardware_loop n : typed always (hardware_loop n).
Proof.
  induction n as [|n IH]; cbn [hardware_loop]; [by apply typed_ret|].
  eapply typed_bind; [apply typed_get_hardware|intros [f h] Hh]. typing.
  - eapply typed_bind; [by apply typed_set_link|intros _ _]. typing.
Qed.

Lemma typed_get_flags : typed always get_flags.
Proof. unfold get_flags. typing. Qed.

#[export] Hint Resolve typed_hardware_loop typed_get_flags : typing.

Lemma typed_dhcpStart : typed always dhcpStart.
Proof.
  unfold dhcpStart. eapply typed_bind; [apply typed_must|intros _ _].
  eapply typed_bind; [apply typed_get_hardware|intros [f h] _]. typing.
  - by apply typed_set_link.
  - keep_types.
  - keep_types.
Qed.

#[export] Hint Resolve typed_dhcpStart : typing.

Lemma typed_uname : typed name_ok uname.
Proof. unfold uname. eapply typed_mono, typed_ask. intros x ([] & Ha & E); simplify_eq/=. done. Qed.

(** *** Identifiers *)

Lemma put_class_typed d n i :
  bytes_ok d → (length d ≤ 48)%nat → 0 ≤ n ≤ 255 → iface_typed i →
  iface_typed (i <| if_class_id := overlay d (if_class_id i) |> <| if_class_len := n |>).
Proof.
  intros Bd Ld Hn [((Hc & Hs & Hh & Hcl & Hk) & Hv & _ & Hr) Hb].
  assert (object 48 (overlay d (if_class_id i))) by by apply object_overlay.
  split; [split; [exact (conj Hc (conj Hs (conj Hh (conj H Hk))))|]|done].
  split; [done|]. split; [cbn; lia|done].
Qed.

Lemma put_class_id_typed id i :
  bytes_ok id → (length id ≤ 48)%nat → iface_typed i → iface_typed (put_class_id id i).
Proof. intros B L Hi. apply put_class_typed; [done..|lia|done]. Qed.

Lemma classIDsetup_typed u i : name_ok u → iface_typed i → iface_typed (classIDsetup u i).
Proof.
  intros [B L] Hi. apply put_class_typed; [| |lia|done].
  - apply bytes_ok_app. split; [by apply bytes_ok_take|]. by apply (bool_decide_unpack _).
  - rewrite length_app, length_take. change (length [0]) with 1%nat. unfold CLASS_ID_MAX_LEN. lia.
Qed.

Lemma put_client_id_typed d i i' :
  bytes_ok d → iface_typed i → put_client_id d i = Go i' → iface_typed i'.
Proof.
  intros Bd [((Hc & Hs & Hh & Hcl & Hk) & Hv & Hn & _ & Hr) Hb]. unfold put_client_id.
  case_match eqn:E; [done|]. apply Nat.ltb_ge in E. rewrite (proj1 Hk) in E. intros [= <-].
  assert (object 50 (overlay d (if_client_id i))) by by apply object_overlay.
  split; [split; [exact (conj Hc (conj Hs (conj Hh (conj Hcl H))))|]|done].
  split; [done|]. split; [done|]. split; [cbn; lia|done].
Qed.

Lemma clientIDsetup_typed v l i i' :
  vars_full v → link_ok l → iface_typed i → clientIDsetup (v_ClientID v) l i = Go i' → iface_typed i'.
Proof.
  intros ((_ & _ & _ & Hid) & _) [_ Bl] Hi. unfold clientIDsetup.
  destruct (v_ClientID v) as [id|]; apply put_client_id_typed; try done; apply bytes_ok_app; split; try done.
  - apply Forall_cons; split; [done|]. apply Forall_cons; split; [apply Z.mod_pos_bound; lia|].
    by apply (bool_decide_unpack _).
  - case_match; by apply (bool_decide_unpack _).
Qed.

Lemma classclientsetup_typed v u l i i' :
  vars_full v → (v_ClassID v = None → name_ok u) → link_ok l → iface_typed i →
  classclientsetup v u l i = Go i' → iface_typed i'.
Proof.
  intros Hv Hu Hl Hi. unfold classclientsetup. apply clientIDsetup_typed; [done..|].
  destruct Hv as ((_ & _ & Hid & _) & (Hlen & _) & _).
  destruct (v_ClassID v) as [id|]; [by apply put_class_id_typed|]. by apply classIDsetup_typed, Hi; apply Hu.
Qed.

Lemma typed_setup_idents : typed always setup_idents.
Proof.
  unfold setup_idents. eapply typed_bind; [apply typed_get|intros ? (c0 & H0 & ->)].
  eapply (typed_bind (λ u, v_ClassID (c_vars c0) = None → name_ok u)).
  { case_match; [by apply typed_ret|]. eapply typed_mono, typed_uname. done. }
  intros u Hu. typing.
  match goal with H : classclientsetup _ _ _ _ = _ |- _ => apply classclientsetup_typed in H end;
    [|by apply ok_vars|done|by apply ok_link|by apply ok_iface].
  by apply typed_set_iface.
Qed.

Lemma typed_inform_idents : typed always inform_idents.
Proof.
  unfold inform_idents. eapply typed_bind; [apply typed_get|intros ? (c0 & H0 & ->)].
  destruct (ok_vars c0 H0) as ((_ & _ & Hid & _) & (Hlen & _) & _).
  eapply typed_bind; [apply typed_get|intros ? (c1 & H1 & ->)]. apply (typed_bind always); [|intros _ _].
  - case_match; [|by apply typed_ret]. destruct (v_ClassID (c_vars c0)) as [id|].
    + apply typed_set_iface. intros. by apply put_class_id_typed.
    + eapply typed_bind; [apply typed_uname|intros u Hu]. apply typed_set_iface. intros.
      by apply classIDsetup_typed.
  - typing.
    match goal with H : clientIDsetup _ _ _ = _ |- _ => apply clientIDsetup_typed in H end;
      [|by apply ok_vars|by apply ok_link|by apply ok_iface].
    by apply typed_set_iface.
Qed.

#[export] Hint Resolve typed_setup_idents typed_inform_idents : typing.

(** *** Requests *)

Lemma set_iface_if f c : client_ok c → (∀ i, iface_typed i → iface_typed (f i)) → client_ok (c <| c_iface ::= f |>).
Proof. intros [] Hf. constructor; try assumption. by apply Hf. Qed.

Lemma ciaddr_typed a i : nid32_ok a → iface_typed i → iface_typed (i <| if_ciaddr := a |>).
Proof. intros Ha [((_ & H) & H') Hv]. split; [split; [split; [exact Ha|exact H]|exact H']|exact Hv]. Qed.

Lemma server_typed a m i :
  nid32_ok a → object 6 m → iface_typed i → iface_typed (i <| if_siaddr := a |> <| if_shaddr := m |>).
Proof.
  intros Ha Hm [((Hc & _ & _ & H) & H') Hv].
  split; [split; [exact (conj Hc (conj Ha (conj Hm H)))|exact H']|exact Hv].
Qed.

Lemma xid_typed x i : nid32_ok x → iface_typed i → iface_typed (i <| if_xid := x |>).
Proof.
  intros Hx [(H & Hn & Hl & Hk & _) Hv]. split; [split; [exact H|]|exact Hv]. exact (conj Hn (conj Hl (conj Hk Hx))).
Qed.

Lemma typed_remember_server : typed always remember_server.
Proof.
  unfold remember_server. typing. apply typed_set_iface. intros. apply server_typed; [| |done].
  - eapply opt_u32_ok; [|eassumption]. by apply ok_opts.
  - apply (object_slice frame_len); [by apply ok_recv|]. vm_compute. lia.
Qed.

Lemma typed_set_req_time : typed always set_req_time.
Proof. unfold set_req_time. typing. keep_types. Qed.

Lemma typed_stop : typed always stop.
Proof. unfold stop. typing. Qed.

#[export] Hint Resolve typed_remember_server typed_set_req_time typed_stop : typing.

Lemma typed_dhcpDecline : typed always dhcpDecline.
Proof.
  unfold dhcpDecline. typing. intros d []. constructor; try assumption.
  match goal with H : client_ok ?c, E : udpipgen _ _ _ _ _ _ _ = _ |- _ =>
    pose proof (ok_send c H) as [L B]; rename E into Eg end.
  change frame_len with (eth_len + (frame_len - eth_len))%nat. destruct ok_send0 as [L' B'].
  apply object_app.
  - split; [rewrite length_take, L'; apply Nat.min_l; unfold frame_len; lia|by apply bytes_ok_take].
  - eapply udpipgen_object; [|exact Eg]. split; [cbn [id]; by rewrite length_drop, L|by apply bytes_ok_drop].
Qed.

(** The members of a message received. *)
Lemma recv_msg_ok c :
  client_ok c →
  nid32_ok (dm_xid (recv_msg (c_recv c) (c_msg c))) ∧ nid32_ok (dm_yiaddr (recv_msg (c_recv c) (c_msg c))).
Proof.
  intros Hc. assert (Hs : ∀ off, (off + 4 ≤ 100)%nat → nid32_ok (le_val (slice off 4 (drop (c_msg c) (c_recv c))))).
  { intros off Hoff. pose proof (ok_msg c Hc) as Hm. unfold msg_place in Hm. destruct (ok_recv c Hc) as [L B].
    apply le_val4, (object_slice (length (drop (c_msg c) (c_recv c)))); [split; [done|by apply bytes_ok_drop]|].
    rewrite length_drop, L. transitivity (1554 - 98)%nat; [lia|]. apply Nat.sub_le_mono_l. lia. }
  split; apply Hs; lia.
Qed.

Section States.
Context (ARPCHECK : bool).

#[local] Hint Resolve typed_dhcpDecline : typing.

Lemma typed_arp_checked : typed always (arp_checked ARPCHECK).
Proof. unfold arp_checked. typing. Qed.
#[local] Hint Resolve typed_arp_checked : typing.

Lemma typed_dhcpRequest xid k : nid32_ok xid → typed always (dhcpRequest ARPCHECK xid k).
Proof.
  intros Hx. unfold dhcpRequest. typing. eapply typed_bind; [|intros _ _; by apply typed_ret].
  apply typed_set_iface. intros i Hi. by apply ciaddr_typed, Hi; apply nid32_zero.
Qed.
#[local] Hint Resolve typed_dhcpRequest : typing.

Lemma typed_take_offer : typed always take_offer.
Proof.
  unfold take_offer. eapply typed_bind; [apply typed_get|intros ? (c & Hc & ->)].
  destruct (recv_msg_ok _ Hc) as [Hx Hy]. typing.
  - keep_types. by apply ciaddr_typed.
  - apply typed_set_iface. intros. by apply xid_typed.
Qed.
#[local] Hint Resolve typed_take_offer : typing.

Lemma ok_xid c : client_ok c → nid32_ok (if_xid (c_iface c)).
Proof. intros H. apply (ok_iface c H). Qed.

Lemma typed_dhcpInit : typed always (dhcpInit ARPCHECK).
Proof.
  unfold dhcpInit. typing.
  - apply typed_dhcpSendAndRecv. by apply recv_msg_ok.
  - apply typed_dhcpRequest. by apply ok_xid.
Qed.

Lemma typed_no_cache_setup : typed always no_cache_setup.
Proof.
  unfold no_cache_setup. eapply typed_bind; [apply typed_set_iface|intros _ _].
  { intros _ _. by apply (bool_decide_unpack _). }
  eapply typed_bind; [apply typed_number_or_fail|intros a Ha]. typing.
  apply typed_set_iface. intros. by apply ciaddr_typed; [apply Ha|].
Qed.
#[local] Hint Resolve typed_no_cache_setup : typing.

Lemma reset_ok c : client_ok c → client_ok (c <| c_opts := opts_zero |> <| c_iface := iface_zero |>).
Proof.
  intros []. constructor; try assumption; [|apply opts_zero_ok].
  by apply (bool_decide_unpack _).
Qed.

Lemma typed_dhcpReboot : typed always (dhcpReboot ARPCHECK).
Proof. unfold dhcpReboot. typing. apply reset_ok. Qed.

Lemma typed_time_left code : typed always (time_left code).
Proof. unfold time_left. typing. Qed.
#[local] Hint Resolve typed_time_left : typing.

Lemma typed_dhcpBound : typed always dhcpBound.
Proof. unfold dhcpBound. typing. Qed.
Lemma typed_dhcpRenew : typed always dhcpRenew.
Proof. unfold dhcpRenew. typing. Qed.
Lemma typed_dhcpRebind : typed always dhcpRebind.
Proof. unfold dhcpRebind. typing. Qed.

Lemma typed_set_inform a : nid32_ok a → typed always (set_inform a).
Proof.
  intros Ha. unfold set_inform. typing. intros c []. constructor; try assumption.
  destruct ok_vars0 as ((_ & H) & H'). by split; [split|].
Qed.
#[local] Hint Resolve typed_set_inform : typing.

Lemma typed_inform_address : typed always inform_address.
Proof.
  unfold inform_address. typing.
  - apply typed_set_inform. by destruct x1; simplify_eq/=.
  - eapply typed_bind; [by apply typed_set_inform, ok_ciaddr|intros _ _]. typing.
Qed.
#[local] Hint Resolve typed_inform_address : typing.

Lemma typed_dhcpInform : typed always (dhcpInform ARPCHECK).
Proof.
  unfold dhcpInform. typing.
  - apply reset_ok.
  - keep_types. apply ciaddr_typed; [apply ok_vars0|done].
Qed.

#[local] Hint Resolve typed_dhcpInit typed_dhcpReboot typed_dhcpBound typed_dhcpRenew
  typed_dhcpRebind typed_dhcpInform : typing.

Lemma typed_run_state s : typed always (run_state ARPCHECK s).
Proof. unfold run_state. typing. Qed.
#[local] Hint Resolve typed_run_state : typing.

Lemma typed_next_state : typed always (next_state ARPCHECK).
Proof. unfold next_state. typing. keep_types. Qed.
#[local] Hint Resolve typed_next_state : typing.

Lemma typed_acquire fuel : typed always (acquire ARPCHECK fuel).
Proof. induction fuel; cbn [acquire]; typing. Qed.
Lemma typed_maintain fuel : typed always (maintain ARPCHECK fuel).
Proof. induction fuel; cbn [maintain]; typing. Qed.
Lemma typed_writePidFile pid : typed always (writePidFile pid).
Proof. unfold writePidFile. typing. Qed.
#[local] Hint Resolve typed_acquire typed_maintain typed_writePidFile : typing.

Lemma typed_dhcpcd fuel : typed always (dhcpcd ARPCHECK fuel).
Proof. unfold dhcpcd. typing. Qed.
#[local] Hint Resolve typed_dhcpcd : typing.

Lemma typed_killPid sig : typed always (killPid sig).
Proof. unfold killPid. typing. Qed.
Lemma typed_checkIfAlreadyRunning : typed always checkIfAlreadyRunning.
Proof. unfold checkIfAlreadyRunning. typing. Qed.
#[local] Hint Resolve typed_killPid typed_checkIfAlreadyRunning : typing.

Lemma typed_dhcpcd_main fuel p : vars_full (p_vars p) → typed always (dhcpcd_main ARPCHECK fuel p).
Proof. intros Hp. unfold dhcpcd_main. typing. keep_types. Qed.
End States.

(** ** From the command line on *)

Lemma set_flag_full c p q : set_flag c p = Some q → vars_full (p_vars p) → vars_full (p_vars q).
Proof.
  intros E (H1 & H2 & H3). split; [|split; [by eapply set_flag_bounds|]];
    unfold set_flag in E; repeat (case_match; try discriminate); injection E as <-; done.
Qed.

Lemma set_address_full c a p q :
  (∀ n, a = Some n → nid32_ok n) → set_address c a p = Some q →
  vars_full (p_vars p) → vars_full (p_vars q).
Proof.
  intros Ha E (H1 & H2 & H3).
  assert (Hd : nid32_ok (default 0 a)) by (destruct a; [by apply Ha|apply nid32_zero]).
  split; [|split; [by eapply set_address_bounds|]];
    unfold set_address in E; repeat (case_match; try discriminate); injection E as <-; try done.
  by split; [|apply H1].
Qed.

Lemma set_value_full c v p q :
  bytes_ok v → set_value c v p = Some q → vars_full (p_vars p) → vars_full (p_vars q).
Proof.
  intros Hv E ((Hi & Hh & Hc & Hk) & H2 & H3). split; [|split; [by eapply set_value_bounds|]];
    unfold set_value in E; repeat (case_match; try discriminate); injection E as <-; done.
Qed.

Lemma command_line_full args p :
  Forall bytes_ok args → command_line args = Some p → vars_full (p_vars p).
Proof.
  intros Ha E. pose proof (command_line_bounds _ _ E) as Hb.
  unfold command_line in E. destruct (parse_args args parsed_init) as [q|] eqn:Eq; [|done].
  rewrite bind_ret in E.
  assert (H : vars_full (p_vars q)).
  { eapply (parse_args_keeps bytes_ok (λ p, vars_full (p_vars p))); [..|exact Eq|].
    - apply set_flag_full.
    - apply set_address_full.
    - apply set_value_full.
    - done.
    - done.
    - split; [split_and!; try done; apply nid32_zero|]. split; [apply default_vars_bounds|apply nid32_zero]. }
  unfold set_interface_name in E. destruct (p_rest q); [by injection E as <-|].
  destruct (IFNAMSIZ <? _)%nat; [done|]. injection E as <-. destruct H as (H & _ & H').
  split; [exact H|]. split; [exact Hb|exact H'].
Qed.

(** The client when [main] starts, with what the system will answer. *)
Definition started (answers : list answer) : client :=
  mkClient default_vars (mkLink (replicate 6 0) false) iface_zero opts_zero (replicate frame_len 0)
    (replicate frame_len 0) msg_off 0 0 0 0 0 SReboot false false false None None [] answers [].

Lemma started_ok answers : Forall answer_ok answers → client_ok (started answers).
Proof.
  intros Ha. constructor; cbn [c_vars c_link c_iface c_opts c_send c_recv c_msg c_in c_out started].
  - split; [split_and!; try done; apply nid32_zero|]. split; [apply default_vars_bounds|apply nid32_zero].
  - by apply (bool_decide_unpack _).
  - by apply (bool_decide_unpack _).
  - apply opts_zero_ok.
  - apply object_zero.
  - apply object_zero.
  - unfold msg_place. change msg_off with 42%nat. lia.
  - done.
  - constructor.
Qed.

(** C10. The DHCP client is well typed.  For every command line it accepts and
    whatever the system and the network answer, at every moment: the frames
    it sends and receives have the size of their object and are made of
    bytes, [DhcpMsgRecv] points to a place where a whole message fits, every
    option is a block of at least its length, with a NUL behind it where it is
    used as a string, the interface has the layout of its structure, and every
    frame, address and route handed to the system is within its type. *)
Theorem client_well_typed ARPCHECK fuel args p answers :
  Forall bytes_ok args → Forall answer_ok answers → command_line args = Some p →
  client_ok (dhcpcd_main ARPCHECK fuel p (started answers)).2.
Proof.
  intros Ha Hi Hp. apply typed_dhcpcd_main; [by eapply command_line_full|by apply started_ok].
Qed.

(** A start without a cache, up to the first message. *)
Definition first_discover : list answer :=
  [Fails; Succeeds;                                       (* no other client, mkdir *)
   Succeeds; Hardware 1 [0; 22; 62; 1; 2; 3]; Succeeds; Number 0x1043; Succeeds;
   Hardware 1 [0; 22; 62; 1; 2; 3]; Succeeds; Succeeds; Number 1000000; Succeeds; Fails;
   Fails; Fails; Text (chars "Linux 2.6 i686");           (* no cache, no address, uname *)
   Number 77; Succeeds; Clock 1000000 5; Number 12; Silence].

Lemma client_well_typed_witness :
  ∃ p, command_line [chars "-dC"; chars "eth0:1"] = Some p
    ∧ let c := (dhcpcd_main false 3 p (started first_discover)).2 in
      client_ok c ∧ c_in c = []
      ∧ existsb (λ e, match e with Sendto _ => true | _ => false end) (c_out c) = true.
Proof.
  destruct (command_line [chars "-dC"; chars "eth0:1"]) as [p|] eqn:E; [|vm_compute in E; discriminate E].
  exists p. split; [reflexivity|]. split; [|split].
  - apply (client_well_typed false 3 [chars "-dC"; chars "eth0:1"]).
    + apply (bool_decide_unpack _). vm_compute. exact I.
    + repeat constructor; try (by apply (bool_decide_unpack _)); cbn; lia.
    + exact E.
  - vm_compute in E. injection E as <-. vm_compute. reflexivity.
  - vm_compute in E. injection E as <-. vm_compute. reflexivity.
Defined.
