(* ===== verification/DhcpLeaseProps.v ===== *)
(** The exchange with the server and the life of a lease: which datagrams the
    client takes for the reply it waits for, that it ends for every sequence of
    answers, what becomes of an address when the server is silent, and interface
    names that overflow a socket address. *)

From S2P Require Import Prelude NidTypes Inet HashTable Hash EntryTable Configuration PacketHandler.
From S2P Require Import UdpIp DhcpMsg DhcpOptions BuildMsg TokenRing DhcpEnv Arp SendRecv DhcpConfig.
From S2P Require Import DhcpClient DhcpArgs DhcpTurns DhcpInv DhcpMsgProps DhcpcdProps DhcpTyping.

Local Open Scope Z_scope.

(** ** How a program that returns went *)

Lemma bind_val {A B} (m : M A) (f : A → M B) c y c' :
  (m ≫= f) c = (Val y, c') → ∃ x c1, m c = (Val x, c1) ∧ f x c1 = (Val y, c').
Proof. unfold mbind, M_bind. destruct (m c) as [[] c1]; try discriminate. by eauto. Qed.

Lemma ask_val {A} (f : answer → option A) c x c' :
  ask f c = (Val x, c') →
  ∃ a rest, c_in c = a :: rest ∧ f a = Some x ∧ c' = c <| c_in := rest |>.
Proof.
  unfold ask. destruct (c_in c) as [|a rest]; [done|]. destruct (f a) as [z|] eqn:E; [|done].
  intros [= <- <-]. by exists a, rest.
Qed.

Lemma lift_val {A} (m : outcome A) c x c' : lift m c = (Val x, c') → m = Go x ∧ c' = c.
Proof. unfold lift. destruct m; try discriminate. by intros [= <- <-]. Qed.

Lemma ret_val {A} (x : A) c y c' : (mret x : M A) c = (Val y, c') → x = y ∧ c' = c.
Proof. by intros [= <- <-]. Qed.

(** [val_inv] takes a program that returned apart. *)
Ltac val_inv1 :=
  match goal with
  | H : (_ ≫= _) _ = (Val _, _) |- _ =>
      let x := fresh "x" in let c := fresh "c" in let E := fresh "E" in
      apply bind_val in H as (x & c & E & H)
  | H : ask _ _ = (Val _, _) |- _ =>
      let a := fresh "a" in let r := fresh "rest" in let E := fresh "Ein" in let F := fresh "Ea" in
      apply ask_val in H as (a & r & E & F & H); subst
  | H : lift _ _ = (Val _, _) |- _ =>
      let E := fresh "E" in apply lift_val in H as [E H]; subst
  | H : mret _ _ = (Val _, _) |- _ =>
      let E := fresh "E" in apply ret_val in H as [E H]; subst
  | H : get _ _ = (Val _, _) |- _ => injection H as <- <-
  | H : modify _ _ = (Val _, _) |- _ => injection H as <- <-
  | H : emit _ _ = (Val _, _) |- _ => injection H as <- <-
  | H : (let '(_, _) := ?p in _) _ = (Val _, _) |- _ =>
      let y := fresh "y" in let z := fresh "z" in destruct p as [y z]
  end.

Ltac val_inv := repeat val_inv1.

(** Only the end of a child lets the client go on after a signal. *)
Lemma interrupted_val sig c c' u : interrupted sig c = (Val u, c') → sig = SIGCHLD ∧ c' = c.
Proof.
  assert (Ht : ∀ s d d' u, terminate s d ≠ (Val u, d')).
  { intros s d d' w E. unfold terminate in E. val_inv. discriminate. }
  assert (Hs : ∀ d d' u, sigHandler sig d = (Val u, d') → sig = SIGCHLD ∧ d' = d).
  { intros d d' w E. unfold sigHandler in E. destruct (sig =? SIGCHLD) eqn:E1; zbool; [val_inv; done|].
    destruct (sig =? SIGALRM); [|val_inv; by apply Ht in E].
    val_inv. destruct (c_state d); try discriminate; by apply Ht in E. }
  unfold interrupted. case_match; [done|]. case_match eqn:E2; [|apply Hs].
  case_match; [done|]. intros [-> ->]%Hs. zbool. discriminate.
Qed.

Lemma peekfd_val c b c' :
  peekfd c = (Val b, c') → ∃ a rest, c_in c = a :: rest ∧ c' = c <| c_in := rest |> ∧ (b = true → a = Ready).
Proof.
  unfold peekfd. intros E. val_inv. exists a, rest. destruct x; val_inv.
  - split_and!; try done. intros _. by destruct a.
  - by split_and!.
  - apply interrupted_val in E0 as [_ ->]. by split_and!.
Qed.

(** ** What an exchange takes and keeps *)

(** From [c] to [c'] the answers [l] were taken; the parameters, the interface,
    its state and the time of the last request are those of before. *)
Record takes (c : client) (l : list answer) (c' : client) : Prop := {
  takes_in : c_in c = l ++ c_in c';
  takes_vars : c_vars c' = c_vars c;
  takes_link : c_link c' = c_link c;
  takes_iface : c_iface c' = c_iface c;
  takes_state : c_state c' = c_state c;
}.

Lemma takes_none c c' :
  c_in c' = c_in c → c_vars c' = c_vars c → c_link c' = c_link c → c_iface c' = c_iface c →
  c_state c' = c_state c → takes c [] c'.
Proof. intros. by constructor. Qed.

Lemma takes_trans c1 l1 c2 l2 c3 : takes c1 l1 c2 → takes c2 l2 c3 → takes c1 (l1 ++ l2) c3.
Proof.
  intros [] []. constructor; try congruence. rewrite <-app_assoc. congruence.
Qed.

Lemma takes_one c a rest : c_in c = a :: rest → takes c [a] (c <| c_in := rest |>).
Proof. intros E. by constructor. Qed.

Lemma takes_peekfd c b c' : peekfd c = (Val b, c') → ∃ a, takes c [a] c'.
Proof. intros (a & rest & E & -> & _)%peekfd_val. exists a. by apply takes_one. Qed.

Lemma takes_build k xid c u c' : build k xid c = (Val u, c') → takes c [] c'.
Proof. unfold build. intros E. val_inv. by apply takes_none. Qed.

Lemma takes_dhcp_frame c f c' : dhcp_frame c = (Val f, c') → takes c [] c'.
Proof.
  unfold dhcp_frame. intros E. val_inv. destruct (l_TokenRingIf _); val_inv; [|by apply takes_none].
  by apply takes_none.
Qed.

Lemma takes_number c n c' : number c = (Val n, c') → ∃ a, takes c [a] c'.
Proof. unfold number. intros E. val_inv. exists a. by apply takes_one. Qed.

Lemma takes_clock c t c' : clock c = (Val t, c') → ∃ a, takes c [a] c'.
Proof. unfold clock. intros E. val_inv. exists a. by apply takes_one. Qed.

Lemma takes_sendto f c b c' :
  sendto f c = (Val b, c') → ∃ a, takes c [a] c' ∧ (b = false → a = Fails).
Proof.
  unfold sendto, succeeds. intros E. val_inv. exists a. split; [by constructor|]. by destruct a; intros; simplify_eq.
Qed.

(** A chain of [takes]. *)
Ltac takes_chain :=
  match goal with
  | H : takes ?c _ ?c' |- takes ?c _ ?c' => exact H
  | H : takes ?c _ _ |- takes ?c _ _ => eapply takes_trans; [exact H|]; clear H; takes_chain
  end.

Lemma device_name_val room c x c' : device_name room c = (Val x, c') → c' = c.
Proof. unfold device_name. intros E. by val_inv. Qed.

Lemma send_message_val k xid c t c' :
  send_message k xid c = (Val t, c') →
  ∃ l, takes c l c' ∧ (0 < length l)%nat ∧ (t = None → last l = Some Fails).
Proof.
  unfold send_message. intros E. apply bind_val in E as ([] & c0 & ->%device_name_val & E). val_inv.
  apply takes_build in E0. apply takes_dhcp_frame in E1.
  apply takes_sendto in E2 as (a & T & Ha). destruct x1; cbn [negb] in E; val_inv.
  - apply takes_clock in E2 as [a1 T1]. apply takes_number in E3 as [a2 T2].
    eexists. split; [takes_chain|]. split; [simpl; lia|done].
  - eexists. split; [takes_chain|]. rewrite Ha by done. split; [simpl; lia|done].
Qed.

(** ** The reply *)

(** [f], of which [len] bytes came, holds a message at [off] behind the frame
    headers: an UDP packet of a length that fits, whose checksum is right when it
    is checked, with a reply of the transaction [xid]; [g] is what the check
    leaves of [f]. *)
Record reply_frame (checksum token_ring : bool) (xid len : Z) (f g : list Z) (msg : nat) : Prop := {
  rf_ethertype : slice 12 2 f = be_bytes 2 ETHERTYPE_IP;
  rf_protocol : byte_at (find_ip f + 9) f = IPPROTO_UDP;
  rf_port : token_ring = true → le_val (slice (find_ip f + 22) 2 f) = swap16 DHCP_CLIENT_PORT;
  rf_ip_len : swap16 (le_val (slice (find_ip f + 2) 2 f)) ≤ len - Z.of_nat eth_len;
  rf_udp_len : swap16 (le_val (slice (find_ip f + 24) 2 f))
               ≤ swap16 (le_val (slice (find_ip f + 2) 2 f)) - 4 * Z.land (byte_at (find_ip f) f) 15;
  rf_sum : if checksum then udpipchk f (find_ip f) = Some (g, 0) else g = f;
  rf_place : msg = (find_ip f + Z.to_nat (4 * Z.land (byte_at (find_ip f) f) 15) + 8)%nat;
  rf_xid : dm_xid (recv_msg g msg) = xid;
  rf_op : dm_op (recv_msg g msg) = DHCP_BOOTREPLY;
  rf_htype : dm_htype (recv_msg g msg) = ARPHRD_ETHER ∨ dm_htype (recv_msg g msg) = ARPHRD_IEEE802_TR `mod` 256;
}.

Lemma examine_good ck tr xid len f e :
  examine ck tr xid len f = Some e → e_good e = true →
  ∃ msg, e_msg e = Some msg ∧ reply_frame ck tr xid len f (e_frame e) msg.
Proof.
  unfold examine. case_match eqn:E1; [by intros [= <-]|]. cbv zeta. case_match eqn:E2; [by intros [= <-]|].
  destruct (if ck then _ else _) as [[g bad]|] eqn:E3; [|done]. rewrite bind_ret; cbn beta iota.
  destruct (negb (bad =? 0)) eqn:E4; intros [= <-]; [done|]. cbn [e_good e_msg e_frame]. intros E5.
  eexists. split; [reflexivity|]. apply negb_false_iff, bool_decide_eq_true in E1.
  apply negb_false_iff in E2, E4. unfold packet_sane in E2. zbool.
  unfold reply_for, known_htype in E5. zbool.
  constructor; try done.
  - intros ->. destruct H2 as [?|H2]; [done|]. by zbool.
  - destruct ck; [|by injection E3 as -> _]. congruence.
  - destruct H5; [left|right]; by zbool.
Qed.

(** The frame [f] as it is looked at: what came, in a cleared object, without
    the token ring header. *)
Definition received (token_ring : bool) (d f : list Z) : Prop :=
  let b := overlay (take frame_len d) (replicate frame_len 0) in
  if token_ring then tr2eth b = Some (Some f) else f = b.

(** The datagram [d] is a reply of type [t] to the transaction [xid]; the options
    of [c'] are what [parseDhcpMsgRecv] reads from it. *)
Definition reply_of (xid t : Z) (d : list Z) (daemon : option bool) (c' : client) : Prop :=
  let v := c_vars c' in let tr := l_TokenRingIf (c_link c') in
  ∃ f g o ciaddr told,
    received tr d f
    ∧ reply_frame (v_DoCheckSum v) tr xid (Z.of_nat (length (take frame_len d))) f g (c_msg c')
    ∧ parseDhcpMsgRecv (nleaseTime v) ciaddr (bool_decide (is_Some daemon)) (default false daemon)
        (mkParse o g (c_msg c'))
      = Go (mkParse (c_opts c') (c_recv c') (c_msg c'), told, t).

Lemma recv_frame_val c r c' :
  recv_frame c = (Val r, c') →
  match r with
  | None => takes c [Fails] c'
  | Some (len, daemon) =>
      ∃ d, takes c [Datagram d daemon] c' ∧ len = Z.of_nat (length (take frame_len d))
        ∧ c_recv c' = overlay (take frame_len d) (replicate frame_len 0)
  end.
Proof.
  unfold recv_frame. intros E. val_inv. destruct a; try done; injection Ea as <-; val_inv.
  - by apply takes_one.
  - exists d. split; [|done]. by constructor.
Qed.

Lemma parse_msg lease ci b1 b2 s s' told t :
  parseDhcpMsgRecv lease ci b1 b2 s = Go (s', told, t) → ps_msg s' = ps_msg s.
Proof.
  unfold parseDhcpMsgRecv. cbv zeta.
  destruct (opt_clear dhcpT1value _) as [a| | |]; try done. rewrite bind_Go.
  destruct (opt_clear dhcpT2value a) as [b| | |]; try done. rewrite bind_Go.
  destruct (parse_options _ _ b) as [x|]; [|done]. cbn [accessed]. rewrite bind_Go.
  destruct (tell_nidd _ _ _ x) as [tl| | |]; try done. rewrite bind_Go.
  destruct (fill_addresses _ _ x) as [d| | |]; try done. rewrite bind_Go.
  destruct (fill_times _ d) as [e| | |]; try done. rewrite bind_Go.
  destruct (opt_val e _) as [b53|]; [|done]. cbn [accessed]. rewrite bind_Go.
  destruct (b53 !! O); [|done]. cbn [accessed]. rewrite bind_Go. by intros [= <- _ _].
Qed.

Lemma parse_reply_val daemon c t c' :
  parse_reply daemon c = (Val t, c') →
  takes c [] c' ∧ ∃ ciaddr told,
    parseDhcpMsgRecv (nleaseTime (c_vars c)) ciaddr (bool_decide (is_Some daemon)) (default false daemon)
      (mkParse (c_opts c) (c_recv c) (c_msg c)) = Go (mkParse (c_opts c') (c_recv c') (c_msg c'), told, t).
Proof.
  unfold parse_reply. intros E. val_inv. 
  apply parse_msg in E2 as Em. destruct y0 as [o r m]. cbn [ps_msg ps_opts ps_recv] in *. subst m.
  destruct z0; val_inv; (split; [by constructor|by do 2 eexists]).
Qed.

Lemma frame_val (tr : bool) b c g c' :
  (if tr then lift (accessed (tr2eth b)) else mret (Some b)) c = (Val g, c') →
  c' = c ∧ ∀ f, g = Some f → if tr then tr2eth b = Some (Some f) else f = b.
Proof.
  destruct tr; intros E; val_inv.
  - split; [done|]. intros f ->. by apply accessed_Go.
  - split; [done|]. congruence.
Qed.

Lemma receive_turn_val xid msg s c r c' :
  receive_turn xid msg s c = (Val r, c') →
  ∃ a l, takes c (a :: l) c' ∧
    match r with
    | inl _ => True
    | inr n => (n = -1 ∧ a = Fails ∧ l = []) ∨
        ∃ d daemon t, a = Datagram d daemon ∧ reply_of xid t d daemon c'
          ∧ (n = 0 ∧ t = dhcp_type_val msg ∨ n = 1 ∧ t = dhcp_type_val NAK)
    end.
Proof.
  unfold receive_turn. intros (x & c1 & E0 & E)%bind_val. apply recv_frame_val in E0.
  destruct x as [[len daemon]|]; [|val_inv; exists Fails, []; split; [done|by left]].
  destruct E0 as (d & T & -> & Er).
  apply bind_val in E as (? & ? & [= <- <-] & E). cbv zeta in E.
  apply bind_val in E as (g & ? & [-> Hg]%frame_val & E).
  destruct g as [f|]; [|val_inv; by exists (Datagram d daemon), []].
  specialize (Hg f eq_refl). rewrite Er in Hg. val_inv.
  apply takes_clock in E0 as [a1 T1]. apply takes_number in E1 as [a2 T2].
  apply accessed_Go in E4. set (c3 := {| c_vars := c_vars c2 |}) in E.
  assert (T3 : takes c [Datagram d daemon; a1; a2] c3).
  { destruct T as [I1 V1 L1 F1 S1], T1 as [I2 V2 L2 F2 S2], T2 as [I3 V3 L3 F3 S3].
    constructor; cbn; try congruence. rewrite I1, I2, I3. done. }
  destruct (e_good x0) eqn:Eg; cbn [negb] in E; [|val_inv; by do 2 eexists].
  destruct (examine_good _ _ _ _ _ _ E4 Eg) as (m & Em & Hm).
  apply bind_val in E as (t & c4 & [T4 (ci & told & E5)]%parse_reply_val & E).
  pose proof (parse_msg _ _ _ _ _ _ _ _ E5) as Ep. cbn [ps_msg] in Ep.
  pose proof (takes_trans _ _ _ _ _ T3 T4) as T5. rewrite app_nil_r in T5.
  assert (R : reply_of xid t d daemon c4).
  { unfold reply_of. rewrite (takes_vars _ _ _ T5), (takes_link _ _ _ T5).
    rewrite (takes_vars _ _ _ T), (takes_link _ _ _ T) in E4, Hm. rewrite (takes_link _ _ _ T) in Hg.
    exists f, (e_frame x0), (c_opts c3), ci, told.
    assert (Ec : c_msg c4 = m) by (rewrite Ep; cbn; by rewrite Em).
    rewrite Ec in E5 |- *. split; [exact Hg|]. split; [exact Hm|].
    change (c_vars c3) with (c_vars c2) in E5. change (c_recv c3) with (e_frame x0) in E5.
    change (c_msg c3) with (default (c_msg c2) (e_msg x0)) in E5. rewrite Em in E5.
    by rewrite (takes_vars _ _ _ T2), (takes_vars _ _ _ T1), (takes_vars _ _ _ T) in E5. }
  destruct (t =? dhcp_type_val msg) eqn:E1; [|destruct (t =? dhcp_type_val NAK) eqn:E2]; val_inv; zbool;
    do 2 eexists; (split; [exact T5|]); [..|done]; right; exists d, daemon, t; split_and!; auto.
Qed.

(** What the loop returns: -1 after a call that failed, otherwise the verdict on
    a datagram that came. *)
Definition exchanged (xid : Z) (msg : dhcp_type) (l : list answer) (n : Z) (c' : client) : Prop :=
  (n = -1 ∧ last l = Some Fails) ∨
  ∃ d daemon t, Datagram d daemon ∈ l ∧ reply_of xid t d daemon c'
    ∧ (n = 0 ∧ t = dhcp_type_val msg ∨ n = 1 ∧ t = dhcp_type_val NAK).

Lemma exchanged_app xid msg l l' n c' : l' ≠ [] → exchanged xid msg l' n c' → exchanged xid msg (l ++ l') n c'.
Proof.
  intros Hl [[-> E]|(d & b & t & Hd & H)].
  - left. split; [done|]. rewrite last_app. by rewrite E.
  - right. exists d, b, t. split; [|done]. apply elem_of_app. by right.
Qed.

Lemma sr_loop_val fuel k xid msg s c n c' :
  sr_loop fuel k xid msg s c = (Val n, c') →
  ∃ l, takes c l c' ∧ l ≠ [] ∧ exchanged xid msg l n c'.
Proof.
  revert s c. induction fuel as [|fuel IH]; intros s c; cbn [sr_loop]; [done|].
  destruct (sr_receiving s).
  - intros (r & c1 & (a & l & T & H)%receive_turn_val & E)%bind_val. destruct r as [s'|n'].
    + apply bind_val in E as (b & c2 & E2 & E). apply IH in E as (l' & T' & Hl & H').
      assert (∃ l2, takes c1 l2 c2) as [l2 T2].
      { unfold more_to_receive in E2. destruct (0 <? sr_timeout s'); [|val_inv; by exists []].
        apply takes_peekfd in E2 as [a2 T2]. by exists [a2]. }
      eexists. split; [takes_chain|]. split; [done|]. rewrite app_assoc. by apply exchanged_app.
    + val_inv. exists (a :: l). split; [done|]. split; [done|].
      destruct H as [(-> & -> & ->)|(d & b & t & -> & H)]; [by left|right].
      exists d, b, t. split; [by left|done].
  - intros (t & c1 & (l & T & Hl & Ht)%send_message_val & E)%bind_val. destruct t as [begin|].
    + apply bind_val in E as (b & c2 & [a T2]%takes_peekfd & E). apply IH in E as (l' & T' & Hl' & H').
      eexists. split; [takes_chain|]. split; [by destruct l|]. rewrite app_assoc. by apply exchanged_app.
    + val_inv. exists l. split; [done|]. split; [intros ->; simpl in Hl; lia|]. left. by split; [|apply Ht].
Qed.

(** C12. The exchange with the server accepts only replies to what was asked.  When
    [dhcpSendAndRecv] returns, the parameters of the client and its interface are
    unchanged; it returned -1 because a call failed, or it returned 0 (or 1) because
    a datagram that came is an UDP packet of consistent lengths, with a correct
    checksum if checksums are verified, to the client's port on a token ring,
    carrying a reply with the transaction identifier and a known hardware type, whose options, read by
    [parseDhcpMsgRecv], give the message type waited for (or a refusal); the options
    and the message the client holds afterwards are those of that datagram. *)
Theorem accepted_reply xid msg k c n c' :
  dhcpSendAndRecv xid msg k c = (Val n, c') →
  ∃ l, takes c l c' ∧ exchanged xid msg l n c'.
Proof. intros (l & T & _ & H)%sr_loop_val. by exists l. Qed.

Definition ack_exchange : list answer :=
  [Succeeds; Clock 0 0; Number 0; Ready; Datagram sample_ack (Some true); Clock 0 5; Number 3].

Lemma accepted_reply_witness :
  ∃ c' l, dhcpSendAndRecv 77 ACK MRequest (sample_client ack_exchange) = (Val 0, c')
    ∧ takes (sample_client ack_exchange) l c' ∧ exchanged 77 ACK l 0 c'.
Proof.
  assert (E : (dhcpSendAndRecv 77 ACK MRequest (sample_client ack_exchange)).1 = Val 0)
    by (vm_compute; reflexivity).
  destruct (dhcpSendAndRecv 77 ACK MRequest (sample_client ack_exchange)) as [r c'] eqn:E'.
  cbn [fst] in E. subst r. destruct (accepted_reply _ _ _ _ _ _ E') as (l & T & H).
  exists c', l. split; [reflexivity|]. split; [exact T|exact H].
Defined.

(** ** The loops end *)






















(** ** A silent server *)

(** Runs the first call of a program: it computes, or [E] tells what it returns. *)
Ltac run1 := erewrite M_bind_val; [|reflexivity].
Ltac run E := erewrite M_bind_val; [|exact E].

Lemma run_ask {A} (f : answer → option A) c a rest x :
  c_in c = a :: rest → f a = Some x → ask f c = (Val x, c <| c_in := rest |>).
Proof. intros E F. unfold ask. by rewrite E, F. Qed.

(** The client after sending the frames [fs]. *)
Definition after (c : client) (fs : list (list Z)) (snd : list Z) (id : Z) (rest : list answer) : client :=
  c <| c_send := snd |> <| c_ip_id := id |> <| c_in := rest |> <| c_out := c_out c ++ (Sendto <$> fs) |>.

Lemma after_after c fs snd id rest fs' snd' id' rest' :
  after (after c fs snd id rest) fs' snd' id' rest' = after c (fs ++ fs') snd' id' rest'.
Proof. unfold after. cbn. by rewrite fmap_app, app_assoc. Qed.

(** What goes on the wire of the frame [g]. *)
Definition on_wire (l : dhcp_link) (g f : list Z) : Prop :=
  let n := (udpip_len + dhcp_len)%nat in
  if l_TokenRingIf l then ∃ h len, eth2tr g n = Some (h, len) ∧ f = take len h
  else f = take (eth_len + n) g.

(** [f] is the message [k] of this client. *)
Definition message_of (k : client_msg) (xid : Z) (c : client) (f : list Z) : Prop :=
  ∃ ip_id g id', buildUdpIpMsg k (c_vars c) (c_link c) (c_iface c) (c_opts c) xid ip_id = Go (g, id')
    ∧ on_wire (c_link c) g f.

(** The client can build and send the message [k]: the name of its interface
    fits in a socket address. *)
Definition sender_ok (k : client_msg) (c : client) : Prop :=
  vars_ok (c_vars c) ∧ link_ok (c_link c) ∧ iface_ok (c_iface c) ∧ server_known k (c_opts c)
  ∧ (length (v_IfName (c_vars c)) ≤ SA_DATA_ROOM)%nat.

Lemma length_tr_header d s t : (length (tr_header d s t) ≤ 10 + length d + length s + length t)%nat.
Proof.
  unfold tr_header, trllc.
  case_match; rewrite !length_app, ?(proj1 (length_rii _)), ?length_le_bytes; cbn [length]; lia.
Qed.

Lemma eth2tr_total g : length g = frame_len →
  ∃ h len, eth2tr g (udpip_len + dhcp_len) = Some (h, len) ∧ length h = frame_len.
Proof.
  intros Lg. unfold eth2tr. set (h := tr_header _ _ _).
  assert (Hf : (eth_len + (udpip_len + dhcp_len) ≤ frame_len)%nat) by (apply (bool_decide_unpack _); vm_compute; exact I).
  assert (Hs : (24 + (udpip_len + dhcp_len) ≤ frame_len)%nat) by (apply (bool_decide_unpack _); vm_compute; exact I).
  rewrite (proj2 (Nat.ltb_ge _ _)) by (rewrite Lg; exact Hf).
  assert (Lh : (length h ≤ 24)%nat).
  { etransitivity; [apply length_tr_header|]. unfold slice. rewrite !length_take. lia. }
  rewrite (proj2 (Nat.ltb_ge _ _)) by lia. eexists _, _. split; [reflexivity|].
  assert (Ls : length (slice eth_len (udpip_len + dhcp_len) g) = (udpip_len + dhcp_len)%nat)
    by (apply length_slice; lia).
  rewrite length_overlay; rewrite length_splice; rewrite ?Ls; lia.
Qed.


(** One message goes out. *)
Lemma send_message_runs k xid c sec usec r rest :
  sender_ok k c → nid32_ok xid → c_in c = Succeeds :: Clock sec usec :: Number r :: rest →
  ∃ f snd id, message_of k xid c f
    ∧ send_message k xid c = (Val (Some (mkTv sec usec)), after c [f] snd id rest).
Proof.
  intros (Hv & Hl & Hi & Hk & Hn) Hx Ein.
  pose proof (build_sent (c_vars c) (c_link c) (c_iface c) (c_opts c) Hv Hl Hi k xid (c_ip_id c) Hx Hk) as Eb.
  set (g := sent_frame _ _ _ _ _ _ _) in Eb. set (id := u16_wrap _) in Eb.
  assert (Lg : length g = frame_len)
    by apply (proj1 (sent_frame_read (c_vars c) (c_link c) (c_iface c) (c_opts c) k xid (c_ip_id c) Hv Hl Hi Hx Hk)).
  assert (∃ f snd, on_wire (c_link c) g f
    ∧ dhcp_frame (c <| c_send := g |> <| c_ip_id := id |>) = (Val f, c <| c_send := snd |> <| c_ip_id := id |>))
    as (f & snd & Hf & Ef).
  { unfold on_wire, dhcp_frame. set (c0 := c <| c_send := g |> <| c_ip_id := id |>). run1.
    change (c_link (Datatypes.id c0)) with (c_link c). change (c_send (Datatypes.id c0)) with g.
    destruct (l_TokenRingIf (c_link c)); [|by eexists _, g].
    destruct (eth2tr_total g Lg) as (h & len & E & _). exists (take len h), h. split; [by exists h, len|].
    rewrite E. reflexivity. }
  exists f, snd, id. split; [by exists (c_ip_id c), g, id|]. unfold send_message.
  assert (Eb' : build k xid c = (Val tt, c <| c_send := g |> <| c_ip_id := id |>)).
  { unfold build. run1. cbn [Datatypes.id]. rewrite Eb. reflexivity. }
  assert (En : device_name SA_DATA_ROOM c = (Val tt, c)).
  { unfold device_name. run1. by rewrite (proj2 (Nat.leb_le _ _) Hn). }
  run En. run Eb'. run Ef. set (c0 := c <| c_send := snd |> <| c_ip_id := id |>).
  assert (Es : sendto f c0 = (Val true, c0 <| c_out ::= λ l, l ++ [Sendto f] |>
                                           <| c_in := Clock sec usec :: Number r :: rest |>)).
  { unfold sendto. run1. unfold succeeds. by eapply run_ask. }
  run Es. cbn [negb]. unfold clock, number.
  erewrite M_bind_val; [|by eapply run_ask]. cbn beta iota.
  erewrite M_bind_val; [|by eapply run_ask]. reflexivity.
Qed.

(** The answers to [n] messages when no datagram comes: the last wait is ended by
    the alarm, the others by their time, or by a signal of a child. *)
Inductive silent : nat → list answer → Prop :=
  | silent_alarm sec usec r :
      silent 1 [Succeeds; Clock sec usec; Number r; Signal SIGALRM]
  | silent_more n l sec usec r w :
      w = Silence ∨ w = Signal SIGCHLD → silent n l →
      silent (S n) (Succeeds :: Clock sec usec :: Number r :: w :: l).

(** The handler of the alarm jumps. *)
Definition jumps (c : client) : Prop := c_alarm c ≠ 0 ∧ c_state c ∈ [SBound; SRenew; SRebind; SReboot].

Lemma peekfd_silent c w rest :
  c_in c = w :: rest → w = Silence ∨ w = Signal SIGCHLD → peekfd c = (Val false, c <| c_in := rest |>).
Proof.
  intros E H. unfold peekfd.
  destruct H as [-> | ->]; (erewrite M_bind_val; [|by eapply run_ask]); reflexivity.
Qed.

Lemma alarm_jump c : jumps c → interrupted SIGALRM c = (Jump, c <| c_alarm := 0 |>).
Proof.
  intros [Ha Hs]. unfold interrupted. change (negb (handled SIGALRM)) with false.
  change (SIGALRM =? SIGALRM) with true. cbn iota. apply Z.eqb_neq in Ha. rewrite Ha.
  unfold sigHandler. change (SIGALRM =? SIGCHLD) with false. change (SIGALRM =? SIGALRM) with true.
  cbn iota. run1. change (c_state (c <| c_alarm := 0 |>)) with (c_state c).
  rewrite !elem_of_cons in Hs. by destruct Hs as [-> | [-> | [-> | [-> | []%elem_of_nil]]]].
Qed.

Lemma peekfd_alarm c rest :
  c_in c = Signal SIGALRM :: rest → jumps c → peekfd c = (Jump, c <| c_in := rest |> <| c_alarm := 0 |>).
Proof.
  intros E H. unfold peekfd. erewrite M_bind_val; [|by eapply run_ask]. cbn iota.
  unfold mbind, M_bind. by rewrite alarm_jump.
Qed.

Lemma sr_silent n l k xid msg s c rest fuel :
  silent n l → c_in c = l ++ rest → sender_ok k c → jumps c → nid32_ok xid →
  sr_receiving s = false → (n < fuel)%nat →
  ∃ fs snd id, sr_loop fuel k xid msg s c = (Jump, after c fs snd id rest <| c_alarm := 0 |>)
    ∧ length fs = n ∧ Forall (message_of k xid c) fs.
Proof.
  intros H. revert c s fuel. induction H as [sec usec r|n l sec usec r w Hw H IH];
    intros c s fuel Ein Hs Hj Hx Er Hf; (destruct fuel as [|fuel]; [lia|]); cbn [sr_loop]; rewrite Er;
    destruct (send_message_runs k xid c _ _ _ _ Hs Hx Ein) as (f & snd & id & Hm & E); run E; cbn iota.
  - exists [f], snd, id. split; [|by split; [|constructor]].
    unfold mbind at 1, M_bind. rewrite (peekfd_alarm _ rest); [done|done|exact Hj].
  - erewrite M_bind_val; [|by eapply peekfd_silent].
    destruct (IH (after c [f] snd id (l ++ rest))
      (mkSr (next_rto (sr_j s)) (sr_timeout s) (mkTv sec usec) false) fuel)
      as (fs & snd' & id' & E' & Ln & Hfs); [done..|lia|].
    exists (f :: fs), snd', id'. split; [|split; [cbn; lia|by constructor]].
    change (f :: fs) with ([f] ++ fs). rewrite <-(after_after c [f] snd id (l ++ rest)). exact E'.
Qed.

(** ** The end of a lease *)

(** At the time [now] the time [code] of the lease is still to come. *)
Definition pending (code now : Z) (c : client) : Prop :=
  ∃ t, opt_u32 code (c_opts c) = Some t ∧ 0 < i32_wrap (c_req_time c + swap32 t - now).

Lemma time_left_runs code now c rest :
  pending code now c → c_in c = Number now :: rest →
  ∃ i, 0 < i ∧ time_left code c = (Val i, c <| c_in := rest |>).
Proof.
  intros (t & Ht & Hi) E. eexists. split; [exact Hi|]. unfold time_left. run1. cbn [Datatypes.id].
  rewrite Ht. run1. unfold number. erewrite M_bind_val; [|by eapply run_ask]. reflexivity.
Qed.

Lemma silent_length n l : silent n l → (n ≤ length l)%nat.
Proof. induction 1; cbn; lia. Qed.

(** What [dhcpStop] does to the system. *)
Definition stop_effects (c : client) : list effect :=
  let v := c_vars c in
  (if v_TestCase v then [] else
     SetAddress 0 :: if (length (v_IfName v) =? length (v_IfNameExt v))%nat
                     then [SetFlags (flags_down (c_saved_flags c))] else [])
  ++ [CloseSocket]
  ++ (if c_resolv_renamed c then [Rename (saved_as RESOLV_CONF) RESOLV_CONF] else [])
  ++ (if c_yp_renamed c then [Rename (saved_as NIS_CONF) NIS_CONF] else [])
  ++ (if c_ntp_renamed c then [Rename (saved_as NTP_CONF) NTP_CONF] else [])
  ++ [Execute (match v_Cfilename v with
               | Some f => take 127 f
               | None => take 127 (v_ConfigDir v ++ chars "/dhcpcd.exe")
               end) (c_hostinfo c) (chars "down")].

Definition emitted (c : client) (l : list effect) : client := c <| c_out := c_out c ++ l |>.

Lemma emitted_app c l l' : emitted (emitted c l) l' = emitted c (l ++ l').
Proof. unfold emitted. cbn. by rewrite app_assoc. Qed.

Lemma run_emit e c l : emit e (emitted c l) = (Val tt, emitted c (l ++ [e])).
Proof. by rewrite <-emitted_app. Qed.

Lemma run_when (b : bool) e c l :
  when b (emit e) (emitted c l) = (Val tt, emitted c (l ++ if b then [e] else [])).
Proof. destruct b; [apply run_emit|]. by rewrite app_nil_r. Qed.

Lemma dhcpStop_runs c : dhcpStop c = (Val SStart, emitted (c <| c_opts := opts_zero |>) (stop_effects c)).
Proof.
  unfold dhcpStop. run1. run1. cbn [Datatypes.id]. cbv zeta.
  set (c1 := c <| c_opts := opts_zero |>).
  assert (E : when (negb (v_TestCase (c_vars c1)))
        (_ ← emit (SetAddress 0);
         when (length (v_IfName (c_vars c1)) =? length (v_IfNameExt (c_vars c1)))%nat
           (emit (SetFlags (flags_down (c_saved_flags c1))))) c1
    = (Val tt, emitted c1 (if v_TestCase (c_vars c) then [] else
         SetAddress 0 :: if (length (v_IfName (c_vars c)) =? length (v_IfNameExt (c_vars c)))%nat
                     then [SetFlags (flags_down (c_saved_flags c))] else []))).
  { change (c_vars c1) with (c_vars c). destruct (v_TestCase (c_vars c)); cbn [negb when].
    - unfold emitted. rewrite app_nil_r. by destruct c.
    - erewrite M_bind_val; [|exact (eq_refl (Val tt, emitted c1 [SetAddress 0]))]. by rewrite run_when. }
  run E. erewrite M_bind_val; [|apply run_emit]. do 3 (erewrite M_bind_val; [|apply run_when]).
  erewrite M_bind_val; [|unfold execute_on_change; run1; apply run_emit].
  unfold mret, M_ret, stop_effects. by rewrite <-!app_assoc.
Qed.

Section Expiry.
Context (ARPCHECK : bool).

Lemma next_state_eq s r c c' :
  c_state c = s → run_state ARPCHECK s c = (Val (Some r), c') →
  next_state ARPCHECK c = (Val (Some r), c' <| c_state := r |>).
Proof. intros <- E. unfold next_state. run1. by run E. Qed.

Lemma bound_ends c now rest :
  c_state c = SBound → pending dhcpT1value now c → c_in c = Number now :: Signal SIGALRM :: rest →
  next_state ARPCHECK c
  = (Val (Some SRenew), c <| c_in := rest |> <| c_alarm := 0 |> <| c_state := SRenew |>).
Proof.
  intros Hs Hp Ein. apply (next_state_eq SBound _ c (c <| c_in := rest |> <| c_alarm := 0 |>) Hs).
  destruct (time_left_runs _ _ _ _ Hp Ein) as (i & Hi & E). cbn [run_state]. unfold dhcpBound, setjmp.
  run E. apply Z.ltb_lt in Hi as Hi'. rewrite Hi'. run1.
  set (c1 := _ <| c_alarm := i |>).
  assert (Es : sleep c1 = (Jump, c <| c_in := rest |> <| c_alarm := 0 |>)).
  { unfold sleep. erewrite M_bind_val; [|by eapply run_ask]. cbn iota.
    rewrite alarm_jump; [done|]. split; [cbn; lia|]. change (c_state _) with (c_state c). rewrite Hs. by left. }
  unfold mbind, M_bind. by rewrite Es.
Qed.

(** A request of the lease that nobody answers before the next time. *)
Lemma request_silent k s c i xid l n rest :
  c_state c = s → s ∈ [SRenew; SRebind] → 0 < i → sender_ok k c → nid32_ok xid →
  silent n l → c_in c = l ++ rest →
  ∃ fs snd id, dhcpSendAndRecv xid ACK k (c <| c_alarm := i |>) = (Jump, after c fs snd id rest <| c_alarm := 0 |>)
    ∧ length fs = n ∧ Forall (message_of k xid c) fs.
Proof.
  intros Hs Hin Hi Hk Hx Hl Ein. apply silent_length in Hl as Hn.
  destruct (sr_silent n l k xid ACK (mkSr (DHCP_INITIAL_RTO `div` 2) 0 (mkTv 0 0) false)
    (c <| c_alarm := i |>) rest (S (length (c_in c)))) as (fs & snd & id & E & H); try done.
  - split; [cbn; lia|]. change (c_state _) with (c_state c). rewrite Hs. set_solver.
  - rewrite Ein, length_app. lia.
  - exists fs, snd, id. by split.
Qed.

(** The states that ask for the lease again, and the one that follows. *)
Lemma renew_ends c now xid n l rest :
  c_state c = SRenew → pending dhcpT2value now c → sender_ok MRenew c → nid32_ok xid → silent n l →
  c_in c = Number now :: Number xid :: l ++ rest →
  ∃ fs snd id, next_state ARPCHECK c
      = (Val (Some SRebind), after c fs snd id rest <| c_alarm := 0 |> <| c_state := SRebind |>)
    ∧ length fs = n ∧ Forall (message_of MRenew xid c) fs.
Proof.
  intros Hs Hp Hk Hx Hl Ein. destruct (time_left_runs _ _ _ _ Hp Ein) as (i & Hi & E).
  destruct (request_silent MRenew SRenew (c <| c_in := l ++ rest |>) i xid l n rest)
    as (fs & snd & id & Er & H); try done; [set_solver|].
  exists fs, snd, id. split; [|exact H]. apply (next_state_eq SRenew _ _ (after c fs snd id rest <| c_alarm := 0 |>) Hs).
  cbn [run_state]. unfold dhcpRenew, setjmp. run E. apply Z.ltb_lt in Hi. rewrite Hi. run1.
  unfold number. erewrite M_bind_val; [|by eapply run_ask].
  unfold mbind, M_bind. change (c <| c_in := _ |> <| c_alarm := i |> <| c_in := l ++ rest |>)
    with (c <| c_in := l ++ rest |> <| c_alarm := i |>). by rewrite Er.
Qed.

Lemma rebind_ends c now xid n l rest :
  c_state c = SRebind → pending dhcpIPaddrLeaseTime now c → sender_ok MRebind c → nid32_ok xid → silent n l →
  c_in c = Number now :: Number xid :: l ++ rest →
  ∃ fs snd id, next_state ARPCHECK c
      = (Val (Some SStop), after c fs snd id rest <| c_alarm := 0 |> <| c_state := SStop |>)
    ∧ length fs = n ∧ Forall (message_of MRebind xid c) fs.
Proof.
  intros Hs Hp Hk Hx Hl Ein. destruct (time_left_runs _ _ _ _ Hp Ein) as (i & Hi & E).
  destruct (request_silent MRebind SRebind (c <| c_in := l ++ rest |>) i xid l n rest)
    as (fs & snd & id & Er & H); try done; [set_solver|].
  exists fs, snd, id. split; [|exact H]. apply (next_state_eq SRebind _ _ (after c fs snd id rest <| c_alarm := 0 |>) Hs).
  cbn [run_state]. unfold dhcpRebind, setjmp. run E. apply Z.ltb_lt in Hi. rewrite Hi. run1.
  unfold number. erewrite M_bind_val; [|by eapply run_ask].
  unfold mbind, M_bind. change (c <| c_in := _ |> <| c_alarm := i |> <| c_in := l ++ rest |>)
    with (c <| c_in := l ++ rest |> <| c_alarm := i |>). by rewrite Er.
Qed.

Lemma stop_ends c :
  c_state c = SStop →
  next_state ARPCHECK c
  = (Val (Some SStart), emitted (c <| c_opts := opts_zero |>) (stop_effects c) <| c_state := SStart |>).
Proof.
  intros Hs. apply (next_state_eq SStop _ _ _ Hs). cbn [run_state]. by run (dhcpStop_runs c).
Qed.
End Expiry.

(** C28. A lease the server does not renew comes to its end.  A client that has an
    address and hears nothing sleeps until T1, sends renewals until T2, requests to
    any server until the lease ends, and then gives the address back: it clears the
    address of the interface (and takes an interface without alias down), puts the
    configuration files back, runs the script with "down", forgets the options and
    starts again.  Each waiting is ended by the alarm, however many messages were
    sent before it, and every message sent is the one of its state.  The name of
    the interface has 14 characters at most: longer ones overflow the socket
    address, [device_name_overflows]. *)
Theorem lease_expires ARPCHECK fuel c now1 now2 now3 xid2 xid3 n2 n3 l2 l3 rest :
  c_state c = SBound → sender_ok MRenew c → sender_ok MRebind c → nid32_ok xid2 → nid32_ok xid3 →
  pending dhcpT1value now1 c → pending dhcpT2value now2 c → pending dhcpIPaddrLeaseTime now3 c →
  silent n2 l2 → silent n3 l3 →
  c_in c = [Number now1; Signal SIGALRM] ++ [Number now2; Number xid2] ++ l2
             ++ [Number now3; Number xid3] ++ l3 ++ rest →
  ∃ c' fs2 fs3,
    maintain ARPCHECK (4 + fuel) c = maintain ARPCHECK fuel c'
    ∧ c_state c' = SStart ∧ c_in c' = rest ∧ c_alarm c' = 0 ∧ c_opts c' = opts_zero
    ∧ c_out c' = c_out c ++ (Sendto <$> fs2) ++ (Sendto <$> fs3) ++ stop_effects c
    ∧ (length fs2 = n2 ∧ Forall (message_of MRenew xid2 c) fs2)
    ∧ (length fs3 = n3 ∧ Forall (message_of MRebind xid3 c) fs3).
Proof.
  intros Hs Hk2 Hk3 Hx2 Hx3 Hp1 Hp2 Hp3 Hl2 Hl3 Ein.
  pose proof (bound_ends ARPCHECK c _ _ Hs Hp1 Ein) as E1. set (c1 := _ <| c_state := SRenew |>) in E1.
  destruct (renew_ends ARPCHECK c1 now2 xid2 n2 l2 ([Number now3; Number xid3] ++ l3 ++ rest))
    as (fs2 & snd2 & id2 & E2 & H2); try done.
  set (c2 := _ <| c_state := SRebind |>) in E2.
  destruct (rebind_ends ARPCHECK c2 now3 xid3 n3 l3 rest) as (fs3 & snd3 & id3 & E3 & H3); try done.
  set (c3 := _ <| c_state := SStop |>) in E3.
  pose proof (stop_ends ARPCHECK c3 eq_refl) as E4. set (c4 := _ <| c_state := SStart |>) in E4.
  exists c4, fs2, fs3. split.
  - cbn [maintain Nat.add]. run E1. cbv beta iota. run E2. cbv beta iota. run E3. cbv beta iota. run E4. reflexivity.
  - split_and!; try done; [|apply H2|apply H2|apply H3|apply H3].
    change (c_out c4) with (((c_out c ++ (Sendto <$> fs2)) ++ (Sendto <$> fs3)) ++ stop_effects c).
    by rewrite <-!app_assoc.
Qed.

Definition lease_tlvs : list tlv :=
  [(dhcpServerIdentifier, [10; 0; 0; 1]); (dhcpIPaddrLeaseTime, [0; 0; 14; 16]);
   (dhcpT1value, [0; 0; 7; 8]); (dhcpT2value, [0; 0; 12; 78])].

Definition lease_block : list Z := tlvs_bytes lease_tlvs ++ [endOption] ++ replicate 300 0.

Definition lease_opts : dhcpOptions := default opts_zero (parse_options 30 lease_block opts_zero).

Lemma lease_opts_ok k : server_known k lease_opts.
Proof.
  split.
  - destruct (parse_options_total 30 lease_block opts_zero) as (o' & E & Ho).
    + apply opts_zero_ok.
    + by apply (bool_decide_unpack _); vm_compute.
    + right. apply (bool_decide_unpack _). by vm_compute.
    + unfold lease_opts. by rewrite E.
  - split; intros _; vm_compute; by eexists.
Qed.

Definition lone_client (l : list answer) : client :=
  sample_client l <| c_opts := lease_opts |> <| c_state := SBound |>.

(** One renewal, two requests to any server. *)
Definition lone_answers : list answer :=
  [Number 0; Signal SIGALRM] ++ [Number 1800; Number 7]
    ++ [Succeeds; Clock 1800 0; Number 1; Signal SIGALRM]
    ++ [Number 3150; Number 8]
    ++ [Succeeds; Clock 3150 0; Number 2; Silence; Succeeds; Clock 3158 0; Number 3; Signal SIGALRM] ++ [].

Lemma lease_expires_witness :
  ∃ c' fs2 fs3, maintain false 4 (lone_client lone_answers) = maintain false 0 c' ∧ c_state c' = SStart
    ∧ c_out c' = (Sendto <$> fs2) ++ (Sendto <$> fs3)
        ++ [SetAddress 0; SetFlags IFF_RUNNING; CloseSocket; Execute (chars "/etc/dhcpc/dhcpcd.exe") [] (chars "down")]
    ∧ length fs2 = 1%nat ∧ length fs3 = 2%nat.
Proof.
  destruct sample_ok as (Hv & Hl & Hi & _).
  assert (Hk : ∀ k, sender_ok k (lone_client lone_answers)).
  { intros k. split; [exact Hv|]. split; [exact Hl|]. split; [exact Hi|]. split; [apply lease_opts_ok|].
    apply (bool_decide_unpack _). vm_compute. exact I. }
  destruct (lease_expires false 0 (lone_client lone_answers) 0 1800 3150 7 8 1 2
    [Succeeds; Clock 1800 0; Number 1; Signal SIGALRM]
    [Succeeds; Clock 3150 0; Number 2; Silence; Succeeds; Clock 3158 0; Number 3; Signal SIGALRM] [])
    as (c' & fs2 & fs3 & E & Es & _ & _ & _ & Eo & [L2 _] & [L3 _]).
  - reflexivity.
  - apply Hk.
  - apply Hk.
  - split; vm_compute; [discriminate|reflexivity].
  - split; vm_compute; [discriminate|reflexivity].
  - exists (le_val [0; 0; 7; 8]). split; vm_compute; reflexivity.
  - exists (le_val [0; 0; 12; 78]). split; vm_compute; reflexivity.
  - exists (le_val [0; 0; 14; 16]). split; vm_compute; reflexivity.
  - constructor.
  - apply (silent_more 1 [Succeeds; Clock 3158 0; Number 3; Signal SIGALRM] 3150 0 2 Silence); [left; reflexivity|constructor].
  - reflexivity.
  - exists c', fs2, fs3. split; [exact E|]. split; [exact Es|]. split; [|split; [exact L2|exact L3]].
    rewrite Eo. reflexivity.
Defined.

(** ** The name of the interface *)

Lemma device_name_crash room c :
  (room < length (v_IfName (c_vars c)))%nat → device_name room c = (Crash, c).
Proof. intros H. unfold device_name. run1. by rewrite (proj2 (Nat.leb_gt _ _) H). Qed.

Lemma before_colon_id s : 58 ∉ s → before_colon s = s.
Proof.
  induction s as [|a s IH]; [done|]. rewrite not_elem_of_cons. intros [Ha Hs]. cbn.
  rewrite (proj2 (Z.eqb_neq _ _)) by congruence. by rewrite IH.
Qed.

(** C40. The test of the length of an interface name lets overflows through.  The
    command line takes a name of 15 or 16 characters without a colon, and with it
    the first message of any exchange, and every ARP message, writes behind the 14
    bytes of [sa_data] in a local socket address: nothing is sent. *)
Theorem device_name_overflows name :
  head_char name ≠ 45 → 58 ∉ name → (14 < length name ≤ 16)%nat →
  ∃ p, command_line [name] = Some p ∧ v_IfName (p_vars p) = name
    ∧ ∀ c, c_vars c = p_vars p →
        (∀ xid msg k, dhcpSendAndRecv xid msg k c = (Crash, c))
        ∧ (∀ m, arp_once m c = (Crash, c)) ∧ arpCheck c = (Crash, c).
Proof.
  intros Hd Hc [Hl Hu].
  exists (parsed_init <| p_rest := [name] |>
            <| p_vars ::= λ v, v <| v_IfNameExt := name |> <| v_IfName := before_colon name |> |>).
  assert (Ha : parse_args [name] parsed_init = Some (parsed_init <| p_rest := [name] |>)).
  { destruct name as [|a name]; [cbn in Hl; lia|]. cbn [head_char] in Hd. cbn [parse_args].
    destruct a as [|a|a]; [done| |done]. by do 6 (destruct a as [a|a|]; try done). }
  split; [|split; [by apply before_colon_id|]].
  - unfold command_line. rewrite Ha. cbn [mbind option_bind]. unfold set_interface_name. cbn -[Nat.ltb].
    by rewrite (proj2 (Nat.ltb_ge IFNAMSIZ (length name)) Hu).
  - intros c Ec. assert (En : device_name SA_DATA_ROOM c = (Crash, c)).
    { apply device_name_crash. rewrite Ec. cbn. by rewrite before_colon_id. }
    assert (Es : ∀ obj, send_arp obj c = (Crash, c)).
    { intros obj. unfold send_arp. run1. unfold mbind, M_bind. by rewrite En. }
    split_and!.
    + intros xid msg k. unfold dhcpSendAndRecv. cbn [sr_loop sr_receiving]. unfold send_message.
      unfold mbind, M_bind. by rewrite En.
    + intros m. unfold arp_once. run1. unfold mbind, M_bind. by rewrite Es.
    + unfold arpCheck. cbn [arp_loop]. unfold mbind, M_bind. by rewrite Es.
Qed.

Lemma device_name_overflows_witness :
  ∃ p, command_line [chars "wireless-radio0"] = Some p
    ∧ dhcpSendAndRecv 7 OFFER MDiscover (sample_client [] <| c_vars := p_vars p |>)
      = (Crash, sample_client [] <| c_vars := p_vars p |>).
Proof.
  destruct (device_name_overflows (chars "wireless-radio0")) as (p & E & _ & H).
  - apply (bool_decide_unpack _). vm_compute. exact I.
  - apply (bool_decide_unpack _). vm_compute. exact I.
  - apply (bool_decide_unpack _). vm_compute. exact I.
  - exists p. split; [exact E|]. destruct (H (sample_client [] <| c_vars := p_vars p |>)) as [A _]; [reflexivity|].
    apply A.
Defined.
