(* ===== verification/GuiProps.v ===== *)
(** The file the window writes is what the daemon reads. *)

From S2P Require Import Prelude NidTypes Inet InetProps Configuration StartProps Gui.

Local Open Scope Z_scope.

(** ** The document of the file *)

Definition text_node (t : list Z) : xmlNode := mkXml false (chars "text") t [].

Definition form_node (e : string * list Z) : xmlNode :=
  mkXml true (chars e.1) [] (match e.2 with [] => [] | t => [text_node t] end).

(** The elements with the newlines between them. *)
Definition form_tree (f : form) : xmlNode :=
  mkXml true (chars "configuration") []
    (concat ((λ e, [text_node [10]; form_node e]) <$> form_elements f) ++ [text_node [10]]).

Section Reading.
(** What libxml2 gives as the content of nodes. *)
Context (content : list xmlNode → option (list Z)).
Context (content_nil : content [] = None).
Context (content_text : ∀ t, t ≠ [] → content [text_node t] = Some t).

Lemma read_text_node t m : get_data_nodes content [text_node t] m = m.
Proof. by destruct m. Qed.

(** A block for another name does nothing, the block for its name takes the text. *)
Lemma other_element e n required assign c :
  chars e.1 ≠ chars n → on_element content (form_node e) n required assign c = inl c.
Proof. intros H. unfold on_element. by rewrite decide_False. Qed.

Lemma own_element n t required assign c :
  t ≠ [] → on_element content (form_node (n, t)) n required assign c = assign t c.
Proof.
  intros H. unfold on_element. rewrite decide_True by done. destruct t as [|x t]; [done|].
  cbn [form_node xml_children snd]. by rewrite content_text.
Qed.

Lemma empty_element n assign c :
  on_element content (form_node (n, [])) n true assign c = inr ConfMissing.
Proof. unfold on_element. rewrite decide_True by done. cbn. by rewrite content_nil. Qed.

Lemma other_core e (b : bool) c :
  Forall (λ n, chars e.1 ≠ chars n) ["niddht"; "dhtIP"; "dhtPort"; "dht"]%string →
  (if b then get_data_core content (form_node e) c else inl c) = inl c.
Proof.
  intros H. repeat (apply Forall_cons in H as [? H]). destruct b; [|done]. unfold get_data_core.
  rewrite other_element by done. cbn [conf_bind]. rewrite other_element by done. cbn [conf_bind].
  rewrite other_element by done. cbn [conf_bind]. by rewrite other_element.
Qed.

(** [get_data] on an element of the form. *)
Ltac not_name := vm_compute; discriminate.
Ltac read_node :=
  intros; unfold get_data_node; cbn [xml_element form_node negb];
  repeat first [rewrite other_element by not_name
               |rewrite own_element by assumption|rewrite empty_element
               |rewrite other_core by (repeat (apply Forall_cons_2; [not_name|]); apply Forall_nil_2)
               |progress cbn [conf_bind]];
  try reflexivity.

Lemma read_type t c : t ≠ [] →
  get_data_node content (form_node ("type"%string, t)) c = inl (c <| conf_type := u16 (atoi t) |>).
Proof. read_node. Qed.

Lemma read_nodeID t c : t ≠ [] →
  get_data_node content (form_node ("nodeID"%string, t)) c = inl (setNID32 (c <| conf_nid ::= pton6_into t |>)).
Proof. read_node. Qed.

Lemma read_nidcorehome t c : t ≠ [] →
  get_data_node content (form_node ("nidcorehome"%string, t)) c = inl (c <| conf_nidcorehome ::= pton6_into t |>).
Proof. read_node. Qed.

Lemma read_nidcore t c : t ≠ [] →
  get_data_node content (form_node ("nidcore"%string, t)) c = inl (c <| conf_nidcore ::= pton6_into t |>).
Proof. read_node. Qed.

Lemma read_nidrvs t c : t ≠ [] →
  get_data_node content (form_node ("nidrvs"%string, t)) c = inl (c <| conf_nidrvs ::= pton6_into t |>).
Proof. read_node. Qed.

Lemma read_nidgw t c : t ≠ [] →
  get_data_node content (form_node ("nidgw"%string, t)) c = inl (c <| conf_nidgw ::= pton6_into t |>).
Proof. read_node. Qed.

Lemma read_rvsIP t c : t ≠ [] →
  get_data_node content (form_node ("rvsIP"%string, t)) c = inl (c <| conf_rvsIP ::= pton4_into t |>).
Proof. read_node. Qed.

Lemma read_ip t c : t ≠ [] →
  get_data_node content (form_node ("ip"%string, t)) c = inl (c <| conf_gatewayIP ::= pton4_into t |>).
Proof. read_node. Qed.

Lemma read_rvsTimeout t c : t ≠ [] →
  get_data_node content (form_node ("rvsTimeout"%string, t)) c = inl (c <| conf_rvsTimeout := u16 (atoi t) |>).
Proof. read_node. Qed.

Lemma read_dns t c : t ≠ [] →
  get_data_node content (form_node ("dns"%string, t)) c = inl (c <| conf_dns := u16 (atoi t) |>).
Proof. read_node. Qed.

Lemma read_dhcp t c : t ≠ [] →
  get_data_node content (form_node ("dhcp"%string, t)) c = inl (c <| conf_dhcp := u16 (atoi t) |>).
Proof. read_node. Qed.

Lemma read_niddns t c : t ≠ [] →
  get_data_node content (form_node ("niddns"%string, t)) c = (let c := c <| conf_niddns ::= pton6_into t |> in
       inl (c <| conf_server_address := update_dns_server_address (conf_niddns c) |>)).
Proof. read_node. Qed.

Lemma read_primaryIface t c : t ≠ [] →
  get_data_node content (form_node ("primaryIface"%string, t)) c = if (32 <? S (length t))%nat then inr ConfOverflow else inl (c <| conf_primaryIface := t |>).
Proof. read_node. Qed.

(** Elements of the DHT, read by a core. *)
Ltac read_core := read_node; destruct (conf_type _ =? _); [unfold get_data_core|]; read_node.

Lemma read_dhtIP t c : t ≠ [] →
  get_data_node content (form_node ("dhtIP"%string, t)) c
  = inl (if conf_type c =? node_types_val CORE then c <| conf_dhtIP ::= pton4_into t |> else c).
Proof. read_core. Qed.

Lemma read_dhtPort t c : t ≠ [] →
  get_data_node content (form_node ("dhtPort"%string, t)) c
  = inl (if conf_type c =? node_types_val CORE then c <| conf_dhtPort := u16 (atoi t) |> else c).
Proof. read_core. Qed.

Lemma read_dht t c : t ≠ [] →
  get_data_node content (form_node ("dht"%string, t)) c
  = inl (if conf_type c =? node_types_val CORE then c <| conf_dht := u16 (atoi t) |> else c).
Proof. read_core. Qed.

Lemma read_nodeID_empty c :
  get_data_node content (form_node ("nodeID"%string, [])) c = inr ConfMissing.
Proof. read_node. Qed.

Lemma read_nidcorehome_empty c :
  get_data_node content (form_node ("nidcorehome"%string, [])) c = inr ConfMissing.
Proof. read_node. Qed.
End Reading.

(** ** The whole file *)

Lemma bind_inl m : conf_bind m inl = m.
Proof. by destruct m. Qed.

Section File.
Context (content : list xmlNode → option (list Z)).
Context (content_nil : content [] = None).
Context (content_text : ∀ t, t ≠ [] → content [text_node t] = Some t).

Lemma get_data_text t next c : get_data content (text_node t :: next) c = get_data content next c.
Proof. done. Qed.

Lemma get_data_form e next c :
  get_data content (text_node [10] :: form_node e :: next) c
  = conf_bind (get_data_node content (form_node e) c) (get_data content next).
Proof.
  rewrite get_data_text. cbn [get_data]. rewrite get_data_tree_eq.
  destruct (get_data_node content (form_node e) c) as [c'|]; [|done]. cbn [conf_bind].
  destruct e as [n [|x t]]; [done|]. cbn [form_node xml_children snd]. by rewrite get_data_text.
Qed.

(** What a form stands for. *)
Definition saved_config (f : form) : config :=
  let c := setNID32 (config_init <| conf_type := comboBox1 f |>
                       <| conf_nid := pton6_into (lineEdit f 1) nid_zero |>) in
  let c := c <| conf_nidcorehome := pton6_into (lineEdit f 2) nid_zero |>
             <| conf_nidcore := pton6_into (edited f 3 "dead::dead") nid_zero |>
             <| conf_nidrvs := pton6_into (edited f 4 "dead::dead") nid_zero |>
             <| conf_rvsIP := pton4_into (edited f 5 "0.0.0.0") 0 |>
             <| conf_rvsTimeout := u16 (atoi (edited f 6 "5")) |>
             <| conf_nidgw := pton6_into (edited f 7 "dead::dead") nid_zero |>
             <| conf_gatewayIP := pton4_into (edited f 8 "0.0.0.0") 0 |> in
  let c := if comboBox1 f =? node_types_val CORE
           then c <| conf_dhtIP := pton4_into (edited f 9 "0.0.0.0") 0 |>
                  <| conf_dhtPort := u16 (atoi (edited f 10 "0")) |>
                  <| conf_dht := if checkBox3 f then 1 else 0 |>
           else c in
  let dns := pton6_into (edited f 11 "dead::dead") nid_zero in
  c <| conf_niddns := dns |> <| conf_server_address := update_dns_server_address dns |>
    <| conf_dns := if checkBox1 f then 1 else 0 |> <| conf_dhcp := if checkBox2 f then 1 else 0 |>
    <| conf_primaryIface := edited f 12 "eth0" |>.

Lemma edited_not_nil f n s : chars s ≠ [] → edited f n s ≠ [].
Proof. unfold edited. by destruct (lineEdit f n). Qed.

Lemma atoi_bool b : u16 (atoi (str_bool b)) = if b then 1 else 0.
Proof. by destruct b. Qed.

Lemma atoi_type t : 0 ≤ t ≤ 3 → u16 (atoi (str_type t)) = t.
Proof.
  intros H. assert (t = 0 ∨ t = 1 ∨ t = 2 ∨ t = 3) as [->|[->|[->| ->]]] by lia; reflexivity.
Qed.

Ltac next_element L :=
  rewrite get_data_form, L by (assumption || done || by apply edited_not_nil); cbn [conf_bind].

(** A configuration as the list of its members. *)
Ltac conf_normal :=
  cbv beta iota zeta delta [set_field setNID32 config_init conf_type conf_gatewayPort conf_dhtPort
    conf_rvsTimeout conf_dhcp conf_dht conf_dns conf_mobility conf_primaryIface conf_nid conf_nidgw
    conf_nidrvs conf_nidcore conf_nidcorehome conf_niddns conf_niddht conf_nid32 conf_gatewayIP
    conf_rvsIP conf_dhtIP conf_ip conf_server_address].

(** The type was read first. *)
Ltac core f Et :=
  match goal with
  | |- context [conf_type ?c =? node_types_val CORE] =>
      change (conf_type c) with (comboBox1 f); rewrite Et; cbn iota
  end.

Lemma read_form f :
  0 ≤ comboBox1 f ≤ 3 → lineEdit f 1 ≠ [] → lineEdit f 2 ≠ [] →
  get_data content (xml_children (form_tree f)) config_init
  = if (31 <? length (edited f 12 "eth0"))%nat then inr ConfOverflow else inl (saved_config f).
Proof.
  intros Ht H1 H2. unfold form_tree, form_elements. cbn [xml_children fmap list_fmap concat app].
  next_element read_type. rewrite atoi_type by done.
  next_element read_nodeID. next_element read_nidcorehome. next_element read_nidcore. next_element read_nidrvs.
  next_element read_rvsIP. next_element read_rvsTimeout. next_element read_nidgw. next_element read_ip.
  destruct (comboBox1 f =? node_types_val CORE) eqn:Et;
    next_element read_dhtIP; core f Et; next_element read_dhtPort; core f Et; next_element read_niddns;
    next_element read_dns; next_element read_dhcp; next_element read_dht; core f Et;
    next_element read_primaryIface; rewrite !atoi_bool; unfold saved_config; rewrite Et;
    change (32 <? S (length (edited f 12 "eth0")))%nat with (31 <? length (edited f 12 "eth0"))%nat;
    (destruct (31 <? _)%nat; [done|]); cbn [conf_bind get_data get_data_tree]; conf_normal; reflexivity.
Qed.

(** An identifier that was not entered. *)
Lemma read_form_missing f :
  0 ≤ comboBox1 f ≤ 3 → lineEdit f 1 = [] ∨ lineEdit f 2 = [] →
  get_data content (xml_children (form_tree f)) config_init = inr ConfMissing.
Proof.
  intros Ht H. unfold form_tree, form_elements. cbn [xml_children fmap list_fmap concat app].
  next_element read_type. destruct (lineEdit f 1) as [|x t] eqn:E1.
  - by rewrite get_data_form, read_nodeID_empty.
  - destruct H as [H|H]; [done|]. next_element read_nodeID. rewrite H.
    by rewrite get_data_form, read_nidcorehome_empty.
Qed.
End File.

(** ** The choice of the type *)

(** The calls of [nodeType] leave the form with the type chosen; the DHT is
    switched on, and its address can be entered, for a core only, the rendezvous
    server's own cannot for a rendezvous server, the gateway's not for a core, and
    DHCP can be asked for by a node only. *)
Lemma choose_type_spec t s :
  t ∈ [0; 1; 2; 3] →
  let r := choose_type t s in
  comboBox1 r.2 = t ∧ lineEdit r.2 = lineEdit s.2 ∧ checkBox1 r.2 = checkBox1 s.2
  ∧ checkBox2 r.2 = false ∧ checkBox3 r.2 = (t =? 3)
  ∧ r.1 (Check 2) = (t =? 0) ∧ r.1 (Check 3) = (t =? 3)
  ∧ (∀ n, n ∈ [9; 10]%nat → r.1 (Edit n) = (t =? 3))
  ∧ (∀ n, n ∈ [7; 8]%nat → r.1 (Edit n) = negb (t =? 3))
  ∧ (∀ n, n ∈ [4; 5]%nat → r.1 (Edit n) = negb (t =? 1)).
Proof.
  intros Ht r. subst r. destruct s as [e f]. rewrite !elem_of_cons in Ht.
  destruct Ht as [->|[->|[->|[->|[]%elem_of_nil]]]]; split_and!; try reflexivity;
    intros n; rewrite !elem_of_cons; (intros [->|[->|[]%elem_of_nil]]); reflexivity.
Qed.

(** C14. What the window saves is what the daemon reads.  For an XML library that
    parses the file into its elements, [read_config] of the file [salvar] writes
    ends for a missing identifier of the node or of its home core, overflows on an
    interface name of 32 characters, and otherwise gives the configuration of the
    form: every field entered, the stand-in value of those left empty, and the
    fields of the DHT for a core only. *)
Theorem saved_form_is_read content parse f :
  content [] = None → (∀ t, t ≠ [] → content [text_node t] = Some t) →
  parse (salvar f) = Some (form_tree f) → 0 ≤ comboBox1 f ≤ 3 →
  read_config content (parse (salvar f))
  = Some (if bool_decide (lineEdit f 1 = []) || bool_decide (lineEdit f 2 = []) then inr ConfMissing
          else if (31 <? length (edited f 12 "eth0"))%nat then inr ConfOverflow
          else inl (saved_config f)).
Proof.
  intros Hn Ht -> Hc. unfold read_config. f_equal. cbn [get_data]. rewrite get_data_tree_eq.
  assert (E : get_data_node content (form_tree f) config_init = inl config_init).
  { unfold get_data_node. cbn [xml_element form_tree negb].
    assert (Ho : ∀ n r a c, n ∈ ["type"; "ip"; "nodeID"; "nidgw"; "nidcorehome"; "nidcore"; "nidrvs"; "rvsIP";
        "rvsTimeout"; "niddns"; "dhcp"; "dns"; "primaryIface"]%string → on_element content (form_tree f) n r a c = inl c).
    { intros n r a c Hn'. unfold on_element. rewrite decide_False; [done|]. cbn [xml_name form_tree].
      rewrite !elem_of_cons in Hn'.
      repeat (destruct Hn' as [->|Hn']; [vm_compute; discriminate|]). by apply elem_of_nil in Hn'. }
    repeat (rewrite Ho by (apply (bool_decide_unpack _); vm_compute; exact I); cbn [conf_bind]).
    reflexivity. }
  rewrite E. cbn [conf_bind].
  destruct (bool_decide (lineEdit f 1 = [])) eqn:E1; [apply bool_decide_eq_true in E1|apply bool_decide_eq_false in E1].
  - rewrite read_form_missing by auto. done.
  - destruct (bool_decide (lineEdit f 2 = [])) eqn:E2; [apply bool_decide_eq_true in E2|apply bool_decide_eq_false in E2].
    + rewrite read_form_missing by auto. done.
    + rewrite read_form by done. by destruct (31 <? _)%nat.
Qed.

(** A node with the two identifiers entered, and an XML library for this file. *)
Definition node_form : form :=
  mkForm 0 (λ n, match n with
                 | 1%nat => chars "3ffe::7" | 2%nat => chars "3ffe::4" | 5%nat => chars "10.0.0.2"
                 | _ => []
                 end) true true false.

Definition text_content (l : list xmlNode) : option (list Z) :=
  match l with pt :: _ => match xml_text pt with [] => None | t => Some t end | [] => None end.

Definition one_file (t : list Z) : option xmlNode :=
  if bool_decide (t = salvar node_form) then Some (form_tree node_form) else None.

Lemma saved_form_is_read_witness :
  ∃ c, read_config text_content (one_file (salvar node_form)) = Some (inl c)
    ∧ conf_nid c = [0x3f; 0xfe] ++ replicate 13 0 ++ [7] ∧ conf_rvsIP c = 0x0200000a
    ∧ conf_nidgw c = [0xde; 0xad] ++ replicate 12 0 ++ [0xde; 0xad] ∧ conf_rvsTimeout c = 5
    ∧ conf_primaryIface c = chars "eth0" ∧ conf_dns c = 1.
Proof.
  exists (saved_config node_form). split.
  - rewrite (saved_form_is_read text_content one_file node_form).
    + reflexivity.
    + reflexivity.
    + intros [|x t] H; [done|reflexivity].
    + unfold one_file. rewrite bool_decide_eq_true_2 by reflexivity. reflexivity.
    + cbn. lia.
  - split_and!; vm_compute; reflexivity.
Defined.
