(* ===== verification/ToolProps.v ===== *)
(** The virtual interface and the test programs: what [init_tap] asks of the kernel,
    and which commands conecta runs. *)

From S2P Require Import Prelude NidTypes Inet Sockets Conecta.

Local Open Scope Z_scope.

(** ** The virtual interface *)

Lemma slice_written off n d buf :
  length d = n → (off + n ≤ length buf)%nat → slice off n (splice off d buf) = d.
Proof. intros <-. apply slice_splice_eq. Qed.

(** A request for the interface [dev]. *)
Definition names (dev ifr : list Z) : Prop := length ifr = ifreq_len ∧ ifr_name ifr = dev.

Lemma copy_name_spec dev ifr :
  0 ∉ dev → (length dev < ifr_data)%nat → length ifr = ifreq_len → take ifr_data ifr = replicate ifr_data 0 →
  ∃ r, copy_name dev ifr = Go r ∧ names dev r ∧ drop ifr_data r = drop ifr_data ifr.
Proof.
  unfold names, ifr_name, ifr_data, ifreq_len, copy_name. intros Hd Hl Lr Hz.
  rewrite (proj2 (Nat.ltb_ge _ _)) by lia. eexists. split; [reflexivity|]. unfold overlay. split; [split|].
  - rewrite length_app, length_drop. lia.
  - rewrite take_app, take_ge by lia. rewrite take_drop_commute.
    replace (length dev + (16 - length dev))%nat with 16%nat by lia. rewrite Hz, drop_replicate.
    replace (16 - length dev)%nat with (S (15 - length dev)) by lia. by apply cstr_app_nul.
  - rewrite drop_app, drop_ge by lia. cbn [app]. rewrite drop_drop. f_equal. lia.
Qed.

(** Data put behind the name. *)
Lemma names_splice dev ifr off d :
  names dev ifr → (ifr_data ≤ off)%nat → (off + length d ≤ ifreq_len)%nat → names dev (splice off d ifr).
Proof.
  unfold names, ifr_name, ifr_data, ifreq_len. intros [L N] H1 H2. split; [rewrite length_splice; lia|].
  unfold splice. rewrite take_app_le by (rewrite length_take; lia). by rewrite take_take, Nat.min_l by lia.
Qed.

Lemma zero_name : take ifr_data ifr_zero = replicate ifr_data 0 ∧ length ifr_zero = ifreq_len.
Proof. done. Qed.

Lemma ifr_short_drop a b : drop ifr_data a = drop ifr_data b → ifr_short a = ifr_short b.
Proof. unfold ifr_short, slice. by intros ->. Qed.

Lemma raise_flags_eq f : raise_flags f = Z.lor f IFF_UP.
Proof.
  unfold raise_flags. apply Z.bits_inj'. intros n Hn.
  rewrite !Z.lor_spec, !Z.land_spec, Z.lnot_spec by done.
  by destruct (Z.testbit f n), (Z.testbit IFF_UP n).
Qed.

Lemma is_up f : negb (Z.land (Z.lxor f IFF_UP) IFF_UP =? 0) = negb (Z.testbit f 0).
Proof.
  unfold IFF_UP. change 1 with (Z.ones 1). rewrite Z.land_ones by done.
  rewrite <-Z.bit0_mod, Z.lxor_spec. by destruct (Z.testbit f 0).
Qed.

(** The virtual interface is set up as asked.  When [init_tap] returns, it returns
    the device of the kernel, and its calls were, in order: the creation of a TAP
    interface of the name given without packet information, its address, its MTU,
    the question for its flags and, unless it was up already, the same flags with
    [IFF_UP]; every request carries the name. *)
Theorem init_tap_spec dev nid32 k calls fd :
  0 ∉ dev → (length dev < ifr_data)%nat → nid32_ok nid32 →
  init_tap dev nid32 k = (calls, Go fd) →
  ta_open k = Some fd ∧ ∃ flags a b c d e,
    ta_getflags k = Some flags
    ∧ calls = [Ioctl TUNSETIFF a; Ioctl SIOCSIFADDR b; Ioctl SIOCSIFMTU c; Ioctl SIOCGIFFLAGS d]
              ++ (if Z.testbit flags 0 then [] else [Ioctl SIOCSIFFLAGS e])
    ∧ Forall (names dev) [a; b; c; d; e]
    ∧ ifr_short a = Z.lor IFF_NO_PI IFF_TAP ∧ ifr_addr b = nid32 ∧ ifr_short b = AF_INET
    ∧ ifr_int c = DEVICE_MTU ∧ (0 ≤ flags < 2 ^ 15 → ifr_short e = Z.lor flags IFF_UP).
Proof.
  intros Hd Hl Ha. unfold init_tap.
  destruct (copy_name_spec dev (splice ifr_data (le_bytes 2 (Z.lor IFF_NO_PI IFF_TAP)) ifr_zero)) as (a & Ea & Na & Da); [done..|].
  destruct (copy_name_spec dev (splice ifr_data (le_bytes 2 AF_INET) ifr_zero)) as (b & Eb & Nb & Db); [done..|].
  destruct (copy_name_spec dev ifr_zero) as (c & Ec & Nc & Dc); [done..|].
  rewrite Ea, Eb, Ec. unfold taps_call, of_outcome, or_exit, new_socket.
  destruct (ta_socket k); [|done]. destruct (ta_open k) as [fd'|]; [|done].
  destruct (ta_tunset k), (ta_setaddr k), (ta_setmtu k), (ta_getflags k) as [flags|]; try done.
  rewrite bool_decide_eq_true_2 by done. unfold mbind, taps_bind, mret, taps_ret. cbn [fst snd app].
  rewrite is_up. intros E.
  assert (Lc : ∀ r, names dev r → length r = ifreq_len) by by intros r [].
  assert (Hab : ifr_short a = Z.lor IFF_NO_PI IFF_TAP ∧ ifr_short b = AF_INET)
    by (by rewrite (ifr_short_drop _ _ Da), (ifr_short_drop _ _ Db)).
  split; [by destruct (negb _), (ta_setflags k); simplify_eq/=|].
  exists flags, a, (splice (ifr_data + 4) (le_bytes 4 nid32) b), (splice ifr_data (le_bytes 4 DEVICE_MTU) c), c,
    (splice ifr_data (le_bytes 2 (raise_flags flags)) c).
  split; [done|]. split; [|split; [|split; [apply Hab|split; [|split; [|split]]]]].
  - destruct (Z.testbit flags 0); [by simplify_eq/=|]. by destruct (ta_setflags k); simplify_eq/=.
  - repeat apply Forall_cons_2; try apply Forall_nil_2; try done; apply names_splice; try done;
      unfold ifr_data, ifreq_len; simpl; lia.
  - unfold ifr_addr. rewrite slice_written by (done || (rewrite Lc by done; unfold ifr_data, ifreq_len; lia)).
    by apply le_val_bytes4.
  - unfold ifr_short. rewrite slice_splice_before; [apply Hab|lia|rewrite Lc by done; unfold ifr_data, ifreq_len; lia].
  - unfold ifr_int. rewrite slice_written by (done || (rewrite Lc by done; unfold ifr_data, ifreq_len; lia)).
    done.
  - intros Hf. unfold ifr_short. rewrite slice_written by (done || (rewrite Lc by done; unfold ifr_data, ifreq_len; lia)).
    rewrite le_val_bytes, raise_flags_eq. apply Z.mod_small. unfold IFF_UP.
    pose proof (Z.add_lor_land flags 1) as E1. pose proof (proj2 (Z.lor_nonneg flags 1)) as E2.
    pose proof (proj2 (Z.land_nonneg flags 1)) as E3. change (256 ^ Z.of_nat 2) with 65536. lia.
Qed.

Definition up_answers : tap_answers := mkTap (Some 4) (Some 5) true true true (Some 0x1002) true.

Lemma init_tap_spec_witness :
  (init_tap (chars "nid0") 0x0b000001 up_answers).2 = Go 5
  ∧ ta_open up_answers = Some 5.
Proof.
  split; [vm_compute; reflexivity|].
  refine (proj1 (init_tap_spec (chars "nid0") 0x0b000001 up_answers
    (init_tap (chars "nid0") 0x0b000001 up_answers).1 5 _ _ _ _)).
  - apply (bool_decide_unpack _). vm_compute. exact I.
  - vm_compute. lia.
  - split; vm_compute; [discriminate|reflexivity].
  - vm_compute. reflexivity.
Defined.

(** ** conecta *)

(** The messages up to the fifth link. *)
Definition links (events : list (option Z)) : nat :=
  length (filter (λ e, e = Some RTM_NEWLINK) events).

Lemma conecta_loop_spec count ifname events :
  (count < LINK_EVENTS)%nat → Forall (λ e, is_Some e) events →
  conecta_loop count ifname events
  = if (LINK_EVENTS <=? count + links events)%nat then
      match command (chars "./dhcpcd -YR " ++ ifname) with
      | Go c => ([chars "rm -fr /etc/dhcpc/*"; c], Returned)
      | o => ([chars "rm -fr /etc/dhcpc/*"], ended o)
      end
    else ([], Waits).
Proof.
  unfold LINK_EVENTS, links. revert count. induction events as [|e events IH]; intros count Hc He; cbn [conecta_loop].
  - rewrite (proj2 (Nat.leb_gt _ _)); [done|]. cbn. lia.
  - apply Forall_cons in He as [[t ->] He]. cbn [conecta_event].
    destruct (t =? RTM_NEWLINK) eqn:E; zbool.
    + subst t. rewrite filter_cons_True by done. cbn [length]. unfold LINK_EVENTS.
      destruct (5 <=? S count)%nat eqn:E5.
      * apply Nat.leb_le in E5. rewrite (proj2 (Nat.leb_le 5 _)) by lia. done.
      * apply Nat.leb_gt in E5. rewrite IH by (done || lia).
        by replace (count + S (length (filter (λ e, e = Some RTM_NEWLINK) events)))%nat
          with (S count + length (filter (λ e, e = Some RTM_NEWLINK) events))%nat by lia.
    + rewrite filter_cons_False by congruence. by apply IH.
Qed.

(** The commands of conecta.  With an interface of at most twelve characters and a
    network name that leaves the two within fifteen, the program leaves the network,
    drops the key and joins the new network, waits for five messages of a new link,
    and then empties the directory of the DHCP client and starts it; with a longer
    name the third command overflows its 32 bytes. *)
Theorem conecta_spec ifname essid more events :
  (length ifname ≤ 12)%nat → Forall (λ e, is_Some e) events →
  let join := chars "iwconfig " ++ ifname ++ chars " essid " ++ essid in
  let leave := [chars "iwconfig " ++ ifname ++ chars " essid off"; chars "iwconfig " ++ ifname ++ chars " key off"] in
  conecta (ifname :: essid :: more) true true events
  = if (length ifname + length essid <=? 15)%nat then
      if (5 <=? links events)%nat
      then (leave ++ [join; chars "rm -fr /etc/dhcpc/*"; chars "./dhcpcd -YR " ++ ifname], Returned)
      else (leave ++ [join], Waits)
    else (leave, Crashed).
Proof.
  intros Hi He. cbv zeta. unfold conecta. cbn [conecta_netlink andb]. unfold run_command, command, COMMAND_LEN.
  rewrite !(proj2 (Nat.ltb_ge 32 (length (chars "iwconfig " ++ ifname ++ chars " essid off") + 1)))
    by (rewrite !length_app; cbn; lia).
  rewrite !(proj2 (Nat.ltb_ge 32 (length (chars "iwconfig " ++ ifname ++ chars " key off") + 1)))
    by (rewrite !length_app; cbn; lia).
  destruct (length ifname + length essid <=? 15)%nat eqn:E.
  - apply Nat.leb_le in E.
    rewrite (proj2 (Nat.ltb_ge 32 (length (chars "iwconfig " ++ ifname ++ chars " essid " ++ essid) + 1)))
      by (rewrite !length_app; cbn; lia).
    rewrite conecta_loop_spec by (done || (unfold LINK_EVENTS; lia)). unfold LINK_EVENTS. cbn [Nat.add].
    unfold command, COMMAND_LEN. rewrite (proj2 (Nat.ltb_ge 32 (length (chars "./dhcpcd -YR " ++ ifname) + 1)))
      by (rewrite !length_app; cbn; lia).
    by destruct (5 <=? links events)%nat.
  - apply Nat.leb_gt in E.
    by rewrite (proj2 (Nat.ltb_lt 32 (length (chars "iwconfig " ++ ifname ++ chars " essid " ++ essid) + 1)))
      by (rewrite !length_app; cbn; lia).
Qed.
