(* ===== verification/DhtProps.v ===== *)
(** The DHT between two core gateways: what one publishes and what another finds. *)

From S2P Require Import Prelude NidTypes Inet InetProps HashTable Hash EntryTable Configuration.
From S2P Require Import QueueTable Dhtc.

Local Open Scope Z_scope.

(** A service that holds one value: what it answers to a get call. *)
Definition holding (put : bamboo_put_args) (g : bamboo_get_args) : option (list (list Z)) :=
  if bool_decide (get_key g = put_key put) then Some [put_value put] else Some [].

Lemma address_no_nul t : Forall address_char t → 0 ∉ t.
Proof.
  intros H Hin. pose proof (proj1 (Forall_forall _ _) H _ Hin) as Hc. unfold address_char in Hc. lia.
Qed.

Lemma cstr_whole t : 0 ∉ t → cstr t = t.
Proof.
  induction t as [|x t IH]; [done|]. intros H. apply not_elem_of_cons in H as [Hx H].
  cbn [cstr]. rewrite (proj2 (Z.eqb_neq x 0)) by done. by rewrite IH.
Qed.

Lemma cstr_app t s : 0 ∉ t → cstr (t ++ s) = t ++ cstr s.
Proof.
  induction t as [|x t IH]; [done|]. intros H. apply not_elem_of_cons in H as [Hx H].
  cbn [app cstr]. rewrite (proj2 (Z.eqb_neq x 0)) by done. by rewrite IH.
Qed.

(** The text the resolver reads: the address found, and what it left of the text
    of the identifier, or of older texts in the buffer. *)
Definition text_read (nid : NID) (value old : list Z) : list Z :=
  value ++ cstr (drop (length value) (overlay (inet_ntop6 nid ++ [0]) old)).

(** One turn of the resolver for an identifier whose value the service holds. *)
Lemma dht_get_found nid ip now l e :
  nid_ok nid → nid32_ok ip → length (dg_nid l) = 16%nat → length (dg_aux l) = INET6_ADDRSTRLEN →
  let put := opendhtput (nid2char nid) (get_locator ip) DHT_TTL in
  let a := pton4_into (text_read nid (inet_ntop4 ip) (dg_aux l)) (dg_nid32 l) in
  ∃ l', dht_get_step nid Connected (holding put) now l e
        = Go (l', mkDht (addDHTEntry nid a now (dhtable e)) (dht_unqueue nid (dht_pending e)) (sp_dht e)).
Proof.
  intros Hn Hip Ll La. cbv zeta. pose proof (address_no_nul _ (inet_ntop6_address nid Hn)) as N6.
  pose proof (address_no_nul _ (inet_ntop4_address ip)) as N4. pose proof (length_inet_ntop4 ip) as L4.
  unfold dht_get_step. cbn [connectDHTserver do_null_call]. rewrite !bind_Go. cbn [negb].
  assert (En : overlay (take 16 nid) (dg_nid l) = nid).
  { destruct Hn as [Hl _]. unfold overlay. rewrite take_ge, drop_ge, app_nil_r by lia. done. }
  rewrite En. set (aux := overlay (inet_ntop6 nid ++ [0]) (dg_aux l)).
  assert (Ea : cstr aux = inet_ntop6 nid).
  { subst aux. unfold overlay. rewrite <-app_assoc. by apply cstr_app_nul. }
  rewrite Ea. unfold holding, opendhtget, opendhtput. cbn [get_key put_key put_value].
  rewrite bool_decide_eq_true_2 by done.
  unfold get_locator, nid322char. rewrite (proj2 (Nat.ltb_ge _ _)) by (unfold INET6_ADDRSTRLEN; lia).
  assert (Es : strncpy_bytes (inet_ntop4 ip) (length (inet_ntop4 ip)) = inet_ntop4 ip).
  { unfold strncpy_bytes. rewrite cstr_whole, take_ge, Nat.sub_diag, app_nil_r by done. done. }
  rewrite Es.
  change (overlay (inet_ntop4 ip) aux) with (inet_ntop4 ip ++ drop (length (inet_ntop4 ip)) aux).
  rewrite cstr_app by done. by eexists.
Qed.

(** C18. From the DHT entry of one core to the route of another.  A core publishes
    its locator under the text of its identifier; for a service that holds it, the
    resolver of another core asks under the same key and enters an address for the
    identifier, which ends the pending request and is what every later lookup
    answers.  The address is the one published when its text is as long as the text
    of the identifier; it is not in general, for the text is copied without a NUL
    over that of the identifier, and what it leaves of it is read as more digits. *)
Theorem published_core_found nid ip now l e :
  nid_ok nid → nid32_ok ip → dht_ok e →
  length (dg_nid l) = 16%nat → length (dg_aux l) = INET6_ADDRSTRLEN →
  let a := pton4_into (text_read nid (inet_ntop4 ip) (dg_aux l)) (dg_nid32 l) in
  ∃ put l' e',
    dht_update_step (nid2char nid) (get_locator ip) Connected = Go put
    ∧ dht_get_step nid Connected (holding put) now l e = Go (l', e')
    ∧ et_get (dht_pending e') nid = None
    ∧ (a ≠ 0 → ∀ now1 now2, getDHTEntry nid now1 now2 e' = (e', 1, Some a))
    ∧ (length (inet_ntop4 ip) = length (inet_ntop6 nid) → a = ip).
Proof.
  intros Hn Hip [Ht Hq] Ll La a. pose proof (dht_get_found nid ip now l e Hn Hip Ll La) as [l' E].
  eexists _, l', _. split; [reflexivity|]. split; [exact E|]. fold a. cbn [dht_pending]. split_and!.
  - rewrite dht_unqueue_same. unfold unqueue. rewrite et_get_del by apply Hq. by rewrite decide_True.
  - intros Ha now1 now2. apply getDHTEntry_hit. unfold dht_hit. cbn [dhtable].
    rewrite et_get_addDHTEntry, decide_True by done. cbn [ce_ip]. by rewrite (proj2 (Z.eqb_neq a 0)).
  - intros El. subst a. unfold text_read, overlay. rewrite <-app_assoc.
    rewrite drop_app_length' by done. cbn [app cstr]. change (0 =? 0) with true. cbn iota. rewrite app_nil_r.
    unfold pton4_into. by rewrite inet_pton_ntop_in.
Qed.

(** The core at 10.0.0.7 published for 3ffe:4::1 is entered as 10.0.0.71. *)
Definition far_core : NID := [0x3f; 0xfe; 0; 4] ++ replicate 11 0 ++ [1].

Lemma published_core_found_witness :
  ∃ put l' e', dht_update_step (nid2char far_core) (get_locator 0x0700000a) Connected = Go put
    ∧ dht_get_step far_core Connected (holding put) 5 (mkDhtGet (replicate INET6_ADDRSTRLEN 0) 0 nid_zero)
        (mkDht init_dhtable init_dht_queue_table []) = Go (l', e')
    ∧ getDHTEntry far_core (mkTv 6 0) (mkTv 6 1) e' = (e', 1, Some 0x4700000a)
    ∧ inet_ntop4 0x4700000a = chars "10.0.0.71".
Proof.
  destruct (published_core_found far_core 0x0700000a 5 (mkDhtGet (replicate INET6_ADDRSTRLEN 0) 0 nid_zero)
    (mkDht init_dhtable init_dht_queue_table [])) as (put & l' & e' & E1 & E2 & _ & E3 & _).
  - split; [reflexivity|]. unfold far_core. repeat constructor; unfold byte_ok; lia.
  - split; vm_compute; [discriminate|reflexivity].
  - split; [apply init_dhtable_ok|apply init_queue_ok].
  - reflexivity.
  - reflexivity.
  - exists put, l', e'. split; [exact E1|]. split; [exact E2|]. split; [|vm_compute; reflexivity].
    apply E3. vm_compute. discriminate.
Defined.
