(* ===== verification/DhProps.v ===== *)
(** Properties of the Diffie-Hellman programs: the message carries its three
    numbers, both sides print the same key, and a public key of 32 digits does not
    fit the message. *)

From Stdlib Require Import Zpow_facts.
From S2P Require Import Prelude NidTypes Inet DhExchange.

Local Open Scope Z_scope.

(** ** The layout of the message *)

Lemma put_text_padded a off t k :
  (length a ≤ off)%nat → (off + length t + 1 ≤ length a + k)%nat →
  put_text off t (a ++ replicate k 0)
  = Go (a ++ replicate (off - length a) 0 ++ t ++ replicate (length a + k - off - length t) 0).
Proof.
  intros Ha Hk. unfold put_text. rewrite length_app, length_replicate.
  rewrite (proj2 (Nat.ltb_ge _ _)) by lia. f_equal. unfold splice.
  rewrite take_app, drop_app, take_ge, drop_ge, take_replicate, drop_replicate by (rewrite ?length_app; simpl; lia).
  rewrite !length_app. cbn [length app]. rewrite <-!app_assoc. f_equal.
  rewrite Nat.min_l by lia. do 2 f_equal.
  replace (length a + k - off - length t)%nat with (S (k - (off + (length t + 1) - length a))) by lia. done.
Qed.

Lemma cstr_padded t k : 0 ∉ t → cstr (t ++ replicate k 0) = t.
Proof.
  intros H. destruct k as [|k]; [|by apply cstr_app_nul]. rewrite app_nil_r.
  induction t as [|x t IH]; [done|]. apply not_elem_of_cons in H as [Hx H]. cbn [cstr].
  rewrite (proj2 (Z.eqb_neq x 0)) by done. by rewrite IH.
Qed.

Lemma cstr_split t k s : 0 ∉ t → cstr (t ++ replicate (S k) 0 ++ s) = t.
Proof. intros H. by apply cstr_app_nul. Qed.

(** What three texts become. *)
Definition three_texts (tp tg tk : list Z) : list Z :=
  tp ++ replicate (PRIME_LEN - length tp) 0 ++ tg ++ replicate (PRIME_LEN - length tg) 0
    ++ tk ++ replicate (PRIME_LEN - length tk) 0.

Lemma put_three tp tg tk :
  (length tp ≤ PRIME_LEN)%nat → (length tg < PRIME_LEN)%nat → (length tk < PRIME_LEN)%nat →
  (m ← put_text 0 tp (replicate dh_len 0); m ← put_text dh_off_g tg m; put_text dh_off_pub tk m)
  = Go (three_texts tp tg tk).
Proof.
  unfold dh_len, dh_off_g, dh_off_pub, three_texts, PRIME_LEN. intros Hp Hg Hk.
  change (replicate (3 * 32) 0) with ([] ++ replicate 96 0).
  rewrite put_text_padded by (cbn [length]; lia). rewrite bind_Go. cbn [length app Nat.sub replicate].
  rewrite put_text_padded by lia. rewrite bind_Go.
  rewrite (app_assoc tp), (app_assoc _ tg).
  rewrite put_text_padded by (rewrite !length_app, length_replicate; lia). f_equal.
  rewrite !length_app, length_replicate, <-!app_assoc. do 4 f_equal; [|f_equal]; f_equal; lia.
Qed.

Lemma length_three tp tg tk :
  (length tp ≤ PRIME_LEN)%nat → (length tg < PRIME_LEN)%nat → (length tk < PRIME_LEN)%nat →
  length (three_texts tp tg tk) = dh_len.
Proof.
  unfold three_texts, dh_len, PRIME_LEN. intros. rewrite !length_app, !length_replicate. lia.
Qed.

Lemma slice_text a t k s : slice (length a) (length t + k) (a ++ (t ++ replicate k 0) ++ s) = t ++ replicate k 0.
Proof. apply slice_app_at; [done|]. rewrite length_app, length_replicate. done. Qed.

Lemma read_three tp tg tk s :
  0 ∉ tp → 0 ∉ tg → 0 ∉ tk →
  (length tp ≤ PRIME_LEN)%nat → (length tg < PRIME_LEN)%nat → (length tk < PRIME_LEN)%nat →
  let buf := three_texts tp tg tk ++ s in
  text_at 0 buf = tp ∧ string_at dh_off_g buf = Go tg ∧ text_at dh_off_pub buf = tk.
Proof.
  unfold text_at, string_at, dh_off_g, dh_off_pub, three_texts, PRIME_LEN. intros Np Ng Nk Hp Hg Hk. cbv zeta.
  split_and!.
  - pose proof (slice_text [] tp (32 - length tp) ((tg ++ replicate (32 - length tg) 0 ++ tk ++ replicate (32 - length tk) 0) ++ s)) as E.
    cbn [length app] in E. replace (length tp + (32 - length tp))%nat with 32%nat in E by lia.
    rewrite <-!app_assoc in E. rewrite <-!app_assoc. rewrite E. by apply cstr_padded.
  - assert (E : drop 32 ((tp ++ replicate (32 - length tp) 0 ++ tg ++ replicate (32 - length tg) 0
                ++ tk ++ replicate (32 - length tk) 0) ++ s)
              = tg ++ replicate (S (31 - length tg)) 0 ++ tk ++ replicate (32 - length tk) 0 ++ s).
    { rewrite <-!app_assoc, (app_assoc tp). rewrite drop_app_length' by (rewrite length_app, length_replicate; lia).
      replace (S (31 - length tg)) with (32 - length tg)%nat by lia. done. }
    rewrite E, bool_decide_eq_true_2, cstr_split; [done|done|].
    apply elem_of_app. right. by left.
  - set (a := tp ++ replicate (32 - length tp) 0 ++ tg ++ replicate (32 - length tg) 0).
    pose proof (slice_text a tk (32 - length tk) s) as E.
    assert (La : length a = 64%nat) by (subst a; rewrite !length_app, !length_replicate; lia).
    rewrite La in E. replace (length tk + (32 - length tk))%nat with 32%nat in E by lia. subst a.
    rewrite <-!app_assoc in E. rewrite <-!app_assoc. change (2 * 32)%nat with 64%nat. rewrite E. by apply cstr_padded.
Qed.

(** ** The exchange *)

Section Exchange.
Context (BN_bn2hex : Z → list Z) (BN_hex2bn : list Z → option Z).
Context (public_key : Z → Z → Z → Z) (DH_compute_key : Z → Z → Z → option (list Z)).

(** The numbers of an exchange can be written and read, none with a NUL. *)
Definition readable (x : Z) : Prop := 0 ∉ BN_bn2hex x ∧ BN_hex2bn (BN_bn2hex x) = Some x.

(** Three numbers that fit the message with their NULs. *)
Definition fits (d : DH) : Prop :=
  (readable (dh_p d) ∧ readable (dh_g d) ∧ readable (dh_pub_key d))
  ∧ (length (BN_bn2hex (dh_p d)) ≤ PRIME_LEN)%nat ∧ (length (BN_bn2hex (dh_g d)) < PRIME_LEN)%nat
  ∧ (length (BN_bn2hex (dh_pub_key d)) < PRIME_LEN)%nat.

(** The message carries the numbers, whatever is in the buffer it is received in. *)
Lemma message_carries d :
  fits d →
  ∃ m, dh_message BN_bn2hex d = Go m ∧ length m = dh_len
    ∧ ∀ s, read_peer BN_hex2bn (m ++ s) = Go (dh_p d, dh_g d, dh_pub_key d).
Proof.
  intros (((Np & Rp) & (Ng & Rg) & Nk & Rk) & Lp & Lg & Lk).
  exists (three_texts (BN_bn2hex (dh_p d)) (BN_bn2hex (dh_g d)) (BN_bn2hex (dh_pub_key d))).
  split; [by apply put_three|]. split; [by apply length_three|]. intros s.
  destruct (read_three _ _ _ s Np Ng Nk Lp Lg Lk) as (Ep & Eg & Ek).
  unfold read_peer. by rewrite Eg, bind_Go, Ep, Ek, Rp, Rg, Rk.
Qed.

(** A text of [PRIME_LEN] digits in the last member puts its NUL outside. *)
Lemma put_text_length off t m m' : put_text off t m = Go m' → length m' = length m.
Proof.
  unfold put_text. case_match eqn:E; [done|]. apply Nat.ltb_ge in E. intros H%Go_inj. subst m'.
  rewrite length_splice; [done|]. rewrite length_app. simpl. lia.
Qed.

Lemma long_key_overflows d :
  (PRIME_LEN ≤ length (BN_bn2hex (dh_pub_key d)))%nat → dh_message BN_bn2hex d = Fault.
Proof.
  intros H. unfold dh_message.
  destruct (put_text 0 _ _) as [m| | |] eqn:E1; try done; [|unfold put_text in E1; by case_match..].
  rewrite bind_Go. destruct (put_text dh_off_g _ m) as [m2| | |] eqn:E2; try done; [|unfold put_text in E2; by case_match..].
  rewrite bind_Go. apply put_text_length in E1, E2. rewrite length_replicate in E1.
  unfold put_text. rewrite E2, E1, (proj2 (Nat.ltb_lt _ _)); [done|].
  unfold dh_len, dh_off_pub. lia.
Qed.
End Exchange.

(** The common number: raising one public key to the other private one. *)
Lemma common_power p g a b :
  0 < p → 0 ≤ a → 0 ≤ b → (g ^ a `mod` p) ^ b `mod` p = g ^ (a * b) `mod` p.
Proof. intros Hp Ha Hb. rewrite <-Zpower_mod by lia. by rewrite <-Z.pow_mul_r. Qed.

(** C32. The Diffie-Hellman programs agree, when their message has room.  For a
    prime, a generator and private keys whose public keys have fewer than 32
    hexadecimal digits, the client's 96-byte message reaches the server whole,
    whatever was in the server's buffer; when [DH_compute_key] fails there, the
    server's child exits without an answer; otherwise its 96-byte answer reaches
    the client, which exits when [DH_compute_key] fails in turn and otherwise
    prints the same key, that of the generator to the product of the private
    keys.  But a public key of 32 digits, which is what a prime of [4 *
    PRIME_LEN] bits gives, is copied with its NUL beyond the structure.  Of
    OpenSSL it is assumed that a number written can be read, that a public key
    is the power of the generator, and that a key computed is the power of the
    peer's key, as bytes. *)
Theorem dh_agreement BN_bn2hex BN_hex2bn BN_bn2bin public_key DH_compute_key p g a b ubuf :
  (∀ x, 0 ≤ x ≤ p → readable BN_bn2hex BN_hex2bn x) →
  (∀ x, 0 ≤ x → public_key p g x = g ^ x `mod` p) →
  (∀ y x k, DH_compute_key p y x = Some k → k = BN_bn2bin (y ^ x `mod` p)) →
  0 < p → 0 ≤ g ≤ p → 0 ≤ a → 0 ≤ b → length ubuf = DH_MAXBUFLEN →
  (length (BN_bn2hex p) ≤ PRIME_LEN)%nat → (length (BN_bn2hex g) < PRIME_LEN)%nat →
  let digits x := length (BN_bn2hex (g ^ x `mod` p)) in
  let server := dh_server_child BN_bn2hex BN_hex2bn public_key DH_compute_key ubuf in
  let client := dh_client_recv BN_hex2bn DH_compute_key in
  let shown := key_text (BN_bn2bin (g ^ (a * b) `mod` p)) in
  ((digits a < PRIME_LEN)%nat → (digits b < PRIME_LEN)%nat →
   ∃ d m,
     dh_client_send BN_bn2hex public_key (Some (p, g)) (Some a) true = Go (d, m) ∧ length m = dh_len
     ∧ (DH_compute_key p (g ^ a `mod` p) b = None → server (Some m) (Some b) = ProcessExit)
     ∧ (is_Some (DH_compute_key p (g ^ a `mod` p) b) →
        ∃ m', server (Some m) (Some b) = Go (shown, m') ∧ length m' = dh_len
          ∧ (DH_compute_key p (g ^ b `mod` p) a = None → client d (Some m') = ProcessExit)
          ∧ (is_Some (DH_compute_key p (g ^ b `mod` p) a) → client d (Some m') = Go shown)))
  ∧ ((PRIME_LEN ≤ digits a)%nat →
     ∀ connected, dh_client_send BN_bn2hex public_key (Some (p, g)) (Some a) connected = Fault).
Proof.
  intros Hr Hpub Hkey Hp Hg Ha Hb Hu Lp Lg. cbv zeta.
  assert (Hf : ∀ x, 0 ≤ x → (length (BN_bn2hex (g ^ x `mod` p)%Z) < PRIME_LEN)%nat →
                 fits BN_bn2hex BN_hex2bn (mkDH p g (public_key p g x) x)).
  { intros x Hx L. pose proof (Z.mod_pos_bound (g ^ x) p Hp). split; cbn [dh_p dh_g dh_pub_key];
      rewrite Hpub by done; [split_and!; apply Hr; lia|done]. }
  assert (Ht : ∀ n (x : list Z), length x = dh_len → (dh_len ≤ n)%nat → take n x = x)
    by (intros; apply take_ge; lia).
  split.
  - intros La Lb. destruct (message_carries _ _ _ (Hf a Ha La)) as (m & Em & Lm & Rm).
    destruct (message_carries _ _ _ (Hf b Hb Lb)) as (m' & Em' & Lm' & Rm').
    exists (mkDH p g (public_key p g a) a), m.
    assert (Hs : dh_server_child BN_bn2hex BN_hex2bn public_key DH_compute_key ubuf (Some m) (Some b)
                 = match DH_compute_key p (g ^ a `mod` p) b with
                   | Some k => Go (key_text k, m') | None => ProcessExit end).
    { unfold dh_server_child. rewrite Ht by (try done; unfold dh_len, DH_MAXBUFLEN, PRIME_LEN; lia).
      unfold overlay. rewrite Rm. cbn [dh_p dh_g dh_pub_key]. rewrite bind_Go. unfold with_key.
      cbn [accessed]. rewrite !bind_Go. unfold shared_key. cbn [dh_p dh_priv_key].
      rewrite (Hpub a) by done. destruct (DH_compute_key _ _ b); [|done]. by rewrite bind_Go, Em'. }
    assert (Hc : dh_client_recv BN_hex2bn DH_compute_key (mkDH p g (public_key p g a) a) (Some m')
                 = match DH_compute_key p (g ^ b `mod` p) a with
                   | Some k => Go (key_text k) | None => ProcessExit end).
    { unfold dh_client_recv. rewrite Ht by (try done; unfold dh_len, DH_MAXBUFLEN, PRIME_LEN; lia).
      unfold overlay. rewrite Rm', bind_Go. unfold shared_key. cbn [dh_p dh_pub_key dh_priv_key].
      by rewrite (Hpub b). }
    split; [unfold dh_client_send, with_key; cbn [accessed]; by rewrite !bind_Go, Em|].
    split; [done|]. rewrite Hs. split; [by intros ->|]. intros [k Ek]. rewrite Ek.
    apply Hkey in Ek as ->. rewrite common_power by done. exists m'. split; [done|]. split; [done|].
    rewrite Hc. split; [by intros ->|]. intros [k Ek]. rewrite Ek. apply Hkey in Ek as ->.
    rewrite common_power by done. by rewrite (Z.mul_comm b a).
  - intros L connected. unfold dh_client_send, with_key. cbn [accessed]. rewrite !bind_Go.
    rewrite long_key_overflows; [done|]. cbn [dh_pub_key]. by rewrite Hpub.
Qed.

(** The arithmetic, with numbers of one byte. *)
Definition small_hex2bn (s : list Z) : option Z :=
  match s with [x; y] => x ← hex_digit x; y ← hex_digit y; Some (16 * x + y) | _ => None end.
Definition small_public_key (p g x : Z) : Z := g ^ x `mod` p.

(** Public keys below 2 and above [p - 2] are refused. *)
Definition small_compute_key (p y x : Z) : option (list Z) :=
  if (1 <? y) && (y <? p - 1) then Some [y ^ x `mod` p] else None.

Lemma dh_agreement_witness :
  ∃ d m m',
    dh_client_send hex2 small_public_key (Some (23, 5)) (Some 6) true = Go (d, m)
    ∧ dh_server_child hex2 small_hex2bn small_public_key small_compute_key (replicate DH_MAXBUFLEN 65)
        (Some m) (Some 15) = Go (chars "02", m')
    ∧ dh_client_recv small_hex2bn small_compute_key d (Some m') = Go (chars "02").
Proof.
  destruct (dh_agreement hex2 small_hex2bn (λ z, [z]) small_public_key small_compute_key 23 5 6 15
    (replicate DH_MAXBUFLEN 65)) as [H _].
  - assert (F : Forall (readable hex2 small_hex2bn) (seqZ 0 24)).
    { cbn [seqZ]. repeat constructor; vm_compute; try reflexivity; intros H; repeat (apply elem_of_cons in H as [H|H]; [discriminate|]); by apply elem_of_nil in H. }
    intros x Hx. apply (proj1 (Forall_forall _ _) F). apply elem_of_seqZ. lia.
  - done.
  - intros y x k. unfold small_compute_key. by case_match; intros; simplify_eq.
  - lia.
  - lia.
  - lia.
  - lia.
  - apply length_replicate.
  - vm_compute. lia.
  - vm_compute. lia.
  - destruct H as (d & m & E1 & _ & _ & H); [vm_compute; lia|vm_compute; lia|].
    destruct H as (m' & E2 & _ & _ & E3); [vm_compute; by eexists|].
    exists d, m, m'. split; [exact E1|]. split; [rewrite E2; reflexivity|].
    rewrite E3; [reflexivity|vm_compute; by eexists].
Defined.
